(** * The scheduler of [distributed]: state machine, placement policy, rebalance

    A shallow embedding of [distributed/scheduler.py].  Python objects that
    the scheduler cross-references (tasks, workers, task groups, prefixes,
    clients) live in tables keyed by their identifying string; a reference
    to an object is its key.  Python sets become [gset], dictionaries whose
    order is not observed become [gmap], dictionaries whose insertion order
    is observed ([recommendations], [WorkerState._has_what]) become lists.
    A Python [float] is the rational it denotes, and every floating-point
    operation of the scheduler gives the binary64 number nearest to the
    exact result ([R64]); infinities, NaN and the sign of zero are not
    modelled.  The heartbeat interval, the thresholds of rebalance and the
    resource quantities are kept exact.  Exceptions are values of
    [PyError] carried by the result type [Res]. *)

From stdpp Require Import gmap strings list fin_maps.
From Stdlib Require Import ZArith QArith Qround Lia Lqa.

(** ** Python exceptions and the state-and-exception monad *)

Inductive PyError : Type :=
| KeyError | ValueError | TypeError | AttributeError | AssertionError
| RuntimeError | ZeroDivisionError | RecursionError.

Inductive Res (A : Type) : Type :=
| Ok (a : A)
| Err (e : PyError).
Arguments Ok {A} a.
Arguments Err {A} e.

Definition M (S A : Type) : Type := S -> Res (A * S).

Definition ret {S A} (a : A) : M S A := fun s => Ok (a, s).

Definition bind {S A B} (m : M S A) (f : A -> M S B) : M S B :=
  fun s => match m s with
           | Ok (a, s') => f a s'
           | Err e => Err e
           end.

Definition raise {S A} (e : PyError) : M S A := fun _ => Err e.

Definition gets {S A} (f : S -> A) : M S A := fun s => Ok (f s, s).

Definition modify {S} (f : S -> S) : M S unit := fun s => Ok (tt, f s).

(** A computation that only reads the state. *)
Definition lift_res {S A} (f : S -> Res A) : M S A :=
  fun s => match f s with
           | Ok a => Ok (a, s)
           | Err e => Err e
           end.

Notation "x <- y ;; z" := (bind y (fun x => z))
  (at level 20, y at level 99, z at level 200, right associativity,
   format "'[v' x  <-  y  ;; '/' z ']'").
Notation "' pat <- y ;; z" :=
  (bind y (fun x => match x with pat => z end))
  (at level 20, pat pattern, y at level 99, z at level 200,
   right associativity, only parsing).
Notation "y ;; z" := (bind y (fun _ => z))
  (at level 100, z at level 200, right associativity,
   format "'[v' y  ;; '/' z ']'").

(** [for x in xs: body x] *)
Fixpoint for_each {S A} (xs : list A) (body : A -> M S unit) : M S unit :=
  match xs with
  | [] => ret tt
  | x :: xs' => body x ;; for_each xs' body
  end.

(** [for x in xs: acc = body acc x], the accumulator being a local variable
    of the Python function. *)
Fixpoint for_fold {S A B} (xs : list A) (acc : B) (body : B -> A -> M S B)
  : M S B :=
  match xs with
  | [] => ret acc
  | x :: xs' => acc' <- body acc x ;; for_fold xs' acc' body
  end.

Definition when {S} (b : bool) (m : M S unit) : M S unit :=
  if b then m else ret tt.

Definition py_assert {S} (b : bool) : M S unit :=
  if b then ret tt else raise AssertionError.

(** Truthiness of containers: [if s:] *)
Definition nonempty_set `{Countable K} (s : gset K) : bool :=
  negb (bool_decide (s = ∅)).

Definition nonempty_map `{Countable K} {V} (m : gmap K V) : bool :=
  negb (bool_decide (dom m = ∅)).

(** ** Numbers *)

Definition Qltb (x y : Q) : bool := negb (Qle_bool y x).
Definition Qleb (x y : Q) : bool := Qle_bool x y.
Definition Zq (z : Z) : Q := inject_Z z.

(** *** Binary64 arithmetic *)

(** [2 ^ q] for any integer [q] *)
Definition Qpow2 (q : Z) : Q :=
  if (0 <=? q)%Z then inject_Z (2 ^ q) else 1 # Z.to_pos (2 ^ (- q)).

(** The integer nearest to [n / d], the even one of two equally near; [n]
    is not negative and [d] is positive. *)
Definition round_half_even (n d : Z) : Z :=
  let m := (n / d)%Z in
  match (2 * (n mod d) ?= d)%Z with
  | Lt => m
  | Gt => (m + 1)%Z
  | Eq => if Z.even m then m else (m + 1)%Z
  end.

(** [floor (log2 (n / d))], for positive [n] and [d] *)
Definition ilog2 (n d : Z) : Z :=
  let e := (Z.log2 n - Z.log2 d)%Z in
  let below := if (0 <=? e)%Z then (n <? d * 2 ^ e)%Z
               else (n * 2 ^ (- e) <? d)%Z in
  if below then (e - 1)%Z else e.

(** The binary64 number nearest to [x], ties to even: 53 significant bits,
    the least exponent that of the subnormal numbers, [-1074].  The
    exponent is not bounded above: a result beyond the range of binary64,
    an infinity in Python, is not modelled. *)
Definition R64 (x : Q) : Q :=
  let n := Qnum x in
  let d := Zpos (Qden x) in
  if (n =? 0)%Z then 0
  else
    let a := Z.abs n in
    let q := Z.max (ilog2 a d - 52) (-1074) in
    let m := if (0 <=? q)%Z then round_half_even a (d * 2 ^ q)
             else round_half_even (a * 2 ^ (- q)) d in
    (inject_Z (Z.sgn n * m) * Qpow2 q)%Q.

(** [x + y], [x - y], [x * y] and [x / y] on floats, [y] not being zero in
    the last *)
Definition fadd (x y : Q) : Q := R64 (x + y).
Definition fsub (x y : Q) : Q := R64 (x - y).
Definition fmul (x y : Q) : Q := R64 (x * y).
Definition fdiv (x y : Q) : Q := R64 (x / y).

(** [float(z)], the conversion of an integer operand *)
Definition Zf (z : Z) : Q := R64 (Zq z).

(** ** [heartbeat_interval] *)


(** ** Data model *)

(** The values of [TaskState._state]: [ALL_TASK_STATES] and ["forgotten"]. *)
Inductive TaskStateName : Type :=
| released | waiting | no_worker | processing | memory | erred | forgotten.

Global Instance TaskStateName_eq_dec : EqDecision TaskStateName.
Proof. solve_decision. Defined.

Definition TaskStateName_code (s : TaskStateName) : positive :=
  match s with
  | released => 1 | waiting => 2 | no_worker => 3 | processing => 4
  | memory => 5 | erred => 6 | forgotten => 7
  end%positive.

Definition TaskStateName_decode (p : positive) : option TaskStateName :=
  match p with
  | 1 => Some released | 2 => Some waiting | 3 => Some no_worker
  | 4 => Some processing | 5 => Some memory | 6 => Some erred
  | 7 => Some forgotten | _ => None
  end%positive.

Global Instance TaskStateName_countable : Countable TaskStateName.
Proof.
  refine (inj_countable TaskStateName_code TaskStateName_decode _).
  intros []; reflexivity.
Defined.

(** Modelled from the spec: the [Status] enumeration of [distributed.core],
    whose declaration is not among the sources; the spec lists the worker
    statuses [init, running, paused, closing_gracefully, closed]. *)
Inductive Status : Type :=
| Status_init | Status_running | Status_paused | Status_closing_gracefully
| Status_closed.

Global Instance Status_eq_dec : EqDecision Status.
Proof. solve_decision. Defined.

(** The [recommendations] dictionary, in insertion order. *)
Definition Recs : Type := list (string * TaskStateName).

(** [distributed.worker.memory.rebalance.measure]: the attribute of
    [MemoryState] read by rebalance. *)
Inductive Measure : Type :=
| measure_process | measure_optimistic | measure_managed
| measure_managed_in_memory.

(** [host_info[host]]: the entries ["addresses"] and ["nthreads"]. *)
Record HostInfo : Type := Build_HostInfo {
  hi_addresses : gset string;
  hi_nthreads : Z;
}.

(** [make_setter eta proj v r]: the record [r] with field [proj] replaced by
    [v], read off the eta-expansion [eta] of the record. *)
Ltac make_setter eta proj v r :=
  let e := eval cbv delta [eta] in eta in
  match eval pattern proj in e with
  | ?F _ => let t := eval cbv beta in (F (fun _ => v) r) in exact t
  end.

(** [TaskState]: the fields the scheduler core reads or writes.  References to other
    objects are their keys. *)
Record TaskState : Type := Build_TaskState {
  ts_key : string;
  ts_run_spec : option string;  (* None: pure data *)
  ts_priority : list Z;
  ts_state : TaskStateName;
  ts_dependencies : gset string;
  ts_dependents : gset string;
  ts_has_lost_dependencies : bool;
  ts_waiting_on : gset string;
  ts_waiters : gset string;
  ts_who_wants : gset string;  (* client keys *)
  ts_who_has : gset string;  (* worker addresses *)
  ts_processing_on : option string;  (* worker address *)
  ts_retries : Z;
  ts_nbytes : Z;  (* -1: unknown *)
  ts_type : option string;
  ts_exception : option string;
  ts_exception_text : option string;
  ts_traceback : option string;
  ts_traceback_text : option string;
  ts_exception_blame : option string;  (* key of the blamed task *)
  ts_erred_on : gset (option string);
  ts_suspicious : Z;
  ts_host_restrictions : gset string;
  ts_worker_restrictions : gset string;
  ts_resource_restrictions : gmap string Q;
  ts_loose_restrictions : bool;
  ts_actor : bool;
  ts_prefix : string;  (* name of its TaskPrefix *)
  ts_group : string;  (* name of its TaskGroup *)
}.

Definition TaskState_eta (r : TaskState) : TaskState :=
  Build_TaskState (ts_key r) (ts_run_spec r) (ts_priority r) (ts_state r)
    (ts_dependencies r) (ts_dependents r) (ts_has_lost_dependencies r)
    (ts_waiting_on r) (ts_waiters r) (ts_who_wants r) (ts_who_has r)
    (ts_processing_on r) (ts_retries r) (ts_nbytes r) (ts_type r)
    (ts_exception r) (ts_exception_text r) (ts_traceback r)
    (ts_traceback_text r) (ts_exception_blame r) (ts_erred_on r)
    (ts_suspicious r) (ts_host_restrictions r) (ts_worker_restrictions r)
    (ts_resource_restrictions r) (ts_loose_restrictions r) (ts_actor r)
    (ts_prefix r) (ts_group r).

Definition set_ts_state (v : TaskStateName) (r : TaskState) : TaskState :=
  ltac:(make_setter TaskState_eta ts_state v r).
Definition set_ts_dependencies (v : gset string) (r : TaskState) : TaskState :=
  ltac:(make_setter TaskState_eta ts_dependencies v r).
Definition set_ts_dependents (v : gset string) (r : TaskState) : TaskState :=
  ltac:(make_setter TaskState_eta ts_dependents v r).
Definition set_ts_has_lost_dependencies (v : bool) (r : TaskState) : TaskState :=
  ltac:(make_setter TaskState_eta ts_has_lost_dependencies v r).
Definition set_ts_waiting_on (v : gset string) (r : TaskState) : TaskState :=
  ltac:(make_setter TaskState_eta ts_waiting_on v r).
Definition set_ts_waiters (v : gset string) (r : TaskState) : TaskState :=
  ltac:(make_setter TaskState_eta ts_waiters v r).
Definition set_ts_who_wants (v : gset string) (r : TaskState) : TaskState :=
  ltac:(make_setter TaskState_eta ts_who_wants v r).
Definition set_ts_who_has (v : gset string) (r : TaskState) : TaskState :=
  ltac:(make_setter TaskState_eta ts_who_has v r).
Definition set_ts_processing_on (v : option string) (r : TaskState) : TaskState :=
  ltac:(make_setter TaskState_eta ts_processing_on v r).
Definition set_ts_retries (v : Z) (r : TaskState) : TaskState :=
  ltac:(make_setter TaskState_eta ts_retries v r).
Definition set_ts_nbytes (v : Z) (r : TaskState) : TaskState :=
  ltac:(make_setter TaskState_eta ts_nbytes v r).
Definition set_ts_type (v : option string) (r : TaskState) : TaskState :=
  ltac:(make_setter TaskState_eta ts_type v r).
Definition set_ts_exception (v : option string) (r : TaskState) : TaskState :=
  ltac:(make_setter TaskState_eta ts_exception v r).
Definition set_ts_exception_text (v : option string) (r : TaskState) : TaskState :=
  ltac:(make_setter TaskState_eta ts_exception_text v r).
Definition set_ts_traceback (v : option string) (r : TaskState) : TaskState :=
  ltac:(make_setter TaskState_eta ts_traceback v r).
Definition set_ts_traceback_text (v : option string) (r : TaskState) : TaskState :=
  ltac:(make_setter TaskState_eta ts_traceback_text v r).
Definition set_ts_exception_blame (v : option string) (r : TaskState) : TaskState :=
  ltac:(make_setter TaskState_eta ts_exception_blame v r).
Definition set_ts_erred_on (v : gset (option string)) (r : TaskState) : TaskState :=
  ltac:(make_setter TaskState_eta ts_erred_on v r).

(** [WorkerState]. *)
Record WorkerState : Type := Build_WorkerState {
  ws_address : string;
  ws_name : string;
  ws_host : string;  (* get_address_host(address) *)
  ws_status : Status;
  ws_nthreads : Z;
  ws_memory_limit : Z;
  ws_nbytes : Z;
  ws_occupancy : Q;
  ws_actors : gset string;
  ws_has_what : list string;  (* insertion-ordered dict keys *)
  ws_processing : gmap string Q;  (* task key -> expected duration *)
  ws_long_running : gset string;
  ws_executing : gmap string Q;
  ws_resources : gmap string Q;
  ws_used_resources : gmap string Q;
  ws_metrics_memory : option Z;  (* metrics[memory] *)
  ws_spilled_memory : Z;  (* metrics[spilled_nbytes][memory] *)
  ws_spilled_disk : Z;  (* metrics[spilled_nbytes][disk] *)
  ws_memory_unmanaged_old : Z;
  ws_id : Z;  (* id(ws) *)
}.

Definition WorkerState_eta (r : WorkerState) : WorkerState :=
  Build_WorkerState (ws_address r) (ws_name r) (ws_host r) (ws_status r)
    (ws_nthreads r) (ws_memory_limit r) (ws_nbytes r) (ws_occupancy r)
    (ws_actors r) (ws_has_what r) (ws_processing r) (ws_long_running r)
    (ws_executing r) (ws_resources r) (ws_used_resources r)
    (ws_metrics_memory r) (ws_spilled_memory r) (ws_spilled_disk r)
    (ws_memory_unmanaged_old r) (ws_id r).

Definition set_ws_nbytes (v : Z) (r : WorkerState) : WorkerState :=
  ltac:(make_setter WorkerState_eta ws_nbytes v r).
Definition set_ws_occupancy (v : Q) (r : WorkerState) : WorkerState :=
  ltac:(make_setter WorkerState_eta ws_occupancy v r).
Definition set_ws_actors (v : gset string) (r : WorkerState) : WorkerState :=
  ltac:(make_setter WorkerState_eta ws_actors v r).
Definition set_ws_has_what (v : list string) (r : WorkerState) : WorkerState :=
  ltac:(make_setter WorkerState_eta ws_has_what v r).
Definition set_ws_processing (v : gmap string Q) (r : WorkerState) : WorkerState :=
  ltac:(make_setter WorkerState_eta ws_processing v r).
Definition set_ws_used_resources (v : gmap string Q) (r : WorkerState) : WorkerState :=
  ltac:(make_setter WorkerState_eta ws_used_resources v r).

(** [TaskGroup]. *)
Record TaskGroup : Type := Build_TaskGroup {
  tg_name : string;
  tg_prefix : string;
  tg_states : gmap TaskStateName Z;
  tg_dependencies : gset string;  (* names of TaskGroups *)
  tg_nbytes_total : Z;
  tg_duration : Q;
  tg_types : gset (option string);
  tg_start : Q;
  tg_stop : Q;
  tg_all_durations : gmap string Q;
  tg_last_worker : option string;  (* worker address *)
  tg_last_worker_tasks_left : Z;
}.

Definition TaskGroup_eta (r : TaskGroup) : TaskGroup :=
  Build_TaskGroup (tg_name r) (tg_prefix r) (tg_states r) (tg_dependencies r)
    (tg_nbytes_total r) (tg_duration r) (tg_types r) (tg_start r) (tg_stop r)
    (tg_all_durations r) (tg_last_worker r) (tg_last_worker_tasks_left r).

Definition set_tg_states (v : gmap TaskStateName Z) (r : TaskGroup) : TaskGroup :=
  ltac:(make_setter TaskGroup_eta tg_states v r).
Definition set_tg_nbytes_total (v : Z) (r : TaskGroup) : TaskGroup :=
  ltac:(make_setter TaskGroup_eta tg_nbytes_total v r).
Definition set_tg_duration (v : Q) (r : TaskGroup) : TaskGroup :=
  ltac:(make_setter TaskGroup_eta tg_duration v r).
Definition set_tg_types (v : gset (option string)) (r : TaskGroup) : TaskGroup :=
  ltac:(make_setter TaskGroup_eta tg_types v r).
Definition set_tg_start (v : Q) (r : TaskGroup) : TaskGroup :=
  ltac:(make_setter TaskGroup_eta tg_start v r).
Definition set_tg_stop (v : Q) (r : TaskGroup) : TaskGroup :=
  ltac:(make_setter TaskGroup_eta tg_stop v r).
Definition set_tg_all_durations (v : gmap string Q) (r : TaskGroup) : TaskGroup :=
  ltac:(make_setter TaskGroup_eta tg_all_durations v r).
Definition set_tg_last_worker (v : option string) (r : TaskGroup) : TaskGroup :=
  ltac:(make_setter TaskGroup_eta tg_last_worker v r).
Definition set_tg_last_worker_tasks_left (v : Z) (r : TaskGroup) : TaskGroup :=
  ltac:(make_setter TaskGroup_eta tg_last_worker_tasks_left v r).

(** [TaskPrefix]. *)
Record TaskPrefix : Type := Build_TaskPrefix {
  tp_name : string;
  tp_groups : list string;  (* names of TaskGroups *)
  tp_all_durations : gmap string Q;
  tp_duration_average : Q;
  tp_suspicious : Z;
}.

Definition TaskPrefix_eta (r : TaskPrefix) : TaskPrefix :=
  Build_TaskPrefix (tp_name r) (tp_groups r) (tp_all_durations r)
    (tp_duration_average r) (tp_suspicious r).

Definition set_tp_groups (v : list string) (r : TaskPrefix) : TaskPrefix :=
  ltac:(make_setter TaskPrefix_eta tp_groups v r).
Definition set_tp_all_durations (v : gmap string Q) (r : TaskPrefix) : TaskPrefix :=
  ltac:(make_setter TaskPrefix_eta tp_all_durations v r).
Definition set_tp_duration_average (v : Q) (r : TaskPrefix) : TaskPrefix :=
  ltac:(make_setter TaskPrefix_eta tp_duration_average v r).

(** [ClientState]. *)
Record ClientState : Type := Build_ClientState {
  cs_client_key : string;
  cs_wants_what : gset string;
}.

Definition ClientState_eta (r : ClientState) : ClientState :=
  Build_ClientState (cs_client_key r) (cs_wants_what r).

Definition set_cs_wants_what (v : gset string) (r : ClientState) : ClientState :=
  ltac:(make_setter ClientState_eta cs_wants_what v r).

(** [SchedulerState].  A dictionary of objects that the code keeps using
    after deleting the entry ([_workers], [_task_groups]) is split into the
    set of keys present and the table of objects. *)
Record SchedulerState : Type := Build_SchedulerState {
  aliases : gmap string string;  (* worker name -> address *)
  bandwidth : Q;
  clients : gmap string ClientState;
  host_info : gmap string HostInfo;
  idle : gset string;  (* addresses; a SortedDict in the source *)
  n_tasks : Z;
  resources : gmap string (gmap string Q);  (* resource -> address -> supplied *)
  saturated : gset string;
  running : gset string;
  tasks : gmap string TaskState;
  task_groups : gset string;  (* names in the _task_groups dict *)
  group_objs : gmap string TaskGroup;  (* the TaskGroup objects *)
  task_prefixes : gmap string TaskPrefix;
  replicated_tasks : gset string;
  total_nthreads : Z;
  total_occupancy : Q;
  unknown_durations : gmap string (gset string);
  unrunnable : gset string;
  workers : gset string;  (* addresses in the _workers SortedDict *)
  worker_objs : gmap string WorkerState;  (* the WorkerState objects *)
  transition_counter : Z;
  transition_log : list (string * TaskStateName * TaskStateName * Recs);
  UNKNOWN_TASK_DURATION : Q;
  DEFAULT_DATA_SIZE : Z;
  MEMORY_REBALANCE_MEASURE : Measure;
  MEMORY_REBALANCE_SENDER_MIN : Q;
  MEMORY_REBALANCE_RECIPIENT_MAX : Q;
  MEMORY_REBALANCE_HALF_GAP : Q;
}.

Definition SchedulerState_eta (r : SchedulerState) : SchedulerState :=
  Build_SchedulerState (aliases r) (bandwidth r) (clients r) (host_info r)
    (idle r) (n_tasks r) (resources r) (saturated r) (running r) (tasks r)
    (task_groups r) (group_objs r) (task_prefixes r) (replicated_tasks r)
    (total_nthreads r) (total_occupancy r) (unknown_durations r)
    (unrunnable r) (workers r) (worker_objs r) (transition_counter r)
    (transition_log r) (UNKNOWN_TASK_DURATION r) (DEFAULT_DATA_SIZE r)
    (MEMORY_REBALANCE_MEASURE r) (MEMORY_REBALANCE_SENDER_MIN r)
    (MEMORY_REBALANCE_RECIPIENT_MAX r) (MEMORY_REBALANCE_HALF_GAP r).

Definition set_clients (v : gmap string ClientState) (r : SchedulerState) : SchedulerState :=
  ltac:(make_setter SchedulerState_eta clients v r).
Definition set_idle (v : gset string) (r : SchedulerState) : SchedulerState :=
  ltac:(make_setter SchedulerState_eta idle v r).
Definition set_n_tasks (v : Z) (r : SchedulerState) : SchedulerState :=
  ltac:(make_setter SchedulerState_eta n_tasks v r).
Definition set_resources (v : gmap string (gmap string Q)) (r : SchedulerState) : SchedulerState :=
  ltac:(make_setter SchedulerState_eta resources v r).
Definition set_saturated (v : gset string) (r : SchedulerState) : SchedulerState :=
  ltac:(make_setter SchedulerState_eta saturated v r).
Definition set_tasks (v : gmap string TaskState) (r : SchedulerState) : SchedulerState :=
  ltac:(make_setter SchedulerState_eta tasks v r).
Definition set_task_groups (v : gset string) (r : SchedulerState) : SchedulerState :=
  ltac:(make_setter SchedulerState_eta task_groups v r).
Definition set_group_objs (v : gmap string TaskGroup) (r : SchedulerState) : SchedulerState :=
  ltac:(make_setter SchedulerState_eta group_objs v r).
Definition set_task_prefixes (v : gmap string TaskPrefix) (r : SchedulerState) : SchedulerState :=
  ltac:(make_setter SchedulerState_eta task_prefixes v r).
Definition set_replicated_tasks (v : gset string) (r : SchedulerState) : SchedulerState :=
  ltac:(make_setter SchedulerState_eta replicated_tasks v r).
Definition set_total_occupancy (v : Q) (r : SchedulerState) : SchedulerState :=
  ltac:(make_setter SchedulerState_eta total_occupancy v r).
Definition set_unknown_durations (v : gmap string (gset string)) (r : SchedulerState) : SchedulerState :=
  ltac:(make_setter SchedulerState_eta unknown_durations v r).
Definition set_unrunnable (v : gset string) (r : SchedulerState) : SchedulerState :=
  ltac:(make_setter SchedulerState_eta unrunnable v r).
Definition set_worker_objs (v : gmap string WorkerState) (r : SchedulerState) : SchedulerState :=
  ltac:(make_setter SchedulerState_eta worker_objs v r).
Definition set_transition_counter (v : Z) (r : SchedulerState) : SchedulerState :=
  ltac:(make_setter SchedulerState_eta transition_counter v r).
Definition set_transition_log (v : list (string * TaskStateName * TaskStateName * Recs)) (r : SchedulerState) : SchedulerState :=
  ltac:(make_setter SchedulerState_eta transition_log v r).

(** ** Messages, keyword arguments, results of a transition *)

(** Outbound messages; [stimulus_id] omits the time stamp. *)
Inductive Msg : Type :=
| msg_free_keys (keys : list string) (stimulus_id : string)
| msg_cancel_compute (key : string) (stimulus_id : string)
| msg_compute_task (key : string) (priority : list Z) (duration : Q)
    (who_has : list (string * list string)) (nbytes : list (string * Z))
    (resource_restrictions : gmap string Q) (actor : bool)
    (task : option string)
| msg_key_in_memory (key : string) (type : option string)
| msg_task_erred (key : string) (exception traceback : option string)
| msg_task_retried (key : string)
| msg_lost_data (key : string)
| msg_cancelled_key (key : string).

Abbreviation ClientMsgs := (gmap string (list Msg)).
(** Keys are worker addresses; [transition_erred_released] may also use
    [None] as a key. *)
Abbreviation WorkerMsgs := (gmap (option string) (list Msg)).

Definition Out : Type := Recs * ClientMsgs * WorkerMsgs.

Definition empty_out : Out := ([], ∅, ∅).

(** One entry of [startstops]. *)
Record StartStop : Type := Build_StartStop {
  ss_action : string;
  ss_start : Q;
  ss_stop : Q;
}.

(** The keyword arguments a transition request may carry.  [None] stands
    for an argument that is absent (or passed as [None]); [kw_other] tells
    that some keyword outside this list is present. *)
Record Kwargs : Type := Build_Kwargs {
  kw_worker : option string;
  kw_nbytes : option Z;
  kw_type : option string;
  kw_typename : option string;
  kw_startstops : list StartStop;
  kw_cause : option string;
  kw_exception : option string;
  kw_traceback : option string;
  kw_exception_text : option string;
  kw_traceback_text : option string;
  kw_safe : bool;
  kw_other : bool;
}.

Definition no_kwargs : Kwargs :=
  Build_Kwargs None None None None [] None None None None None false false.

Definition is_Some_b {A} (o : option A) : bool :=
  match o with Some _ => true | None => false end.

(** [not args and not kwargs] *)
Definition kwargs_empty (kw : Kwargs) : bool :=
  negb (is_Some_b (kw_worker kw) || is_Some_b (kw_nbytes kw)
        || is_Some_b (kw_type kw) || is_Some_b (kw_typename kw)
        || negb (bool_decide (length (kw_startstops kw) = 0%nat))
        || is_Some_b (kw_cause kw) || is_Some_b (kw_exception kw)
        || is_Some_b (kw_traceback kw) || is_Some_b (kw_exception_text kw)
        || is_Some_b (kw_traceback_text kw) || kw_safe kw || kw_other kw).

(** *** The [recommendations] dictionary *)

Definition recs_get (r : Recs) (key : string) : option TaskStateName :=
  snd <$> find (fun kv => bool_decide (kv.1 = key)) r.

(** [r[key] = v]: an existing key keeps its position. *)
Fixpoint recs_set (r : Recs) (key : string) (v : TaskStateName) : Recs :=
  match r with
  | [] => [(key, v)]
  | (k, x) :: r' =>
      if bool_decide (k = key) then (k, v) :: r' else (k, x) :: recs_set r' key v
  end.

(** [r.update(other)] *)
Definition recs_update (r other : Recs) : Recs :=
  fold_left (fun acc kv => recs_set acc kv.1 kv.2) other r.

(** [r.popitem()]: the entry inserted last. *)
Definition recs_popitem (r : Recs) : option (string * TaskStateName * Recs) :=
  match rev r with
  | [] => None
  | kv :: rest => Some (kv, rev rest)
  end.

(** [msgs = d.get(k); msgs.extend(new) if msgs is not None else d[k] = new],
    for every entry of [new_msgs]. *)
Definition merge_msgs `{Countable K} (d new_msgs : gmap K (list Msg))
  : gmap K (list Msg) :=
  union_with (fun old new => Some (old ++ new)) d new_msgs.

(** ** Access to the scheduler state *)

Abbreviation Sched := (M SchedulerState).

(** A task object no longer in the table, as [remove_key] and
    [_propagate_forgotten] leave it. *)
Definition tombstone (key : string) : TaskState :=
  Build_TaskState key None [] forgotten ∅ ∅ false ∅ ∅ ∅ ∅ None 0 (-1) None
    None None None None None ∅ 0 ∅ ∅ ∅ false false "" "".

(** The task object a reference [key] denotes. *)
Definition task_obj (key : string) (s : SchedulerState) : TaskState :=
  default (tombstone key) (tasks s !! key).

Definition no_worker_obj (addr : string) : WorkerState :=
  Build_WorkerState addr "" "" Status_closed 0 0 0 0 ∅ [] ∅ ∅ ∅ ∅ ∅ None 0 0 0 0.

(** The worker object a reference [addr] denotes. *)
Definition worker_obj (addr : string) (s : SchedulerState) : WorkerState :=
  default (no_worker_obj addr) (worker_objs s !! addr).

Definition no_group_obj (name : string) : TaskGroup :=
  Build_TaskGroup name "" ∅ ∅ 0 0 ∅ 0 0 ∅ None 0.

Definition group_obj (name : string) (s : SchedulerState) : TaskGroup :=
  default (no_group_obj name) (group_objs s !! name).

Definition no_prefix_obj (name : string) : TaskPrefix :=
  Build_TaskPrefix name [] ∅ (-1) 0.

Definition prefix_obj (name : string) (s : SchedulerState) : TaskPrefix :=
  default (no_prefix_obj name) (task_prefixes s !! name).

Definition upd_task (key : string) (f : TaskState -> TaskState) : Sched unit :=
  modify (fun s => set_tasks (alter f key (tasks s)) s).

Definition upd_worker (addr : string) (f : WorkerState -> WorkerState)
  : Sched unit :=
  modify (fun s => set_worker_objs (alter f addr (worker_objs s)) s).

Definition upd_group (name : string) (f : TaskGroup -> TaskGroup)
  : Sched unit :=
  modify (fun s => set_group_objs (alter f name (group_objs s)) s).

Definition upd_prefix (name : string) (f : TaskPrefix -> TaskPrefix)
  : Sched unit :=
  modify (fun s => set_task_prefixes (alter f name (task_prefixes s)) s).

Definition upd_client (c : string) (f : ClientState -> ClientState)
  : Sched unit :=
  modify (fun s => set_clients (alter f c (clients s)) s).

(** [self._tasks[key]] *)
Definition get_task (key : string) : Sched TaskState :=
  fun s => match tasks s !! key with
           | Some ts => Ok (ts, s)
           | None => Err KeyError
           end.

(** [self._workers_dv[worker]]; the result is the address, now known to be
    connected. *)
Definition get_worker (worker : option string) : Sched string :=
  fun s => match worker with
           | Some w => if bool_decide (w ∈ workers s) then Ok (w, s)
                       else Err KeyError
           | None => Err KeyError
           end.

(** [s.remove(x)] on a Python set *)
Definition set_remove `{Countable K} (x : K) (s : gset K) : Res (gset K) :=
  if bool_decide (x ∈ s) then Ok (s ∖ {[x]}) else Err KeyError.

Definition of_res {S A} (r : Res A) : M S A :=
  fun s => match r with Ok a => Ok (a, s) | Err e => Err e end.

(** [len(s)] *)
Definition len_set `{Countable K} (s : gset K) : Z := Z.of_nat (size s).

(** [x / y] with a float result *)
Definition py_div (x y : Q) : Res Q :=
  if Qeq_bool y 0 then Err ZeroDivisionError else Ok (fdiv x y).

(** [ts.state = value]: the setter keeps the group's state counts. *)
Definition count_of (states : gmap TaskStateName Z) (v : TaskStateName) : Z :=
  default 0%Z (states !! v).

Definition set_state (key : string) (value : TaskStateName) : Sched unit :=
  ts <- gets (task_obj key) ;;
  upd_group (ts_group ts) (fun tg =>
    let st1 := <[ts_state ts := (count_of (tg_states tg) (ts_state ts) - 1)%Z]>
                 (tg_states tg) in
    set_tg_states (<[value := (count_of st1 value + 1)%Z]> st1) tg) ;;
  upd_task key (set_ts_state value).

(** [ts.get_nbytes()] *)
Definition get_nbytes (s : SchedulerState) (ts : TaskState) : Z :=
  if (0 <=? ts_nbytes ts)%Z then ts_nbytes ts else DEFAULT_DATA_SIZE s.

(** [ts.set_nbytes(nbytes)] *)
Definition set_nbytes (key : string) (nbytes : Z) : Sched unit :=
  ts <- gets (task_obj key) ;;
  let old_nbytes := ts_nbytes ts in
  let diff := if (0 <=? old_nbytes)%Z then (nbytes - old_nbytes)%Z else nbytes in
  upd_group (ts_group ts)
    (fun tg => set_tg_nbytes_total (tg_nbytes_total tg + diff)%Z tg) ;;
  for_each (elements (ts_who_has ts))
    (fun w => upd_worker w (fun ws => set_ws_nbytes (ws_nbytes ws + diff)%Z ws)) ;;
  upd_task key (set_ts_nbytes nbytes).

(** [d[k] = None] on the insertion-ordered [_has_what] *)
Definition has_what_add (key : string) (l : list string) : list string :=
  if bool_decide (key ∈ l) then l else l ++ [key].

(** [del d[k]] on [_has_what] *)
Definition has_what_del (key : string) (l : list string)
  : Res (list string) :=
  if bool_decide (key ∈ l)
  then Ok (filter (fun k => k <> key) l)
  else Err KeyError.

(** [add_replica(ts, ws)] *)
Definition add_replica (key ws : string) : Sched unit :=
  ts <- gets (task_obj key) ;;
  nb <- gets (fun s => get_nbytes s ts) ;;
  upd_worker ws (fun w => set_ws_nbytes (ws_nbytes w + nb)%Z w) ;;
  upd_worker ws (fun w => set_ws_has_what (has_what_add key (ws_has_what w)) w) ;;
  upd_task key (fun t => set_ts_who_has (ts_who_has t ∪ {[ws]}) t) ;;
  ts <- gets (task_obj key) ;;
  when (bool_decide (size (ts_who_has ts) = 2%nat))
    (modify (fun s => set_replicated_tasks (replicated_tasks s ∪ {[key]}) s)).

(** [remove_replica(ts, ws)] *)
Definition remove_replica (key ws : string) : Sched unit :=
  ts <- gets (task_obj key) ;;
  nb <- gets (fun s => get_nbytes s ts) ;;
  upd_worker ws (fun w => set_ws_nbytes (ws_nbytes w - nb)%Z w) ;;
  w <- gets (worker_obj ws) ;;
  hw <- of_res (has_what_del key (ws_has_what w)) ;;
  upd_worker ws (set_ws_has_what hw) ;;
  wh <- of_res (set_remove ws (ts_who_has ts)) ;;
  upd_task key (set_ts_who_has wh) ;;
  if bool_decide (size wh = 1%nat)
  then rt <- gets replicated_tasks ;;
       rt' <- of_res (set_remove key rt) ;;
       modify (set_replicated_tasks rt')
  else ret tt.

(** [remove_all_replicas(ts)] *)
Definition remove_all_replicas (key : string) : Sched unit :=
  ts <- gets (task_obj key) ;;
  nbytes <- gets (fun s => get_nbytes s ts) ;;
  for_each (elements (ts_who_has ts)) (fun ws =>
    upd_worker ws (fun w => set_ws_nbytes (ws_nbytes w - nbytes)%Z w) ;;
    w <- gets (worker_obj ws) ;;
    hw <- of_res (has_what_del key (ws_has_what w)) ;;
    upd_worker ws (set_ws_has_what hw)) ;;
  (if bool_decide (1 < size (ts_who_has ts))%nat
   then rt <- gets replicated_tasks ;;
        rt' <- of_res (set_remove key rt) ;;
        modify (set_replicated_tasks rt')
   else ret tt) ;;
  upd_task key (set_ts_who_has ∅).

(** ** Assigning tasks to workers *)

(** [len(d)] on a dictionary *)
Definition len_map `{Countable K} {V} (m : gmap K V) : Z := Z.of_nat (size m).

(** [check_idle_saturated(ws, occ)]; the default of [occ] is [-1.0]. *)
Definition check_idle_saturated (ws : string) (occ : Q) : Sched unit :=
  total <- gets total_nthreads ;;
  w <- gets (worker_obj ws) ;;
  if bool_decide (total = 0%Z) || bool_decide (ws_status w = Status_closed)
  then ret tt
  else
    let occ := if Qltb occ 0 then ws_occupancy w else occ in
    let nc := ws_nthreads w in
    let p := len_map (ws_processing w) in
    total_occ <- gets total_occupancy ;;
    avg <- of_res (py_div total_occ (Zf total)) ;;
    if (p <? nc)%Z || Qltb occ (fdiv (fmul (Zf nc) avg) 2)
    then
      modify (fun s => set_idle (idle s ∪ {[ws]}) s) ;;
      modify (fun s => set_saturated (saturated s ∖ {[ws]}) s)
    else
      modify (fun s => set_idle (idle s ∖ {[ws]}) s) ;;
      if (nc <? p)%Z
      then
        pending <- of_res (py_div (fmul occ (Zf (p - nc))) (Zf (p * nc))) ;;
        if Qltb (R64 (4 # 10)) pending && Qltb (fmul (R64 (19 # 10)) avg) pending
        then modify (fun s => set_saturated (saturated s ∪ {[ws]}) s)
        else modify (fun s => set_saturated (saturated s ∖ {[ws]}) s)
      else modify (fun s => set_saturated (saturated s ∖ {[ws]}) s).

(** [get_comm_cost(ts, ws)] *)
Definition get_comm_cost (key ws : string) (s : SchedulerState) : Res Q :=
  let ts := task_obj key s in
  let w := worker_obj ws s in
  let deps := filter (fun d => d ∉ ws_has_what w) (elements (ts_dependencies ts)) in
  let nbytes := foldr (fun d acc => (ts_nbytes (task_obj d s) + acc)%Z) 0%Z deps in
  py_div (Zf nbytes) (bandwidth s).

(** [get_task_duration(ts)] *)
Definition get_task_duration (key : string) : Sched Q :=
  ts <- gets (task_obj key) ;;
  tp <- gets (prefix_obj (ts_prefix ts)) ;;
  let duration := tp_duration_average tp in
  if Qleb 0 duration then ret duration
  else
    modify (fun s =>
      set_unknown_durations
        (<[tp_name tp :=
             default ∅ (unknown_durations s !! tp_name tp) ∪ {[key]}]>
           (unknown_durations s)) s) ;;
    gets UNKNOWN_TASK_DURATION.

(** [set_duration_estimate(ts, ws)] *)
Definition set_duration_estimate (key ws : string) : Sched Q :=
  w <- gets (worker_obj ws) ;;
  let exec_time := default 0%Q (ws_executing w !! key) in
  duration <- get_task_duration key ;;
  total_duration <-
    (if Qltb (fmul 2 duration) exec_time then ret (fmul 2 exec_time)
     else comm <- lift_res (get_comm_cost key ws) ;; ret (fadd duration comm)) ;;
  w <- gets (worker_obj ws) ;;
  let old := default 0%Q (ws_processing w !! key) in
  upd_worker ws (fun w => set_ws_processing (<[key := total_duration]> (ws_processing w)) w) ;;
  when (bool_decide (key ∉ ws_long_running w))
    (modify (fun s =>
       set_total_occupancy (fadd (total_occupancy s) (fsub total_duration old)) s) ;;
     upd_worker ws (fun w =>
       set_ws_occupancy (fadd (ws_occupancy w) (fsub total_duration old)) w)) ;;
  ret total_duration.

(** [ws._used_resources[r] += delta] for every restricted resource *)
Definition adjust_resources (key ws : string) (sign : Q) : Sched unit :=
  ts <- gets (task_obj key) ;;
  for_each (map_to_list (ts_resource_restrictions ts)) (fun '(r, required) =>
    w <- gets (worker_obj ws) ;;
    match ws_used_resources w !! r with
    | None => raise KeyError
    | Some used =>
        upd_worker ws (fun w =>
          set_ws_used_resources (<[r := (used + sign * required)%Q]> (ws_used_resources w)) w)
    end).

(** [consume_resources(ts, ws)] *)
Definition consume_resources (key ws : string) : Sched unit :=
  adjust_resources key ws 1.

(** [release_resources(ts, ws)] *)
Definition release_resources (key ws : string) : Sched unit :=
  adjust_resources key ws (-1).

(** [coerce_hostname(host)] *)
Definition coerce_hostname (host : string) (s : SchedulerState) : Res string :=
  match aliases s !! host with
  | Some alias =>
      if bool_decide (alias ∈ workers s) then Ok (ws_host (worker_obj alias s))
      else Err KeyError
  | None => Ok host
  end.

(** [[f(x) for x in xs]] where [f] may raise *)
Fixpoint map_res {A B} (f : A -> Res B) (xs : list A) : Res (list B) :=
  match xs with
  | [] => Ok []
  | x :: xs' =>
      match f x with
      | Err e => Err e
      | Ok y => match map_res f xs' with
                | Err e => Err e
                | Ok ys => Ok (y :: ys)
                end
      end
  end.

(** The addresses supplying at least [required] of a resource: the set [sw]
    of [valid_workers]. *)
Definition suppliers (dr : gmap string Q) (required : Q) : gset string :=
  dom (filter (fun kv => Qleb required kv.2 = true) dr).

(** [set.intersection] applied to the unpacked list of sets *)
Definition intersection_all (sets : list (gset string)) : Res (gset string) :=
  match sets with
  | [] => Err TypeError
  | x :: rest => Ok (foldl (fun acc y => acc ∩ y) x rest)
  end.

(** The body of [for resource, required in
    ts._resource_restrictions.items()] in [valid_workers]; [dw] collects the
    sets [sw] in the order of the loop. *)
Definition suppliers_loop_body (dw : list (gset string)) (rq : string * Q)
  : M SchedulerState (list (gset string)) :=
  let '(resource, required) := rq in
  dr <- gets (fun st => resources st !! resource) ;;
  dr <- match dr with
        | Some dr => ret dr
        | None =>
            modify (fun st => set_resources (<[resource := ∅]> (resources st)) st) ;;
            ret (∅ : gmap string Q)
        end ;;
  ret (dw ++ [suppliers dr required]).

(** [valid_workers(ts)]: [None] when every worker is valid. *)
Definition valid_workers (key : string) : Sched (option (gset string)) :=
  ts <- gets (task_obj key) ;;
  wk <- gets workers ;;
  let s : option (gset string) :=
    if nonempty_set (ts_worker_restrictions ts)
    then Some (filter (fun addr => addr ∈ wk) (ts_worker_restrictions ts))
    else None in
  s <- (if nonempty_set (ts_host_restrictions ts)
        then
          hr <- lift_res (fun st =>
                  map_res (fun h => coerce_hostname h st)
                          (elements (ts_host_restrictions ts))) ;;
          hi <- gets host_info ;;
          let sl := omap (fun h => hi_addresses <$> hi !! h) hr in
          let ss : gset string := ⋃ sl in
          ret (Some (match s with None => ss | Some s0 => s0 ∪ ss end))
        else ret s) ;;
  s <- (if nonempty_map (ts_resource_restrictions ts)
        then
          dw <- for_fold (map_to_list (ts_resource_restrictions ts)) []
                  suppliers_loop_body ;;
          ww <- of_res (intersection_all dw) ;;
          ret (Some (match s with None => ww | Some s0 => s0 ∩ ww end))
        else ret s) ;;
  rn <- gets running ;;
  match s with
  | None =>
      if (len_set rn <? len_set wk)%Z then ret (Some rn) else ret None
  | Some s0 =>
      if bool_decide (s0 ⊆ wk)
      then if (len_set rn <? len_set wk)%Z
           then ret (Some (s0 ∩ rn))
           else ret (Some s0)
      else raise KeyError
  end.

(** Comparison of Python tuples of numbers, [a < b]. *)
Fixpoint tuple_ltb (a b : list Q) : bool :=
  match a, b with
  | [], [] => false
  | [], _ :: _ => true
  | _ :: _, [] => false
  | x :: a', y :: b' =>
      if Qltb x y then true
      else if Qltb y x then false
      else tuple_ltb a' b'
  end.

(** [min(xs, key=keyf)]: the first minimal element in iteration order. *)
Fixpoint py_min_from {A K} (ltb : K -> K -> bool) (keyf : A -> Res K)
    (best : A) (best_key : K) (xs : list A) : Res A :=
  match xs with
  | [] => Ok best
  | x :: xs' =>
      match keyf x with
      | Err e => Err e
      | Ok k => if ltb k best_key then py_min_from ltb keyf x k xs'
                else py_min_from ltb keyf best best_key xs'
      end
  end.

Definition py_min {A K} (ltb : K -> K -> bool) (keyf : A -> Res K)
    (xs : list A) : Res A :=
  match xs with
  | [] => Err ValueError
  | x :: xs' =>
      match keyf x with
      | Err e => Err e
      | Ok k => py_min_from ltb keyf x k xs'
      end
  end.

(** [worker_objective(ts, ws)] *)
Definition worker_objective (key ws : string) (s : SchedulerState)
  : Res (list Q) :=
  let ts := task_obj key s in
  let w := worker_obj ws s in
  let comm_bytes :=
    foldr (fun d acc =>
             let dts := task_obj d s in
             if bool_decide (ws ∈ ts_who_has dts) then acc
             else (get_nbytes s dts + acc)%Z)
          0%Z (elements (ts_dependencies ts)) in
  match py_div (ws_occupancy w) (Zf (ws_nthreads w)) with
  | Err e => Err e
  | Ok stack_time =>
      match py_div (Zf comm_bytes) (bandwidth s) with
      | Err e => Err e
      | Ok comm =>
          let start_time := fadd stack_time comm in
          if ts_actor ts
          then Ok [Zq (len_set (ws_actors w)); start_time; Zq (ws_nbytes w)]
          else Ok [start_time; Zq (ws_nbytes w)]
      end
  end.

(** The values of a [SortedDict] keyed by address, in key order. *)
Fixpoint insert_sorted (x : string) (l : list string) : list string :=
  match l with
  | [] => [x]
  | y :: l' => if String.leb x y then x :: l else y :: insert_sorted x l'
  end.

Definition sorted_values (d : gset string) : list string :=
  foldr insert_sorted [] (elements d).

(** The body of the module-level function [decide_worker(ts, all_workers,
    valid_workers, objective)]; [self_call] is the function itself, for the
    recursive call, which passes [valid_workers = None]. *)
Definition decide_worker_body
    (self_call : string -> SchedulerState -> Res (option string))
    (key : string) (all_workers : list string)
    (valid_workers : option (gset string)) (s : SchedulerState)
  : Res (option string) :=
  let ts := task_obj key s in
  let deps := elements (ts_dependencies ts) in
  if negb (forallb (fun d => nonempty_set (ts_who_has (task_obj d s))) deps)
  then Err AssertionError
  else
    let candidates : gset string :=
      if ts_actor ts then list_to_set all_workers
      else ⋃ (map (fun d => ts_who_has (task_obj d s)) deps) in
    let pick (candidates : gset string) : Res (option string) :=
      match elements candidates with
      | [] => Ok None
      | [ws] => Ok (Some ws)
      | cs => match py_min tuple_ltb (fun ws => worker_objective key ws s) cs with
              | Ok ws => Ok (Some ws)
              | Err e => Err e
              end
      end in
    match valid_workers with
    | None =>
        if nonempty_set candidates then pick candidates
        else pick (list_to_set all_workers)
    | Some valid =>
        let candidates := candidates ∩ valid in
        if nonempty_set candidates then pick candidates
        else if nonempty_set valid then pick valid
        else if ts_loose_restrictions ts then self_call key s
        else Ok None
    end.

(** The module-level [decide_worker]: its recursive call has
    [valid_workers = None], a branch that never recurses. *)
Definition decide_worker_function (key : string) (all_workers : list string)
    (valid_workers : option (gset string)) (s : SchedulerState)
  : Res (option string) :=
  decide_worker_body
    (fun key s =>
       decide_worker_body (fun _ _ => Err RecursionError) key all_workers None s)
    key all_workers valid_workers s.

(** [len(tg)] *)
Definition len_group (tg : TaskGroup) : Z :=
  map_fold (fun _ n acc => (n + acc)%Z) 0%Z (tg_states tg).

(** [wp_vals[i]] *)
Definition nth_value (l : list string) (i : Z) : Res string :=
  match l !! Z.to_nat i with
  | Some x => Ok x
  | None => Err KeyError
  end.

(** The method [SchedulerState.decide_worker(ts)]. *)
Definition decide_worker (key : string) : Sched (option string) :=
  wk <- gets workers ;;
  if negb (nonempty_set wk) then ret None
  else
    ts <- gets (task_obj key) ;;
    valid <- valid_workers key ;;
    if match valid with
       | Some v => negb (nonempty_set v) && negb (ts_loose_restrictions ts)
       | None => false
       end
    then
      modify (fun s => set_unrunnable (unrunnable s ∪ {[key]}) s) ;;
      set_state key no_worker ;;
      ret None
    else
      tg <- gets (group_obj (ts_group ts)) ;;
      total <- gets total_nthreads ;;
      dep_sizes <- gets (fun s =>
        foldr (fun g acc => (len_group (group_obj g s) + acc)%Z) 0%Z
              (elements (tg_dependencies tg))) ;;
      if negb (is_Some_b valid)
         && (total * 2 <? len_group tg)%Z
         && (len_set (tg_dependencies tg) <? 5)%Z
         && (dep_sizes <? 5)%Z
      then
        ws <- (match tg_last_worker tg with
               | Some ws =>
                   if negb (bool_decide (tg_last_worker_tasks_left tg = 0%Z))
                      && bool_decide (ws ∈ wk)
                   then ret (Some ws) else ret None
               | None => ret None
               end) ;;
        ws <- (match ws with
               | Some ws => ret ws
               | None =>
                   idl <- gets idle ;;
                   let pool := if nonempty_set idl then idl else wk in
                   ws <- lift_res (fun s =>
                           py_min tuple_ltb (fun w => worker_objective key w s)
                                  (sorted_values pool)) ;;
                   w <- gets (worker_obj ws) ;;
                   ratio <- of_res (py_div (Zq (len_group tg)) (Zq total)) ;;
                   upd_group (ts_group ts)
                     (set_tg_last_worker_tasks_left
                        (Qfloor (fmul ratio (Zf (ws_nthreads w))))) ;;
                   ret ws
               end) ;;
        tg <- gets (group_obj (ts_group ts)) ;;
        upd_group (ts_group ts)
          (set_tg_last_worker
             (if (1 <? count_of (tg_states tg) released
                       + count_of (tg_states tg) waiting)%Z
              then Some ws else None)) ;;
        upd_group (ts_group ts)
          (fun tg => set_tg_last_worker_tasks_left
                       (tg_last_worker_tasks_left tg - 1)%Z tg) ;;
        ret (Some ws)
      else if nonempty_set (ts_dependencies ts) || is_Some_b valid
      then
        lift_res (decide_worker_function key (sorted_values wk) valid)
      else
        idl <- gets idle ;;
        let worker_pool := if nonempty_set idl then idl else wk in
        let wp_vals := sorted_values worker_pool in
        let n_workers := len_set worker_pool in
        n <- gets n_tasks ;;
        if (n_workers <? 20)%Z
        then
          ws <- lift_res (fun s =>
                  py_min Qltb (fun w => Ok (ws_occupancy (worker_obj w s))) wp_vals) ;;
          w <- gets (worker_obj ws) ;;
          if Qeq_bool (ws_occupancy w) 0
          then
            let start := (n mod n_workers)%Z in
            s <- gets id ;;
            let rotated :=
              omap (fun i => wp_vals !! Z.to_nat ((Z.of_nat i + start) mod n_workers)%Z)
                   (seq 0 (Z.to_nat n_workers)) in
            ret (Some (default ws
                   (find (fun w => Qeq_bool (ws_occupancy (worker_obj w s)) 0)
                         rotated)))
          else ret (Some ws)
        else
          ws <- of_res (nth_value wp_vals (n mod n_workers)%Z) ;;
          ret (Some ws).

(** ** Helpers of the transition handlers *)

Definition no_client_obj (c : string) : ClientState := Build_ClientState c ∅.

Definition client_obj (c : string) (s : SchedulerState) : ClientState :=
  default (no_client_obj c) (clients s !! c).

(** [self._clients[c]] *)
Definition get_client (c : string) : Sched ClientState :=
  fun s => match clients s !! c with
           | Some cs => Ok (cs, s)
           | None => Err KeyError
           end.

(** [_remove_from_processing(state, ts)] *)
Definition _remove_from_processing (key : string) : Sched (option string) :=
  ts <- gets (task_obj key) ;;
  upd_task key (set_ts_processing_on None) ;;
  match ts_processing_on ts with
  | None => raise AttributeError
  | Some w =>
      wk <- gets workers ;;
      if negb (bool_decide (w ∈ wk)) then ret None
      else
        ws <- gets (worker_obj w) ;;
        match ws_processing ws !! key with
        | None => raise KeyError
        | Some duration =>
            upd_worker w (fun ws => set_ws_processing (delete key (ws_processing ws)) ws) ;;
            (if negb (nonempty_map (delete key (ws_processing ws)))
             then
               modify (fun s =>
                 set_total_occupancy (fsub (total_occupancy s) (ws_occupancy ws)) s) ;;
               upd_worker w (set_ws_occupancy 0)
             else
               modify (fun s =>
                 set_total_occupancy (fsub (total_occupancy s) duration) s) ;;
               upd_worker w (fun ws =>
                 set_ws_occupancy (fsub (ws_occupancy ws) duration) ws)) ;;
            check_idle_saturated w (-1) ;;
            release_resources key w ;;
            ret (Some w)
        end
  end.

(** [_client_releases_keys(state, keys, cs, recommendations)] *)
Definition _client_releases_keys (keys : list string) (cs : string)
    (recommendations : Recs) : Sched Recs :=
  for_fold keys recommendations (fun recommendations key =>
    ots <- gets (fun s => tasks s !! key) ;;
    c <- gets (client_obj cs) ;;
    match ots with
    | Some ts =>
        if bool_decide (key ∈ cs_wants_what c)
        then
          upd_client cs (fun c => set_cs_wants_what (cs_wants_what c ∖ {[key]}) c) ;;
          who_wants <- of_res (set_remove cs (ts_who_wants ts)) ;;
          upd_task key (set_ts_who_wants who_wants) ;;
          if negb (nonempty_set who_wants)
          then
            if negb (nonempty_set (ts_dependents ts))
            then ret (recs_set recommendations key forgotten)
            else if negb (bool_decide (ts_state ts = erred))
                    && negb (nonempty_set (ts_waiters ts))
            then ret (recs_set recommendations key released)
            else ret recommendations
          else ret recommendations
        else ret recommendations
    | None => ret recommendations
    end).

(** Comparison of priority tuples, [a < b]. *)
Fixpoint priority_ltb (a b : list Z) : bool :=
  match a, b with
  | [], [] => false
  | [], _ :: _ => true
  | _ :: _, [] => false
  | x :: a', y :: b' =>
      if (x <? y)%Z then true
      else if (y <? x)%Z then false
      else priority_ltb a' b'
  end.

(** [deps.sort(key=operator.attrgetter("priority"), reverse=True)]: stable,
    largest priority first. *)
Fixpoint insert_by_priority (s : SchedulerState) (x : string) (l : list string)
  : list string :=
  match l with
  | [] => [x]
  | y :: l' =>
      if priority_ltb (ts_priority (task_obj y s)) (ts_priority (task_obj x s))
      then x :: l
      else y :: insert_by_priority s x l'
  end.

Definition sort_by_priority_desc (s : SchedulerState) (l : list string)
  : list string :=
  fold_left (fun acc x => insert_by_priority s x acc) l [].

(** [{cs._client_key: [msg] for cs in ts._who_wants}], added to [client_msgs] *)
Definition report_to (who_wants : gset string) (msg : Msg)
    (client_msgs : ClientMsgs) : ClientMsgs :=
  foldr (fun c acc => <[c := [msg]]> acc) client_msgs (elements who_wants).

(** [_add_to_memory(state, ts, ws, recommendations, client_msgs, type,
    typename)]; the two dictionaries it fills are returned. *)
Definition _add_to_memory (key ws : string) (recommendations : Recs)
    (client_msgs : ClientMsgs) (type typename : option string)
  : Sched (Recs * ClientMsgs) :=
  add_replica key ws ;;
  ts <- gets (task_obj key) ;;
  deps <- gets (fun s =>
    let deps := elements (ts_dependents ts) in
    if (1 <? length deps)%nat then sort_by_priority_desc s deps else deps) ;;
  recommendations <-
    for_fold deps recommendations (fun recommendations d =>
      dts <- gets (task_obj d) ;;
      if bool_decide (key ∈ ts_waiting_on dts)
      then
        upd_task d (set_ts_waiting_on (ts_waiting_on dts ∖ {[key]})) ;;
        if negb (nonempty_set (ts_waiting_on dts ∖ {[key]}))
        then ret (recs_set recommendations d processing)
        else ret recommendations
      else ret recommendations) ;;
  recommendations <-
    for_fold (elements (ts_dependencies ts)) recommendations
      (fun recommendations d =>
        dts <- gets (task_obj d) ;;
        upd_task d (set_ts_waiters (ts_waiters dts ∖ {[key]})) ;;
        if negb (nonempty_set (ts_waiters dts ∖ {[key]}))
           && negb (nonempty_set (ts_who_wants dts))
        then ret (recs_set recommendations d released)
        else ret recommendations) ;;
  ts <- gets (task_obj key) ;;
  let '(recommendations, client_msgs) :=
    if negb (nonempty_set (ts_waiters ts)) && negb (nonempty_set (ts_who_wants ts))
    then (recs_set recommendations key released, client_msgs)
    else (recommendations,
          report_to (ts_who_wants ts) (msg_key_in_memory key type) client_msgs) in
  set_state key memory ;;
  upd_task key (set_ts_type typename) ;;
  upd_group (ts_group ts) (fun tg => set_tg_types (tg_types tg ∪ {[typename]}) tg) ;;
  cs <- get_client "fire-and-forget" ;;
  if bool_decide (key ∈ cs_wants_what cs)
  then
    recommendations <- _client_releases_keys [key] "fire-and-forget" recommendations ;;
    ret (recommendations, client_msgs)
  else ret (recommendations, client_msgs).

(** [_propagate_forgotten(state, ts, recommendations, worker_msgs)] *)
Definition _propagate_forgotten (key : string) (recommendations : Recs)
    (worker_msgs : WorkerMsgs) : Sched (Recs * WorkerMsgs) :=
  set_state key forgotten ;;
  ts <- gets (task_obj key) ;;
  recommendations <-
    for_fold (elements (ts_dependents ts)) recommendations
      (fun recommendations d =>
        upd_task d (set_ts_has_lost_dependencies true) ;;
        dts <- gets (task_obj d) ;;
        dependencies <- of_res (set_remove key (ts_dependencies dts)) ;;
        upd_task d (set_ts_dependencies dependencies) ;;
        upd_task d (fun t => set_ts_waiting_on (ts_waiting_on t ∖ {[key]}) t) ;;
        if negb (bool_decide (ts_state dts = memory))
           && negb (bool_decide (ts_state dts = erred))
        then ret (recs_set recommendations d forgotten)
        else ret recommendations) ;;
  upd_task key (set_ts_dependents ∅) ;;
  upd_task key (set_ts_waiters ∅) ;;
  ts <- gets (task_obj key) ;;
  recommendations <-
    for_fold (elements (ts_dependencies ts)) recommendations
      (fun recommendations d =>
        dts <- gets (task_obj d) ;;
        dependents <- of_res (set_remove key (ts_dependents dts)) ;;
        upd_task d (set_ts_dependents dependents) ;;
        upd_task d (fun t => set_ts_waiters (ts_waiters t ∖ {[key]}) t) ;;
        if negb (nonempty_set dependents) && negb (nonempty_set (ts_who_wants dts))
        then
          py_assert (negb (bool_decide (d = key))) ;;
          ret (recs_set recommendations d forgotten)
        else ret recommendations) ;;
  upd_task key (set_ts_dependencies ∅) ;;
  upd_task key (set_ts_waiting_on ∅) ;;
  wk <- gets workers ;;
  let worker_msgs :=
    foldr (fun w acc =>
             if bool_decide (w ∈ wk)
             then <[Some w := [msg_free_keys [key] "propagate-forgotten"]]> acc
             else acc)
          worker_msgs (elements (ts_who_has ts)) in
  remove_all_replicas key ;;
  ret (recommendations, worker_msgs).

(** [remove_key(key)] *)
Definition remove_key (key : string) : Sched unit :=
  ts <- get_task key ;;
  modify (fun s => set_tasks (delete key (tasks s)) s) ;;
  py_assert (bool_decide (ts_state ts = forgotten)) ;;
  modify (fun s => set_unrunnable (unrunnable s ∖ {[key]}) s) ;;
  for_each (elements (ts_who_wants ts)) (fun c =>
    cs <- gets (client_obj c) ;;
    wants_what <- of_res (set_remove key (cs_wants_what cs)) ;;
    upd_client c (set_cs_wants_what wants_what)).

(** The exception and traceback of the task an [_exception_blame] reference
    denotes; reading them through [None] raises. *)
Definition blamed (failing_ts : option string) (s : SchedulerState)
  : Res (option string * option string) :=
  match failing_ts with
  | None => Err AttributeError
  | Some k => Ok (ts_exception (task_obj k s), ts_traceback (task_obj k s))
  end.

(** [_task_to_report_msg(state, ts)] *)
Definition _task_to_report_msg (ts : TaskState) (s : SchedulerState)
  : Res (option Msg) :=
  match ts_state ts with
  | forgotten => Ok (Some (msg_cancelled_key (ts_key ts)))
  | memory => Ok (Some (msg_key_in_memory (ts_key ts) None))
  | erred =>
      match blamed (ts_exception_blame ts) s with
      | Ok (e, t) => Ok (Some (msg_task_erred (ts_key ts) e t))
      | Err e => Err e
      end
  | _ => Ok None
  end.

(** [_task_to_client_msgs(state, ts)] *)
Definition _task_to_client_msgs (ts : TaskState) (s : SchedulerState)
  : Res ClientMsgs :=
  if nonempty_set (ts_who_wants ts)
  then match _task_to_report_msg ts s with
       | Ok (Some report_msg) => Ok (report_to (ts_who_wants ts) report_msg ∅)
       | Ok None => Ok ∅
       | Err e => Err e
       end
  else Ok ∅.

(** [_task_to_msg(state, ts)], with the default [duration = -1] *)
Definition _task_to_msg (key : string) : Sched Msg :=
  duration <- get_task_duration key ;;
  ts <- gets (task_obj key) ;;
  s <- gets id ;;
  let deps := elements (ts_dependencies ts) in
  ret (msg_compute_task key (ts_priority ts) duration
         (map (fun d => (d, elements (ts_who_has (task_obj d s)))) deps)
         (map (fun d => (d, ts_nbytes (task_obj d s))) deps)
         (ts_resource_restrictions ts) (ts_actor ts) (ts_run_spec ts)).

(** [TaskPrefix.add_duration(action, start, stop)] *)
Definition prefix_add_duration (action : string) (start stop : Q)
    (tp : TaskPrefix) : TaskPrefix :=
  let duration := fsub stop start in
  let tp := set_tp_all_durations
              (<[action := fadd (default 0%Q (tp_all_durations tp !! action)) duration]>
                 (tp_all_durations tp)) tp in
  if bool_decide (action = "compute")
  then
    let old := tp_duration_average tp in
    if Qltb old 0 then set_tp_duration_average duration tp
    else set_tp_duration_average
           (fadd (fmul (1 # 2) duration) (fmul (1 # 2) old)) tp
  else tp.

(** [TaskGroup.add_duration(action, start, stop)] *)
Definition group_add_duration (group : string) (action : string)
    (start stop : Q) : Sched unit :=
  let duration := fsub stop start in
  upd_group group (fun tg =>
    let tg := set_tg_all_durations
                (<[action := fadd (default 0%Q (tg_all_durations tg !! action)) duration]>
                   (tg_all_durations tg)) tg in
    let tg :=
      if bool_decide (action = "compute")
      then
        let tg := if Qltb (tg_stop tg) stop then set_tg_stop stop tg else tg in
        set_tg_start (if Qeq_bool (tg_start tg) 0 then start else tg_start tg) tg
      else tg in
    set_tg_duration (fadd (tg_duration tg) duration) tg) ;;
  tg <- gets (group_obj group) ;;
  upd_prefix (tg_prefix tg) (prefix_add_duration action start stop).

(** ** The transition handlers *)

(** Calling a handler with a keyword it does not declare raises
    [TypeError]. *)
Definition accept_kwargs (accepted : bool) : Sched unit :=
  if accepted then ret tt else raise TypeError.

(** The keywords [nbytes], [type], [typename] and [worker] only. *)
Definition memory_kwargs_only (kw : Kwargs) : bool :=
  kwargs_empty
    (Build_Kwargs None None None None (kw_startstops kw) (kw_cause kw)
       (kw_exception kw) (kw_traceback kw) (kw_exception_text kw)
       (kw_traceback_text kw) (kw_safe kw) (kw_other kw)).

(** The keyword [safe] only. *)
Definition safe_kwarg_only (kw : Kwargs) : bool :=
  kwargs_empty
    (Build_Kwargs (kw_worker kw) (kw_nbytes kw) (kw_type kw) (kw_typename kw)
       (kw_startstops kw) (kw_cause kw) (kw_exception kw) (kw_traceback kw)
       (kw_exception_text kw) (kw_traceback_text kw) false (kw_other kw)).

(** The loop shared by [transition_released_waiting] and
    [transition_no_worker_waiting]:
    [for dts in ts._dependencies: ...] filling [waiting_on] and [waiters]. *)
Definition wait_on_dependencies (key : string) (recommendations : Recs)
  : Sched Recs :=
  ts <- gets (task_obj key) ;;
  for_fold (elements (ts_dependencies ts)) recommendations
    (fun recommendations dep =>
      dts <- gets (task_obj dep) ;;
      when (negb (nonempty_set (ts_who_has dts)))
        (upd_task key (fun t => set_ts_waiting_on (ts_waiting_on t ∪ {[dep]}) t)) ;;
      if bool_decide (ts_state dts = released)
      then ret (recs_set recommendations dep waiting)
      else
        upd_task dep (fun t => set_ts_waiters (ts_waiters t ∪ {[key]}) t) ;;
        ret recommendations).

(** [if not ts._waiting_on: ...], the end of both handlers into [waiting]. *)
Definition processing_or_no_worker (key : string) (recommendations : Recs)
  : Sched Recs :=
  ts <- gets (task_obj key) ;;
  if negb (nonempty_set (ts_waiting_on ts))
  then
    wk <- gets workers ;;
    if nonempty_set wk
    then ret (recs_set recommendations key processing)
    else
      modify (fun s => set_unrunnable (unrunnable s ∪ {[key]}) s) ;;
      set_state key no_worker ;;
      ret recommendations
  else ret recommendations.

Definition transition_released_waiting (key : string) (kw : Kwargs)
  : Sched Out :=
  accept_kwargs (kwargs_empty kw) ;;
  ts <- get_task key ;;
  if ts_has_lost_dependencies ts
  then ret ([(key, forgotten)], ∅, ∅)
  else
    set_state key waiting ;;
    s <- gets id ;;
    match find (fun d => is_Some_b (ts_exception_blame (task_obj d s)))
               (elements (ts_dependencies ts)) with
    | Some d =>
        upd_task key (set_ts_exception_blame (ts_exception_blame (task_obj d s))) ;;
        ret ([(key, erred)], ∅, ∅)
    | None =>
        recommendations <- wait_on_dependencies key [] ;;
        ts <- gets (task_obj key) ;;
        s <- gets id ;;
        upd_task key
          (set_ts_waiters
             (filter (fun d => ts_state (task_obj d s) = waiting) (ts_dependents ts))) ;;
        recommendations <- processing_or_no_worker key recommendations ;;
        ret (recommendations, ∅, ∅)
    end.

Definition transition_no_worker_waiting (key : string) (kw : Kwargs)
  : Sched Out :=
  accept_kwargs (kwargs_empty kw) ;;
  ts <- get_task key ;;
  un <- gets unrunnable ;;
  un <- of_res (set_remove key un) ;;
  modify (set_unrunnable un) ;;
  if ts_has_lost_dependencies ts
  then ret ([(key, forgotten)], ∅, ∅)
  else
    recommendations <- wait_on_dependencies key [] ;;
    set_state key waiting ;;
    recommendations <- processing_or_no_worker key recommendations ;;
    ret (recommendations, ∅, ∅).

Definition transition_no_worker_memory (key : string) (kw : Kwargs)
  : Sched Out :=
  accept_kwargs (memory_kwargs_only kw) ;;
  ws <- get_worker (kw_worker kw) ;;
  ts <- get_task key ;;
  un <- gets unrunnable ;;
  un <- of_res (set_remove key un) ;;
  modify (set_unrunnable un) ;;
  match kw_nbytes kw with Some nbytes => set_nbytes key nbytes | None => ret tt end ;;
  check_idle_saturated ws (-1) ;;
  '(recommendations, client_msgs) <-
    _add_to_memory key ws [] ∅ (kw_type kw) (kw_typename kw) ;;
  set_state key memory ;;
  ret (recommendations, client_msgs, ∅).

Definition transition_waiting_processing (key : string) (kw : Kwargs)
  : Sched Out :=
  accept_kwargs (kwargs_empty kw) ;;
  ts <- get_task key ;;
  ws <- decide_worker key ;;
  match ws with
  | None => ret empty_out
  | Some worker =>
      set_duration_estimate key worker ;;
      upd_task key (set_ts_processing_on (Some worker)) ;;
      set_state key processing ;;
      consume_resources key worker ;;
      check_idle_saturated worker (-1) ;;
      modify (fun s => set_n_tasks (n_tasks s + 1)%Z s) ;;
      when (ts_actor ts)
        (upd_worker worker (fun w => set_ws_actors (ws_actors w ∪ {[key]}) w)) ;;
      msg <- _task_to_msg key ;;
      ret ([], ∅, {[Some worker := [msg]]})
  end.

Definition transition_waiting_memory (key : string) (kw : Kwargs)
  : Sched Out :=
  ws <- get_worker (kw_worker kw) ;;
  ts <- get_task key ;;
  upd_task key (set_ts_waiting_on ∅) ;;
  match kw_nbytes kw with Some nbytes => set_nbytes key nbytes | None => ret tt end ;;
  check_idle_saturated ws (-1) ;;
  '(recommendations, client_msgs) <-
    _add_to_memory key ws [] ∅ (kw_type kw) (kw_typename kw) ;;
  ret (recommendations, client_msgs, ∅).

Definition transition_processing_memory (key : string) (kw : Kwargs)
  : Sched Out :=
  ts <- get_task key ;;
  py_assert (match kw_worker kw with
             | Some w => negb (bool_decide (w = ""))
             | None => false
             end) ;;
  wk <- gets workers ;;
  match kw_worker kw with
  | None => raise AssertionError
  | Some ws =>
      if negb (bool_decide (ws ∈ wk))
      then ret ([(key, released)], ∅, ∅)
      else
        worker_msgs <-
          match ts_processing_on ts with
          | None => raise AttributeError
          | Some expected =>
              if negb (bool_decide (ws = expected))
              then ret ({[Some expected :=
                            [msg_cancel_compute key "processing-memory"]]} : WorkerMsgs)
              else ret (∅ : WorkerMsgs)
          end ;;
        for_each (kw_startstops kw) (fun startstop =>
          group_add_duration (ts_group ts) (ss_action startstop)
            (ss_start startstop) (ss_stop startstop)) ;;
        tp <- gets (prefix_obj (ts_prefix ts)) ;;
        unknown <- gets (fun s => default ∅ (unknown_durations s !! tp_name tp)) ;;
        modify (fun s => set_unknown_durations (delete (tp_name tp) (unknown_durations s)) s) ;;
        for_each (elements unknown) (fun t =>
          tts <- gets (task_obj t) ;;
          match ts_processing_on tts with
          | Some w => set_duration_estimate t w ;; ret tt
          | None => ret tt
          end) ;;
        match kw_nbytes kw with Some nbytes => set_nbytes key nbytes | None => ret tt end ;;
        _remove_from_processing key ;;
        '(recommendations, client_msgs) <-
          _add_to_memory key ws [] ∅ (kw_type kw) (kw_typename kw) ;;
        ret (recommendations, client_msgs, worker_msgs)
  end.

Definition transition_memory_released (key : string) (kw : Kwargs)
  : Sched Out :=
  accept_kwargs (safe_kwarg_only kw) ;;
  ts <- get_task key ;;
  when (ts_actor ts)
    (for_each (elements (ts_who_has ts)) (fun ws =>
       upd_worker ws (fun w => set_ws_actors (ws_actors w ∖ {[key]}) w))) ;;
  if ts_actor ts && nonempty_set (ts_who_wants ts)
  then
    upd_task key (set_ts_exception_blame (Some key)) ;;
    upd_task key (set_ts_exception (Some "Worker holding Actor was lost")) ;;
    ret ([(key, erred)], ∅, ∅)
  else
    recommendations <-
      for_fold (elements (ts_waiters ts)) [] (fun recommendations d =>
        dts <- gets (task_obj d) ;;
        if bool_decide (ts_state dts = no_worker)
           || bool_decide (ts_state dts = processing)
        then ret (recs_set recommendations d waiting)
        else if bool_decide (ts_state dts = waiting)
        then upd_task d (fun t => set_ts_waiting_on (ts_waiting_on t ∪ {[key]}) t) ;;
             ret recommendations
        else ret recommendations) ;;
    let worker_msgs : WorkerMsgs :=
      foldr (fun ws acc => <[Some ws := [msg_free_keys [key] "memory-released"]]> acc)
            ∅ (elements (ts_who_has ts)) in
    remove_all_replicas key ;;
    set_state key released ;;
    ts <- gets (task_obj key) ;;
    let client_msgs := report_to (ts_who_wants ts) (msg_lost_data key) ∅ in
    let recommendations :=
      if negb (is_Some_b (ts_run_spec ts))
      then recs_set recommendations key forgotten
      else if ts_has_lost_dependencies ts
      then recs_set recommendations key forgotten
      else if nonempty_set (ts_who_wants ts) || nonempty_set (ts_waiters ts)
      then recs_set recommendations key waiting
      else recommendations in
    ret (recommendations, client_msgs, worker_msgs).

(** [for dts in ts._dependents: dts._exception_blame = failing_ts; ...],
    recommending [erred] for the dependents selected by [recommend]. *)
Definition blame_dependents (key : string) (failing_ts : option string)
    (recommend : TaskState -> bool) (recommendations : Recs) : Sched Recs :=
  ts <- gets (task_obj key) ;;
  for_fold (elements (ts_dependents ts)) recommendations
    (fun recommendations d =>
      upd_task d (set_ts_exception_blame failing_ts) ;;
      dts <- gets (task_obj d) ;;
      if recommend dts then ret (recs_set recommendations d erred)
      else ret recommendations).

Definition transition_released_erred (key : string) (kw : Kwargs)
  : Sched Out :=
  accept_kwargs (kwargs_empty kw) ;;
  ts <- get_task key ;;
  let failing_ts := ts_exception_blame ts in
  recommendations <-
    blame_dependents key failing_ts
      (fun dts => negb (nonempty_set (ts_who_has dts))) [] ;;
  '(exception, traceback) <- lift_res (blamed failing_ts) ;;
  let client_msgs :=
    report_to (ts_who_wants ts) (msg_task_erred key exception traceback) ∅ in
  set_state key erred ;;
  ret (recommendations, client_msgs, ∅).

Definition transition_erred_released (key : string) (kw : Kwargs)
  : Sched Out :=
  accept_kwargs (kwargs_empty kw) ;;
  ts <- get_task key ;;
  upd_task key (set_ts_exception None) ;;
  upd_task key (set_ts_exception_blame None) ;;
  upd_task key (set_ts_traceback None) ;;
  s <- gets id ;;
  let recommendations :=
    fold_left (fun recommendations d =>
                 if bool_decide (ts_state (task_obj d s) = erred)
                 then recs_set recommendations d waiting
                 else recommendations)
              (elements (ts_dependents ts)) [] in
  let worker_msgs : WorkerMsgs :=
    foldr (fun ws_addr acc => <[ws_addr := [msg_free_keys [key] "erred-released"]]> acc)
          ∅ (elements (ts_erred_on ts)) in
  upd_task key (set_ts_erred_on ∅) ;;
  let client_msgs := report_to (ts_who_wants ts) (msg_task_retried key) ∅ in
  set_state key released ;;
  ret (recommendations, client_msgs, worker_msgs).

(** [dts._waiters.discard(ts); if not dts._waiters and not dts._who_wants:
    recommendations[dts._key] = "released"] *)
Definition stop_waiting_for (key d : string) (recommendations : Recs)
  : Sched Recs :=
  dts <- gets (task_obj d) ;;
  upd_task d (set_ts_waiters (ts_waiters dts ∖ {[key]})) ;;
  if negb (nonempty_set (ts_waiters dts ∖ {[key]}))
     && negb (nonempty_set (ts_who_wants dts))
  then ret (recs_set recommendations d released)
  else ret recommendations.

Definition transition_waiting_released (key : string) (kw : Kwargs)
  : Sched Out :=
  accept_kwargs (kwargs_empty kw) ;;
  ts <- get_task key ;;
  recommendations <-
    for_fold (elements (ts_dependencies ts)) [] (fun recommendations d =>
      dts <- gets (task_obj d) ;;
      if bool_decide (key ∈ ts_waiters dts)
      then stop_waiting_for key d recommendations
      else ret recommendations) ;;
  upd_task key (set_ts_waiting_on ∅) ;;
  set_state key released ;;
  ts <- gets (task_obj key) ;;
  if ts_has_lost_dependencies ts
  then ret (recs_set recommendations key forgotten, ∅, ∅)
  else if negb (is_Some_b (ts_exception_blame ts))
          && (nonempty_set (ts_who_wants ts) || nonempty_set (ts_waiters ts))
  then ret (recs_set recommendations key waiting, ∅, ∅)
  else
    upd_task key (set_ts_waiters ∅) ;;
    ret (recommendations, ∅, ∅).

Definition transition_processing_released (key : string) (kw : Kwargs)
  : Sched Out :=
  accept_kwargs (kwargs_empty kw) ;;
  ts <- get_task key ;;
  w <- _remove_from_processing key ;;
  let worker_msgs : WorkerMsgs :=
    match w with
    | Some w => if bool_decide (w = "") then ∅
                else {[Some w := [msg_free_keys [key] "processing-released"]]}
    | None => ∅
    end in
  set_state key released ;;
  ts <- gets (task_obj key) ;;
  let recommendations : Recs :=
    if ts_has_lost_dependencies ts then [(key, forgotten)]
    else if nonempty_set (ts_waiters ts) || nonempty_set (ts_who_wants ts)
    then [(key, waiting)]
    else [] in
  if negb (bool_decide (recs_get recommendations key = Some waiting))
  then
    recommendations <-
      for_fold (elements (ts_dependencies ts)) recommendations
        (fun recommendations d =>
          dts <- gets (task_obj d) ;;
          if negb (bool_decide (ts_state dts = released))
          then stop_waiting_for key d recommendations
          else ret recommendations) ;;
    upd_task key (set_ts_waiters ∅) ;;
    ret (recommendations, ∅, worker_msgs)
  else ret (recommendations, ∅, worker_msgs).

Definition transition_processing_erred (key : string) (kw : Kwargs)
  : Sched Out :=
  ts <- get_task key ;;
  (if ts_actor ts
   then match ts_processing_on ts with
        | None => raise AttributeError
        | Some ws =>
            w <- gets (worker_obj ws) ;;
            actors <- of_res (set_remove key (ws_actors w)) ;;
            upd_worker ws (set_ws_actors actors)
        end
   else ret tt) ;;
  w <- _remove_from_processing key ;;
  let w_or_worker :=
    match w with
    | Some w => if bool_decide (w = "") then kw_worker kw else Some w
    | None => kw_worker kw
    end in
  upd_task key (fun t => set_ts_erred_on (ts_erred_on t ∪ {[w_or_worker]}) t) ;;
  when (is_Some_b (kw_exception kw))
    (upd_task key (set_ts_exception (kw_exception kw)) ;;
     upd_task key (set_ts_exception_text (kw_exception_text kw))) ;;
  when (is_Some_b (kw_traceback kw))
    (upd_task key (set_ts_traceback (kw_traceback kw)) ;;
     upd_task key (set_ts_traceback_text (kw_traceback_text kw))) ;;
  failing_ts <-
    match kw_cause kw with
    | Some cause =>
        get_task cause ;;
        upd_task key (set_ts_exception_blame (Some cause)) ;;
        ret (Some cause)
    | None => ret (ts_exception_blame ts)
    end ;;
  recommendations <- blame_dependents key failing_ts (fun _ => true) [] ;;
  recommendations <-
    for_fold (elements (ts_dependencies ts)) recommendations
      (fun recommendations d => stop_waiting_for key d recommendations) ;;
  upd_task key (set_ts_waiters ∅) ;;
  set_state key erred ;;
  '(exception, traceback) <- lift_res (blamed failing_ts) ;;
  let client_msgs :=
    report_to (ts_who_wants ts) (msg_task_erred key exception traceback) ∅ in
  cs <- get_client "fire-and-forget" ;;
  if bool_decide (key ∈ cs_wants_what cs)
  then
    recommendations <- _client_releases_keys [key] "fire-and-forget" recommendations ;;
    ret (recommendations, client_msgs, ∅)
  else ret (recommendations, client_msgs, ∅).

Definition transition_no_worker_released (key : string) (kw : Kwargs)
  : Sched Out :=
  accept_kwargs (kwargs_empty kw) ;;
  ts <- get_task key ;;
  un <- gets unrunnable ;;
  un <- of_res (set_remove key un) ;;
  modify (set_unrunnable un) ;;
  set_state key released ;;
  for_each (elements (ts_dependencies ts)) (fun d =>
    upd_task d (fun t => set_ts_waiters (ts_waiters t ∖ {[key]}) t)) ;;
  upd_task key (set_ts_waiters ∅) ;;
  ret empty_out.

(** The common part of [transition_memory_forgotten] and
    [transition_released_forgotten]. *)
Definition forget (key : string) : Sched Out :=
  '(recommendations, worker_msgs) <- _propagate_forgotten key [] ∅ ;;
  ts <- gets (task_obj key) ;;
  client_msgs <- lift_res (_task_to_client_msgs ts) ;;
  remove_key key ;;
  ret (recommendations, client_msgs, worker_msgs).

Definition transition_memory_forgotten (key : string) (kw : Kwargs)
  : Sched Out :=
  accept_kwargs (kwargs_empty kw) ;;
  ts <- get_task key ;;
  when (ts_actor ts)
    (for_each (elements (ts_who_has ts)) (fun ws =>
       upd_worker ws (fun w => set_ws_actors (ws_actors w ∖ {[key]}) w))) ;;
  forget key.

Definition transition_released_forgotten (key : string) (kw : Kwargs)
  : Sched Out :=
  accept_kwargs (kwargs_empty kw) ;;
  get_task key ;;
  forget key.

(** ** The transition engine *)

(** [self._transitions_table] *)
Definition transitions_table (start finish : TaskStateName)
  : option (string -> Kwargs -> Sched Out) :=
  match start, finish with
  | released, waiting => Some transition_released_waiting
  | waiting, released => Some transition_waiting_released
  | waiting, processing => Some transition_waiting_processing
  | waiting, memory => Some transition_waiting_memory
  | processing, released => Some transition_processing_released
  | processing, memory => Some transition_processing_memory
  | processing, erred => Some transition_processing_erred
  | no_worker, released => Some transition_no_worker_released
  | no_worker, waiting => Some transition_no_worker_waiting
  | no_worker, memory => Some transition_no_worker_memory
  | released, forgotten => Some transition_released_forgotten
  | memory, forgotten => Some transition_memory_forgotten
  | erred, released => Some transition_erred_released
  | memory, released => Some transition_memory_released
  | released, erred => Some transition_released_erred
  | _, _ => None
  end.

(** [l.remove(x)] on a Python list *)
Fixpoint list_remove (x : string) (l : list string) : Res (list string) :=
  match l with
  | [] => Err ValueError
  | y :: l' =>
      if bool_decide (y = x) then Ok l'
      else match list_remove x l' with
           | Ok r => Ok (y :: r)
           | Err e => Err e
           end
  end.

(** The end of [_transition], after the handlers have run: the transition
    log and the removal of a task group whose tasks are all forgotten.  No
    plugin is registered.  [ts] is the task as it was before the handlers
    ran; its group and prefix never change. *)
Definition finish_transition (key : string) (ts : TaskState)
    (start : TaskStateName) (out : Out) : Sched Out :=
  finish2 <- gets (fun s => ts_state (task_obj key s)) ;;
  modify (fun s =>
    set_transition_log (transition_log s ++ [(key, start, finish2, out.1.1)]) s) ;;
  tg <- gets (group_obj (ts_group ts)) ;;
  groups <- gets task_groups ;;
  (if bool_decide (finish2 = forgotten) && bool_decide (ts_group ts ∈ groups)
   then
     let all_forgotten :=
       forallb (fun st => bool_decide (count_of (tg_states tg) st = 0%Z))
               [released; waiting; no_worker; processing; erred; memory] in
     if all_forgotten
     then
       tp <- gets (prefix_obj (ts_prefix ts)) ;;
       gs <- of_res (list_remove (ts_group ts) (tp_groups tp)) ;;
       upd_prefix (ts_prefix ts) (set_tp_groups gs) ;;
       modify (fun s => set_task_groups (task_groups s ∖ {[ts_group ts]}) s)
     else ret tt
   else ret tt) ;;
  ret out.

(** [_transition(key, finish, **kwargs)].  The method calls itself for the
    first leg of a compound transition; [depth] bounds the nesting of these
    calls. *)
Fixpoint _transition_rec (depth : nat) (key : string) (finish : TaskStateName)
    (kw : Kwargs) : Sched Out :=
  match depth with
  | O => raise RecursionError
  | S depth' =>
      ots <- gets (fun s => tasks s !! key) ;;
      match ots with
      | None => ret empty_out
      | Some ts =>
          let start := ts_state ts in
          if bool_decide (start = finish) then ret empty_out
          else
            match transitions_table start finish with
            | Some func =>
                out <- func key kw ;;
                modify (fun s => set_transition_counter (transition_counter s + 1)%Z s) ;;
                finish_transition key ts start out
            | None =>
                if negb (bool_decide (start = released))
                   && negb (bool_decide (finish = released))
                then
                  py_assert (kwargs_empty kw) ;;
                  '(a_recs, a_cmsgs, a_wmsgs) <-
                    _transition_rec depth' key released no_kwargs ;;
                  let v := default finish (recs_get a_recs key) in
                  match transitions_table released v with
                  | None => raise KeyError
                  | Some func =>
                      '(b_recs, b_cmsgs, b_wmsgs) <- func key no_kwargs ;;
                      finish_transition key ts released
                        (recs_update (recs_update [] a_recs) b_recs,
                         merge_msgs (merge_msgs ∅ a_cmsgs) b_cmsgs,
                         merge_msgs (merge_msgs ∅ a_wmsgs) b_wmsgs)
                  end
                else raise RuntimeError
            end
      end
  end.

(** The nested call asks for [released], a request that never nests
    again: two levels are all the method uses. *)
Definition _transition (key : string) (finish : TaskStateName) (kw : Kwargs)
  : Sched Out :=
  _transition_rec 2 key finish kw.

(** The loop of [_transitions(recommendations, client_msgs, worker_msgs)],
    run for at most [fuel] iterations: [None] when recommendations are left
    after [fuel] transitions, otherwise the messages accumulated. *)
Fixpoint _transitions_loop (fuel : nat) (recommendations : Recs)
    (client_msgs : ClientMsgs) (worker_msgs : WorkerMsgs)
  : Sched (option (ClientMsgs * WorkerMsgs)) :=
  match recs_popitem recommendations with
  | None => ret (Some (client_msgs, worker_msgs))
  | Some ((key, finish), recommendations) =>
      match fuel with
      | O => ret None
      | S fuel' =>
          '(new_recs, new_cmsgs, new_wmsgs) <- _transition key finish no_kwargs ;;
          _transitions_loop fuel' (recs_update recommendations new_recs)
            (merge_msgs client_msgs new_cmsgs)
            (merge_msgs worker_msgs new_wmsgs)
      end
  end.

(** ** Stimuli *)

(** [stimulus_task_erred(key, worker, exception, traceback, **kwargs)];
    [kw] holds the further keyword arguments. *)
Definition stimulus_task_erred (key : string) (worker : option string)
    (exception traceback : option string) (kw : Kwargs) : Sched Out :=
  ots <- gets (fun s => tasks s !! key) ;;
  match ots with
  | None => ret empty_out
  | Some ts =>
      if negb (bool_decide (ts_state ts = processing)) then ret empty_out
      else if (0 <? ts_retries ts)%Z
      then
        upd_task key (set_ts_retries (ts_retries ts - 1)%Z) ;;
        _transition key waiting no_kwargs
      else
        _transition key erred
          (Build_Kwargs worker (kw_nbytes kw) (kw_type kw) (kw_typename kw)
             (kw_startstops kw) (Some key) exception traceback
             (kw_exception_text kw) (kw_traceback_text kw) (kw_safe kw)
             (kw_other kw))
  end.

(** ** Memory rebalance *)

(** [MemoryState], as its constructor normalises the four readings. *)
Record MemoryState : Type := Build_MemoryState {
  ms_process : Z;
  ms_managed_in_memory : Z;
  ms_managed_spilled : Z;
  ms_unmanaged_old : Z;
}.

(** [MemoryState.__init__] *)
Definition new_MemoryState (process unmanaged_old managed_in_memory
    managed_spilled : Z) : MemoryState :=
  let mim := Z.min process managed_in_memory in
  Build_MemoryState process mim managed_spilled
    (Z.min unmanaged_old (process - mim)).

(** The property [WorkerState.memory] *)
Definition ws_memory (ws : WorkerState) : MemoryState :=
  new_MemoryState
    (default 0%Z (ws_metrics_memory ws))
    (ws_memory_unmanaged_old ws)
    (Z.max 0 (ws_nbytes ws - ws_spilled_memory ws))
    (ws_spilled_disk ws).

(** [getattr(ws.memory, measure)] *)
Definition measure_of (m : Measure) (ms : MemoryState) : Z :=
  match m with
  | measure_process => ms_process ms
  | measure_optimistic => (ms_managed_in_memory ms + ms_unmanaged_old ms)%Z
  | measure_managed => (ms_managed_in_memory ms + ms_managed_spilled ms)%Z
  | measure_managed_in_memory => ms_managed_in_memory ms
  end.

(** [int(x)]: truncation towards zero *)
Definition py_int (x : Q) : Z :=
  if Qltb x 0 then Qceiling x else Qfloor x.

(** An element of the [senders] heap: [(snd_bytes_max, snd_bytes_min,
    id(ws), ws, ts_iter)]; the iterator is the list of keys not yet
    visited. *)
Record Sender : Type := Build_Sender {
  snd_bytes_max : Z;
  snd_bytes_min : Z;
  snd_id : Z;
  snd_ws : string;
  snd_iter : list string;
}.

(** An element of the [recipients] heap. *)
Record Recipient : Type := Build_Recipient {
  rec_bytes_max : Z;
  rec_bytes_min : Z;
  rec_id : Z;
  rec_ws : string;
}.

(** Tuples are ordered by their first three components; [id(ws)] is unique,
    so the later components are never compared. *)
Definition heap_key_ltb (a b : Z * Z * Z) : bool :=
  let '(a1, a2, a3) := a in
  let '(b1, b2, b3) := b in
  if (a1 <? b1)%Z then true else if (b1 <? a1)%Z then false
  else if (a2 <? b2)%Z then true else if (b2 <? a2)%Z then false
  else (a3 <? b3)%Z.

Definition sender_key (x : Sender) : Z * Z * Z :=
  (snd_bytes_max x, snd_bytes_min x, snd_id x).

Definition recipient_key (x : Recipient) : Z * Z * Z :=
  (rec_bytes_max x, rec_bytes_min x, rec_id x).

(** The [heapq] module of the Python library, through what the code
    observes of it: [heap[0]] is the least element.  A heap is kept as the
    list of its elements in increasing order. *)
Fixpoint heappush {A} (keyf : A -> Z * Z * Z) (x : A) (heap : list A) : list A :=
  match heap with
  | [] => [x]
  | y :: heap' =>
      if heap_key_ltb (keyf x) (keyf y) then x :: heap
      else y :: heappush keyf x heap'
  end.

Definition heapify {A} (keyf : A -> Z * Z * Z) (l : list A) : list A :=
  foldr (heappush keyf) [] l.

Definition heappop {A} (heap : list A) : list A := tail heap.

Definition heapreplace {A} (keyf : A -> Z * Z * Z) (heap : list A) (x : A)
  : list A :=
  heappush keyf x (tail heap).

(** The inner [while recipients and not use_recipient] loop together with
    the re-insertion of [skipped_recipients]: the recipient to use, if any,
    and the heap afterwards. *)
Fixpoint find_recipient (s : SchedulerState) (key : string) (nbytes : Z)
    (recipients skipped : list Recipient)
  : option Recipient * list Recipient :=
  match recipients with
  | [] => (None, foldl (fun h r => heappush recipient_key r h) [] skipped)
  | r :: rest =>
      if (0 <? nbytes + rec_bytes_max r)%Z
      then (None, foldl (fun h r => heappush recipient_key r h) recipients skipped)
      else if bool_decide (key ∉ ws_has_what (worker_obj (rec_ws r) s))
      then (Some r, foldl (fun h r => heappush recipient_key r h) recipients skipped)
      else find_recipient s key nbytes rest (skipped ++ [r])
  end.

(** One pass of [for ts in ts_iter] over the tasks of the top sender, up to
    its [break] or the exhaustion of the iterator: the heaps and the
    messages afterwards. *)
Fixpoint visit_sender (s : SchedulerState) (keys : option (gset string))
    (snd : Sender) (ts_iter : list string)
    (senders : list Sender) (recipients : list Recipient)
    (msgs : list (string * string * string))
  : list Sender * list Recipient * list (string * string * string) :=
  match ts_iter with
  | [] => (heappop senders, recipients, msgs)
  | key :: ts_iter' =>
      if match keys with Some ks => negb (bool_decide (key ∈ ks)) | None => false end
      then visit_sender s keys snd ts_iter' senders recipients msgs
      else
        let nbytes := ts_nbytes (task_obj key s) in
        if (0 <? nbytes + snd_bytes_max snd)%Z
        then visit_sender s keys snd ts_iter' senders recipients msgs
        else
          match find_recipient s key nbytes recipients [] with
          | (None, recipients) =>
              visit_sender s keys snd ts_iter' senders recipients msgs
          | (Some r, recipients) =>
              let msgs := msgs ++ [(snd_ws snd, rec_ws r, key)] in
              let snd' := Build_Sender (snd_bytes_max snd + nbytes)
                            (snd_bytes_min snd + nbytes) (snd_id snd)
                            (snd_ws snd) ts_iter' in
              let r' := Build_Recipient (rec_bytes_max r + nbytes)
                          (rec_bytes_min r + nbytes) (rec_id r) (rec_ws r) in
              let senders :=
                if (snd_bytes_min snd' <? 0)%Z
                then heapreplace sender_key senders snd'
                else heappop senders in
              let recipients :=
                if (rec_bytes_min r' <? 0)%Z
                then heapreplace recipient_key recipients r'
                else heappop recipients in
              (senders, recipients, msgs)
          end
  end.

(** [while senders and recipients], for at most [fuel] iterations. *)
Fixpoint rebalance_loop (fuel : nat) (s : SchedulerState)
    (keys : option (gset string)) (senders : list Sender)
    (recipients : list Recipient) (msgs : list (string * string * string))
  : option (list (string * string * string)) :=
  match senders, recipients with
  | snd :: _, _ :: _ =>
      match fuel with
      | O => None
      | S fuel' =>
          let '(senders, recipients, msgs) :=
            visit_sender s keys snd (snd_iter snd) senders recipients msgs in
          rebalance_loop fuel' s keys senders recipients msgs
      end
  | _, _ => Some msgs
  end.

(** The classification of one worker in [_rebalance_find_msgs]. *)
Definition classify_worker (s : SchedulerState) (mean_memory : Z)
    (ws : string) (ws_mem : Z) : option Sender * option Recipient :=
  let w := worker_obj ws s in
  let limit := ws_memory_limit w in
  let half_gap :=
    if bool_decide (limit = 0%Z) then 0%Z
    else py_int (MEMORY_REBALANCE_HALF_GAP s * Zq limit) in
  let sender_min :=
    if bool_decide (limit = 0%Z) then 0%Q
    else (MEMORY_REBALANCE_SENDER_MIN s * Zq limit)%Q in
  let below_recipient_max :=
    if bool_decide (limit = 0%Z) then true
    else Qltb (Zq ws_mem) (MEMORY_REBALANCE_RECIPIENT_MAX s * Zq limit) in
  if negb (bool_decide (ws_has_what w = []))
     && (mean_memory + half_gap <=? ws_mem)%Z
     && Qleb sender_min (Zq ws_mem)
  then
    let snd_bytes_max := (mean_memory - ws_mem)%Z in
    (Some (Build_Sender snd_bytes_max (snd_bytes_max + half_gap) (ws_id w) ws
             (ws_has_what w)), None)
  else if (ws_mem <? mean_memory - half_gap)%Z && below_recipient_max
  then
    let rec_bytes_max := (ws_mem - mean_memory)%Z in
    (None, Some (Build_Recipient rec_bytes_max (rec_bytes_max + half_gap)
                   (ws_id w) ws))
  else (None, None).

(** [_rebalance_find_msgs(keys, workers)]: the list of
    [(sender, recipient, task)], or [None] should the loop need more
    iterations than there are tasks to visit and senders to drop. *)
Definition _rebalance_find_msgs (keys : option (gset string))
    (workers : list string) (s : SchedulerState)
  : Res (option (list (string * string * string))) :=
  let memory_by_worker :=
    map (fun ws => (ws, measure_of (MEMORY_REBALANCE_MEASURE s)
                          (ws_memory (worker_obj ws s)))) workers in
  if bool_decide (memory_by_worker = []) then Err ZeroDivisionError
  else
    let mean_memory :=
      (foldr (fun wm acc => wm.2 + acc) 0 memory_by_worker
       / Z.of_nat (length memory_by_worker))%Z in
    let classified :=
      map (fun wm => classify_worker s mean_memory wm.1 wm.2) memory_by_worker in
    let senders := omap fst classified in
    let recipients := omap snd classified in
    if bool_decide (senders = []) || bool_decide (recipients = [])
    then Ok (Some [])
    else
      let fuel :=
        (length senders + foldr (fun x acc => length (snd_iter x) + acc) 0 senders)%nat in
      Ok (rebalance_loop fuel s keys (heapify sender_key senders)
            (heapify recipient_key recipients) []).

(** ** Construction of states *)

(** [TaskState.__init__(key, run_spec)] followed by the assignments of
    [new_task]: state, prefix and group. *)
Definition new_TaskState (key : string) (run_spec : option string)
    (state : TaskStateName) (prefix group : string) : TaskState :=
  Build_TaskState key run_spec [] state ∅ ∅ false ∅ ∅ ∅ ∅ None 0 (-1) None
    None None None None None ∅ 0 ∅ ∅ ∅ false false prefix group.

(** [WorkerState.__init__], with the memory metrics of the first
    heartbeat. *)
Definition new_WorkerState (address : string) (status : Status)
    (nthreads memory_limit process_memory id : Z) : WorkerState :=
  Build_WorkerState address address address status nthreads memory_limit 0 0
    ∅ [] ∅ ∅ ∅ ∅ ∅ (Some process_memory) 0 0 0 id.

(** [TaskGroup.__init__(name)], with its prefix. *)
Definition new_TaskGroup (name prefix : string) : TaskGroup :=
  Build_TaskGroup name prefix
    (list_to_map [(released, 0%Z); (waiting, 0%Z); (no_worker, 0%Z);
                  (processing, 0%Z); (erred, 0%Z); (memory, 0%Z);
                  (forgotten, 0%Z)])
    ∅ 0 0 ∅ 0 0 ∅ None 0.

(** [TaskPrefix.__init__(name)], no default duration configured. *)
Definition new_TaskPrefix (name : string) : TaskPrefix :=
  Build_TaskPrefix name [] ∅ (-1) 0.

(** [SchedulerState.__init__] over empty tables, with the configuration
    defaults of [distributed.yaml]: bandwidth 100 MB/s, default data size
    1 kiB, unknown task duration 500 ms, rebalance measure [optimistic],
    sender-min 0.3, recipient-max 0.6, sender-recipient-gap 0.1. *)
Definition new_SchedulerState : SchedulerState :=
  Build_SchedulerState ∅ 100000000 {["fire-and-forget" := Build_ClientState "fire-and-forget" ∅]}
    ∅ ∅ 0 ∅ ∅ ∅ ∅ ∅ ∅ ∅ ∅ 0 0 ∅ ∅ ∅ ∅ 0 [] (1 # 2) 1024 measure_optimistic
    (3 # 10) (6 # 10) ((1 # 10) / 2).

(** [new_task(key, spec, state)]: the task, its prefix and its group are
    entered in the tables. *)
Definition new_task (key : string) (spec : option string)
    (state : TaskStateName) (prefix group : string) (s : SchedulerState)
  : SchedulerState :=
  let s := match task_prefixes s !! prefix with
           | Some _ => s
           | None => set_task_prefixes (<[prefix := new_TaskPrefix prefix]> (task_prefixes s)) s
           end in
  let s := if bool_decide (group ∈ task_groups s) then s
           else
             set_task_prefixes
               (alter (fun tp => set_tp_groups (tp_groups tp ++ [group]) tp) prefix
                      (task_prefixes s))
               (set_task_groups (task_groups s ∪ {[group]})
                  (set_group_objs (<[group := new_TaskGroup group prefix]> (group_objs s)) s)) in
  let s := set_group_objs
             (alter (fun tg => set_tg_states
                        (<[state := (count_of (tg_states tg) state + 1)%Z]> (tg_states tg)) tg)
                    group (group_objs s)) s in
  set_tasks (<[key := new_TaskState key spec state prefix group]> (tasks s)) s.

(** The bookkeeping of [add_worker] that the core reads: the worker table,
    [running], [host_info], [aliases], the thread total and [idle]. *)
Definition add_worker_state (ws : WorkerState) (s : SchedulerState)
  : SchedulerState :=
  let addr := ws_address ws in
  let hi := default (Build_HostInfo ∅ 0) (host_info s !! ws_host ws) in
  let s' :=
    Build_SchedulerState
      (<[ws_name ws := addr]> (aliases s)) (bandwidth s) (clients s)
      (<[ws_host ws := Build_HostInfo (hi_addresses hi ∪ {[addr]})
                          (hi_nthreads hi + ws_nthreads ws)]> (host_info s))
      (if (len_map (ws_processing ws) <? ws_nthreads ws)%Z
       then idle s ∪ {[addr]} else idle s)
      (n_tasks s) (resources s) (saturated s)
      (if bool_decide (ws_status ws = Status_running)
       then running s ∪ {[addr]} else running s)
      (tasks s) (task_groups s) (group_objs s) (task_prefixes s)
      (replicated_tasks s) (total_nthreads s + ws_nthreads ws)
      (total_occupancy s) (unknown_durations s) (unrunnable s)
      (workers s ∪ {[addr]}) (<[addr := ws]> (worker_objs s))
      (transition_counter s) (transition_log s) (UNKNOWN_TASK_DURATION s)
      (DEFAULT_DATA_SIZE s) (MEMORY_REBALANCE_MEASURE s)
      (MEMORY_REBALANCE_SENDER_MIN s) (MEMORY_REBALANCE_RECIPIENT_MAX s)
      (MEMORY_REBALANCE_HALF_GAP s) in
  s'.

(** The final state of a run, and its result. *)
Definition run {A} (m : Sched A) (s : SchedulerState) : Res (A * SchedulerState) :=
  m s.

Definition state_after {A} (m : Sched A) (s : SchedulerState)
  : option SchedulerState :=
  match m s with Ok (_, s') => Some s' | Err _ => None end.

(** *** The rebalance scenario: two workers, six keys of 200 bytes *)

Definition rebalance_keys : list string := ["k1"; "k2"; "k3"; "k4"; "k5"; "k6"].

Definition rebalance_scenario : SchedulerState :=
  let s := add_worker_state (new_WorkerState "A" Status_running 1 2000 1200 1)
             (add_worker_state (new_WorkerState "B" Status_running 1 2000 0 2)
                new_SchedulerState) in
  let s := foldl (fun s k => new_task k None memory k k s) s rebalance_keys in
  let s := foldl (fun s k => set_tasks (alter (set_ts_nbytes 200) k (tasks s)) s)
                 s rebalance_keys in
  match (for_each rebalance_keys (fun k => add_replica k "A")) s with
  | Ok (_, s') => s'
  | Err _ => s
  end.

(** * Properties *)

(** ** Numbers *)

Lemma Qltb_lt (x y : Q) : Qltb x y = true <-> (x < y)%Q.
Proof.
  unfold Qltb. rewrite negb_true_iff. split.
  - intros H. apply Qnot_le_lt. intros Hle.
    apply Qle_bool_iff in Hle. congruence.
  - intros H. destruct (Qle_bool y x) eqn:E; [|reflexivity].
    apply Qle_bool_iff in E. exfalso. apply (Qlt_not_le _ _ H E).
Qed.

Lemma Qltb_ge (x y : Q) : Qltb x y = false <-> (y <= x)%Q.
Proof.
  unfold Qltb. rewrite negb_false_iff. apply Qle_bool_iff.
Qed.

Lemma Qleb_le (x y : Q) : Qleb x y = true <-> (x <= y)%Q.
Proof. apply Qle_bool_iff. Qed.

(** *** Binary64 rounding *)

Lemma round_half_even_spec (n d : Z) :
  (0 <= n)%Z -> (0 < d)%Z ->
  (0 <= round_half_even n d)%Z /\
  (2 * Z.abs (round_half_even n d * d - n) <= d)%Z.
Proof.
  intros Hn Hd. unfold round_half_even.
  pose proof (Z.div_mod n d ltac:(lia)) as E.
  pose proof (Z.mod_pos_bound n d Hd) as Hr.
  pose proof (Z.div_pos n d Hn Hd) as Hm.
  destruct (Z.compare_spec (2 * (n mod d)) d) as [Hc|Hc|Hc];
    [destruct (Z.even (n / d))| |]; split; nia.
Qed.

Lemma ilog2_spec (n d : Z) :
  (0 < n)%Z -> (0 < d)%Z ->
  if (0 <=? ilog2 n d)%Z then (d * 2 ^ ilog2 n d <= n)%Z
  else (d <= n * 2 ^ (- ilog2 n d))%Z.
Proof.
  intros Hn Hd. unfold ilog2.
  pose proof (Z.log2_spec n Hn) as [Ln1 Ln2].
  pose proof (Z.log2_spec d Hd) as [Ld1 Ld2].
  pose proof (Z.log2_nonneg n) as Pn. pose proof (Z.log2_nonneg d) as Pd.
  set (ln := Z.log2 n) in *. set (ld := Z.log2 d) in *.
  destruct (Z.leb_spec 0 (ln - ld)) as [He|He].
  - destruct (Z.ltb_spec n (d * 2 ^ (ln - ld))) as [Hb|Hb].
    + destruct (Z.leb_spec 0 (ln - ld - 1)) as [Hk|Hk].
      * assert (E : (2 ^ ln = 2 ^ (ld + 1) * 2 ^ (ln - ld - 1))%Z).
        { rewrite <- Z.pow_add_r by lia. f_equal. lia. }
        assert (0 < 2 ^ (ln - ld - 1))%Z by (apply Z.pow_pos_nonneg; lia).
        nia.
      * assert (E : (ln - ld - 1 = -1)%Z) by lia. rewrite E. cbn.
        assert (ln = ld) as -> by lia.
        replace (2 ^ Z.succ ld)%Z with (2 * 2 ^ ld)%Z in Ld2
          by (rewrite Z.pow_succ_r by lia; reflexivity). lia.
    + destruct (Z.leb_spec 0 (ln - ld)); [exact Hb|lia].
  - destruct (Z.ltb_spec (n * 2 ^ (- (ln - ld))) d) as [Hb|Hb].
    + destruct (Z.leb_spec 0 (ln - ld - 1)); [lia|].
      assert (E : (2 ^ ln * 2 ^ (- (ln - ld - 1)) = 2 ^ Z.succ ld)%Z).
      { rewrite <- Z.pow_add_r by lia. f_equal. lia. }
      assert (0 < 2 ^ (- (ln - ld - 1)))%Z by (apply Z.pow_pos_nonneg; lia).
      nia.
    + destruct (Z.leb_spec 0 (ln - ld)); [lia|exact Hb].
Qed.

Lemma Qpow2_pos (q : Z) : (0 < Qpow2 q)%Q.
Proof.
  unfold Qpow2. destruct (Z.leb_spec 0 q).
  - change 0%Q with (inject_Z 0). rewrite <- Zlt_Qlt. apply Z.pow_pos_nonneg; lia.
  - reflexivity.
Qed.

Lemma R64_zero (x : Q) : (x == 0)%Q -> R64 x = 0%Q.
Proof.
  intros H. unfold R64. unfold Qeq in H. cbn in H.
  rewrite Z.mul_1_r in H. rewrite H. reflexivity.
Qed.

(** The rounded value of a positive number as a fraction [W / E], and how
    near it is: within a thousandth of the number or within a thousandth
    (the actual bounds, [2^-53] and [2^-1075], are far smaller). *)
Lemma R64_pos_form (x : Q) :
  (0 < Qnum x)%Z ->
  exists W E : Z,
    (0 < E)%Z /\ (0 <= W)%Z /\
    (R64 x == inject_Z W / inject_Z E)%Q /\
    (1000 * Z.abs (W * Zpos (Qden x) - Qnum x * E)
     <= Qnum x * E + Zpos (Qden x) * E)%Z.
Proof.
  intros Hn. unfold R64.
  destruct (Z.eqb_spec (Qnum x) 0) as [H0|_]; [lia|].
  rewrite (Z.abs_eq (Qnum x)) by lia. rewrite (Z.sgn_pos _ Hn).
  set (n := Qnum x) in *. set (d := Zpos (Qden x)).
  assert (Hd : (0 < d)%Z) by reflexivity.
  pose proof (ilog2_spec n d Hn Hd) as Hk.
  set (k := ilog2 n d) in *.
  set (q := Z.max (k - 52) (-1074)).
  unfold Qpow2.
  destruct (Z.leb_spec 0 q) as [Hq|Hq].
  - assert (Eq : q = (k - 52)%Z) by lia.
    assert (P : (0 < 2 ^ q)%Z) by (apply Z.pow_pos_nonneg; lia).
    destruct (round_half_even_spec n (d * 2 ^ q) ltac:(lia) ltac:(nia)) as [Hm Hr].
    set (m := round_half_even n (d * 2 ^ q)) in *.
    exists (m * 2 ^ q)%Z, 1%Z. split; [lia|]. split; [nia|]. split.
    + rewrite Z.mul_1_l. rewrite inject_Z_mult. field.
    + destruct (Z.leb_spec 0 k) as [Hk0|Hk0]; [|lia].
      assert (E : (2 ^ k = 2 ^ q * 2 ^ 52)%Z).
      { rewrite <- Z.pow_add_r by lia. f_equal. lia. }
      rewrite E in Hk. change (2 ^ 52)%Z with 4503599627370496%Z in Hk.
      replace (m * 2 ^ q * d)%Z with (m * (d * 2 ^ q))%Z by ring. nia.
  - assert (P : (0 < 2 ^ (- q))%Z) by (apply Z.pow_pos_nonneg; lia).
    destruct (round_half_even_spec (n * 2 ^ (- q)) d ltac:(nia) Hd) as [Hm Hr].
    set (m := round_half_even (n * 2 ^ (- q)) d) in *.
    exists m, (2 ^ (- q))%Z. split; [exact P|]. split; [exact Hm|]. split.
    + rewrite Z.mul_1_l. unfold Qdiv, Qmult, Qinv, inject_Z, Qeq. cbn.
      destruct (2 ^ (- q))%Z eqn:E2; try lia. cbn. lia.
    + destruct (Z.eq_dec q (-1074)) as [E|E].
      * rewrite E in *. clear E.
        assert (1000 <= 2 ^ (- -1074))%Z.
        { change (- -1074)%Z with (10 + 1064)%Z. rewrite Z.pow_add_r by lia.
          assert (0 < 2 ^ 1064)%Z by (apply Z.pow_pos_nonneg; lia).
          change (2 ^ 10)%Z with 1024%Z. nia. }
        nia.
      * assert (Eq : q = (k - 52)%Z) by lia.
        assert (B : (d * 4503599627370496 <= n * 2 ^ (- q))%Z).
        { destruct (Z.leb_spec 0 k) as [Hk0|Hk0].
          - assert (E2 : (2 ^ k * 2 ^ (- q) = 2 ^ 52)%Z).
            { rewrite <- Z.pow_add_r by lia. f_equal. lia. }
            change (2 ^ 52)%Z with 4503599627370496%Z in E2.
            assert (0 < 2 ^ k)%Z by (apply Z.pow_pos_nonneg; lia). nia.
          - assert (E2 : (2 ^ (- q) = 2 ^ (- k) * 2 ^ 52)%Z).
            { rewrite <- Z.pow_add_r by lia. f_equal. lia. }
            change (2 ^ 52)%Z with 4503599627370496%Z in E2. nia. }
        nia.
Qed.

Lemma R64_nonneg (x : Q) : (0 <= x)%Q -> (0 <= R64 x)%Q.
Proof.
  intros H. destruct (Z.eq_dec (Qnum x) 0) as [E|E].
  - rewrite R64_zero; [apply Qle_refl|]. unfold Qeq. rewrite E. reflexivity.
  - assert (Hn : (0 < Qnum x)%Z).
    { unfold Qle in H. cbn in H. lia. }
    destruct (R64_pos_form x Hn) as (W & E' & HE & HW & -> & _).
    apply Qle_shift_div_l.
    + change 0%Q with (inject_Z 0). rewrite <- Zlt_Qlt. exact HE.
    + rewrite Qmult_0_l. change 0%Q with (inject_Z 0). rewrite <- Zle_Qle. exact HW.
Qed.

Lemma R64_opp (x : Q) : (R64 (- x) == - R64 x)%Q.
Proof.
  unfold R64. cbn [Qopp Qnum Qden].
  destruct (Z.eqb_spec (Qnum x) 0) as [E|E].
  - rewrite E. cbn. reflexivity.
  - destruct (Z.eqb_spec (- Qnum x) 0) as [E'|_]; [lia|].
    rewrite Z.abs_opp, Z.sgn_opp.
    rewrite Z.mul_opp_l, inject_Z_opp. ring.
Qed.

Lemma R64_nonpos (x : Q) : (x <= 0)%Q -> (R64 x <= 0)%Q.
Proof.
  intros H. assert (H' : (0 <= R64 (- x))%Q) by (apply R64_nonneg; lra).
  rewrite R64_opp in H'. lra.
Qed.

(** Rounding moves a number that is not negative by at most a thousandth of
    itself and a thousandth. *)
Lemma R64_near (x : Q) :
  (0 <= x)%Q ->
  (x - (x + 1) * (1 # 1000) <= R64 x)%Q /\ (R64 x <= x + (x + 1) * (1 # 1000))%Q.
Proof.
  intros H. destruct (Z.eq_dec (Qnum x) 0) as [E|E].
  - assert (Hx : (x == 0)%Q) by (unfold Qeq; rewrite E; reflexivity).
    rewrite (R64_zero x Hx). rewrite Hx. split; lra.
  - assert (Hn : (0 < Qnum x)%Z).
    { unfold Qle in H. cbn in H. lia. }
    destruct (R64_pos_form x Hn) as (W & E' & HE & HW & -> & Hb).
    destruct x as [n d]. cbn [Qnum Qden] in *.
    assert (HEq : (0 < inject_Z E')%Q)
      by (change 0%Q with (inject_Z 0); rewrite <- Zlt_Qlt; exact HE).
    assert (Hx : (n # d == inject_Z n / inject_Z (Zpos d))%Q)
      by (rewrite Qmake_Qdiv; reflexivity).
    assert (Hdq : (0 < inject_Z (Zpos d))%Q)
      by (change 0%Q with (inject_Z 0); rewrite <- Zlt_Qlt; reflexivity).
    rewrite Hx.
    assert (Hb1 : (1000 * (inject_Z W * inject_Z (Zpos d) - inject_Z n * inject_Z E')
                   <= inject_Z n * inject_Z E' + inject_Z (Zpos d) * inject_Z E')%Q).
    { change 1000%Q with (inject_Z 1000). unfold Qminus.
      rewrite <- !inject_Z_mult, <- inject_Z_opp, <- !inject_Z_plus,
        <- inject_Z_mult, <- Zle_Qle. lia. }
    assert (Hb2 : (1000 * (inject_Z n * inject_Z E' - inject_Z W * inject_Z (Zpos d))
                   <= inject_Z n * inject_Z E' + inject_Z (Zpos d) * inject_Z E')%Q).
    { change 1000%Q with (inject_Z 1000). unfold Qminus.
      rewrite <- !inject_Z_mult, <- inject_Z_opp, <- !inject_Z_plus,
        <- inject_Z_mult, <- Zle_Qle. lia. }
    set (Wq := inject_Z W) in *. set (Eq := inject_Z E') in *.
    set (nq := inject_Z n) in *. set (dq := inject_Z (Zpos d)) in *.
    split.
    + apply Qle_shift_div_l; [exact HEq|].
      apply (Qmult_le_r _ _ (dq * 1000)); [lra|].
      assert (E1 : ((nq / dq - (nq / dq + 1) * (1 # 1000)) * Eq * (dq * 1000)
                    == 1000 * (nq * Eq) - (nq * Eq + dq * Eq))%Q) by (field; lra).
      rewrite E1. lra.
    + apply Qle_shift_div_r; [exact HEq|].
      apply (Qmult_le_r _ _ (dq * 1000)); [lra|].
      assert (E1 : ((nq / dq + (nq / dq + 1) * (1 # 1000)) * Eq * (dq * 1000)
                    == 1000 * (nq * Eq) + (nq * Eq + dq * Eq))%Q) by (field; lra).
      rewrite E1. lra.
Qed.

Lemma Zf_near (z : Z) :
  (1 <= z)%Z ->
  ((998 # 1000) * Zq z <= Zf z)%Q /\ (Zf z <= (1002 # 1000) * Zq z)%Q.
Proof.
  intros Hz. unfold Zf.
  assert (H1 : (1 <= Zq z)%Q).
  { unfold Zq. change 1%Q with (inject_Z 1). rewrite <- Zle_Qle. exact Hz. }
  destruct (R64_near (Zq z)) as [L U]; [lra|]. split; lra.
Qed.

Lemma Zf_zero (z : Z) : (Zf z == 0)%Q <-> z = 0%Z.
Proof.
  split.
  - intros H. destruct (Z.lt_trichotomy z 0) as [Hn|[E|Hp]]; [|exact E|].
    + exfalso. assert (H1 : (1 <= - z)%Z) by lia.
      destruct (Zf_near (- z) H1) as [L _].
      assert (H2 : (1 <= Zq (- z))%Q).
      { unfold Zq. change 1%Q with (inject_Z 1). rewrite <- Zle_Qle. exact H1. }
      unfold Zf in L, H. change (Zq (- z)) with (- Zq z)%Q in *.
      pose proof (R64_opp (Zq z)) as Ho. lra.
    + exfalso. assert (H1 : (1 <= z)%Z) by lia.
      destruct (Zf_near z H1) as [L _].
      assert (H2 : (1 <= Zq z)%Q).
      { unfold Zq. change 1%Q with (inject_Z 1). rewrite <- Zle_Qle. exact H1. }
      rewrite H in L. lra.
  - intros ->. reflexivity.
Qed.

Lemma R64_div_pos_nonpos (a m : Q) : (a <= 0)%Q -> (0 < m)%Q -> (R64 (a / m) <= 0)%Q.
Proof.
  intros Ha Hm. apply R64_nonpos. apply Qle_shift_div_r; [exact Hm|]. lra.
Qed.

(** ** Running monadic code *)

Lemma bind_Ok {S A B} (m : M S A) (f : A -> M S B) (s : S) (r : B * S) :
  bind m f s = Ok r <-> exists a s1, m s = Ok (a, s1) /\ f a s1 = Ok r.
Proof.
  unfold bind. split.
  - destruct (m s) as [[a s1]|e]; [eauto | discriminate].
  - intros (a & s1 & -> & H). exact H.
Qed.

Lemma gets_Ok {S A} (f : S -> A) (s : S) (r : A * S) :
  gets f s = Ok r <-> r = (f s, s).
Proof. unfold gets. split; [intros [= <-]; reflexivity | intros ->; reflexivity]. Qed.

Lemma modify_Ok {S} (f : S -> S) (s : S) (r : unit * S) :
  modify f s = Ok r <-> r = (tt, f s).
Proof. unfold modify. split; [intros [= <-]; reflexivity | intros ->; reflexivity]. Qed.

Lemma ret_Ok {S A} (a : A) (s : S) (r : A * S) :
  ret a s = Ok r <-> r = (a, s).
Proof. unfold ret. split; [intros [= <-]; reflexivity | intros ->; reflexivity]. Qed.

Lemma of_res_Ok {S A} (x : Res A) (s : S) (r : A * S) :
  of_res x s = Ok r <-> exists a, x = Ok a /\ r = (a, s).
Proof.
  unfold of_res. destruct x; split.
  - intros [= <-]. eauto.
  - intros (? & [= <-] & ->). reflexivity.
  - discriminate.
  - intros (? & [=] & _).
Qed.

Lemma lift_res_Ok {S A} (f : S -> Res A) (s : S) (r : A * S) :
  lift_res f s = Ok r <-> exists a, f s = Ok a /\ r = (a, s).
Proof.
  unfold lift_res. destruct (f s); split.
  - intros [= <-]. eauto.
  - intros (? & [= <-] & ->). reflexivity.
  - discriminate.
  - intros (? & [=] & _).
Qed.

Lemma raise_Ok {S A} (e : PyError) (s : S) (r : A * S) :
  @raise S A e s = Ok r <-> False.
Proof. unfold raise. split; [discriminate | tauto]. Qed.

(** Decompose a successful run, one primitive at a time. *)
Ltac run_step H :=
  match type of H with
  | bind _ _ _ = Ok _ =>
      let a := fresh "a" in let s := fresh "s" in
      let H1 := fresh "Hrun" in
      apply bind_Ok in H; destruct H as (a & s & H1 & H);
      run_step H1
  | gets _ _ = Ok _ => apply gets_Ok in H; inversion H; subst; clear H
  | modify _ _ = Ok _ => apply modify_Ok in H; inversion H; subst; clear H
  | ret _ _ = Ok _ => apply ret_Ok in H; inversion H; subst; clear H
  | raise _ _ = Ok _ => apply raise_Ok in H; destruct H
  | of_res _ _ = Ok _ =>
      let a := fresh "a" in let E := fresh "Hres" in
      apply of_res_Ok in H; destruct H as (a & E & H); inversion H; subst; clear H
  | lift_res _ _ = Ok _ =>
      let a := fresh "a" in let E := fresh "Hres" in
      apply lift_res_Ok in H; destruct H as (a & E & H); inversion H; subst; clear H
  | _ => idtac
  end.

Lemma nonempty_set_false `{Countable K} (s : gset K) :
  nonempty_set s = false <-> s = ∅.
Proof.
  unfold nonempty_set. rewrite negb_false_iff, bool_decide_eq_true. reflexivity.
Qed.

Lemma nonempty_set_true `{Countable K} (s : gset K) :
  nonempty_set s = true <-> s <> ∅.
Proof.
  unfold nonempty_set. rewrite negb_true_iff, bool_decide_eq_false. reflexivity.
Qed.

Lemma nonempty_map_false `{Countable K} {V} (m : gmap K V) :
  nonempty_map m = false <-> m = ∅.
Proof.
  unfold nonempty_map. rewrite negb_false_iff, bool_decide_eq_true.
  apply dom_empty_iff_L.
Qed.

Lemma nonempty_map_true `{Countable K} {V} (m : gmap K V) :
  nonempty_map m = true <-> m <> ∅.
Proof.
  unfold nonempty_map. rewrite negb_true_iff, bool_decide_eq_false.
  rewrite dom_empty_iff_L. reflexivity.
Qed.

Lemma map_res_Ok {A B} (f : A -> Res B) (xs : list A) (ys : list B) :
  map_res f xs = Ok ys <-> Forall2 (fun x y => f x = Ok y) xs ys.
Proof.
  revert ys. induction xs as [|x xs IH]; intros ys; simpl.
  - split; [intros [= <-]; constructor | intros H; inversion H; reflexivity].
  - destruct (f x) as [y|e] eqn:E.
    + destruct (map_res f xs) as [ys'|e].
      * split.
        -- intros [= <-]. constructor; [exact E | apply IH; reflexivity].
        -- intros H. inversion H as [|? y0 ? ys0 Hy Hys]; subst.
           apply IH in Hys. congruence.
      * split; [discriminate|].
        intros H. inversion H as [|? y0 ? ys0 Hy Hys]; subst.
        apply IH in Hys. discriminate.
    + split; [discriminate|]. intros H. inversion H; subst. congruence.
Qed.

Lemma suppliers_spec (dr : gmap string Q) (required : Q) (w : string) :
  w ∈ suppliers dr required <->
  exists supplied, dr !! w = Some supplied /\ (required <= supplied)%Q.
Proof.
  unfold suppliers. rewrite elem_of_dom. unfold is_Some.
  split.
  - intros (x & Hx). apply map_lookup_filter_Some in Hx as (Hx & Hle).
    exists x. split; [exact Hx|]. apply Qleb_le. exact Hle.
  - intros (x & Hx & Hle). exists x. apply map_lookup_filter_Some.
    split; [exact Hx|]. apply Qleb_le. exact Hle.
Qed.

Lemma intersection_all_spec (sets : list (gset string)) (r : gset string) :
  intersection_all sets = Ok r ->
  sets <> [] /\ forall w, w ∈ r <-> forall x, x ∈ sets -> w ∈ x.
Proof.
  destruct sets as [|x rest]; [discriminate|].
  simpl. intros [= <-]. split; [discriminate|].
  revert x. induction rest as [|y rest IH]; intros x w; simpl.
  - split; [intros H z Hz; apply list_elem_of_singleton in Hz; subst; exact H
           | intros H; apply H; left].
  - rewrite IH. split.
    + intros H z Hz. apply elem_of_cons in Hz as [->|Hz].
      * specialize (H (x ∩ y) ltac:(left)). set_solver.
      * apply elem_of_cons in Hz as [->|Hz].
        -- specialize (H (x ∩ y) ltac:(left)). set_solver.
        -- apply H. right. exact Hz.
    + intros H z Hz. apply elem_of_cons in Hz as [->|Hz].
      * apply elem_of_intersection. split; apply H; [left | right; left].
      * apply H. right. right. exact Hz.
Qed.

(** ** Heartbeat interval *)




(** ** Rebalance *)

(** C7, as stated, fails: on the two-worker input the pairing does not stop
    after [k1] and [k2]. *)
Lemma rebalance_scenario_not_two_moves :
  _rebalance_find_msgs None ["A"; "B"] rebalance_scenario
  <> Ok (Some [("A", "B", "k1"); ("A", "B", "k2")]).
Proof. vm_compute. discriminate. Qed.

(** C7 (amended): worker A holding [k1 .. k6] of 200 bytes each (1200 bytes
    measured), worker B holding nothing, both with [memory_limit = 2000],
    sender-min 0.3, recipient-max 0.6 and gap 0.1: the pairing outputs
    exactly three moves, sending the three least recently inserted keys
    [k1], [k2], [k3] from A to B. *)
Theorem rebalance_scenario_three_moves :
  ws_has_what (worker_obj "A" rebalance_scenario) = rebalance_keys /\
  ws_has_what (worker_obj "B" rebalance_scenario) = [] /\
  measure_of measure_optimistic (ws_memory (worker_obj "A" rebalance_scenario)) = 1200%Z /\
  measure_of measure_optimistic (ws_memory (worker_obj "B" rebalance_scenario)) = 0%Z /\
  _rebalance_find_msgs None ["A"; "B"] rebalance_scenario
  = Ok (Some [("A", "B", "k1"); ("A", "B", "k2"); ("A", "B", "k3")]).
Proof. repeat split; vm_compute; reflexivity. Qed.

(** ** Idle and saturated workers *)

Lemma py_div_ok (x y : Q) : ~ (y == 0)%Q -> py_div x y = Ok (fdiv x y).
Proof.
  intros H. unfold py_div. destruct (Qeq_bool y 0) eqn:E; [|reflexivity].
  apply Qeq_bool_iff in E. contradiction.
Qed.

Lemma py_div_inv (x y r : Q) :
  py_div x y = Ok r -> ~ (y == 0)%Q /\ r = fdiv x y.
Proof.
  unfold py_div. destruct (Qeq_bool y 0) eqn:E; [discriminate|].
  intros [= <-]. split; [|reflexivity]. intros H. apply Qeq_bool_iff in H. congruence.
Qed.

Lemma Zq_lt (a b : Z) : (a < b)%Z <-> (Zq a < Zq b)%Q.
Proof. unfold Zq. rewrite <- Zlt_Qlt. reflexivity. Qed.

Lemma pending_nonpos (occ D M : Q) :
  (occ <= 0)%Q -> (0 < D)%Q -> (0 < M)%Q -> (fdiv (fmul occ D) M <= 0)%Q.
Proof.
  intros Ho HD HM. unfold fdiv. apply R64_div_pos_nonpos; [|exact HM].
  apply R64_nonpos. nra.
Qed.

(** The arithmetic behind the saturated test, in floating point: a worker
    that is idle by occupancy cannot pass it. *)
Lemma idle_excludes_saturated (occ avg : Q) (p nc : Z) :
  (0 < nc)%Z -> (nc < p)%Z ->
  (occ < fdiv (fmul (Zf nc) avg) 2)%Q ->
  (R64 (4 # 10) < fdiv (fmul occ (Zf (p - nc))) (Zf (p * nc)))%Q ->
  (fmul (R64 (19 # 10)) avg < fdiv (fmul occ (Zf (p - nc))) (Zf (p * nc)))%Q ->
  False.
Proof.
  intros Hnc Hp Hidle H04 H19. unfold fdiv in *.
  destruct (Zf_near nc ltac:(lia)) as [LN UN].
  destruct (Zf_near (p - nc) ltac:(lia)) as [LD UD].
  destruct (Zf_near (p * nc) ltac:(nia)) as [LM UM].
  assert (Hn0 : (1 <= Zq nc)%Q).
  { unfold Zq. change 1%Q with (inject_Z 1). rewrite <- Zle_Qle. lia. }
  assert (Hd0 : (1 <= Zq (p - nc))%Q).
  { unfold Zq. change 1%Q with (inject_Z 1). rewrite <- Zle_Qle. lia. }
  assert (Hm0 : (2 <= Zq (p * nc))%Q).
  { unfold Zq. change 2%Q with (inject_Z 2). rewrite <- Zle_Qle. nia. }
  assert (Hdm : (Zq (p - nc) <= Zq (p * nc))%Q).
  { unfold Zq. rewrite <- Zle_Qle. nia. }
  assert (Hndm : (Zq nc * Zq (p - nc) <= Zq (p * nc))%Q).
  { unfold Zq. rewrite <- inject_Z_mult, <- Zle_Qle. nia. }
  set (N := Zf nc) in *. set (D := Zf (p - nc)) in *. set (M := Zf (p * nc)) in *.
  set (n0 := Zq nc) in *. set (d0 := Zq (p - nc)) in *. set (m0 := Zq (p * nc)) in *.
  assert (T1 : (39 # 100 <= R64 (4 # 10))%Q)
    by (apply Qle_bool_iff; vm_compute; reflexivity).
  assert (Hc : (18 # 10 <= R64 (19 # 10))%Q)
    by (apply Qle_bool_iff; vm_compute; reflexivity).
  set (c := R64 (19 # 10)) in *. set (t1 := R64 (4 # 10)) in *.
  assert (HD : (0 < D)%Q) by lra. assert (HM : (0 < M)%Q) by lra.
  destruct (Qlt_le_dec 0 occ) as [Hocc|Hocc].
  2:{ pose proof (pending_nonpos occ D M Hocc HD HM) as Hn. unfold fdiv in Hn. lra. }
  destruct (Qlt_le_dec 0 avg) as [Havg|Havg].
  2:{ assert (R64 (fmul N avg / 2) <= 0)%Q.
      { apply R64_div_pos_nonpos; [|lra]. apply R64_nonpos. nra. }
      lra. }
  (* the idle threshold *)
  assert (Hx1 : (0 <= N * avg)%Q) by nra.
  destruct (R64_near (N * avg) Hx1) as [_ UB]. fold (fmul N avg) in UB.
  pose proof (R64_nonneg (N * avg) Hx1) as PB. fold (fmul N avg) in PB.
  set (B := fmul N avg) in *.
  assert (Ey : (B / 2 == B * (1 # 2))%Q) by (field).
  assert (Py : (0 <= B / 2)%Q) by (rewrite Ey; lra).
  destruct (R64_near (B / 2) Py) as [_ Uh].
  set (h := R64 (B / 2)) in *. set (y := (B / 2)%Q) in *.
  (* the pending metric *)
  assert (Hx2 : (0 <= occ * D)%Q) by nra.
  destruct (R64_near (occ * D) Hx2) as [_ UA]. fold (fmul occ D) in UA.
  pose proof (R64_nonneg (occ * D) Hx2) as PA. fold (fmul occ D) in PA.
  set (A := fmul occ D) in *.
  assert (Pz : (0 <= A / M)%Q).
  { apply Qle_shift_div_l; [exact HM|]. lra. }
  destruct (R64_near (A / M) Pz) as [_ Up].
  set (pending := R64 (A / M)) in *.
  (* the threshold of 1.9 times the average *)
  assert (Hx3 : (0 <= c * avg)%Q) by nra.
  destruct (R64_near (c * avg) Hx3) as [L2 _]. fold (fmul c avg) in L2.
  set (t2 := fmul c avg) in *.
  assert (Hcavg : ((18 # 10) * avg <= c * avg)%Q) by nra.
  (* products *)
  assert (HND : (N * D <= (1004004 # 1000000) * m0)%Q).
  { assert (N * D <= ((1002 # 1000) * n0) * ((1002 # 1000) * d0))%Q by nra.
    assert (0 <= n0 * d0)%Q by nra. lra. }
  assert (HoD : (occ * D <= h * D)%Q) by nra.
  assert (Hh : (h <= (1002001 # 2000000) * (N * avg) + (3001 # 2000000))%Q) by lra.
  assert (HhD : (h * D <= (1002001 # 2000000) * (avg * (N * D))
                          + (3001 # 2000000) * D)%Q) by nra.
  assert (HaND : (avg * (N * D) <= (1004004 # 1000000) * (avg * m0))%Q) by nra.
  assert (Pam : (0 <= avg * m0)%Q) by nra.
  set (am := (avg * m0)%Q) in *.
  set (aND := (avg * (N * D))%Q) in *.
  set (oD := (occ * D)%Q) in *. set (hD := (h * D)%Q) in *.
  assert (HA : (A <= ((505 # 1000) * avg + (21 # 10000)) * M)%Q).
  { assert ((((505 # 1000) * avg + (21 # 10000)) * ((998 # 1000) * m0)
             <= ((505 # 1000) * avg + (21 # 10000)) * M))%Q by nra.
    assert (E : (((505 # 1000) * avg + (21 # 10000)) * ((998 # 1000) * m0)
                 == (505 # 1000) * (998 # 1000) * am
                    + (21 # 10000) * (998 # 1000) * m0)%Q) by (unfold am; ring).
    lra. }
  assert (Hz : (A / M <= (505 # 1000) * avg + (21 # 10000))%Q).
  { apply Qle_shift_div_r; [exact HM|exact HA]. }
  set (z := (A / M)%Q) in *.
  lra.
Qed.

(** Worker [A] has one thread, five tasks processing and occupancy 7.125;
    worker [B] has the three other threads.  The total occupancy is 12,
    three per thread. *)
Definition busy_scenario : SchedulerState :=
  let a := set_ws_occupancy (57 # 8)
             (set_ws_processing
                (list_to_map [("k1", 1%Q); ("k2", 1%Q); ("k3", 1%Q); ("k4", 2%Q);
                              ("k5", 17 # 8)])
                (new_WorkerState "A" Status_running 1 0 0 1)) in
  let b := set_ws_occupancy (39 # 8) (new_WorkerState "B" Status_running 3 0 0 2) in
  set_total_occupancy 12
    (add_worker_state a (add_worker_state b new_SchedulerState)).

(** Worker [Z] has no thread and one task processing; worker [B] has three
    threads. *)
Definition zero_thread_scenario : SchedulerState :=
  let z := set_ws_occupancy 1
             (set_ws_processing (list_to_map [("k1", 1%Q)])
                (new_WorkerState "Z" Status_running 0 0 0 1)) in
  set_total_occupancy 1
    (add_worker_state z
       (add_worker_state (new_WorkerState "B" Status_running 3 0 0 2)
          new_SchedulerState)).

(** C6, as stated, fails twice.  For a worker without threads that
    processes a task the pending metric divides by zero: the call raises
    [ZeroDivisionError] and classifies nothing.  And the comparisons are
    those of floating point: with occupancy 7.125, five tasks, one thread
    and an average of 3 the worker is marked saturated, although the
    metric [7.125 * 4 / 5] does not exceed [1.9 * 3] as numbers. *)
Lemma check_idle_saturated_not_as_stated :
  ((0 < total_nthreads zero_thread_scenario)%Z /\
   ws_status (worker_obj "Z" zero_thread_scenario) <> Status_closed /\
   ws_nthreads (worker_obj "Z" zero_thread_scenario) = 0%Z /\
   check_idle_saturated "Z" (-1) zero_thread_scenario = Err ZeroDivisionError) /\
  (let s := busy_scenario in
   let w := worker_obj "A" s in
   let p := len_map (ws_processing w) in
   let nc := ws_nthreads w in
   (0 < total_nthreads s)%Z /\ ws_status w <> Status_closed /\
   p = 5%Z /\ nc = 1%Z /\ (ws_occupancy w == 7125 # 1000)%Q /\
   (total_occupancy s / Zq (total_nthreads s) == 3)%Q /\
   ~ ((19 # 10) * (total_occupancy s / Zq (total_nthreads s))
      < ws_occupancy w * Zq (p - nc) / Zq (p * nc))%Q /\
   exists s', check_idle_saturated "A" (-1) s = Ok (tt, s') /\
              "A" ∈ saturated s').
Proof.
  split.
  - split; [reflexivity|]. split; [vm_compute; discriminate|].
    split; vm_compute; reflexivity.
  - cbv zeta. split; [reflexivity|]. split; [vm_compute; discriminate|].
    split; [vm_compute; reflexivity|]. split; [vm_compute; reflexivity|].
    split; [vm_compute; reflexivity|]. split; [vm_compute; reflexivity|].
    split; [vm_compute; discriminate|].
    assert (Hrun : is_Some (state_after (check_idle_saturated "A" (-1)) busy_scenario))
      by (apply (bool_decide_unpack _); vm_compute; exact I).
    unfold state_after in Hrun.
    destruct (check_idle_saturated "A" (-1) busy_scenario) as [[[] s']|e] eqn:E;
      [|destruct Hrun; discriminate].
    exists s'. split; [reflexivity|].
    assert (Hs : bool_decide
                   ("A" ∈ match check_idle_saturated "A" (-1) busy_scenario with
                          | Ok (_, s1) => saturated s1
                          | Err _ => ∅
                          end) = true) by (vm_compute; reflexivity).
    rewrite E in Hs. apply bool_decide_eq_true_1 in Hs. exact Hs.
Qed.

(** C6 (amended): after [check_idle_saturated] runs for a worker that has at
    least one thread and is not closed, in a cluster whose thread total is
    positive, the worker is idle exactly when [len(processing) < nthreads]
    or [occupancy < nthreads * (total_occupancy / total_nthreads) / 2], and
    saturated exactly when [len(processing) > nthreads] and the pending
    metric [occupancy * (p - nc) / (p * nc)] exceeds both 0.4 and 1.9 times
    the average occupancy per thread; otherwise it is in neither set.  The
    arithmetic is that of the code: every operation is rounded to
    binary64, and 0.4 and 1.9 are the floats of these literals. *)
Theorem check_idle_saturated_spec (s : SchedulerState) (ws : string) :
  let w := worker_obj ws s in
  let p := len_map (ws_processing w) in
  let nc := ws_nthreads w in
  let occ := ws_occupancy w in
  let avg := fdiv (total_occupancy s) (Zf (total_nthreads s)) in
  let pending := fdiv (fmul occ (Zf (p - nc))) (Zf (p * nc)) in
  (0 < total_nthreads s)%Z ->
  ws_status w <> Status_closed ->
  (0 < nc)%Z ->
  exists s',
    check_idle_saturated ws (-1) s = Ok (tt, s') /\
    (ws ∈ idle s' <-> (p < nc)%Z \/ (occ < fdiv (fmul (Zf nc) avg) 2)%Q) /\
    (ws ∈ saturated s' <->
       (nc < p)%Z /\ (R64 (4 # 10) < pending)%Q /\
       (fmul (R64 (19 # 10)) avg < pending)%Q).
Proof.
  intros w p nc occ avg pending Htotal Hstatus Hnc.
  unfold check_idle_saturated, bind, gets, of_res, modify, ret.
  fold w.
  rewrite bool_decide_eq_false_2 by lia.
  rewrite bool_decide_eq_false_2 by exact Hstatus.
  cbn [orb].
  replace (Qltb (-1) 0) with true by reflexivity.
  rewrite py_div_ok.
  2:{ intros H. apply (proj1 (Zf_zero _)) in H. lia. }
  fold p nc occ avg.
  destruct (Z.ltb_spec p nc) as [Hp|Hp]; cbn [orb].
  - eexists. split; [reflexivity|]. cbn. split.
    + split; [intros _; left; exact Hp | intros _; set_solver].
    + split; [set_solver | intros (H1 & _); lia].
  - destruct (Qltb occ (fdiv (fmul (Zf nc) avg) 2)) eqn:Hocc.
    + apply Qltb_lt in Hocc.
      eexists. split; [reflexivity|]. cbn. split.
      * split; [intros _; right; exact Hocc | intros _; set_solver].
      * split; [set_solver|].
        intros (H1 & H2 & H3). exfalso.
        apply (idle_excludes_saturated occ avg p nc); assumption.
    + apply Qltb_ge in Hocc.
      destruct (Z.ltb_spec nc p) as [Hp'|Hp'].
      * rewrite py_div_ok.
        2:{ intros H. apply (proj1 (Zf_zero _)) in H. nia. }
        fold pending.
        destruct (Qltb (R64 (4 # 10)) pending) eqn:H04; cbn [andb];
          [destruct (Qltb (fmul (R64 (19 # 10)) avg) pending) eqn:H19|];
          (eexists; split; [reflexivity|]; cbn; split;
           [split; [intros Hin; exfalso; set_solver
                   | intros [H|H]; [lia | exfalso; apply (Qlt_not_le _ _ H Hocc)]]
           |]).
        -- apply Qltb_lt in H04, H19. split; [intros _; auto | intros _; set_solver].
        -- apply Qltb_ge in H19. split; [set_solver|].
           intros (_ & _ & H). exfalso. apply (Qlt_not_le _ _ H H19).
        -- apply Qltb_ge in H04. split; [set_solver|].
           intros (_ & H & _). exfalso. apply (Qlt_not_le _ _ H H04).
      * eexists. split; [reflexivity|]. cbn. split.
        -- split; [intros Hin; exfalso; set_solver
                  | intros [H|H]; [lia | exfalso; apply (Qlt_not_le _ _ H Hocc)]].
        -- split; [set_solver | intros (H & _); lia].
Qed.

Lemma check_idle_saturated_spec_witness :
  exists s',
    check_idle_saturated "A" (-1) busy_scenario = Ok (tt, s') /\
    ("A" ∉ idle s') /\ "A" ∈ saturated s'.
Proof.
  destruct (check_idle_saturated_spec busy_scenario "A")
    as (s' & Hrun & Hidle & Hsat).
  - vm_compute. reflexivity.
  - vm_compute. discriminate.
  - vm_compute. reflexivity.
  - exists s'. split; [exact Hrun|]. split.
    + intros H. apply Hidle in H. destruct H as [H|H].
      * vm_compute in H. discriminate.
      * apply Qltb_lt in H. vm_compute in H. discriminate.
    + apply Hsat. split; [vm_compute; reflexivity|].
      split; apply Qltb_lt; vm_compute; reflexivity.
Defined.

(** ** Valid workers *)

(** The state is unchanged but for [resources], which may have gained empty
    entries. *)
Definition resources_extended (s0 s1 : SchedulerState) : Prop :=
  s1 = set_resources (resources s1) s0 /\
  forall r, default ∅ (resources s1 !! r) = default ∅ (resources s0 !! r).

Lemma resources_extended_refl s : resources_extended s s.
Proof. split; [destruct s; reflexivity | reflexivity]. Qed.

Lemma resources_extended_trans s0 s1 s2 :
  resources_extended s0 s1 -> resources_extended s1 s2 -> resources_extended s0 s2.
Proof.
  intros [E1 H1] [E2 H2]. split.
  - rewrite E2 at 1. rewrite E1. reflexivity.
  - intros r. rewrite H2. apply H1.
Qed.

Lemma suppliers_loop_body_run (dw : list (gset string)) (r : string) (q : Q)
    (s0 : SchedulerState) :
  exists s1,
    suppliers_loop_body dw (r, q) s0
    = Ok (dw ++ [suppliers (default ∅ (resources s0 !! r)) q], s1)
    /\ resources_extended s0 s1.
Proof.
  unfold suppliers_loop_body, bind, gets, modify, ret.
  destruct (resources s0 !! r) as [dr|] eqn:E; simpl.
  - exists s0. split; [reflexivity | apply resources_extended_refl].
  - eexists. split; [reflexivity|].
    split; [destruct s0; reflexivity|]. intros r'. simpl.
    destruct (decide (r = r')) as [->|Hne].
    + rewrite lookup_insert_eq, E. reflexivity.
    + rewrite lookup_insert_ne by exact Hne. reflexivity.
Qed.

Lemma suppliers_loop_run (l : list (string * Q)) (dw0 : list (gset string))
    (s0 : SchedulerState) :
  exists s1,
    for_fold l dw0 suppliers_loop_body s0
    = Ok (dw0 ++ map (fun rq => suppliers (default ∅ (resources s0 !! rq.1)) rq.2) l, s1)
    /\ resources_extended s0 s1.
Proof.
  revert dw0 s0. induction l as [|[r q] l IH]; intros dw0 s0; cbn [for_fold map].
  - exists s0. rewrite app_nil_r. split; [reflexivity | apply resources_extended_refl].
  - destruct (suppliers_loop_body_run dw0 r q s0) as (s0' & Hbody & Hext0).
    destruct (IH (dw0 ++ [suppliers (default ∅ (resources s0 !! r)) q]) s0')
      as (s1 & Hrun & Hext).
    exists s1. split.
    + unfold bind. rewrite Hbody. cbv beta iota. rewrite Hrun. rewrite <- app_assoc. simpl.
      do 4 f_equal. apply map_ext. intros [r' q']. simpl.
      destruct Hext0 as [_ H0]. rewrite H0. reflexivity.
    + eapply resources_extended_trans; eassumption.
Qed.

(** *** What [valid_workers] computes *)

(** (a) the connected workers whose address is in [worker_restrictions] *)
Definition by_worker_restrictions (s : SchedulerState) (ts : TaskState)
    (w : string) : Prop :=
  w ∈ ts_worker_restrictions ts /\ w ∈ workers s.

(** (b) the workers registered under a host that a member of
    [host_restrictions] resolves to *)
Definition by_host_restrictions (s : SchedulerState) (ts : TaskState)
    (w : string) : Prop :=
  exists h h' hi,
    h ∈ ts_host_restrictions ts /\ coerce_hostname h s = Ok h' /\
    host_info s !! h' = Some hi /\ w ∈ hi_addresses hi.

(** (c) the workers supplying every restricted resource in the required
    quantity *)
Definition by_resource_restrictions (s : SchedulerState) (ts : TaskState)
    (w : string) : Prop :=
  forall r required,
    ts_resource_restrictions ts !! r = Some required ->
    exists supplied,
      default ∅ (resources s !! r) !! w = Some supplied /\
      (required <= supplied)%Q.

Definition unrestricted (ts : TaskState) : Prop :=
  ts_worker_restrictions ts = ∅ /\ ts_host_restrictions ts = ∅ /\
  ts_resource_restrictions ts = ∅.

(** [len(self._running) < len(self._workers_dv)] *)
Definition fewer_running (s : SchedulerState) : bool :=
  (len_set (running s) <? len_set (workers s))%Z.

(** The aliases among the host restrictions name connected workers. *)
Definition hosts_resolve (s : SchedulerState) (ts : TaskState) : Prop :=
  forall h alias,
    h ∈ ts_host_restrictions ts -> aliases s !! h = Some alias ->
    alias ∈ workers s.

(** [host_info] and [resources] list connected workers only. *)
Definition addresses_connected (s : SchedulerState) : Prop :=
  (forall h hi, host_info s !! h = Some hi -> hi_addresses hi ⊆ workers s) /\
  (forall r dr, resources s !! r = Some dr -> dom dr ⊆ workers s).

Definition host_stage (s : SchedulerState) (hr : list string) : gset string :=
  ⋃ omap (fun h => hi_addresses <$> host_info s !! h) hr.

Definition resource_stage (s : SchedulerState) (ts : TaskState)
  : list (gset string) :=
  map (fun rq => suppliers (default ∅ (resources s !! rq.1)) rq.2)
      (map_to_list (ts_resource_restrictions ts)).

Lemma host_stage_spec (s : SchedulerState) (ts : TaskState) (hr : list string)
    (w : string) :
  map_res (fun h => coerce_hostname h s) (elements (ts_host_restrictions ts)) = Ok hr ->
  w ∈ host_stage s hr <-> by_host_restrictions s ts w.
Proof.
  intros Hmap. apply map_res_Ok in Hmap.
  unfold host_stage, by_host_restrictions.
  rewrite elem_of_union_list. split.
  - intros (X & HX & Hw). apply list_elem_of_omap in HX as (h' & Hh' & Hhi).
    destruct (host_info s !! h') as [hi|] eqn:E; [|discriminate].
    simpl in Hhi. injection Hhi as <-.
    apply list_elem_of_lookup in Hh' as (i & Hi).
    destruct (Forall2_lookup_r _ _ _ _ _ Hmap Hi) as (h & Hh & Hco).
    exists h, h', hi. repeat split; try assumption.
    apply elem_of_elements. apply list_elem_of_lookup. eauto.
  - intros (h & h' & hi & Hh & Hco & Hhi & Hw).
    apply elem_of_elements, list_elem_of_lookup in Hh as (i & Hi).
    destruct (Forall2_lookup_l _ _ _ _ _ Hmap Hi) as (h'' & Hh'' & Hco').
    assert (h'' = h') by congruence. subst h''.
    exists (hi_addresses hi). split; [|exact Hw].
    apply list_elem_of_omap. exists h'. split.
    + apply list_elem_of_lookup. eauto.
    + rewrite Hhi. reflexivity.
Qed.

Lemma resource_stage_spec (s : SchedulerState) (ts : TaskState) (w : string) :
  (forall x, x ∈ resource_stage s ts -> w ∈ x) <-> by_resource_restrictions s ts w.
Proof.
  unfold resource_stage, by_resource_restrictions. split.
  - intros H r q Hr. apply suppliers_spec. apply H.
    apply list_elem_of_fmap. exists (r, q). split; [reflexivity|].
    apply elem_of_map_to_list. exact Hr.
  - intros H x Hx. apply list_elem_of_fmap in Hx as ([r q] & -> & Hrq).
    apply elem_of_map_to_list in Hrq. apply suppliers_spec. apply H. exact Hrq.
Qed.

(** The three stages of [valid_workers] and its final filter. *)
Lemma valid_workers_run (key : string) (s s' : SchedulerState)
    (res : option (gset string)) :
  valid_workers key s = Ok (res, s') ->
  let ts := task_obj key s in
  exists (oss oww : option (gset string)),
    (if nonempty_set (ts_host_restrictions ts)
     then exists hr,
            map_res (fun h => coerce_hostname h s)
                    (elements (ts_host_restrictions ts)) = Ok hr /\
            oss = Some (host_stage s hr)
     else oss = None) /\
    (if nonempty_map (ts_resource_restrictions ts)
     then exists ww,
            intersection_all (resource_stage s ts) = Ok ww /\ oww = Some ww
     else oww = None) /\
    resources_extended s s' /\
    let s1 := if nonempty_set (ts_worker_restrictions ts)
              then Some (filter (fun addr => addr ∈ workers s) (ts_worker_restrictions ts))
              else None in
    let s2 := match oss with
              | Some ss => Some (match s1 with None => ss | Some s0 => s0 ∪ ss end)
              | None => s1
              end in
    let s3 := match oww with
              | Some ww => Some (match s2 with None => ww | Some s0 => s0 ∩ ww end)
              | None => s2
              end in
    match s3 with
    | None => res = if fewer_running s then Some (running s) else None
    | Some s0 =>
        s0 ⊆ workers s /\
        res = Some (if fewer_running s then s0 ∩ running s else s0)
    end.
Proof.
  intros Hrun ts. unfold valid_workers in Hrun.
  run_step Hrun. run_step Hrun. fold ts in Hrun.
  apply bind_Ok in Hrun as (s2v & st2 & Hhost & Hrun).
  apply bind_Ok in Hrun as (s3v & st3 & Hres & Hrun).
  run_step Hrun.
  assert (Hst2 : st2 = s /\
    exists oss,
      (if nonempty_set (ts_host_restrictions ts)
       then exists hr,
            map_res (fun h => coerce_hostname h s)
                    (elements (ts_host_restrictions ts)) = Ok hr /\
            oss = Some (host_stage s hr)
       else oss = None) /\
      s2v = match oss with
            | Some ss => Some (match (if nonempty_set (ts_worker_restrictions ts)
              then Some (filter (fun addr => addr ∈ workers s) (ts_worker_restrictions ts))
              else None) with None => ss | Some s0 => s0 ∪ ss end)
            | None => (if nonempty_set (ts_worker_restrictions ts)
              then Some (filter (fun addr => addr ∈ workers s) (ts_worker_restrictions ts))
              else None)
            end).
  { destruct (nonempty_set (ts_host_restrictions ts)).
    - run_step Hhost. run_step Hhost. run_step Hhost.
      split; [reflexivity|]. eexists. split; [eexists; split; [eassumption|reflexivity]|].
      reflexivity.
    - run_step Hhost. split; [reflexivity|]. exists None. split; reflexivity. }
  destruct Hst2 as (-> & oss & Hoss & ->).
  assert (Hst3 : resources_extended s st3 /\
    exists oww,
      (if nonempty_map (ts_resource_restrictions ts)
       then exists ww,
            intersection_all (resource_stage s ts) = Ok ww /\ oww = Some ww
       else oww = None) /\
      s3v = match oww with
            | Some ww => Some (match (match oss with
            | Some ss => Some (match (if nonempty_set (ts_worker_restrictions ts)
              then Some (filter (fun addr => addr ∈ workers s) (ts_worker_restrictions ts))
              else None) with None => ss | Some s0 => s0 ∪ ss end)
            | None => (if nonempty_set (ts_worker_restrictions ts)
              then Some (filter (fun addr => addr ∈ workers s) (ts_worker_restrictions ts))
              else None)
            end) with None => ww | Some s0 => s0 ∩ ww end)
            | None => (match oss with
            | Some ss => Some (match (if nonempty_set (ts_worker_restrictions ts)
              then Some (filter (fun addr => addr ∈ workers s) (ts_worker_restrictions ts))
              else None) with None => ss | Some s0 => s0 ∪ ss end)
            | None => (if nonempty_set (ts_worker_restrictions ts)
              then Some (filter (fun addr => addr ∈ workers s) (ts_worker_restrictions ts))
              else None)
            end)
            end).
  { destruct (nonempty_map (ts_resource_restrictions ts)).
    - apply bind_Ok in Hres as (dw & st & Hloop & Hres).
      destruct (suppliers_loop_run (map_to_list (ts_resource_restrictions ts)) [] s)
        as (s1' & Hloop' & Hext).
      rewrite Hloop' in Hloop. injection Hloop as <- <-.
      run_step Hres. run_step Hres.
      split; [exact Hext|]. eexists. split; [eexists; split; [exact Hres0|reflexivity]|].
      reflexivity.
    - run_step Hres. split; [apply resources_extended_refl|].
      exists None. split; reflexivity. }
  destruct Hst3 as (Hext & oww & Howw & ->).
  exists oss, oww. split; [exact Hoss|]. split; [exact Howw|].
  assert (Erun : running st3 = running s) by (destruct Hext as [-> _]; reflexivity).
  assert (Ewk : workers st3 = workers s) by (destruct Hext as [-> _]; reflexivity).
  cbv zeta.
  match type of Hrun with
  | match ?x with _ => _ end _ = _ => destruct x as [s0|] eqn:Es3
  end.
  - destruct (bool_decide (s0 ⊆ workers s)) eqn:Esub; [|run_step Hrun].
    apply bool_decide_eq_true in Esub.
    unfold fewer_running. rewrite Erun in Hrun.
    destruct (len_set (running s) <? len_set (workers s))%Z;
      run_step Hrun; (split; [exact Hext|]); split; auto.
  - unfold fewer_running. rewrite Erun in Hrun.
    destruct (len_set (running s) <? len_set (workers s))%Z;
      run_step Hrun; (split; [exact Hext|]); reflexivity.
Qed.

Lemma valid_workers_returns (key : string) (s : SchedulerState) :
  hosts_resolve s (task_obj key s) -> addresses_connected s ->
  exists res s', valid_workers key s = Ok (res, s').
Proof.
  intros Hhosts [Hhi Hres]. set (ts := task_obj key s) in *.
  unfold valid_workers, bind, gets. fold ts.
  (* host stage *)
  assert (Hmap : exists hr,
    map_res (fun h => coerce_hostname h s) (elements (ts_host_restrictions ts)) = Ok hr).
  { assert (H : forall l, (forall h, h ∈ l -> h ∈ ts_host_restrictions ts) ->
       exists hr, map_res (fun h => coerce_hostname h s) l = Ok hr).
    { induction l as [|h l IH]; intros Hl; [exists []; reflexivity|].
      destruct IH as (hr & Ehr); [intros; apply Hl; right; assumption|].
      simpl. unfold coerce_hostname at 1.
      destruct (aliases s !! h) as [alias|] eqn:E.
      - rewrite bool_decide_eq_true_2
          by (eapply Hhosts; [apply Hl; left | exact E]).
        rewrite Ehr. eauto.
      - rewrite Ehr. eauto. }
    apply H. intros h Hh. apply elem_of_elements. exact Hh. }
  destruct Hmap as (hr & Hmap).
  destruct (suppliers_loop_run (map_to_list (ts_resource_restrictions ts)) [] s)
    as (s1 & Hloop & Hext).
  assert (Hhost_sub : host_stage s hr ⊆ workers s).
  { intros w Hw. unfold host_stage in Hw. apply elem_of_union_list in Hw as (X & HX & Hw).
    apply list_elem_of_omap in HX as (h' & _ & HX).
    destruct (host_info s !! h') as [hi|] eqn:E; [|discriminate].
    injection HX as <-. eapply Hhi; eassumption. }
  assert (Hfilter_sub :
    filter (fun addr => addr ∈ workers s) (ts_worker_restrictions ts) ⊆ workers s).
  { intros w Hw. apply elem_of_filter in Hw. tauto. }
  assert (Hww : nonempty_map (ts_resource_restrictions ts) = true ->
    exists ww, intersection_all (resource_stage s ts) = Ok ww /\ ww ⊆ workers s).
  { intros Hne. apply nonempty_map_true in Hne.
    unfold resource_stage.
    destruct (map_to_list (ts_resource_restrictions ts)) as [|[r q] l] eqn:El.
    - apply map_to_list_empty_iff in El. contradiction.
    - simpl. eexists. split; [reflexivity|].
      intros w Hw.
      assert (Hw0 : w ∈ suppliers (default ∅ (resources s !! r)) q).
      { clear -Hw. revert Hw. generalize (suppliers (default ∅ (resources s !! r)) q).
        induction l as [|x l IH]; intros g; simpl; [auto|].
        intros H. apply IH in H. set_solver. }
      apply suppliers_spec in Hw0 as (sup & Hsup & _).
      destruct (resources s !! r) as [dr|] eqn:E; simpl in Hsup.
      + eapply Hres; [exact E|]. apply elem_of_dom. eauto.
      + rewrite lookup_empty in Hsup. discriminate. }
  assert (Erun : running s1 = running s) by (destruct Hext as [-> _]; reflexivity).
  unfold resource_stage in Hww.
  destruct (nonempty_set (ts_worker_restrictions ts));
  destruct (nonempty_set (ts_host_restrictions ts));
  destruct (nonempty_map (ts_resource_restrictions ts));
  unfold lift_res, of_res, ret, bind, gets, raise;
  rewrite ?Hmap; cbv beta iota;
  rewrite ?Hloop; cbv beta iota; cbn [app];
  try (destruct Hww as (ww & -> & Hwwsub); [reflexivity|]); cbv beta iota;
  rewrite ?Erun; fold (host_stage s hr);
  try (rewrite bool_decide_eq_true_2 by set_solver);
  destruct (len_set (running s) <? len_set (workers s))%Z; eauto.
Qed.

(** A worker registered under a host name of its own. *)
Definition worker_on_host (address host : string) (status : Status) : WorkerState :=
  Build_WorkerState address address host status 1 0 0 0 ∅ [] ∅ ∅ ∅ ∅ ∅
    (Some 0%Z) 0 0 0 0.

(** Three workers: [w1] on host [h1], [w2] and the paused [w3] on host
    [h2].  Task [t] is restricted to the address [w1] and to the host [h2];
    task [u] has no restriction. *)
Definition restrictions_scenario : SchedulerState :=
  let s := add_worker_state (worker_on_host "w1" "h1" Status_running)
             (add_worker_state (worker_on_host "w2" "h2" Status_running)
                (add_worker_state (worker_on_host "w3" "h2" Status_paused)
                   new_SchedulerState)) in
  let s := new_task "u" (Some "f") waiting "u" "u"
             (new_task "t" (Some "f") waiting "t" "t" s) in
  set_tasks
    (alter (fun ts =>
              Build_TaskState (ts_key ts) (ts_run_spec ts) (ts_priority ts)
                (ts_state ts) (ts_dependencies ts) (ts_dependents ts)
                (ts_has_lost_dependencies ts) (ts_waiting_on ts) (ts_waiters ts)
                (ts_who_wants ts) (ts_who_has ts) (ts_processing_on ts)
                (ts_retries ts) (ts_nbytes ts) (ts_type ts) (ts_exception ts)
                (ts_exception_text ts) (ts_traceback ts) (ts_traceback_text ts)
                (ts_exception_blame ts) (ts_erred_on ts) (ts_suspicious ts)
                {["h2"]} {["w1"]} (ts_resource_restrictions ts)
                (ts_loose_restrictions ts) (ts_actor ts) (ts_prefix ts)
                (ts_group ts))
           "t" (tasks s)) s.

(** C3, as stated, fails: for a task restricted to the address [w1] and to
    the host [h2] the result holds [w2], which is not among the workers
    selected by address, and [w1], which is not on a restricted host; and
    for a task without restrictions the result is the running set, not
    [None], as soon as one worker is not running. *)
Lemma valid_workers_is_not_the_intersection :
  (exists s',
     valid_workers "t" restrictions_scenario = Ok (Some {["w1"; "w2"]}, s') /\
     ~ by_worker_restrictions restrictions_scenario
         (task_obj "t" restrictions_scenario) "w2" /\
     ~ by_host_restrictions restrictions_scenario
         (task_obj "t" restrictions_scenario) "w1") /\
  (exists s',
     unrestricted (task_obj "u" restrictions_scenario) /\
     valid_workers "u" restrictions_scenario = Ok (Some {["w1"; "w2"]}, s')).
Proof.
  split.
  - eexists. split; [vm_compute; reflexivity|]. split.
    + intros [H _]. apply (bool_decide_eq_true_2 _) in H.
      vm_compute in H. discriminate.
    + intros (h & h' & hi & Hh & Hco & Hhi & Hw).
      assert (Eh : ts_host_restrictions (task_obj "t" restrictions_scenario) = {["h2"]})
        by (vm_compute; reflexivity).
      rewrite Eh in Hh. apply elem_of_singleton in Hh. subst h.
      vm_compute in Hco. injection Hco as <-.
      assert (Ehi : host_info restrictions_scenario !! "h2"
                    = Some (Build_HostInfo {["w2"; "w3"]} 2))
        by (vm_compute; reflexivity).
      rewrite Ehi in Hhi. injection Hhi as <-. simpl in Hw.
      apply (bool_decide_eq_true_2 _) in Hw. vm_compute in Hw. discriminate.
  - eexists. split; [|vm_compute; reflexivity].
    repeat split; vm_compute; reflexivity.
Qed.

(** C3 (amended): for a task with at least one of [worker_restrictions],
    [host_restrictions], [resource_restrictions] set, [valid_workers]
    returns the set of connected workers that are selected by address or by
    host (their union, when either is set) and that supply every restricted
    resource in the required quantity, cut down to the running workers when
    fewer workers are running than connected; for a task with no
    restriction it returns [None] when every connected worker is running and
    the running set otherwise.  It returns whenever the aliases among the
    host restrictions, [host_info] and [resources] name connected workers
    only. *)
Theorem valid_workers_spec (key : string) (s : SchedulerState) :
  let ts := task_obj key s in
  (hosts_resolve s ts -> addresses_connected s ->
   exists res s', valid_workers key s = Ok (res, s')) /\
  (forall res s',
     valid_workers key s = Ok (res, s') ->
     (unrestricted ts ->
      res = if fewer_running s then Some (running s) else None) /\
     (~ unrestricted ts ->
      exists v,
        res = Some v /\
        forall w,
          w ∈ v <->
          ((ts_worker_restrictions ts = ∅ /\ ts_host_restrictions ts = ∅)
           \/ by_worker_restrictions s ts w \/ by_host_restrictions s ts w)
          /\ by_resource_restrictions s ts w
          /\ w ∈ workers s
          /\ (fewer_running s = true -> w ∈ running s))).
Proof.
  intros ts. split; [apply valid_workers_returns|].
  intros res s' Hrun.
  destruct (valid_workers_run key s s' res Hrun)
    as (oss & oww & Hoss & Howw & _ & Hfinal).
  fold ts in Hoss, Howw, Hfinal. cbv zeta in Hfinal.
  assert (HA : forall w,
    w ∈ filter (fun addr => addr ∈ workers s) (ts_worker_restrictions ts)
    <-> by_worker_restrictions s ts w).
  { intros w. unfold by_worker_restrictions. rewrite elem_of_filter. tauto. }
  assert (HA0 : nonempty_set (ts_worker_restrictions ts) = false ->
                forall w, ~ by_worker_restrictions s ts w).
  { intros E w [Hw _]. apply nonempty_set_false in E. rewrite E in Hw. set_solver. }
  assert (HB0 : nonempty_set (ts_host_restrictions ts) = false ->
                forall w, ~ by_host_restrictions s ts w).
  { intros E w (h & _ & _ & Hh & _). apply nonempty_set_false in E.
    rewrite E in Hh. set_solver. }
  assert (HC0 : nonempty_map (ts_resource_restrictions ts) = false ->
                forall w, by_resource_restrictions s ts w).
  { intros E w r q Hr. apply nonempty_map_false in E. rewrite E in Hr.
    rewrite lookup_empty in Hr. discriminate. }
  unfold unrestricted.
  destruct (nonempty_set (ts_worker_restrictions ts)) eqn:E1;
  destruct (nonempty_set (ts_host_restrictions ts)) eqn:E2;
  destruct (nonempty_map (ts_resource_restrictions ts)) eqn:E3;
  try (destruct Hoss as (hr & Hmap & ->));
  try (destruct Howw as (ww & Hint & ->)); try subst oss; try subst oww;
  try (apply intersection_all_spec in Hint as [_ Hint]);
  try (pose proof (fun w => host_stage_spec s ts hr w Hmap) as HB);
  try (pose proof (fun w => resource_stage_spec s ts w) as HC);
  try apply nonempty_set_true in E1; try apply nonempty_set_false in E1;
  try apply nonempty_set_true in E2; try apply nonempty_set_false in E2;
  try apply nonempty_map_true in E3; try apply nonempty_map_false in E3;
  try specialize (HA0 eq_refl); try specialize (HB0 eq_refl);
  try specialize (HC0 eq_refl);
  cbv beta iota in Hfinal;
  (split; [intros (H1 & H2 & H3); try contradiction; try exact Hfinal | intros Hnot]);
  try (exfalso; apply Hnot; repeat split; assumption);
  destruct Hfinal as [Hsub ->]; eexists; (split; [reflexivity|]);
  intros w; destruct (fewer_running s);
  rewrite ?elem_of_intersection, ?elem_of_union, ?HA, ?Hint, ?HB, ?HC;
  specialize (Hsub w);
  rewrite ?elem_of_intersection, ?elem_of_union, ?HA, ?Hint, ?HB, ?HC in Hsub;
  try specialize (HA0 w); try specialize (HB0 w); try specialize (HC0 w);
  intuition (try discriminate; try congruence).
Qed.

Lemma valid_workers_spec_witness :
  exists v s',
    valid_workers "t" restrictions_scenario = Ok (Some v, s') /\ "w2" ∈ v.
Proof.
  destruct (valid_workers_spec "t" restrictions_scenario) as [Htotal Hspec].
  destruct Htotal as (res & s' & Hrun).
  - intros h alias Hh Ha.
    assert (Eh : ts_host_restrictions (task_obj "t" restrictions_scenario) = {["h2"]})
      by (vm_compute; reflexivity).
    rewrite Eh in Hh. apply elem_of_singleton in Hh. subst h.
    vm_compute in Ha. discriminate.
  - split.
    + apply (bool_decide_unpack
               (map_Forall (fun _ hi => hi_addresses hi ⊆ workers restrictions_scenario)
                           (host_info restrictions_scenario))).
      vm_compute. exact I.
    + intros r dr Hr. vm_compute in Hr. discriminate.
  - destruct (Hspec res s' Hrun) as [_ Hrestricted].
    destruct Hrestricted as (v & -> & Hv).
    + intros (H & _). apply (f_equal (fun x => bool_decide ("w1" ∈ x))) in H.
      vm_compute in H. discriminate.
    + exists v, s'. split; [exact Hrun|]. apply Hv. split; [|split; [|split]].
      * right. right. exists "h2", "h2", (Build_HostInfo {["w2"; "w3"]} 2).
        split; [|split; [|split]].
        -- apply (bool_decide_unpack _). vm_compute. exact I.
        -- vm_compute. reflexivity.
        -- vm_compute. reflexivity.
        -- apply (bool_decide_unpack _). vm_compute. exact I.
      * intros r q Hr. vm_compute in Hr. discriminate.
      * apply (bool_decide_unpack _). vm_compute. exact I.
      * intros _. apply (bool_decide_unpack _). vm_compute. exact I.
Defined.

(** ** Choice of a worker *)

Lemma py_min_from_In {A K} (ltb : K -> K -> bool) (keyf : A -> Res K)
    (xs : list A) (best : A) (best_key : K) (x : A) :
  py_min_from ltb keyf best best_key xs = Ok x -> x = best \/ x ∈ xs.
Proof.
  revert best best_key. induction xs as [|y xs IH]; intros best best_key; simpl.
  - intros [= <-]. left. reflexivity.
  - destruct (keyf y) as [k|e]; [|discriminate].
    destruct (ltb k best_key); intros H; apply IH in H as [->|H];
      auto using list_elem_of_here, list_elem_of_further.
Qed.

Lemma py_min_In {A K} (ltb : K -> K -> bool) (keyf : A -> Res K)
    (xs : list A) (x : A) :
  py_min ltb keyf xs = Ok x -> x ∈ xs.
Proof.
  destruct xs as [|y xs]; simpl; [discriminate|].
  destruct (keyf y) as [k|e]; [|discriminate].
  intros H. apply py_min_from_In in H as [->|H];
    auto using list_elem_of_here, list_elem_of_further.
Qed.

(** The worker that the module-level [decide_worker] returns for a given set
    of valid workers is one of them, unless that set is empty and the
    restrictions of the task are loose. *)
Lemma decide_worker_body_valid
    (self_call : string -> SchedulerState -> Res (option string))
    (key : string) (all_workers : list string) (valid : gset string)
    (s : SchedulerState) (ws : string) :
  decide_worker_body self_call key all_workers (Some valid) s = Ok (Some ws) ->
  ws ∈ valid \/
  (valid = ∅ /\ ts_loose_restrictions (task_obj key s) = true /\
   self_call key s = Ok (Some ws)).
Proof.
  unfold decide_worker_body.
  destruct (negb (forallb _ _)); [discriminate|].
  set (candidates := if ts_actor (task_obj key s) then _ else _).
  assert (Hpick : forall cs : gset string,
    match elements cs with
    | [] => Ok None
    | [w] => Ok (Some w)
    | w :: (_ :: _) as rest =>
        match py_min tuple_ltb (fun w => worker_objective key w s) (elements cs) with
        | Ok w => Ok (Some w)
        | Err e => Err e
        end
    end = Ok (Some ws) -> ws ∈ cs).
  { intros cs. destruct (elements cs) as [|w [|w' l]] eqn:E.
    - discriminate.
    - intros [= ->]. apply elem_of_elements. rewrite E. apply list_elem_of_here.
    - destruct (py_min _ _ _) as [w0|e] eqn:Emin; [|discriminate].
      intros [= ->]. apply py_min_In in Emin. apply elem_of_elements.
      rewrite E. exact Emin. }
  destruct (nonempty_set (candidates ∩ valid)) eqn:E1.
  - intros H. left.
    assert (ws ∈ candidates ∩ valid).
    { apply Hpick. destruct (elements (candidates ∩ valid)) as [|w [|w' l]]; exact H. }
    set_solver.
  - destruct (nonempty_set valid) eqn:E2.
    + intros H. left. apply Hpick.
      destruct (elements valid) as [|w [|w' l]]; exact H.
    + apply nonempty_set_false in E2.
      destruct (ts_loose_restrictions (task_obj key s)); [|discriminate].
      intros H. right. auto.
Qed.

Lemma fewer_running_true (s : SchedulerState) (w0 : string) :
  running s ⊆ workers s -> w0 ∈ workers s -> w0 ∉ running s ->
  fewer_running s = true.
Proof.
  intros Hsub Hin Hnot. unfold fewer_running, len_set.
  apply Z.ltb_lt. apply Nat2Z.inj_lt. apply subset_size.
  split; [exact Hsub|]. intros H. apply Hnot. apply H. exact Hin.
Qed.

Lemma resources_extended_tasks (s s1 : SchedulerState) :
  resources_extended s s1 ->
  tasks s1 = tasks s /\ workers s1 = workers s /\ running s1 = running s /\
  worker_objs s1 = worker_objs s /\ group_objs s1 = group_objs s /\
  total_nthreads s1 = total_nthreads s /\ idle s1 = idle s.
Proof. intros [-> _]. repeat split. Qed.

(** One paused worker [w1]; task [t] prefers [w1] and its restrictions are
    loose. *)
Definition loose_scenario : SchedulerState :=
  let s := add_worker_state (worker_on_host "w1" "h1" Status_paused)
             new_SchedulerState in
  let s := new_task "t" (Some "f") waiting "t" "t" s in
  set_tasks
    (alter (fun ts =>
              Build_TaskState (ts_key ts) (ts_run_spec ts) (ts_priority ts)
                (ts_state ts) (ts_dependencies ts) (ts_dependents ts)
                (ts_has_lost_dependencies ts) (ts_waiting_on ts) (ts_waiters ts)
                (ts_who_wants ts) (ts_who_has ts) (ts_processing_on ts)
                (ts_retries ts) (ts_nbytes ts) (ts_type ts) (ts_exception ts)
                (ts_exception_text ts) (ts_traceback ts) (ts_traceback_text ts)
                (ts_exception_blame ts) (ts_erred_on ts) (ts_suspicious ts)
                ∅ {["w1"]} (ts_resource_restrictions ts)
                true (ts_actor ts) (ts_prefix ts) (ts_group ts))
           "t" (tasks s)) s.

(** C10: the code does not keep what the claim says.  With its only worker
    paused, [decide_worker] assigns a task restricted to that worker, with
    loose restrictions, to the paused worker: the fallback for loose
    restrictions calls the module-level [decide_worker] with all workers and
    no valid set, past the filter to running workers that [valid_workers]
    applies on every path. *)
Lemma decide_worker_assigns_paused_worker :
  "w1" ∈ workers loose_scenario /\ ("w1" ∉ running loose_scenario) /\
  ws_status (worker_obj "w1" loose_scenario) = Status_paused /\
  (exists s', decide_worker "t" loose_scenario = Ok (Some "w1", s')).
Proof.
  split; [apply (bool_decide_unpack _); vm_compute; exact I|].
  split; [apply (bool_decide_eq_false_1 _); vm_compute; reflexivity|].
  split; [vm_compute; reflexivity|].
  eexists. vm_compute. reflexivity.
Qed.

(** Where the filter to running workers does hold: whenever at least one
    connected worker is not in the running set, [valid_workers] restricts
    its result to running workers (the running set itself for a task without
    restrictions, the restriction-derived set intersected with the running
    set otherwise), and [decide_worker] assigns a task to a running worker,
    the one case apart where no running worker is valid for the task and its
    restrictions are loose. *)
Theorem decide_worker_avoids_non_running (key : string) (s : SchedulerState)
    (w0 : string) :
  running s ⊆ workers s ->
  (forall w, w ∈ running s -> ws_status (worker_obj w s) = Status_running) ->
  w0 ∈ workers s -> w0 ∉ running s ->
  let ts := task_obj key s in
  (forall res s1,
     valid_workers key s = Ok (res, s1) ->
     exists v,
       res = Some v /\ v ⊆ running s /\
       (unrestricted ts -> v = running s) /\
       (~ unrestricted ts ->
        forall w,
          w ∈ v <->
          (((ts_worker_restrictions ts = ∅ /\ ts_host_restrictions ts = ∅)
            \/ by_worker_restrictions s ts w \/ by_host_restrictions s ts w)
           /\ by_resource_restrictions s ts w /\ w ∈ workers s)
          /\ w ∈ running s)) /\
  (forall ws s',
     decide_worker key s = Ok (Some ws, s') ->
     (ws ∈ running s /\ ws_status (worker_obj ws s) = Status_running) \/
     (ts_loose_restrictions ts = true /\
      exists s1, valid_workers key s = Ok (Some ∅, s1))).
Proof.
  intros Hsub Hstatus Hin Hnot ts.
  pose proof (fewer_running_true s w0 Hsub Hin Hnot) as Hfewer.
  assert (Hvalid : forall res s1,
    valid_workers key s = Ok (res, s1) ->
    exists v,
      res = Some v /\ v ⊆ running s /\
      (unrestricted ts -> v = running s) /\
      (~ unrestricted ts ->
       forall w,
         w ∈ v <->
         (((ts_worker_restrictions ts = ∅ /\ ts_host_restrictions ts = ∅)
           \/ by_worker_restrictions s ts w \/ by_host_restrictions s ts w)
          /\ by_resource_restrictions s ts w /\ w ∈ workers s)
         /\ w ∈ running s)).
  { intros res s1 Hrun.
    destruct (valid_workers_spec key s) as [_ Hspec].
    destruct (Hspec res s1 Hrun) as [Hun Hre]. fold ts in Hun, Hre.
    rewrite Hfewer in Hun.
    destruct (decide (unrestricted ts)) as [Hu|Hu].
    - exists (running s). split; [auto|]. split; [reflexivity|].
      split; [reflexivity | contradiction].
    - destruct (Hre Hu) as (v & -> & Hv). exists v. split; [reflexivity|].
      split; [intros w Hw; apply Hv in Hw; tauto|].
      split; [contradiction|]. intros _ w. rewrite Hv. tauto. }
  split; [exact Hvalid|].
  intros ws s' Hrun. unfold decide_worker in Hrun.
  run_step Hrun.
  destruct (negb (nonempty_set (workers s))); [run_step Hrun; discriminate|].
  run_step Hrun. fold ts in Hrun.
  apply bind_Ok in Hrun as (valid & s1 & Hv & Hrun).
  destruct (Hvalid valid s1 Hv) as (v & -> & Hvsub & _).
  destruct (valid_workers_run key s s1 (Some v) Hv) as (_ & _ & _ & _ & Hext & _).
  apply resources_extended_tasks in Hext as (Etasks & _).
  destruct (negb (nonempty_set v) && negb (ts_loose_restrictions ts)).
  { repeat run_step Hrun. }
  run_step Hrun. run_step Hrun. run_step Hrun.
  cbn [is_Some_b negb andb orb] in Hrun.
  rewrite orb_true_r in Hrun.
  run_step Hrun.
  unfold decide_worker_function in Hres.
  apply decide_worker_body_valid in Hres as [Hws | (-> & Hloose & _)].
  - left. split; [apply Hvsub; exact Hws | apply Hstatus; apply Hvsub; exact Hws].
  - right. split.
    + unfold task_obj in Hloose. rewrite Etasks in Hloose. exact Hloose.
    + eauto.
Qed.

Lemma decide_worker_avoids_non_running_witness :
  exists ws s',
    decide_worker "u" restrictions_scenario = Ok (Some ws, s') /\
    ws ∈ running restrictions_scenario.
Proof.
  assert (Hrun : exists ws s',
            decide_worker "u" restrictions_scenario = Ok (Some ws, s'))
    by (do 2 eexists; vm_compute; reflexivity).
  destruct Hrun as (ws & s' & Hrun). exists ws, s'. split; [exact Hrun|].
  destruct (decide_worker_avoids_non_running "u" restrictions_scenario "w3")
    as [_ Hdecide].
  - apply (bool_decide_unpack _). vm_compute. exact I.
  - intros w Hw.
    assert (E : running restrictions_scenario = {["w1"; "w2"]})
      by (vm_compute; reflexivity).
    rewrite E in Hw. apply elem_of_union in Hw as [Hw|Hw];
      apply elem_of_singleton in Hw; subst w; vm_compute; reflexivity.
  - apply (bool_decide_unpack _). vm_compute. exact I.
  - apply (bool_decide_eq_false_1 _). vm_compute. reflexivity.
  - destruct (Hdecide ws s' Hrun) as [[H _]|[H _]]; [exact H|].
    vm_compute in H. discriminate.
Defined.

(** ** Root tasks *)

Lemma valid_workers_None (key : string) (s s1 : SchedulerState) :
  valid_workers key s = Ok (None, s1) -> s1 = s.
Proof.
  intros Hrun.
  destruct (valid_workers_run key s s1 None Hrun)
    as (oss & oww & Hoss & Howw & _ & Hfinal).
  cbv zeta in Hfinal.
  assert (E3 : nonempty_map (ts_resource_restrictions (task_obj key s)) = false).
  { destruct (nonempty_map _); [|reflexivity].
    destruct Howw as (ww & _ & ->). destruct Hfinal as [_ ?]. discriminate. }
  rewrite E3 in Howw. subst oww.
  assert (E2 : nonempty_set (ts_host_restrictions (task_obj key s)) = false).
  { destruct (nonempty_set (ts_host_restrictions _)); [|reflexivity].
    destruct Hoss as (hr & _ & ->). destruct Hfinal as [_ ?]. discriminate. }
  rewrite E2 in Hoss. subst oss.
  assert (E1 : nonempty_set (ts_worker_restrictions (task_obj key s)) = false).
  { destruct (nonempty_set (ts_worker_restrictions _)); [|reflexivity].
    destruct Hfinal as [_ ?]. discriminate. }
  unfold valid_workers in Hrun.
  run_step Hrun. run_step Hrun. rewrite E1, E2, E3 in Hrun.
  run_step Hrun. run_step Hrun. run_step Hrun.
  match type of Hrun with
  | context [(?a <? ?b)%Z] => destruct (a <? b)%Z
  end; run_step Hrun.
  reflexivity.
Qed.

(** The sizes of the groups that a task group depends on, summed:
    [sum(map(len, tg._dependencies))]. *)
Definition dependencies_size (tg : TaskGroup) (s : SchedulerState) : Z :=
  foldr (fun g acc => (len_group (group_obj g s) + acc)%Z) 0%Z
        (elements (tg_dependencies tg)).

(** The pool among which a new worker is sought: the idle workers if there
    are any, else all of them, in address order. *)
Definition worker_pool (s : SchedulerState) : list string :=
  sorted_values (if nonempty_set (idle s) then idle s else workers s).

(** The conditions of the root-task heuristic. *)
Definition root_like (key : string) (tg : TaskGroup) (s : SchedulerState) : Prop :=
  workers s <> ∅ /\
  group_objs s !! ts_group (task_obj key s) = Some tg /\
  valid_workers key s = Ok (None, s) /\
  (total_nthreads s * 2 < len_group tg)%Z /\
  (len_set (tg_dependencies tg) < 5)%Z /\
  (dependencies_size tg s < 5)%Z.







(** One running worker with four threads, and eleven waiting tasks of one
    group without dependencies. *)
Definition root_scenario : SchedulerState :=
  let s := add_worker_state (new_WorkerState "w1" Status_running 4 0 0 1)
             new_SchedulerState in
  foldl (fun s k => new_task k (Some "f") waiting "p" "g" s) s
        ["a"; "b"; "c"; "d"; "e"; "f"; "g"; "h"; "i"; "j"; "k"].

Lemma root_scenario_root_like :
  root_like "a" (group_obj "g" root_scenario) root_scenario.
Proof.
  split; [|split; [|split; [|split; [|split]]]].
  - intros H. apply (f_equal (fun x => bool_decide ("w1" ∈ x))) in H.
    vm_compute in H. discriminate.
  - vm_compute. reflexivity.
  - vm_compute. reflexivity.
  - vm_compute. reflexivity.
  - vm_compute. reflexivity.
  - vm_compute. reflexivity.
Qed.






(** ** The transition table and compound transitions *)








(** ** A program logic for the handlers *)

(** [triple E P m Q]: run from a state satisfying [P], [m] returns a result
    and a state satisfying [Q]; it may raise only if [E] holds.  With
    [E := True] this is partial correctness, with [E := False] the run is
    also shown to return. *)
Definition triple {S A} (E : Prop) (P : S -> Prop) (m : M S A)
    (Q : A -> S -> Prop) : Prop :=
  forall s, P s -> match m s with Ok (a, s') => Q a s' | Err _ => E end.

(** [keeps E obs m]: [m] leaves the observation [obs] of the state as it
    was. *)
Definition keeps {S X A} (E : Prop) (obs : S -> X) (m : M S A) : Prop :=
  forall s, match m s with Ok (_, s') => obs s' = obs s | Err _ => E end.

(** Assertions that only read the observation. *)
Definition closed {S X} (obs : S -> X) (P : S -> Prop) : Prop :=
  forall s s', obs s = obs s' -> P s -> P s'.

Section Rules.
Context {S : Type} (E : Prop).

Lemma triple_ret {A} (a : A) (Q : A -> S -> Prop) :
  triple E (Q a) (ret a) Q.
Proof. intros s H. exact H. Qed.

Lemma triple_bind {A B} (P : S -> Prop) (R : A -> S -> Prop)
    (Q : B -> S -> Prop) (m : M S A) (f : A -> M S B) :
  triple E P m R -> (forall a, triple E (R a) (f a) Q) ->
  triple E P (bind m f) Q.
Proof.
  intros Hm Hf s HP. unfold bind. specialize (Hm s HP).
  destruct (m s) as [[a s']|e]; [|exact Hm]. apply (Hf a s' Hm).
Qed.

Lemma triple_conseq {A} (P P' : S -> Prop) (Q Q' : A -> S -> Prop)
    (m : M S A) :
  triple E P' m Q' -> (forall s, P s -> P' s) ->
  (forall a s, Q' a s -> Q a s) -> triple E P m Q.
Proof.
  intros Hm HP HQ s Hs. specialize (Hm s (HP s Hs)).
  destruct (m s) as [[a s']|e]; [apply HQ|]; exact Hm.
Qed.

Lemma triple_pre {A} (P P' : S -> Prop) (Q : A -> S -> Prop) (m : M S A) :
  triple E P' m Q -> (forall s, P s -> P' s) -> triple E P m Q.
Proof. intros Hm HP. eapply triple_conseq; eauto. Qed.

Lemma triple_post {A} (P : S -> Prop) (Q Q' : A -> S -> Prop) (m : M S A) :
  triple E P m Q' -> (forall a s, Q' a s -> Q a s) -> triple E P m Q.
Proof. intros Hm HQ. eapply triple_conseq; eauto. Qed.

Lemma triple_and {A} (P1 P2 : S -> Prop) (Q1 Q2 : A -> S -> Prop)
    (m : M S A) :
  triple E P1 m Q1 -> triple E P2 m Q2 ->
  triple E (fun s => P1 s /\ P2 s) m (fun a s => Q1 a s /\ Q2 a s).
Proof.
  intros H1 H2 s [HP1 HP2]. specialize (H1 s HP1). specialize (H2 s HP2).
  destruct (m s) as [[a s']|e]; [split|]; assumption.
Qed.

(** A fact that does not depend on the state. *)
Lemma triple_pure {A} (phi : Prop) (P : S -> Prop) (Q : A -> S -> Prop)
    (m : M S A) :
  (phi -> triple E P m Q) -> triple E (fun s => phi /\ P s) m Q.
Proof. intros H s [Hphi HP]. apply (H Hphi s HP). Qed.

Lemma triple_false {A} (P : S -> Prop) (Q : A -> S -> Prop) (m : M S A) :
  (forall s, ~ P s) -> triple E P m Q.
Proof. intros H s HP. destruct (H s HP). Qed.

Lemma triple_gets {A} (f : S -> A) (P : S -> Prop) :
  triple E P (gets f) (fun a s => P s /\ a = f s).
Proof. intros s HP. split; [exact HP|reflexivity]. Qed.

Lemma triple_modify (g : S -> S) (Q : unit -> S -> Prop) :
  triple E (fun s => Q tt (g s)) (modify g) Q.
Proof. intros s H. exact H. Qed.

Lemma triple_raise {A} (e : PyError) (P : S -> Prop) (Q : A -> S -> Prop) :
  E -> triple E P (raise e) Q.
Proof. intros HE s _. exact HE. Qed.

Lemma triple_of_res {A} (r : Res A) (P : S -> Prop) :
  (E \/ exists a, r = Ok a) ->
  triple E P (of_res r) (fun a s => P s /\ r = Ok a).
Proof.
  intros H s HP. unfold of_res. destruct r as [a|e].
  - split; [exact HP|reflexivity].
  - destruct H as [HE|[a Ha]]; [exact HE|discriminate].
Qed.

Lemma triple_lift_res {A} (f : S -> Res A) (P : S -> Prop) :
  (forall s, P s -> E \/ exists a, f s = Ok a) ->
  triple E P (lift_res f) (fun a s => P s /\ f s = Ok a).
Proof.
  intros H s HP. unfold lift_res. destruct (f s) as [a|e] eqn:Hf.
  - split; [exact HP|exact Hf].
  - destruct (H s HP) as [HE|[a Ha]]; [exact HE|congruence].
Qed.

Lemma triple_assert (b : bool) (P : S -> Prop) :
  (E \/ b = true) ->
  triple E P (py_assert b) (fun _ s => P s /\ b = true).
Proof.
  intros H s HP. unfold py_assert. destruct b.
  - split; [exact HP|reflexivity].
  - destruct H as [HE|Hb]; [exact HE|discriminate].
Qed.

Lemma triple_for_each {A} (I : S -> Prop) (xs : list A)
    (body : A -> M S unit) :
  (forall x, x ∈ xs -> triple E I (body x) (fun _ => I)) ->
  triple E I (for_each xs body) (fun _ => I).
Proof.
  induction xs as [|x xs IH]; intros Hb.
  - apply (triple_ret tt (fun _ => I)).
  - cbn [for_each]. eapply triple_bind.
    + apply Hb. apply list_elem_of_here.
    + intros u. apply IH. intros y Hy. apply Hb.
      apply list_elem_of_further. exact Hy.
Qed.

Lemma triple_for_fold {A B} (I : S -> Prop) (xs : list A) (acc : B)
    (body : B -> A -> M S B) :
  (forall acc x, x ∈ xs -> triple E I (body acc x) (fun _ => I)) ->
  triple E I (for_fold xs acc body) (fun _ => I).
Proof.
  revert acc. induction xs as [|x xs IH]; intros acc Hb.
  - apply (triple_ret acc (fun _ => I)).
  - cbn [for_fold]. eapply triple_bind.
    + apply Hb. apply list_elem_of_here.
    + intros acc'. apply IH. intros a y Hy. apply Hb.
      apply list_elem_of_further. exact Hy.
Qed.

(** *** Programs that keep an observation *)

Context {X : Type} (obs : S -> X).

Lemma triple_keeps {A} (P : S -> Prop) (m : M S A) :
  keeps E obs m -> closed obs P -> triple E P m (fun _ => P).
Proof.
  intros Hm HP s Hs. specialize (Hm s).
  destruct (m s) as [[a s']|e]; [|exact Hm].
  apply (HP s s'); [symmetry; exact Hm|exact Hs].
Qed.

Lemma keeps_ret {A} (a : A) : keeps E obs (ret a).
Proof. intros s. reflexivity. Qed.

Lemma keeps_bind {A B} (m : M S A) (f : A -> M S B) :
  keeps E obs m -> (forall a, keeps E obs (f a)) -> keeps E obs (bind m f).
Proof.
  intros Hm Hf s. unfold bind. specialize (Hm s).
  destruct (m s) as [[a s']|e]; [|exact Hm].
  specialize (Hf a s'). destruct (f a s') as [[b s'']|e]; [|exact Hf].
  congruence.
Qed.

Lemma keeps_gets {A} (f : S -> A) : keeps E obs (gets f).
Proof. intros s. reflexivity. Qed.

Lemma keeps_modify (g : S -> S) :
  (forall s, obs (g s) = obs s) -> keeps E obs (modify g).
Proof. intros H s. apply H. Qed.

Lemma keeps_raise {A} (e : PyError) : E -> keeps E obs (raise e : M S A).
Proof. intros HE s. exact HE. Qed.

Lemma keeps_of_res {A} (r : Res A) :
  (E \/ exists a, r = Ok a) -> keeps E obs (of_res r).
Proof.
  intros H s. unfold of_res. destruct r as [a|e]; [reflexivity|].
  destruct H as [HE|[a Ha]]; [exact HE|discriminate].
Qed.

Lemma keeps_lift_res {A} (f : S -> Res A) :
  (forall s, E \/ exists a, f s = Ok a) -> keeps E obs (lift_res f).
Proof.
  intros H s. unfold lift_res. destruct (f s) as [a|e] eqn:Hf; [reflexivity|].
  destruct (H s) as [HE|[a Ha]]; [exact HE|congruence].
Qed.

Lemma keeps_assert (b : bool) : (E \/ b = true) -> keeps E obs (py_assert b).
Proof.
  intros H s. unfold py_assert. destruct b; [reflexivity|].
  destruct H as [HE|Hb]; [exact HE|discriminate].
Qed.

Lemma keeps_when (b : bool) (m : M S unit) :
  keeps E obs m -> keeps E obs (when b m).
Proof. intros H. destruct b; [exact H|apply keeps_ret]. Qed.

Lemma keeps_for_each {A} (xs : list A) (body : A -> M S unit) :
  (forall x, keeps E obs (body x)) -> keeps E obs (for_each xs body).
Proof.
  intros Hb. induction xs as [|x xs IH]; [apply keeps_ret|].
  cbn [for_each]. apply keeps_bind; [apply Hb|intros u; exact IH].
Qed.

Lemma keeps_for_fold {A B} (xs : list A) (acc : B) (body : B -> A -> M S B) :
  (forall acc x, keeps E obs (body acc x)) -> keeps E obs (for_fold xs acc body).
Proof.
  intros Hb. revert acc. induction xs as [|x xs IH]; intros acc;
    [apply keeps_ret|].
  cbn [for_fold]. apply keeps_bind; [apply Hb|intros acc'; apply IH].
Qed.
End Rules.

Lemma triple_ret' {S A} (E : Prop) (P : S -> Prop) (a : A)
    (Q : A -> S -> Prop) :
  (forall s, P s -> Q a s) -> triple E P (ret a) Q.
Proof. intros H s HP. apply H, HP. Qed.

Lemma closed_and {S X} (obs : S -> X) (P Q : S -> Prop) :
  closed obs P -> closed obs Q -> closed obs (fun s => P s /\ Q s).
Proof. intros HP HQ s s' Hs [H1 H2]. split; eauto. Qed.

Lemma closed_const {S X} (obs : S -> X) (phi : Prop) :
  closed obs (fun _ => phi).
Proof. intros s s' _ H. exact H. Qed.

(** ** Replicas: [who_has] and [has_what] *)

(** What the replica invariant reads of the state: the state and the
    holders of every task, the keys every worker object holds, the
    connected workers. *)
Definition task_view (t : TaskState) : TaskStateName * gset string :=
  (ts_state t, ts_who_has t).

Definition view (s : SchedulerState)
  : gmap string (TaskStateName * gset string) * gmap string (list string)
    * gset string :=
  (task_view <$> tasks s, ws_has_what <$> worker_objs s, workers s).

(** Every connected worker is an object of the store. *)
Definition workers_are_objects (s : SchedulerState) : Prop :=
  forall w, w ∈ workers s -> is_Some (worker_objs s !! w).

(** [ts.state == "memory"] exactly when [ts.who_has] is not empty. *)
Definition in_memory_iff_held (ts : TaskState) : Prop :=
  ts_state ts = memory <-> ts_who_has ts <> ∅.

(** Every worker of [ts.who_has] lists the task in its [has_what]. *)
Definition holders_list_it (s : SchedulerState) (k : string) (ts : TaskState)
  : Prop :=
  forall w, w ∈ ts_who_has ts -> k ∈ ws_has_what (worker_obj w s).

(** The invariant of the replica maps, over the tasks of the task table. *)
Definition replica_invariant (s : SchedulerState) : Prop :=
  forall k ts, tasks s !! k = Some ts ->
    in_memory_iff_held ts /\ holders_list_it s k ts.

(** The invariant while the handler of [key] is at work: the state of
    [key] and its holders may disagree. *)
Definition invariant_but (key : string) (s : SchedulerState) : Prop :=
  workers_are_objects s /\
  forall k ts, tasks s !! k = Some ts ->
    (k <> key -> in_memory_iff_held ts) /\ holders_list_it s k ts.

(** ... and while its replicas are being removed. *)
Definition invariant_of_others (key : string) (s : SchedulerState) : Prop :=
  workers_are_objects s /\
  forall k ts, tasks s !! k = Some ts -> k <> key ->
    in_memory_iff_held ts /\ holders_list_it s k ts.

Definition Inv (s : SchedulerState) : Prop :=
  workers_are_objects s /\ replica_invariant s.

Definition not_held (key : string) (s : SchedulerState) : Prop :=
  forall ts, tasks s !! key = Some ts -> ts_who_has ts = ∅.

Definition is_held (key : string) (s : SchedulerState) : Prop :=
  forall ts, tasks s !! key = Some ts -> ts_who_has ts <> ∅.

Definition state_sat (key : string) (phi : TaskStateName -> Prop)
    (s : SchedulerState) : Prop :=
  forall ts, tasks s !! key = Some ts -> phi (ts_state ts).

Definition state_is (key : string) (v : TaskStateName) : SchedulerState -> Prop :=
  state_sat key (fun x => x = v).

Definition not_in_memory (key : string) : SchedulerState -> Prop :=
  state_sat key (fun x => x <> memory).

Definition has_object (w : string) (s : SchedulerState) : Prop :=
  is_Some (worker_objs s !! w).

Lemma view_task (s s' : SchedulerState) (k : string) (ts' : TaskState) :
  view s = view s' -> tasks s' !! k = Some ts' ->
  exists ts, tasks s !! k = Some ts /\ ts_state ts = ts_state ts' /\
             ts_who_has ts = ts_who_has ts'.
Proof.
  intros Hv Hk. injection Hv as Ht _ _.
  assert (H : (task_view <$> tasks s) !! k = (task_view <$> tasks s') !! k)
    by (rewrite Ht; reflexivity).
  rewrite !lookup_fmap, Hk in H. destruct (tasks s !! k) as [ts|]; [|discriminate].
  exists ts. injection H as H1 H2. auto.
Qed.

Lemma view_has_what (s s' : SchedulerState) (w : string) :
  view s = view s' ->
  ws_has_what (worker_obj w s) = ws_has_what (worker_obj w s').
Proof.
  intros Hv. injection Hv as _ Hw _.
  assert (H : (ws_has_what <$> worker_objs s) !! w
              = (ws_has_what <$> worker_objs s') !! w)
    by (rewrite Hw; reflexivity).
  rewrite !lookup_fmap in H. unfold worker_obj.
  destruct (worker_objs s !! w), (worker_objs s' !! w); simpl in *;
    congruence.
Qed.

Lemma view_objects (s s' : SchedulerState) :
  view s = view s' -> workers_are_objects s -> workers_are_objects s'.
Proof.
  intros Hv H w Hw. injection Hv as _ Ho Hwk. rewrite <- Hwk in Hw.
  specialize (H w Hw).
  assert (E : (ws_has_what <$> worker_objs s) !! w
              = (ws_has_what <$> worker_objs s') !! w)
    by (rewrite Ho; reflexivity).
  rewrite !lookup_fmap in E. destruct H as [x Hx]. rewrite Hx in E.
  destruct (worker_objs s' !! w); [eauto|discriminate].
Qed.

Lemma closed_invariant_but (key : string) : closed view (invariant_but key).
Proof.
  intros s s' Hv [Hwf H]. split; [eapply view_objects; eauto|].
  intros k ts' Hk. destruct (view_task s s' k ts' Hv Hk) as (ts & Hts & E1 & E2).
  destruct (H k ts Hts) as [Hc Hh]. split.
  - intros Hne. specialize (Hc Hne). unfold in_memory_iff_held in *.
    rewrite <- E1, <- E2. exact Hc.
  - intros w Hw. rewrite <- (view_has_what s s' w Hv). apply Hh.
    rewrite E2. exact Hw.
Qed.

Lemma closed_invariant_of_others (key : string) :
  closed view (invariant_of_others key).
Proof.
  intros s s' Hv [Hwf H]. split; [eapply view_objects; eauto|].
  intros k ts' Hk Hne.
  destruct (view_task s s' k ts' Hv Hk) as (ts & Hts & E1 & E2).
  destruct (H k ts Hts Hne) as [Hc Hh]. split.
  - unfold in_memory_iff_held in *. rewrite <- E1, <- E2. exact Hc.
  - intros w Hw. rewrite <- (view_has_what s s' w Hv). apply Hh.
    rewrite E2. exact Hw.
Qed.

Lemma closed_Inv : closed view Inv.
Proof.
  intros s s' Hv [Hwf H]. split; [eapply view_objects; eauto|].
  intros k ts' Hk. destruct (view_task s s' k ts' Hv Hk) as (ts & Hts & E1 & E2).
  destruct (H k ts Hts) as [Hc Hh]. split.
  - unfold in_memory_iff_held in *. rewrite <- E1, <- E2. exact Hc.
  - intros w Hw. rewrite <- (view_has_what s s' w Hv). apply Hh.
    rewrite E2. exact Hw.
Qed.

Lemma closed_not_held (key : string) : closed view (not_held key).
Proof.
  intros s s' Hv H ts' Hk.
  destruct (view_task s s' key ts' Hv Hk) as (ts & Hts & E1 & E2).
  rewrite <- E2. apply H, Hts.
Qed.

Lemma closed_is_held (key : string) : closed view (is_held key).
Proof.
  intros s s' Hv H ts' Hk.
  destruct (view_task s s' key ts' Hv Hk) as (ts & Hts & E1 & E2).
  rewrite <- E2. apply H, Hts.
Qed.

Lemma closed_state_sat (key : string) (phi : TaskStateName -> Prop) :
  closed view (state_sat key phi).
Proof.
  intros s s' Hv H ts' Hk.
  destruct (view_task s s' key ts' Hv Hk) as (ts & Hts & E1 & E2).
  rewrite <- E1. apply H, Hts.
Qed.

Lemma closed_state_is (key : string) (v : TaskStateName) :
  closed view (state_is key v).
Proof. apply closed_state_sat. Qed.

Lemma closed_not_in_memory (key : string) : closed view (not_in_memory key).
Proof. apply closed_state_sat. Qed.

Lemma closed_has_object (w : string) : closed view (has_object w).
Proof.
  intros s s' Hv H. injection Hv as _ Ho _. unfold has_object in *.
  assert (E : (ws_has_what <$> worker_objs s) !! w
              = (ws_has_what <$> worker_objs s') !! w)
    by (rewrite Ho; reflexivity).
  rewrite !lookup_fmap in E. destruct H as [x Hx]. rewrite Hx in E.
  destruct (worker_objs s' !! w); [eauto|discriminate].
Qed.

Create HintDb closed_db.
#[export] Hint Resolve closed_and closed_const closed_invariant_but
  closed_invariant_of_others closed_Inv closed_not_held closed_is_held
  closed_state_sat closed_state_is closed_not_in_memory closed_has_object
  : closed_db.

Lemma Inv_invariant_but (key : string) (s : SchedulerState) :
  Inv s -> invariant_but key s.
Proof.
  intros [Hwf H]. split; [exact Hwf|]. intros k ts Hk.
  destruct (H k ts Hk). auto.
Qed.

Lemma invariant_but_others (key : string) (s : SchedulerState) :
  invariant_but key s -> invariant_of_others key s.
Proof.
  intros [Hwf H]. split; [exact Hwf|]. intros k ts Hk Hne.
  destruct (H k ts Hk). auto.
Qed.

Lemma Inv_not_held (key : string) (s : SchedulerState) :
  Inv s -> not_in_memory key s -> not_held key s.
Proof.
  intros [_ H] Hst ts Hk. destruct (H key ts Hk) as [Hc _].
  specialize (Hst ts Hk). unfold in_memory_iff_held in Hc. cbv beta in Hst.
  destruct (decide (ts_who_has ts = ∅)) as [|Hne]; [assumption|].
  apply Hc in Hne. contradiction.
Qed.

Lemma Inv_is_held (key : string) (s : SchedulerState) :
  Inv s -> state_is key memory s -> is_held key s.
Proof.
  intros [_ H] Hst ts Hk. destruct (H key ts Hk) as [Hc _].
  apply Hc. apply (Hst ts Hk).
Qed.

Lemma invariant_but_not_held (key : string) (s : SchedulerState) :
  invariant_but key s -> not_held key s -> not_in_memory key s -> Inv s.
Proof.
  intros [Hwf H] He Hst. split; [exact Hwf|]. intros k ts Hk.
  destruct (H k ts Hk) as [Hc Hh]. split; [|exact Hh].
  destruct (decide (k = key)) as [->|Hne]; [|auto].
  unfold in_memory_iff_held. rewrite (He ts Hk). specialize (Hst ts Hk).
  cbv beta in Hst. split; [contradiction|congruence].
Qed.

Lemma state_is_not_in_memory (key : string) (v : TaskStateName)
    (s : SchedulerState) :
  v <> memory -> state_is key v s -> not_in_memory key s.
Proof. intros Hv H ts Hk. rewrite (H ts Hk). exact Hv. Qed.

Lemma invariant_but_is_held (key : string) (s : SchedulerState) :
  invariant_but key s -> is_held key s -> state_is key memory s -> Inv s.
Proof.
  intros [Hwf H] He Hst. split; [exact Hwf|]. intros k ts Hk.
  destruct (H k ts Hk) as [Hc Hh]. split; [|exact Hh].
  destruct (decide (k = key)) as [->|Hne]; [|auto].
  unfold in_memory_iff_held. split; intros _; [apply (He ts Hk)|apply (Hst ts Hk)].
Qed.

(** *** What the handlers leave untouched *)

Lemma fmap_alter_same {A B} (g : A -> B) (f : A -> A) (k : string)
    (m : gmap string A) :
  (forall a, g (f a) = g a) -> g <$> alter f k m = g <$> m.
Proof.
  intros H. apply map_eq. intros i. rewrite !lookup_fmap.
  destruct (decide (i = k)) as [->|Hne].
  - rewrite lookup_alter_eq. destruct (m !! k); simpl; [f_equal; apply H|reflexivity].
  - rewrite lookup_alter_ne by congruence. reflexivity.
Qed.

Lemma keeps_upd_task (E : Prop) (key : string) (f : TaskState -> TaskState) :
  (forall t, task_view (f t) = task_view t) ->
  keeps E view (upd_task key f).
Proof.
  intros H. apply keeps_modify. intros s. unfold view. cbn.
  rewrite (fmap_alter_same task_view f key (tasks s) H). reflexivity.
Qed.

Lemma keeps_upd_worker (E : Prop) (w : string) (f : WorkerState -> WorkerState) :
  (forall x, ws_has_what (f x) = ws_has_what x) ->
  keeps E view (upd_worker w f).
Proof.
  intros H. apply keeps_modify. intros s. unfold view. cbn.
  rewrite (fmap_alter_same ws_has_what f w (worker_objs s) H). reflexivity.
Qed.

Lemma keeps_upd_group (E : Prop) (g : string) (f : TaskGroup -> TaskGroup) :
  keeps E view (upd_group g f).
Proof. apply keeps_modify. intros s. reflexivity. Qed.

Lemma keeps_upd_prefix (E : Prop) (g : string) (f : TaskPrefix -> TaskPrefix) :
  keeps E view (upd_prefix g f).
Proof. apply keeps_modify. intros s. reflexivity. Qed.

Lemma keeps_upd_client (E : Prop) (c : string) (f : ClientState -> ClientState) :
  keeps E view (upd_client c f).
Proof. apply keeps_modify. intros s. reflexivity. Qed.

Lemma keeps_get_task (key : string) : keeps True view (get_task key).
Proof. intros s. unfold get_task. destruct (tasks s !! key); [reflexivity|exact I]. Qed.

Lemma keeps_get_worker (w : option string) : keeps True view (get_worker w).
Proof.
  intros s. unfold get_worker. destruct w as [w|]; [|exact I].
  destruct (bool_decide (w ∈ workers s)); [reflexivity|exact I].
Qed.

Lemma keeps_get_client (c : string) : keeps True view (get_client c).
Proof. intros s. unfold get_client. destruct (clients s !! c); [reflexivity|exact I]. Qed.

Create HintDb keeps_db.
#[export] Hint Resolve keeps_get_task keeps_get_worker keeps_get_client
  : keeps_db.

(** One step of a proof that a program keeps the view. *)
Ltac keeps_step :=
  lazymatch goal with
  | |- keeps _ _ (bind _ _) => apply keeps_bind; [|intros ?]
  | |- keeps _ _ (ret _) => apply keeps_ret
  | |- keeps _ _ (gets _) => apply keeps_gets
  | |- keeps _ _ (raise _) => apply keeps_raise; exact I
  | |- keeps _ _ (of_res _) => apply keeps_of_res; left; exact I
  | |- keeps _ _ (lift_res _) => apply keeps_lift_res; intros ?; left; exact I
  | |- keeps _ _ (py_assert _) => apply keeps_assert; left; exact I
  | |- keeps _ _ (when _ _) => apply keeps_when
  | |- keeps _ _ (for_each _ _) => apply keeps_for_each; intros ?
  | |- keeps _ _ (for_fold _ _ _) => apply keeps_for_fold; intros ? ?
  | |- keeps _ _ (upd_task _ _) => apply keeps_upd_task; intros ?; reflexivity
  | |- keeps _ _ (upd_worker _ _) => apply keeps_upd_worker; intros ?; reflexivity
  | |- keeps _ _ (upd_group _ _) => apply keeps_upd_group
  | |- keeps _ _ (upd_prefix _ _) => apply keeps_upd_prefix
  | |- keeps _ _ (upd_client _ _) => apply keeps_upd_client
  | |- keeps _ _ (modify _) => apply keeps_modify; intros ?; reflexivity
  | |- keeps _ _ (if ?b then _ else _) => destruct b
  | |- keeps _ _ (match ?x with _ => _ end) => destruct x
  | |- keeps _ _ _ => solve [auto with keeps_db]
  end.

Ltac keeps_tac := repeat keeps_step.

Lemma keeps_accept_kwargs (b : bool) : keeps True view (accept_kwargs b).
Proof. unfold accept_kwargs. keeps_tac. Qed.
#[export] Hint Resolve keeps_accept_kwargs : keeps_db.

Lemma keeps_check_idle_saturated (ws : string) (occ : Q) :
  keeps True view (check_idle_saturated ws occ).
Proof. unfold check_idle_saturated. keeps_tac. Qed.
#[export] Hint Resolve keeps_check_idle_saturated : keeps_db.

Lemma keeps_get_task_duration (key : string) :
  keeps True view (get_task_duration key).
Proof. unfold get_task_duration. keeps_tac. Qed.
#[export] Hint Resolve keeps_get_task_duration : keeps_db.

Lemma keeps_set_duration_estimate (key ws : string) :
  keeps True view (set_duration_estimate key ws).
Proof. unfold set_duration_estimate. keeps_tac. Qed.
#[export] Hint Resolve keeps_set_duration_estimate : keeps_db.

Lemma keeps_adjust_resources (key ws : string) (sign : Q) :
  keeps True view (adjust_resources key ws sign).
Proof. unfold adjust_resources. keeps_tac. Qed.
#[export] Hint Resolve keeps_adjust_resources : keeps_db.

Lemma keeps_consume_resources (key ws : string) :
  keeps True view (consume_resources key ws).
Proof. apply keeps_adjust_resources. Qed.

Lemma keeps_release_resources (key ws : string) :
  keeps True view (release_resources key ws).
Proof. apply keeps_adjust_resources. Qed.
#[export] Hint Resolve keeps_consume_resources keeps_release_resources
  : keeps_db.

Lemma keeps_set_nbytes (key : string) (nbytes : Z) :
  keeps True view (set_nbytes key nbytes).
Proof. unfold set_nbytes. keeps_tac. Qed.
#[export] Hint Resolve keeps_set_nbytes : keeps_db.

Lemma keeps__remove_from_processing (key : string) :
  keeps True view (_remove_from_processing key).
Proof. unfold _remove_from_processing. keeps_tac. Qed.
#[export] Hint Resolve keeps__remove_from_processing : keeps_db.

Lemma keeps__client_releases_keys (keys : list string) (cs : string)
    (recommendations : Recs) :
  keeps True view (_client_releases_keys keys cs recommendations).
Proof. unfold _client_releases_keys. keeps_tac. Qed.
#[export] Hint Resolve keeps__client_releases_keys : keeps_db.


Lemma keeps__task_to_msg (key : string) : keeps True view (_task_to_msg key).
Proof. unfold _task_to_msg. keeps_tac. Qed.
#[export] Hint Resolve keeps__task_to_msg : keeps_db.

Lemma keeps_group_add_duration (group action : string) (start stop : Q) :
  keeps True view (group_add_duration group action start stop).
Proof. unfold group_add_duration. keeps_tac. Qed.
#[export] Hint Resolve keeps_group_add_duration : keeps_db.

Lemma keeps_wait_on_dependencies (key : string) (recommendations : Recs) :
  keeps True view (wait_on_dependencies key recommendations).
Proof. unfold wait_on_dependencies. keeps_tac. Qed.
#[export] Hint Resolve keeps_wait_on_dependencies : keeps_db.

Lemma keeps_blame_dependents (key : string) (failing_ts : option string)
    (recommend : TaskState -> bool) (recommendations : Recs) :
  keeps True view (blame_dependents key failing_ts recommend recommendations).
Proof. unfold blame_dependents. keeps_tac. Qed.
#[export] Hint Resolve keeps_blame_dependents : keeps_db.

Lemma keeps_stop_waiting_for (key d : string) (recommendations : Recs) :
  keeps True view (stop_waiting_for key d recommendations).
Proof. unfold stop_waiting_for. keeps_tac. Qed.
#[export] Hint Resolve keeps_stop_waiting_for : keeps_db.

Lemma keeps_finish_transition (key : string) (ts : TaskState)
    (start : TaskStateName) (out : Out) :
  keeps True view (finish_transition key ts start out).
Proof. unfold finish_transition. keeps_tac. Qed.
#[export] Hint Resolve keeps_finish_transition : keeps_db.

(** *** Changing the state of a task *)

(** The view without the state of [key]. *)
Definition viewX (key : string) (s : SchedulerState)
  : gmap string (TaskStateName * gset string) * gmap string (gset string)
    * gmap string (list string) * gset string :=
  (task_view <$> delete key (tasks s), ts_who_has <$> tasks s,
   ws_has_what <$> worker_objs s, workers s).

Lemma view_viewX (key : string) (s s' : SchedulerState) :
  view s = view s' -> viewX key s = viewX key s'.
Proof.
  intros Hv. injection Hv as Ht Hw Hwk. unfold viewX.
  rewrite !fmap_delete, Ht, Hw, Hwk. do 3 f_equal.
  assert (E : forall m : gmap string TaskState,
             ts_who_has <$> m = snd <$> (task_view <$> m)).
  { intros m. rewrite <- map_fmap_compose. reflexivity. }
  rewrite !E, Ht. reflexivity.
Qed.

Lemma keeps_viewX (E : Prop) {A} (key : string) (m : Sched A) :
  keeps E view m -> keeps E (viewX key) m.
Proof.
  intros H s. specialize (H s). destruct (m s) as [[a s']|e]; [|exact H].
  apply view_viewX. exact H.
Qed.

Lemma closedX_closed (key : string) (P : SchedulerState -> Prop) :
  closed (viewX key) P -> closed view P.
Proof. intros H s s' Hv. apply H. apply view_viewX. exact Hv. Qed.

Lemma viewX_task (key : string) (s s' : SchedulerState) (k : string)
    (ts' : TaskState) :
  viewX key s = viewX key s' -> tasks s' !! k = Some ts' ->
  exists ts, tasks s !! k = Some ts /\ ts_who_has ts = ts_who_has ts' /\
             (k <> key -> ts_state ts = ts_state ts').
Proof.
  intros Hv Hk. injection Hv as Ht Hh _ _.
  assert (H : (ts_who_has <$> tasks s) !! k = (ts_who_has <$> tasks s') !! k)
    by (rewrite Hh; reflexivity).
  rewrite !lookup_fmap, Hk in H.
  destruct (tasks s !! k) as [ts|] eqn:Hts; [|discriminate].
  exists ts. injection H as H. split; [reflexivity|]. split; [exact H|].
  intros Hne.
  assert (H2 : (task_view <$> delete key (tasks s)) !! k
               = (task_view <$> delete key (tasks s')) !! k)
    by (rewrite Ht; reflexivity).
  rewrite !lookup_fmap, !lookup_delete_ne, Hk, Hts in H2 by congruence.
  injection H2 as H2 _. exact H2.
Qed.

Lemma viewX_has_what (key : string) (s s' : SchedulerState) (w : string) :
  viewX key s = viewX key s' ->
  ws_has_what (worker_obj w s) = ws_has_what (worker_obj w s').
Proof.
  intros Hv. injection Hv as _ _ Hw _.
  assert (H : (ws_has_what <$> worker_objs s) !! w
              = (ws_has_what <$> worker_objs s') !! w)
    by (rewrite Hw; reflexivity).
  rewrite !lookup_fmap in H. unfold worker_obj.
  destruct (worker_objs s !! w), (worker_objs s' !! w); simpl in *;
    congruence.
Qed.

Lemma viewX_objects (key : string) (s s' : SchedulerState) :
  viewX key s = viewX key s' -> workers_are_objects s -> workers_are_objects s'.
Proof.
  intros Hv H w Hw. injection Hv as _ _ Ho Hwk. rewrite <- Hwk in Hw.
  specialize (H w Hw).
  assert (E : (ws_has_what <$> worker_objs s) !! w
              = (ws_has_what <$> worker_objs s') !! w)
    by (rewrite Ho; reflexivity).
  rewrite !lookup_fmap in E. destruct H as [x Hx]. rewrite Hx in E.
  destruct (worker_objs s' !! w); [eauto|discriminate].
Qed.

Lemma closedX_invariant_but (key : string) :
  closed (viewX key) (invariant_but key).
Proof.
  intros s s' Hv [Hwf H]. split; [eapply viewX_objects; eauto|].
  intros k ts' Hk.
  destruct (viewX_task key s s' k ts' Hv Hk) as (ts & Hts & E2 & E1).
  destruct (H k ts Hts) as [Hc Hh]. split.
  - intros Hne. specialize (Hc Hne). unfold in_memory_iff_held in *.
    rewrite <- (E1 Hne), <- E2. exact Hc.
  - intros w Hw. rewrite <- (viewX_has_what key s s' w Hv). apply Hh.
    rewrite E2. exact Hw.
Qed.

Lemma closedX_not_held (key : string) : closed (viewX key) (not_held key).
Proof.
  intros s s' Hv H ts' Hk.
  destruct (viewX_task key s s' key ts' Hv Hk) as (ts & Hts & E2 & _).
  rewrite <- E2. apply H, Hts.
Qed.

Lemma closedX_is_held (key : string) : closed (viewX key) (is_held key).
Proof.
  intros s s' Hv H ts' Hk.
  destruct (viewX_task key s s' key ts' Hv Hk) as (ts & Hts & E2 & _).
  rewrite <- E2. apply H, Hts.
Qed.

Create HintDb closedX_db.
#[export] Hint Resolve closed_and closed_const closedX_invariant_but
  closedX_not_held closedX_is_held : closedX_db.

Lemma set_state_run (key : string) (v : TaskStateName) (s : SchedulerState) :
  exists s', set_state key v s = Ok (tt, s') /\
    tasks s' = alter (set_ts_state v) key (tasks s) /\
    worker_objs s' = worker_objs s /\ workers s' = workers s.
Proof. eexists. split; [reflexivity|]. repeat split. Qed.

Lemma keeps_set_state (E : Prop) (key : string) (v : TaskStateName) :
  keeps E (viewX key) (set_state key v).
Proof.
  intros s. destruct (set_state_run key v s) as (s' & -> & Ht & Hw & Hwk).
  unfold viewX. rewrite Ht, Hw, Hwk. do 3 f_equal.
  - apply map_eq. intros k. rewrite !lookup_fmap.
    destruct (decide (k = key)) as [->|Hne].
    + rewrite !lookup_delete_eq. reflexivity.
    + rewrite !lookup_delete_ne, lookup_alter_ne by congruence. reflexivity.
  - apply fmap_alter_same. intros t. reflexivity.
Qed.

Lemma set_state_state_is (E : Prop) (key : string) (v : TaskStateName) :
  triple E (fun _ => True) (set_state key v) (fun _ => state_is key v).
Proof.
  intros s _. destruct (set_state_run key v s) as (s' & -> & Ht & _).
  intros ts Hk. rewrite Ht, lookup_alter_eq in Hk.
  destruct (tasks s !! key); [|discriminate]. injection Hk as <-. reflexivity.
Qed.

(** [ts.state = v], the holders of [ts] agreeing with [v]. *)
Lemma set_state_not_memory (E : Prop) (key : string) (v : TaskStateName) :
  v <> memory ->
  triple E (fun s => invariant_but key s /\ not_held key s)
    (set_state key v) (fun _ s => Inv s /\ state_is key v s).
Proof.
  intros Hv. eapply triple_conseq.
  - apply triple_and.
    + apply (triple_keeps E (viewX key)
               (fun s => invariant_but key s /\ not_held key s));
        [apply keeps_set_state|auto with closedX_db].
    + apply (set_state_state_is E key v).
  - cbv beta. intros s H. split; [exact H|exact I].
  - cbv beta. intros _ s [[H1 H2] H3]. split; [|exact H3].
    apply (invariant_but_not_held key); auto.
    eapply state_is_not_in_memory; eauto.
Qed.

Lemma set_state_memory (E : Prop) (key : string) :
  triple E (fun s => invariant_but key s /\ is_held key s)
    (set_state key memory) (fun _ s => Inv s /\ state_is key memory s).
Proof.
  eapply triple_conseq.
  - apply triple_and.
    + apply (triple_keeps E (viewX key)
               (fun s => invariant_but key s /\ is_held key s));
        [apply keeps_set_state|auto with closedX_db].
    + apply (set_state_state_is E key memory).
  - cbv beta. intros s H. split; [exact H|exact I].
  - cbv beta. intros _ s [[H1 H2] H3]. split; [|exact H3].
    apply (invariant_but_is_held key); auto.
Qed.

Lemma set_state_any (E : Prop) (key : string) (v : TaskStateName) :
  triple E (invariant_but key) (set_state key v) (fun _ => invariant_but key).
Proof.
  apply (triple_keeps E (viewX key)); [apply keeps_set_state|].
  auto with closedX_db.
Qed.

(** From a state other than [memory] to a state other than [memory]. *)
Lemma set_state_aside (E : Prop) (key : string) (v : TaskStateName) :
  v <> memory ->
  triple E (fun s => Inv s /\ not_in_memory key s)
    (set_state key v) (fun _ s => Inv s /\ state_is key v s).
Proof.
  intros Hv. eapply triple_pre; [apply (set_state_not_memory E key v Hv)|].
  cbv beta. intros s [H1 H2]. split.
  - apply Inv_invariant_but, H1.
  - apply Inv_not_held; assumption.
Qed.

(** Steps of a proof about a handler: a stretch that keeps the view, a
    branch, the end. *)
Ltac tkeep :=
  eapply triple_bind;
  [ apply (triple_keeps True view); [solve [keeps_tac] | solve [auto with closed_db]]
  | intros ?; cbv beta ].

Ltac tkeep_last :=
  eapply triple_post;
  [ apply (triple_keeps True view); [solve [keeps_tac] | solve [auto with closed_db]]
  | cbv beta ].

Ltac tret := apply triple_ret'; cbv beta.

Ltac tcase :=
  lazymatch goal with
  | |- triple _ _ (if ?b then _ else _) _ => destruct b eqn:?
  | |- triple _ _ (match ?x with _ => _ end) _ => destruct x eqn:?
  end.

Lemma keeps_suppliers_loop_body (dw : list (gset string)) (rq : string * Q) :
  keeps True view (suppliers_loop_body dw rq).
Proof. unfold suppliers_loop_body. destruct rq. keeps_tac. Qed.
#[export] Hint Resolve keeps_suppliers_loop_body : keeps_db.

Lemma keeps_valid_workers (key : string) : keeps True view (valid_workers key).
Proof. unfold valid_workers. keeps_tac. Qed.
#[export] Hint Resolve keeps_valid_workers : keeps_db.

(** [decide_worker] may move the task to [no-worker]. *)
Lemma decide_worker_aside (key : string) :
  triple True (fun s => Inv s /\ not_in_memory key s) (decide_worker key)
    (fun _ s => Inv s /\ not_in_memory key s).
Proof.
  unfold decide_worker.
  tkeep. tcase; [tret; auto|].
  tkeep. tkeep. tcase.
  - tkeep. eapply triple_bind; [apply (set_state_aside True key no_worker); discriminate|].
    intros ?. tret. intros s [H1 H2]. split; [exact H1|].
    eapply state_is_not_in_memory; [|exact H2]. discriminate.
  - tkeep_last. auto.
Qed.

(** *** Adding and removing replicas *)

Lemma worker_obj_alter_has_what (w ws : string)
    (f : WorkerState -> WorkerState) (m : gmap string WorkerState)
    (s : SchedulerState) :
  ws_has_what (worker_obj w (set_worker_objs (alter f ws m) s)) =
  if bool_decide (w = ws)
  then match m !! ws with
       | Some x => ws_has_what (f x)
       | None => []
       end
  else ws_has_what (default (no_worker_obj w) (m !! w)).
Proof.
  unfold worker_obj. cbn. destruct (bool_decide_reflect (w = ws)) as [->|Hne].
  - rewrite lookup_alter_eq. destruct (m !! ws); reflexivity.
  - rewrite lookup_alter_ne by congruence. reflexivity.
Qed.

Lemma has_what_add_elem (key k : string) (l : list string) :
  k ∈ has_what_add key l <-> k ∈ l \/ k = key.
Proof.
  unfold has_what_add. destruct (bool_decide_reflect (key ∈ l)) as [Hin|Hnin].
  - split; [auto|]. intros [H| ->]; assumption.
  - rewrite elem_of_app, list_elem_of_singleton. reflexivity.
Qed.

Lemma add_replica_run (key ws : string) (s : SchedulerState) :
  exists s', add_replica key ws s = Ok (tt, s') /\
    tasks s' = alter (fun t => set_ts_who_has (ts_who_has t ∪ {[ws]}) t) key
                 (tasks s) /\
    (forall w, ws_has_what (worker_obj w s') =
       if bool_decide (w = ws) && bool_decide (is_Some (worker_objs s !! ws))
       then has_what_add key (ws_has_what (worker_obj w s))
       else ws_has_what (worker_obj w s)) /\
    (forall w, is_Some (worker_objs s' !! w) <-> is_Some (worker_objs s !! w)) /\
    workers s' = workers s.
Proof.
  unfold add_replica, bind, gets, upd_worker, upd_task, modify, when, ret.
  match goal with
  | |- context [if ?b then _ else _] => destruct b
  end; (eexists; split; [reflexivity|]); cbn;
    (split; [reflexivity|]); (split; [|split; [|reflexivity]]).
  all: try (intros w; rewrite !lookup_alter_is_Some; reflexivity).
  all: intros w; unfold worker_obj; cbn;
    destruct (bool_decide_reflect (w = ws)) as [->|Hne]; cbn.
  all: try (rewrite !lookup_alter_ne by congruence; reflexivity).
  all: rewrite !lookup_alter_eq.
  all: destruct (worker_objs s !! ws) eqn:Hws; reflexivity.
Qed.

Lemma add_replica_held (E : Prop) (key ws : string) :
  triple E (fun s => invariant_but key s /\ has_object ws s)
    (add_replica key ws)
    (fun _ s => invariant_but key s /\ is_held key s).
Proof.
  intros s [[Hwf H] Hobj].
  destruct (add_replica_run key ws s) as (s' & -> & Ht & Hhw & Hobjs & Hwk).
  assert (Hmono : forall w k, k ∈ ws_has_what (worker_obj w s) ->
                              k ∈ ws_has_what (worker_obj w s')).
  { intros w k Hk. rewrite Hhw.
    destruct (bool_decide (w = ws) && bool_decide (is_Some (worker_objs s !! ws)));
      [apply has_what_add_elem; auto|exact Hk]. }
  split; [split|].
  - intros w Hw. rewrite Hwk in Hw. apply Hobjs. apply Hwf, Hw.
  - intros k ts' Hk. rewrite Ht in Hk.
    destruct (decide (k = key)) as [->|Hne].
    + rewrite lookup_alter_eq in Hk.
      destruct (tasks s !! key) as [ts|] eqn:Hts; [|discriminate].
      injection Hk as <-. destruct (H key ts Hts) as [_ Hh].
      split; [intros Hc; congruence|].
      intros w Hw. cbn in Hw. apply elem_of_union in Hw as [Hw|Hw].
      * apply Hmono, Hh, Hw.
      * apply elem_of_singleton in Hw as ->. rewrite Hhw.
        rewrite bool_decide_eq_true_2 by reflexivity.
        rewrite bool_decide_eq_true_2 by exact Hobj. cbn.
        apply has_what_add_elem. auto.
    + rewrite lookup_alter_ne in Hk by congruence.
      destruct (H k ts' Hk) as [Hc Hh]. split; [exact Hc|].
      intros w Hw. apply Hmono, Hh, Hw.
  - intros ts' Hk. rewrite Ht, lookup_alter_eq in Hk.
    destruct (tasks s !! key) as [ts|]; [|discriminate]. injection Hk as <-.
    cbn. intros Hc.
    assert (Hin : ws ∈ ts_who_has ts ∪ {[ws]})
      by (apply elem_of_union_r, elem_of_singleton; reflexivity).
    rewrite Hc in Hin. apply (not_elem_of_empty ws Hin).
Qed.

Lemma has_what_del_elem (key k : string) (l hw : list string) :
  has_what_del key l = Ok hw -> k <> key -> k ∈ l -> k ∈ hw.
Proof.
  unfold has_what_del. destruct (bool_decide (key ∈ l)); [|discriminate].
  intros [= <-] Hne Hk. apply list_elem_of_filter. auto.
Qed.

(** One round of the loop of [remove_all_replicas]. *)
Lemma remove_all_replicas_body (key ws : string) (nbytes : Z) :
  triple True (invariant_of_others key)
    (upd_worker ws (fun w => set_ws_nbytes (ws_nbytes w - nbytes)%Z w) ;;
     w <- gets (worker_obj ws) ;;
     hw <- of_res (has_what_del key (ws_has_what w)) ;;
     upd_worker ws (set_ws_has_what hw))
    (fun _ => invariant_of_others key).
Proof.
  tkeep.
  eapply triple_bind; [apply triple_gets|]. intros w. cbv beta.
  eapply triple_bind; [apply triple_of_res; left; exact I|]. intros hw. cbv beta.
  eapply triple_pre; [apply triple_modify|]. cbv beta.
  intros s [[[Hwf H] ->] Hdel]. split.
  - intros w Hw. cbn. apply lookup_alter_is_Some. apply Hwf, Hw.
  - intros k ts Hk Hne. cbn in Hk. destruct (H k ts Hk Hne) as [Hc Hh].
    split; [exact Hc|]. intros w Hw. specialize (Hh w Hw).
    rewrite worker_obj_alter_has_what.
    destruct (bool_decide_reflect (w = ws)) as [->|Hnw]; [|exact Hh].
    unfold worker_obj in Hh, Hdel.
    destruct (worker_objs s !! ws) as [x|]; cbn in *.
    + eapply has_what_del_elem; eauto.
    + exact Hh.
Qed.

Lemma remove_all_replicas_not_held (key : string) :
  triple True (invariant_but key) (remove_all_replicas key)
    (fun _ s => invariant_but key s /\ not_held key s).
Proof.
  unfold remove_all_replicas.
  eapply triple_pre; [|intros s H; apply (invariant_but_others key s H)].
  tkeep. tkeep.
  eapply triple_bind.
  { apply triple_for_each. intros ws _. apply remove_all_replicas_body. }
  intros ?. cbv beta. tkeep.
  eapply triple_pre; [apply triple_modify|]. cbv beta.
  intros s [Hwf H]. split; [split|].
  - exact Hwf.
  - intros k ts' Hk. cbn in Hk.
    destruct (decide (k = key)) as [->|Hne].
    + rewrite lookup_alter_eq in Hk.
      destruct (tasks s !! key) as [ts|]; [|discriminate]. injection Hk as <-.
      split; [intros Hc; congruence|]. intros w Hw. cbn in Hw.
      destruct (not_elem_of_empty w Hw).
    + rewrite lookup_alter_ne in Hk by congruence.
      destruct (H k ts' Hk Hne) as [Hc Hh]. split; [auto|exact Hh].
  - intros ts' Hk. cbn in Hk. rewrite lookup_alter_eq in Hk.
    destruct (tasks s !! key) as [ts|]; [|discriminate]. injection Hk as <-.
    reflexivity.
Qed.

Lemma remove_key_Inv (key : string) :
  triple True (invariant_but key) (remove_key key) (fun _ => Inv).
Proof.
  unfold remove_key. tkeep.
  eapply triple_bind.
  { eapply triple_pre; [apply (triple_modify True _ (fun _ => Inv))|]. cbv beta.
    intros s [Hwf H]. split; [exact Hwf|]. intros k ts Hk. cbn in Hk.
    destruct (decide (k = key)) as [->|Hne].
    - rewrite lookup_delete_eq in Hk. discriminate.
    - rewrite lookup_delete_ne in Hk by congruence.
      destruct (H k ts Hk) as [Hc Hh]. split; [auto|exact Hh]. }
  intros ?. cbv beta. tkeep_last. auto.
Qed.

(** *** The helpers that change the state of a task *)

Lemma get_worker_has_object (P : SchedulerState -> Prop) (w : option string) :
  (forall s, P s -> workers_are_objects s) ->
  triple True P (get_worker w) (fun ws s => P s /\ has_object ws s).
Proof.
  intros HP s Hs. unfold get_worker. destruct w as [w|]; [|exact I].
  destruct (bool_decide_reflect (w ∈ workers s)) as [Hw|]; [|exact I].
  split; [exact Hs|]. apply (HP s Hs), Hw.
Qed.

Lemma _add_to_memory_Inv (key ws : string) (recommendations : Recs)
    (client_msgs : ClientMsgs) (type typename : option string) :
  triple True (fun s => invariant_but key s /\ has_object ws s)
    (_add_to_memory key ws recommendations client_msgs type typename)
    (fun _ s => Inv s /\ state_is key memory s).
Proof.
  unfold _add_to_memory.
  eapply triple_bind; [apply add_replica_held|]. intros ?. cbv beta.
  do 5 tkeep. tcase.
  eapply triple_bind; [apply set_state_memory|]. intros ?. cbv beta.
  tkeep_last. auto.
Qed.

Lemma processing_or_no_worker_Inv (key : string) (recommendations : Recs) :
  triple True (fun s => Inv s /\ not_in_memory key s)
    (processing_or_no_worker key recommendations)
    (fun _ s => Inv s /\ not_in_memory key s).
Proof.
  unfold processing_or_no_worker.
  tkeep. tcase; [|tret; auto].
  tkeep. tcase; [tret; auto|].
  tkeep.
  eapply triple_bind; [apply (set_state_aside True key no_worker); discriminate|].
  intros ?. tret. intros s [H1 H2]. split; [exact H1|].
  eapply state_is_not_in_memory; [|exact H2]. discriminate.
Qed.

Lemma _propagate_forgotten_not_held (key : string) (recommendations : Recs)
    (worker_msgs : WorkerMsgs) :
  triple True (invariant_but key)
    (_propagate_forgotten key recommendations worker_msgs)
    (fun _ s => invariant_but key s /\ not_held key s).
Proof.
  unfold _propagate_forgotten.
  eapply triple_bind; [apply set_state_any|]. intros ?. cbv beta.
  repeat tkeep.
  eapply triple_bind; [apply remove_all_replicas_not_held|].
  intros ?. tret. auto.
Qed.

Lemma forget_Inv (key : string) :
  triple True (invariant_but key) (forget key) (fun _ => Inv).
Proof.
  unfold forget.
  eapply triple_bind; [apply _propagate_forgotten_not_held|].
  intros [? ?]. cbv beta. repeat tkeep.
  eapply triple_bind.
  { eapply triple_pre; [apply remove_key_Inv|]. cbv beta. intros s [H _]. exact H. }
  intros ?. tret. auto.
Qed.

Lemma set_state_aside' (key : string) (v : TaskStateName) :
  v <> memory ->
  triple True (fun s => Inv s /\ not_in_memory key s)
    (set_state key v) (fun _ s => Inv s /\ not_in_memory key s).
Proof.
  intros Hv. eapply triple_post; [apply (set_state_aside True key v Hv)|].
  cbv beta. intros _ s [H1 H2]. split; [exact H1|].
  eapply state_is_not_in_memory; eauto.
Qed.

Lemma set_state_released (key : string) :
  triple True (fun s => Inv s /\ not_in_memory key s)
    (set_state key released) (fun _ s => Inv s /\ state_is key released s).
Proof. apply set_state_aside. discriminate. Qed.

Lemma released_not_in_memory (key : string) (s : SchedulerState) :
  Inv s /\ state_is key released s -> Inv s /\ not_in_memory key s.
Proof.
  intros [H1 H2]. split; [exact H1|].
  eapply state_is_not_in_memory; [|exact H2]. discriminate.
Qed.

(** The steps of a handler that never brings its task into memory. *)
Ltac taside :=
  repeat first
    [ tkeep
    | eapply triple_bind;
      [apply set_state_aside'; discriminate | intros ?; cbv beta]
    | eapply triple_bind;
      [apply processing_or_no_worker_Inv | intros ?; cbv beta]
    | eapply triple_bind;
      [apply decide_worker_aside | intros ?; cbv beta]
    | tcase
    | apply triple_raise; exact I
    | tret; solve [auto | intros ? [? ?]; auto]
    | tkeep_last; solve [auto | intros ? ? [? ?]; auto] ].

(** *** The handlers *)

Lemma transition_released_waiting_Inv (key : string) (kw : Kwargs) :
  triple True (fun s => Inv s /\ not_in_memory key s)
    (transition_released_waiting key kw) (fun _ => Inv).
Proof. unfold transition_released_waiting. taside. Qed.

Lemma transition_no_worker_waiting_Inv (key : string) (kw : Kwargs) :
  triple True (fun s => Inv s /\ not_in_memory key s)
    (transition_no_worker_waiting key kw) (fun _ => Inv).
Proof. unfold transition_no_worker_waiting. taside. Qed.

Lemma transition_waiting_processing_Inv (key : string) (kw : Kwargs) :
  triple True (fun s => Inv s /\ not_in_memory key s)
    (transition_waiting_processing key kw) (fun _ => Inv).
Proof. unfold transition_waiting_processing. taside. Qed.

Lemma transition_released_erred_Inv (key : string) (kw : Kwargs) :
  triple True (fun s => Inv s /\ not_in_memory key s)
    (transition_released_erred key kw) (fun _ => Inv).
Proof. unfold transition_released_erred. taside. Qed.

Lemma transition_processing_erred_Inv (key : string) (kw : Kwargs) :
  triple True (fun s => Inv s /\ not_in_memory key s)
    (transition_processing_erred key kw) (fun _ => Inv).
Proof. unfold transition_processing_erred. taside. Qed.

(** The steps of a handler into [released]. *)
Ltac treleased :=
  repeat first
    [ tkeep
    | eapply triple_bind;
      [apply set_state_released | intros ?; cbv beta]
    | tcase
    | apply triple_raise; exact I
    | tret; solve [auto]
    | tkeep_last; solve [auto] ].

Lemma transition_waiting_released_Inv (key : string) (kw : Kwargs) :
  triple True (fun s => Inv s /\ not_in_memory key s)
    (transition_waiting_released key kw)
    (fun _ s => Inv s /\ state_is key released s).
Proof. unfold transition_waiting_released. treleased. Qed.

Lemma transition_processing_released_Inv (key : string) (kw : Kwargs) :
  triple True (fun s => Inv s /\ not_in_memory key s)
    (transition_processing_released key kw)
    (fun _ s => Inv s /\ state_is key released s).
Proof. unfold transition_processing_released. treleased. Qed.

Lemma transition_no_worker_released_Inv (key : string) (kw : Kwargs) :
  triple True (fun s => Inv s /\ not_in_memory key s)
    (transition_no_worker_released key kw)
    (fun _ s => Inv s /\ state_is key released s).
Proof. unfold transition_no_worker_released. treleased. Qed.

Lemma transition_erred_released_Inv (key : string) (kw : Kwargs) :
  triple True (fun s => Inv s /\ not_in_memory key s)
    (transition_erred_released key kw)
    (fun _ s => Inv s /\ state_is key released s).
Proof. unfold transition_erred_released. treleased. Qed.

(** The handlers into [forgotten]. *)
Lemma transition_released_forgotten_Inv (key : string) (kw : Kwargs) :
  triple True Inv (transition_released_forgotten key kw) (fun _ => Inv).
Proof.
  unfold transition_released_forgotten. repeat tkeep.
  eapply triple_pre; [apply forget_Inv|]. apply Inv_invariant_but.
Qed.

Lemma transition_memory_forgotten_Inv (key : string) (kw : Kwargs) :
  triple True Inv (transition_memory_forgotten key kw) (fun _ => Inv).
Proof.
  unfold transition_memory_forgotten. repeat tkeep.
  eapply triple_pre; [apply forget_Inv|]. apply Inv_invariant_but.
Qed.

(** The handlers into [memory]. *)
Ltac tmemory :=
  repeat first
    [ tkeep
    | eapply triple_bind;
      [ eapply triple_pre;
        [ apply _add_to_memory_Inv
        | cbv beta; intros ? [? ?]; split;
          [apply Inv_invariant_but; assumption | assumption] ]
      | intros [? ?]; cbv beta ]
    | tcase
    | apply triple_raise; exact I
    | tret; solve [auto | intros ? [? ?]; auto]
    | tkeep_last; solve [auto | intros ? ? [? ?]; auto] ].

Lemma transition_waiting_memory_Inv (key : string) (kw : Kwargs) :
  triple True Inv (transition_waiting_memory key kw) (fun _ => Inv).
Proof.
  unfold transition_waiting_memory.
  eapply triple_bind.
  { apply get_worker_has_object. intros s [H _]. exact H. }
  intros ws. cbv beta. tmemory.
Qed.

Lemma transition_no_worker_memory_Inv (key : string) (kw : Kwargs) :
  triple True Inv (transition_no_worker_memory key kw) (fun _ => Inv).
Proof.
  unfold transition_no_worker_memory. tkeep.
  eapply triple_bind.
  { apply get_worker_has_object. intros s [H _]. exact H. }
  intros ws. cbv beta. tmemory.
  eapply triple_bind.
  { eapply triple_pre; [apply (set_state_memory True key)|]. cbv beta.
    intros s [H1 H2]. split; [apply Inv_invariant_but, H1|].
    apply Inv_is_held; assumption. }
  intros ?. cbv beta. tret. intros s [H _]. exact H.
Qed.

Lemma transition_processing_memory_Inv (key : string) (kw : Kwargs) :
  triple True Inv (transition_processing_memory key kw) (fun _ => Inv).
Proof.
  unfold transition_processing_memory. tkeep. tkeep.
  eapply triple_bind; [apply triple_gets|]. intros wk. cbv beta.
  destruct (kw_worker kw) as [ws|]; [|apply triple_raise; exact I].
  destruct (bool_decide_reflect (ws ∈ wk)) as [Hin|Hnin]; cbn [negb].
  - eapply triple_pre with (P' := fun s => Inv s /\ has_object ws s).
    + tmemory.
    + cbv beta. intros s [H ->]. split; [exact H|]. destruct H as [Hwf _].
      apply Hwf, Hin.
  - tret. intros s [H _]. exact H.
Qed.

(** [transition_memory_released] gives up on an actor that a client still
    wants: the task stays in memory and [erred] is recommended. *)
Definition wanted_actor (ts : TaskState) : bool :=
  ts_actor ts && nonempty_set (ts_who_wants ts).

Definition no_wanted_actor (key : string) (s : SchedulerState) : Prop :=
  forall ts, tasks s !! key = Some ts -> ts_state ts = memory ->
             wanted_actor ts = false.

Lemma triple_get_task (P : SchedulerState -> Prop) (key : string) :
  triple True P (get_task key) (fun ts s => P s /\ tasks s !! key = Some ts).
Proof.
  intros s HP. unfold get_task. destruct (tasks s !! key) eqn:Hk; [|exact I].
  split; [exact HP|exact Hk].
Qed.

Lemma triple_accept_kwargs (P : SchedulerState -> Prop) (b : bool) :
  triple True P (accept_kwargs b) (fun _ => P).
Proof. intros s HP. unfold accept_kwargs. destruct b; [exact HP|exact I]. Qed.

Lemma memory_released_rest (key : string) (recs : Recs)
    (worker_msgs : WorkerMsgs) :
  triple True Inv
    (remove_all_replicas key ;;
     set_state key released ;;
     ts <- gets (task_obj key) ;;
     let client_msgs := report_to (ts_who_wants ts) (msg_lost_data key) ∅ in
     let recommendations :=
       if negb (is_Some_b (ts_run_spec ts))
       then recs_set recs key forgotten
       else if ts_has_lost_dependencies ts
       then recs_set recs key forgotten
       else if nonempty_set (ts_who_wants ts) || nonempty_set (ts_waiters ts)
       then recs_set recs key waiting
       else recs in
     ret (recommendations, client_msgs, worker_msgs))
    (fun _ s => Inv s /\ state_is key released s).
Proof.
  eapply triple_bind.
  { eapply triple_pre; [apply remove_all_replicas_not_held|].
    apply Inv_invariant_but. }
  intros ?. cbv beta.
  eapply triple_bind; [apply (set_state_not_memory True key released); discriminate|].
  intros ?. cbv beta. tkeep. tret. auto.
Qed.

Lemma transition_memory_released_Inv (key : string) (kw : Kwargs) :
  triple True Inv (transition_memory_released key kw) (fun _ => Inv).
Proof.
  unfold transition_memory_released. tkeep. tkeep. tkeep. tcase.
  - tkeep. tkeep. tret. auto.
  - tkeep. eapply triple_post; [apply memory_released_rest|].
    cbv beta. intros _ s [H _]. exact H.
Qed.

Lemma transition_memory_released_released (key : string) (kw : Kwargs) :
  triple True
    (fun s => (Inv s /\ state_is key memory s) /\ no_wanted_actor key s)
    (transition_memory_released key kw)
    (fun _ s => Inv s /\ state_is key released s).
Proof.
  unfold transition_memory_released.
  eapply triple_bind; [apply triple_accept_kwargs|]. intros ?. cbv beta.
  eapply triple_bind; [apply triple_get_task|]. intros ts. cbv beta.
  eapply triple_pre with
    (P' := fun s => wanted_actor ts = false /\ Inv s).
  2:{ intros s [[[H1 Hm] H2] H3]. split; [apply (H2 ts H3), (Hm ts H3)|exact H1]. }
  apply triple_pure. intros Hcalm. tkeep.
  fold (wanted_actor ts). rewrite Hcalm.
  tkeep. apply memory_released_rest.
Qed.

(** *** The engine *)

Lemma table_handler_Inv (start finish : TaskStateName)
    (func : string -> Kwargs -> Sched Out) (key : string) (kw : Kwargs) :
  transitions_table start finish = Some func ->
  triple True (fun s => Inv s /\ state_is key start s) (func key kw)
    (fun _ => Inv).
Proof.
  intros Hf.
  assert (Hnm : start <> memory ->
            forall s, Inv s /\ state_is key start s ->
                      Inv s /\ not_in_memory key s).
  { intros Hne s [H1 H2]. split; [exact H1|].
    eapply state_is_not_in_memory; eauto. }
  assert (Hany : forall s, Inv s /\ state_is key start s -> Inv s)
    by (intros s [H _]; exact H).
  assert (Hpost : forall (a : Out) s, Inv s /\ state_is key released s -> Inv s)
    by (intros a s [H _]; exact H).
  destruct start, finish; try discriminate Hf; injection Hf as <-.
  - eapply triple_pre; [apply transition_released_waiting_Inv|apply Hnm; discriminate].
  - eapply triple_pre; [apply transition_released_erred_Inv|apply Hnm; discriminate].
  - eapply triple_pre; [apply transition_released_forgotten_Inv|apply Hany].
  - eapply triple_conseq;
      [apply transition_waiting_released_Inv|apply Hnm; discriminate|apply Hpost].
  - eapply triple_pre; [apply transition_waiting_processing_Inv|apply Hnm; discriminate].
  - eapply triple_pre; [apply transition_waiting_memory_Inv|apply Hany].
  - eapply triple_conseq;
      [apply transition_no_worker_released_Inv|apply Hnm; discriminate|apply Hpost].
  - eapply triple_pre; [apply transition_no_worker_waiting_Inv|apply Hnm; discriminate].
  - eapply triple_pre; [apply transition_no_worker_memory_Inv|apply Hany].
  - eapply triple_conseq;
      [apply transition_processing_released_Inv|apply Hnm; discriminate|apply Hpost].
  - eapply triple_pre; [apply transition_processing_memory_Inv|apply Hany].
  - eapply triple_pre; [apply transition_processing_erred_Inv|apply Hnm; discriminate].
  - eapply triple_pre; [apply transition_memory_released_Inv|apply Hany].
  - eapply triple_pre; [apply transition_memory_forgotten_Inv|apply Hany].
  - eapply triple_conseq;
      [apply transition_erred_released_Inv|apply Hnm; discriminate|apply Hpost].
Qed.

Lemma table_to_released (start : TaskStateName)
    (func : string -> Kwargs -> Sched Out) (key : string) (kw : Kwargs) :
  transitions_table start released = Some func ->
  triple True
    (fun s => (Inv s /\ state_is key start s) /\ no_wanted_actor key s)
    (func key kw)
    (fun _ s => Inv s /\ state_is key released s).
Proof.
  intros Hf.
  assert (Hnm : start <> memory ->
            forall s, (Inv s /\ state_is key start s) /\ no_wanted_actor key s ->
                      Inv s /\ not_in_memory key s).
  { intros Hne s [[H1 H2] _]. split; [exact H1|].
    eapply state_is_not_in_memory; eauto. }
  destruct start; try discriminate Hf; injection Hf as <-.
  - eapply triple_pre; [apply transition_waiting_released_Inv|apply Hnm; discriminate].
  - eapply triple_pre; [apply transition_no_worker_released_Inv|apply Hnm; discriminate].
  - eapply triple_pre; [apply transition_processing_released_Inv|apply Hnm; discriminate].
  - apply transition_memory_released_released.
  - eapply triple_pre; [apply transition_erred_released_Inv|apply Hnm; discriminate].
Qed.

Lemma table_from_released (v : TaskStateName)
    (func : string -> Kwargs -> Sched Out) (key : string) (kw : Kwargs) :
  transitions_table released v = Some func ->
  triple True (fun s => Inv s /\ not_in_memory key s) (func key kw)
    (fun _ => Inv).
Proof.
  intros Hf. destruct v; try discriminate Hf; injection Hf as <-.
  - apply transition_released_waiting_Inv.
  - apply transition_released_erred_Inv.
  - eapply triple_pre; [apply transition_released_forgotten_Inv|].
    intros s [H _]. exact H.
Qed.

(** The first leg of a compound transition. *)
Lemma to_released_Inv (key : string) :
  triple True (fun s => Inv s /\ no_wanted_actor key s)
    (_transition_rec 1 key released no_kwargs)
    (fun _ s => Inv s /\ not_in_memory key s).
Proof.
  cbn [_transition_rec].
  eapply triple_bind; [apply triple_gets|]. intros ots. cbv beta.
  destruct ots as [ts|].
  2:{ tret. intros s [[H _] Hk]. split; [exact H|].
      intros ts Hts. congruence. }
  cbv zeta.
  eapply triple_pre with
    (P' := fun s => (Inv s /\ state_is key (ts_state ts) s) /\
                    no_wanted_actor key s).
  2:{ intros s [[H1 H2] Hk]. split; [split; [exact H1|]|exact H2].
      intros ts' Hts'. congruence. }
  destruct (bool_decide_reflect (ts_state ts = released)) as [Hrel|Hnrel].
  { tret. intros s [[H1 H2] _]. apply released_not_in_memory.
    rewrite Hrel in H2. auto. }
  destruct (transitions_table (ts_state ts) released) as [func|] eqn:Hf.
  - eapply triple_bind; [apply (table_to_released _ _ _ _ Hf)|].
    intros out. cbv beta. tkeep. tkeep_last.
    intros _ s H. apply released_not_in_memory, H.
  - rewrite (bool_decide_eq_true_2 (released = released)) by reflexivity.
    rewrite andb_false_r. apply triple_raise. exact I.
Qed.

(** A request that [transition_memory_released] answers by giving up: the
    task in memory is an actor a client wants, and the request is neither
    for [released] nor for [forgotten]. *)
Definition gives_up_on_actor (key : string) (finish : TaskStateName)
    (s : SchedulerState) : Prop :=
  exists ts, tasks s !! key = Some ts /\ ts_state ts = memory /\
             wanted_actor ts = true /\
             finish <> memory /\ finish <> released /\ finish <> forgotten.

Lemma _transition_Inv (key : string) (finish : TaskStateName) (kw : Kwargs) :
  triple True (fun s => Inv s /\ ~ gives_up_on_actor key finish s)
    (_transition key finish kw) (fun _ => Inv).
Proof.
  unfold _transition.
  change (_transition_rec 2 key finish kw) with
    (ots <- gets (fun s0 => tasks s0 !! key) ;;
     match ots with
     | None => ret empty_out
     | Some ts0 =>
         if bool_decide (ts_state ts0 = finish) then ret empty_out
         else match transitions_table (ts_state ts0) finish with
              | Some func =>
                  out <- func key kw ;;
                  modify (fun s0 => set_transition_counter
                                      (transition_counter s0 + 1)%Z s0) ;;
                  finish_transition key ts0 (ts_state ts0) out
              | None =>
                  if negb (bool_decide (ts_state ts0 = released)) &&
                     negb (bool_decide (finish = released))
                  then
                    py_assert (kwargs_empty kw) ;;
                    '(a_recs, a_cmsgs, a_wmsgs) <-
                      _transition_rec 1 key released no_kwargs ;;
                    match transitions_table released
                            (default finish (recs_get a_recs key)) with
                    | Some func =>
                        '(b_recs, b_cmsgs, b_wmsgs) <- func key no_kwargs ;;
                        finish_transition key ts0 released
                          (recs_update (recs_update [] a_recs) b_recs,
                           merge_msgs (merge_msgs ∅ a_cmsgs) b_cmsgs,
                           merge_msgs (merge_msgs ∅ a_wmsgs) b_wmsgs)
                    | None => raise KeyError
                    end
                  else raise RuntimeError
              end
     end).
  eapply triple_bind; [apply triple_gets|]. intros ots. cbv beta.
  destruct ots as [ts|]; [|tret; intros s [[H _] _]; exact H].
  destruct (bool_decide_reflect (ts_state ts = finish)) as [Heq|Hne];
    [tret; intros s [[H _] _]; exact H|].
  destruct (transitions_table (ts_state ts) finish) as [func|] eqn:Hf.
  - eapply triple_bind.
    { eapply triple_pre; [apply (table_handler_Inv _ _ _ key kw Hf)|].
      intros s [[H1 _] Hk]. split; [exact H1|]. intros ts' Hts'. congruence. }
    intros out. cbv beta. tkeep. tkeep_last. auto.
  - destruct (negb (bool_decide (ts_state ts = released)) &&
              negb (bool_decide (finish = released))) eqn:Hcond;
      [|apply triple_raise; exact I].
    apply andb_true_iff in Hcond as [_ Hfin].
    apply negb_true_iff, bool_decide_eq_false in Hfin.
    eapply triple_pre with (P' := fun s => Inv s /\ no_wanted_actor key s).
    2:{ intros s [[H1 H2] Hk]. split; [exact H1|]. intros ts' Hts' Hmem.
        destruct (wanted_actor ts') eqn:Hw; [|reflexivity].
        exfalso. apply H2. exists ts'. split; [exact Hts'|].
        assert (ts' = ts) as -> by congruence.
        rewrite Hmem in Hf, Hne.
        destruct finish; try discriminate Hf; try contradiction;
          repeat split; congruence. }
    eapply triple_bind; [apply triple_assert; left; exact I|].
    intros ?. cbv beta.
    eapply triple_bind.
    { eapply triple_pre; [apply to_released_Inv|]. intros s [H _]. exact H. }
    intros [[a_recs a_cmsgs] a_wmsgs]. cbv beta.
    destruct (transitions_table released (default finish (recs_get a_recs key)))
      as [func|] eqn:Hf2; [|apply triple_raise; exact I].
    eapply triple_bind; [apply (table_from_released _ _ key no_kwargs Hf2)|].
    intros [[b_recs b_cmsgs] b_wmsgs]. cbv beta. tkeep_last. auto.
Qed.

(** *** Checking the invariant of a given state *)

Definition workers_are_objects_b (s : SchedulerState) : bool :=
  forallb (fun w => is_Some_b (worker_objs s !! w)) (elements (workers s)).

Definition replica_invariant_b (s : SchedulerState) : bool :=
  forallb (fun kt : string * TaskState =>
             bool_decide (in_memory_iff_held kt.2) &&
             forallb (fun w => bool_decide (kt.1 ∈ ws_has_what (worker_obj w s)))
                     (elements (ts_who_has kt.2)))
          (map_to_list (tasks s)).

Lemma workers_are_objects_b_sound (s : SchedulerState) :
  workers_are_objects_b s = true -> workers_are_objects s.
Proof.
  unfold workers_are_objects_b. rewrite forallb_forall. intros H w Hw.
  specialize (H w). rewrite <- list_elem_of_In, elem_of_elements in H.
  specialize (H Hw). destruct (worker_objs s !! w); [eauto|discriminate].
Qed.

Lemma replica_invariant_b_sound (s : SchedulerState) :
  replica_invariant_b s = true -> replica_invariant s.
Proof.
  unfold replica_invariant_b. rewrite forallb_forall. intros H k ts Hk.
  specialize (H (k, ts)). rewrite <- list_elem_of_In, elem_of_map_to_list in H.
  specialize (H Hk). apply andb_true_iff in H as [H1 H2]. cbn in H1, H2.
  split; [apply (bool_decide_eq_true_1 _ H1)|].
  intros w Hw. rewrite forallb_forall in H2. specialize (H2 w).
  rewrite <- list_elem_of_In, elem_of_elements in H2.
  apply (bool_decide_eq_true_1 _ (H2 Hw)).
Qed.

(** *** Scenarios: one worker [w], one task [a] that client [c] wants *)

Definition kwargs_worker (w : string) : Kwargs :=
  Build_Kwargs (Some w) None None None [] None None None None None false false.

Definition replica_scenario (actor : bool) : SchedulerState :=
  let s := add_worker_state (worker_on_host "w" "h" Status_running)
             new_SchedulerState in
  let s := set_clients (<["c" := Build_ClientState "c" {["a"]}]> (clients s)) s in
  let s := new_task "a" (Some "f") waiting "a" "a" s in
  set_tasks
    (alter (fun ts =>
              Build_TaskState (ts_key ts) (ts_run_spec ts) (ts_priority ts)
                (ts_state ts) (ts_dependencies ts) (ts_dependents ts)
                (ts_has_lost_dependencies ts) (ts_waiting_on ts) (ts_waiters ts)
                {["c"]} (ts_who_has ts) (ts_processing_on ts)
                (ts_retries ts) (ts_nbytes ts) (ts_type ts) (ts_exception ts)
                (ts_exception_text ts) (ts_traceback ts) (ts_traceback_text ts)
                (ts_exception_blame ts) (ts_erred_on ts) (ts_suspicious ts)
                (ts_host_restrictions ts) (ts_worker_restrictions ts)
                (ts_resource_restrictions ts) (ts_loose_restrictions ts)
                actor (ts_prefix ts) (ts_group ts))
           "a" (tasks s)) s.

(** The three statements of the claim, equivalent to one another. *)
Definition three_statements_equivalent (s : SchedulerState) (k : string)
    (ts : TaskState) : Prop :=
  (ts_state ts = memory <-> ts_who_has ts <> ∅) /\
  (ts_who_has ts <> ∅ <-> holders_list_it s k ts).

(** The state after a run, [s] itself if it raises. *)
Definition after {A} (m : Sched A) (s : SchedulerState) : SchedulerState :=
  match m s with Ok (_, s') => s' | Err _ => s end.

Definition returns {A} (m : Sched A) (s : SchedulerState) : bool :=
  match m s with Ok _ => true | Err _ => false end.

(** C2, as stated, fails.  Task [a] going from [waiting] to [processing]
    is held by no worker, so the third statement holds of it and the first
    two do not.  And an actor [a] in memory on [w] that client [c] wants,
    asked to become [erred]: [transition_memory_released] gives up,
    [transition_released_erred] runs on the task still in memory, and the
    task ends [erred] and held by [w]. *)
Lemma replicas_not_equivalent_nor_kept :
  (let s := replica_scenario false in
   let s' := after (_transition "a" processing no_kwargs) s in
   replica_invariant s /\
   returns (_transition "a" processing no_kwargs) s = true /\
   ts_state (task_obj "a" s') = processing /\
   ts_who_has (task_obj "a" s') = ∅ /\
   holders_list_it s' "a" (task_obj "a" s') /\
   ~ three_statements_equivalent s' "a" (task_obj "a" s')) /\
  (let s := after (_transition "a" memory (kwargs_worker "w"))
              (replica_scenario true) in
   let s' := after (_transition "a" erred no_kwargs) s in
   replica_invariant s /\
   ts_state (task_obj "a" s) = memory /\
   ts_who_has (task_obj "a" s) = {["w"]} /\
   returns (_transition "a" erred no_kwargs) s = true /\
   ts_state (task_obj "a" s') = erred /\
   ts_who_has (task_obj "a" s') = {["w"]} /\
   ~ in_memory_iff_held (task_obj "a" s')).
Proof.
  split.
  - cbv zeta.
    assert (Hwh : ts_who_has (task_obj "a"
                    (after (_transition "a" processing no_kwargs)
                       (replica_scenario false))) = ∅)
      by (apply (bool_decide_unpack _); vm_compute; exact I).
    assert (Hst : ts_state (task_obj "a"
                    (after (_transition "a" processing no_kwargs)
                       (replica_scenario false))) = processing)
      by (vm_compute; reflexivity).
    split; [apply replica_invariant_b_sound; vm_compute; reflexivity|].
    split; [vm_compute; reflexivity|].
    split; [exact Hst|]. split; [exact Hwh|].
    assert (Hh : holders_list_it
                   (after (_transition "a" processing no_kwargs)
                      (replica_scenario false)) "a"
                   (task_obj "a"
                      (after (_transition "a" processing no_kwargs)
                         (replica_scenario false)))).
    { intros w Hw. rewrite Hwh in Hw. destruct (not_elem_of_empty w Hw). }
    split; [exact Hh|].
    intros [_ H2]. apply H2 in Hh. apply Hh, Hwh.
  - cbv zeta.
    assert (Hwh : ts_who_has (task_obj "a"
                    (after (_transition "a" erred no_kwargs)
                       (after (_transition "a" memory (kwargs_worker "w"))
                          (replica_scenario true)))) = {["w"]})
      by (apply (bool_decide_unpack _); vm_compute; exact I).
    assert (Hst : ts_state (task_obj "a"
                    (after (_transition "a" erred no_kwargs)
                       (after (_transition "a" memory (kwargs_worker "w"))
                          (replica_scenario true)))) = erred)
      by (vm_compute; reflexivity).
    split; [apply replica_invariant_b_sound; vm_compute; reflexivity|].
    split; [vm_compute; reflexivity|].
    split; [apply (bool_decide_unpack _); vm_compute; exact I|].
    split; [vm_compute; reflexivity|].
    split; [exact Hst|]. split; [exact Hwh|].
    intros H. unfold in_memory_iff_held in H. rewrite Hst, Hwh in H.
    assert (Hne : ({["w"]} : gset string) <> ∅).
    { intros Hc. assert (Hin : "w" ∈ ({["w"]} : gset string))
        by (apply elem_of_singleton; reflexivity).
      rewrite Hc in Hin. apply (not_elem_of_empty "w" Hin). }
    apply H in Hne. discriminate.
Qed.

(** C2 (amended): a transition that returns keeps the replica maps of every
    task of the task table consistent: the task is in memory exactly when
    [who_has] is not empty, and every worker of [who_has] lists the task in
    its [has_what].  The one request left out is the compound transition
    out of memory of an actor that a client still wants. *)
Theorem transition_keeps_replica_invariant
    (s s' : SchedulerState) (key : string) (finish : TaskStateName)
    (kw : Kwargs) (out : Out) :
  workers_are_objects s ->
  replica_invariant s ->
  ~ gives_up_on_actor key finish s ->
  _transition key finish kw s = Ok (out, s') ->
  workers_are_objects s' /\ replica_invariant s'.
Proof.
  intros Hwf Hinv Hact Hrun.
  pose proof (_transition_Inv key finish kw s (conj (conj Hwf Hinv) Hact)) as H.
  rewrite Hrun in H. exact H.
Qed.

Lemma returns_after {A} (m : Sched A) (s : SchedulerState) :
  returns m s = true -> exists a, m s = Ok (a, after m s).
Proof.
  unfold returns, after. destruct (m s) as [[a s']|e]; [eauto|discriminate].
Qed.

Lemma transition_keeps_replica_invariant_witness :
  let s := replica_scenario true in
  let s' := after (_transition "a" memory (kwargs_worker "w")) s in
  returns (_transition "a" memory (kwargs_worker "w")) s = true /\
  ts_state (task_obj "a" s') = memory /\
  workers_are_objects s' /\ replica_invariant s'.
Proof.
  cbv zeta.
  assert (Hret : returns (_transition "a" memory (kwargs_worker "w"))
                   (replica_scenario true) = true) by (vm_compute; reflexivity).
  split; [exact Hret|].
  split; [vm_compute; reflexivity|].
  destruct (returns_after _ _ Hret) as [out Hrun].
  apply (transition_keeps_replica_invariant (replica_scenario true) _ "a"
           memory (kwargs_worker "w") out).
  - apply workers_are_objects_b_sound. vm_compute. reflexivity.
  - apply replica_invariant_b_sound. vm_compute. reflexivity.
  - intros (ts & Hts & Hst & _).
    assert (E : tasks (replica_scenario true) !! "a"
                = Some (task_obj "a" (replica_scenario true)))
      by (vm_compute; reflexivity).
    rewrite E in Hts. injection Hts as <-.
    assert (E2 : ts_state (task_obj "a" (replica_scenario true)) = waiting)
      by (vm_compute; reflexivity).
    rewrite E2 in Hst. discriminate.
  - exact Hrun.
Defined.

(** ** Further properties of the scheduler *)

(** *** [heartbeat_interval] *)




(** *** [MemoryState] *)

(** The property [MemoryState.managed] *)
Definition ms_managed (ms : MemoryState) : Z :=
  (ms_managed_in_memory ms + ms_managed_spilled ms)%Z.

(** The property [MemoryState.unmanaged] *)
Definition ms_unmanaged (ms : MemoryState) : Z :=
  (ms_process ms - ms_managed_in_memory ms)%Z.

(** The property [MemoryState.unmanaged_recent] *)
Definition ms_unmanaged_recent (ms : MemoryState) : Z :=
  (ms_process ms - ms_managed_in_memory ms - ms_unmanaged_old ms)%Z.

(** The property [MemoryState.optimistic] *)
Definition ms_optimistic (ms : MemoryState) : Z :=
  (ms_managed_in_memory ms + ms_unmanaged_old ms)%Z.

(** The class method [MemoryState.sum], over its arguments [infos] *)
Definition MemoryState_sum (infos : list MemoryState) : MemoryState :=
  let '(process, unmanaged_old, managed_spilled, managed_in_memory) :=
    fold_left (fun '(p, uo, sp, mim) ms =>
                 ((p + ms_process ms)%Z, (uo + ms_unmanaged_old ms)%Z,
                  (sp + ms_managed_spilled ms)%Z,
                  (mim + ms_managed_in_memory ms)%Z))
              infos (0%Z, 0%Z, 0%Z, 0%Z) in
  new_MemoryState process unmanaged_old managed_in_memory managed_spilled.

(** What [__init__] forces: the parts never exceed the whole. *)
Definition ms_adds_up (ms : MemoryState) : Prop :=
  (ms_managed_in_memory ms <= ms_process ms)%Z /\
  (ms_unmanaged_old ms <= ms_process ms - ms_managed_in_memory ms)%Z.

(** Whatever readings arrive, the constructor makes them add up: the
    unmanaged and the recent unmanaged memory are never negative, the
    optimistic measure never exceeds the process memory, and the process
    memory is the sum of managed in-memory, old and recent unmanaged. *)
Theorem MemoryState_adds_up (process unmanaged_old managed_in_memory
    managed_spilled : Z) :
  let ms := new_MemoryState process unmanaged_old managed_in_memory
              managed_spilled in
  ms_adds_up ms /\
  (0 <= ms_unmanaged ms)%Z /\
  (0 <= ms_unmanaged_recent ms)%Z /\
  (ms_optimistic ms <= ms_process ms)%Z /\
  (measure_of measure_optimistic ms = ms_optimistic ms) /\
  ms_process ms = process /\
  ms_process ms
  = (ms_managed_in_memory ms + ms_unmanaged_old ms + ms_unmanaged_recent ms)%Z.
Proof.
  unfold ms_adds_up, ms_unmanaged, ms_unmanaged_recent, ms_optimistic,
    new_MemoryState. cbn. lia.
Qed.

Lemma MemoryState_sum_fold (infos : list MemoryState) (p uo sp mim : Z) :
  Forall ms_adds_up infos ->
  (mim <= p)%Z -> (uo <= p - mim)%Z ->
  exists p' uo' sp' mim',
    fold_left (fun '(p, uo, sp, mim) ms =>
                 ((p + ms_process ms)%Z, (uo + ms_unmanaged_old ms)%Z,
                  (sp + ms_managed_spilled ms)%Z,
                  (mim + ms_managed_in_memory ms)%Z))
              infos (p, uo, sp, mim) = (p', uo', sp', mim') /\
    (mim' <= p')%Z /\ (uo' <= p' - mim')%Z /\
    p' = (p + foldr (fun ms acc => ms_process ms + acc) 0 infos)%Z /\
    uo' = (uo + foldr (fun ms acc => ms_unmanaged_old ms + acc) 0 infos)%Z /\
    sp' = (sp + foldr (fun ms acc => ms_managed_spilled ms + acc) 0 infos)%Z /\
    mim' = (mim + foldr (fun ms acc => ms_managed_in_memory ms + acc) 0 infos)%Z.
Proof.
  intros HF. revert p uo sp mim.
  induction HF as [|ms infos [H1 H2] _ IH]; intros p uo sp mim Hp Hu.
  - exists p, uo, sp, mim. cbn. repeat split; lia.
  - cbn [fold_left foldr].
    destruct (IH (p + ms_process ms)%Z (uo + ms_unmanaged_old ms)%Z
                 (sp + ms_managed_spilled ms)%Z
                 (mim + ms_managed_in_memory ms)%Z)
      as (p' & uo' & sp' & mim' & E & ? & ? & ? & ? & ? & ?); [lia|lia|].
    exists p', uo', sp', mim'. split; [exact E|]. repeat split; lia.
Qed.

(** The sum of readings that add up needs no clamping: every field of
    [MemoryState.sum] is the sum of that field, so the derived measures
    (optimistic, unmanaged, recent unmanaged) are sums as well. *)
Theorem MemoryState_sum_fieldwise (infos : list MemoryState) :
  Forall ms_adds_up infos ->
  let total := MemoryState_sum infos in
  ms_adds_up total /\
  ms_process total = foldr (fun ms acc => ms_process ms + acc)%Z 0%Z infos /\
  ms_managed_in_memory total
  = foldr (fun ms acc => ms_managed_in_memory ms + acc)%Z 0%Z infos /\
  ms_managed_spilled total
  = foldr (fun ms acc => ms_managed_spilled ms + acc)%Z 0%Z infos /\
  ms_unmanaged_old total
  = foldr (fun ms acc => ms_unmanaged_old ms + acc)%Z 0%Z infos /\
  ms_optimistic total
  = foldr (fun ms acc => ms_optimistic ms + acc)%Z 0%Z infos /\
  ms_unmanaged_recent total
  = foldr (fun ms acc => ms_unmanaged_recent ms + acc)%Z 0%Z infos.
Proof.
  intros HF. cbv zeta. unfold MemoryState_sum.
  destruct (MemoryState_sum_fold infos 0 0 0 0 HF) as
    (p & uo & sp & mim & -> & Hm & Hu & -> & -> & -> & ->); [lia|lia|].
  unfold ms_adds_up, ms_optimistic, ms_unmanaged_recent, new_MemoryState. cbn.
  assert (Ho : foldr (fun ms acc => ms_managed_in_memory ms + ms_unmanaged_old ms + acc)%Z
                 0%Z infos
               = (foldr (fun ms acc => ms_managed_in_memory ms + acc) 0 infos
                  + foldr (fun ms acc => ms_unmanaged_old ms + acc) 0 infos)%Z).
  { clear. induction infos as [|ms l IH]; cbn; lia. }
  assert (Hr : foldr (fun ms acc => ms_process ms - ms_managed_in_memory ms
                                    - ms_unmanaged_old ms + acc)%Z 0%Z infos
               = (foldr (fun ms acc => ms_process ms + acc) 0 infos
                  - foldr (fun ms acc => ms_managed_in_memory ms + acc) 0 infos
                  - foldr (fun ms acc => ms_unmanaged_old ms + acc) 0 infos)%Z).
  { clear. induction infos as [|ms l IH]; cbn; lia. }
  rewrite Ho, Hr. cbn in Hm, Hu. lia.
Qed.

Lemma MemoryState_sum_fieldwise_witness :
  let a := new_MemoryState 100 80 30 5 in
  let b := new_MemoryState 50 10 70 0 in
  ms_process (MemoryState_sum [a; b]) = 150%Z /\
  ms_optimistic (MemoryState_sum [a; b]) = 150%Z /\
  ms_unmanaged_recent (MemoryState_sum [a; b]) = 0%Z.
Proof.
  cbv zeta.
  pose proof (MemoryState_sum_fieldwise
                [new_MemoryState 100 80 30 5; new_MemoryState 50 10 70 0]) as H.
  destruct H as (_ & Hp & _ & _ & _ & Ho & Hr).
  - repeat constructor; cbn; lia.
  - rewrite Hp, Ho, Hr. repeat split.
Defined.

(** *** Replicas: [add_replica], [remove_replica], [remove_all_replicas] *)

Lemma worker_obj_alter_same (ws : string) (f : WorkerState -> WorkerState)
    (w : WorkerState) (s : SchedulerState) :
  worker_objs s !! ws = Some w ->
  worker_obj ws (set_worker_objs (alter f ws (worker_objs s)) s) = f w.
Proof.
  intros H. unfold worker_obj. cbn. rewrite lookup_alter_eq, H. reflexivity.
Qed.

Lemma task_obj_alter_same (key : string) (f : TaskState -> TaskState)
    (ts : TaskState) (s : SchedulerState) :
  tasks s !! key = Some ts ->
  task_obj key (set_tasks (alter f key (tasks s)) s) = f ts.
Proof.
  intros H. unfold task_obj. cbn. rewrite lookup_alter_eq, H. reflexivity.
Qed.

Lemma filter_has_what_add (key : string) (l : list string) :
  key ∉ l -> filter (fun k => k <> key) (has_what_add key l) = l.
Proof.
  intros Hnin. unfold has_what_add. rewrite bool_decide_eq_false_2 by exact Hnin.
  rewrite filter_app. cbn. rewrite decide_False by (intros H; apply H; reflexivity).
  rewrite app_nil_r.
  induction l as [|x l IH]; [reflexivity|].
  apply not_elem_of_cons in Hnin as [Hne Hnin].
  cbn. rewrite decide_True by congruence. f_equal. apply IH, Hnin.
Qed.

(** The three tables the replica operations write. *)
Definition with_replicas (rt : gset string) (T : gmap string TaskState)
    (W : gmap string WorkerState) (s : SchedulerState) : SchedulerState :=
  set_replicated_tasks rt (set_tasks T (set_worker_objs W s)).

Lemma with_replicas_same (s : SchedulerState) :
  with_replicas (replicated_tasks s) (tasks s) (worker_objs s) s = s.
Proof. destruct s. reflexivity. Qed.

Lemma with_replicas_twice (rt rt' : gset string) (T T' : gmap string TaskState)
    (W W' : gmap string WorkerState) (s : SchedulerState) :
  with_replicas rt' T' W' (with_replicas rt T W s) = with_replicas rt' T' W' s.
Proof. destruct s. reflexivity. Qed.

Lemma add_replica_unfold (key ws : string) (s : SchedulerState) :
  add_replica key ws s =
  Ok (tt,
      with_replicas
        (if bool_decide
              (size (ts_who_has (task_obj key s) ∪ {[ws]}) = 2%nat
               /\ is_Some (tasks s !! key))
         then replicated_tasks s ∪ {[key]} else replicated_tasks s)
        (alter (fun t => set_ts_who_has (ts_who_has t ∪ {[ws]}) t) key (tasks s))
        (alter (fun w => set_ws_has_what (has_what_add key (ws_has_what w)) w) ws
           (alter (fun w => set_ws_nbytes
                              (ws_nbytes w + get_nbytes s (task_obj key s))%Z w)
                  ws (worker_objs s)))
        s).
Proof.
  unfold add_replica, bind, gets, upd_worker, upd_task, modify, when, ret.
  unfold task_obj.
  cbn [tasks worker_objs replicated_tasks set_tasks set_worker_objs
       set_replicated_tasks].
  rewrite lookup_alter_eq.
  destruct (tasks s !! key) as [ts|] eqn:Hts;
    cbn [fmap option_fmap option_map default id ts_who_has set_ts_who_has
         tombstone].
  - idtac.
    destruct (bool_decide_reflect (size (ts_who_has ts ∪ {[ws]}) = 2%nat)) as [H2|H2].
    + rewrite bool_decide_eq_true_2 by (split; [exact H2|eauto]).
      destruct s; reflexivity.
    + rewrite bool_decide_eq_false_2 by (intros [? _]; contradiction).
      destruct s; reflexivity.
  - rewrite bool_decide_eq_false_2.
    2:{ rewrite size_empty. discriminate. }
    rewrite bool_decide_eq_false_2 by (intros [_ [? ?]]; discriminate).
    destruct s; reflexivity.
Qed.

Lemma has_what_after_nbytes (ws : string) (f : WorkerState -> WorkerState)
    (s : SchedulerState) :
  (forall w, ws_has_what (f w) = ws_has_what w) ->
  ws_has_what (worker_obj ws (set_worker_objs (alter f ws (worker_objs s)) s))
  = ws_has_what (worker_obj ws s).
Proof.
  intros Hf. unfold worker_obj. cbn [worker_objs set_worker_objs].
  rewrite lookup_alter_eq. destruct (worker_objs s !! ws); cbn; [apply Hf|reflexivity].
Qed.

Lemma remove_replica_unfold (key ws : string) (s : SchedulerState) :
  remove_replica key ws s =
  let wh := ts_who_has (task_obj key s) ∖ {[ws]} in
  let T := alter (set_ts_who_has wh) key (tasks s) in
  let W :=
    alter (set_ws_has_what
             (filter (fun k => k <> key) (ws_has_what (worker_obj ws s)))) ws
      (alter (fun w => set_ws_nbytes
                         (ws_nbytes w - get_nbytes s (task_obj key s))%Z w)
             ws (worker_objs s)) in
  if bool_decide (key ∈ ws_has_what (worker_obj ws s))
  then if bool_decide (ws ∈ ts_who_has (task_obj key s))
       then if bool_decide (size wh = 1%nat)
            then if bool_decide (key ∈ replicated_tasks s)
                 then Ok (tt, with_replicas (replicated_tasks s ∖ {[key]}) T W s)
                 else Err KeyError
            else Ok (tt, with_replicas (replicated_tasks s) T W s)
       else Err KeyError
  else Err KeyError.
Proof.
  cbv zeta. unfold remove_replica.
  unfold bind at 1. unfold gets at 1.
  unfold bind at 1. unfold gets at 1.
  unfold bind at 1. unfold upd_worker at 1, modify at 1.
  unfold bind at 1. unfold gets at 1.
  unfold bind at 1. unfold has_what_del, of_res at 1.
  rewrite has_what_after_nbytes by (intros w; reflexivity).
  destruct (bool_decide (key ∈ ws_has_what (worker_obj ws s))); [|reflexivity].
  unfold bind at 1. unfold upd_worker at 1, modify at 1.
  unfold bind at 1. unfold set_remove, of_res at 1.
  destruct (bool_decide (ws ∈ ts_who_has (task_obj key s))); [|reflexivity].
  unfold bind at 1. unfold upd_task at 1, modify at 1.
  destruct (bool_decide (size (ts_who_has (task_obj key s) ∖ {[ws]}) = 1%nat)).
  - unfold bind at 1. unfold gets at 1. unfold bind at 1.
    unfold set_remove, of_res.
    cbn [tasks worker_objs replicated_tasks set_tasks set_worker_objs].
    destruct (bool_decide (key ∈ replicated_tasks s)); [|reflexivity].
    unfold modify. destruct s; reflexivity.
  - unfold ret. destruct s; reflexivity.
Qed.

(** [remove_replica] succeeds exactly when both ends of the edge are there
    (and, the task left with one replica, when it was recorded as
    replicated); otherwise it raises [KeyError].  On success the worker is
    dropped from [who_has], the key from [has_what], and the size of the
    task from the worker's [nbytes]. *)
Theorem remove_replica_spec (key ws : string) (ts : TaskState)
    (w : WorkerState) (s : SchedulerState) :
  tasks s !! key = Some ts ->
  worker_objs s !! ws = Some w ->
  (key ∈ ws_has_what w /\ ws ∈ ts_who_has ts /\
   (size (ts_who_has ts ∖ {[ws]}) = 1%nat -> key ∈ replicated_tasks s) ->
   exists s', remove_replica key ws s = Ok (tt, s') /\
     ts_who_has (task_obj key s') = ts_who_has ts ∖ {[ws]} /\
     ws_has_what (worker_obj ws s') = filter (fun k => k <> key) (ws_has_what w) /\
     ws_nbytes (worker_obj ws s') = (ws_nbytes w - get_nbytes s ts)%Z /\
     replicated_tasks s' =
       (if bool_decide (size (ts_who_has ts ∖ {[ws]}) = 1%nat)
        then replicated_tasks s ∖ {[key]} else replicated_tasks s)) /\
  (~ (key ∈ ws_has_what w /\ ws ∈ ts_who_has ts /\
      (size (ts_who_has ts ∖ {[ws]}) = 1%nat -> key ∈ replicated_tasks s)) ->
   remove_replica key ws s = Err KeyError).
Proof.
  intros Hts Hw.
  assert (Htobj : task_obj key s = ts) by (unfold task_obj; rewrite Hts; reflexivity).
  assert (Hwobj : worker_obj ws s = w) by (unfold worker_obj; rewrite Hw; reflexivity).
  rewrite remove_replica_unfold. cbv zeta. rewrite Htobj, Hwobj.
  assert (Heff : forall rt,
            ts_who_has (task_obj key
              (with_replicas rt
                 (alter (set_ts_who_has (ts_who_has ts ∖ {[ws]})) key (tasks s))
                 (alter (set_ws_has_what (filter (fun k => k <> key) (ws_has_what w))) ws
                    (alter (fun w0 => set_ws_nbytes (ws_nbytes w0 - get_nbytes s ts)%Z w0)
                       ws (worker_objs s))) s)) = ts_who_has ts ∖ {[ws]} /\
            ws_has_what (worker_obj ws
              (with_replicas rt
                 (alter (set_ts_who_has (ts_who_has ts ∖ {[ws]})) key (tasks s))
                 (alter (set_ws_has_what (filter (fun k => k <> key) (ws_has_what w))) ws
                    (alter (fun w0 => set_ws_nbytes (ws_nbytes w0 - get_nbytes s ts)%Z w0)
                       ws (worker_objs s))) s))
              = filter (fun k => k <> key) (ws_has_what w) /\
            ws_nbytes (worker_obj ws
              (with_replicas rt
                 (alter (set_ts_who_has (ts_who_has ts ∖ {[ws]})) key (tasks s))
                 (alter (set_ws_has_what (filter (fun k => k <> key) (ws_has_what w))) ws
                    (alter (fun w0 => set_ws_nbytes (ws_nbytes w0 - get_nbytes s ts)%Z w0)
                       ws (worker_objs s))) s))
              = (ws_nbytes w - get_nbytes s ts)%Z).
  { intros rt. unfold task_obj, worker_obj, with_replicas.
    cbn [tasks worker_objs set_tasks set_worker_objs set_replicated_tasks].
    rewrite !lookup_alter_eq, Hts, Hw. cbn. auto. }
  destruct (bool_decide_reflect (key ∈ ws_has_what w)) as [Hk|Hk].
  2:{ split; [intros (? & _); contradiction|reflexivity]. }
  destruct (bool_decide_reflect (ws ∈ ts_who_has ts)) as [Hin|Hin].
  2:{ split; [intros (_ & ? & _); contradiction|reflexivity]. }
  destruct (bool_decide_reflect (size (ts_who_has ts ∖ {[ws]}) = 1%nat)) as [H1|H1].
  - destruct (bool_decide_reflect (key ∈ replicated_tasks s)) as [Hr|Hr].
    + split; [|intros Hn; exfalso; apply Hn; auto].
      intros _. eexists. split; [reflexivity|].
      destruct (Heff (replicated_tasks s ∖ {[key]})) as (E1 & E2 & E3).
      repeat split; assumption.
    + split; [intros (_ & _ & Hc); specialize (Hc H1); contradiction|reflexivity].
  - split; [|intros Hn; exfalso; apply Hn; repeat split; auto; intros; contradiction].
    intros _. eexists. split; [reflexivity|].
    destruct (Heff (replicated_tasks s)) as (E1 & E2 & E3).
    repeat split; assumption.
Qed.

Lemma alter_alter_restore {A} (f g : A -> A) (k : string) (m : gmap string A)
    (x : A) :
  m !! k = Some x -> g (f x) = x -> alter g k (alter f k m) = m.
Proof.
  intros Hk Hx. apply map_eq. intros i.
  destruct (decide (i = k)) as [->|Hne].
  - rewrite !lookup_alter_eq, Hk. cbn. rewrite Hx. reflexivity.
  - rewrite !lookup_alter_ne by congruence. reflexivity.
Qed.

(** Adding a replica and removing it again leaves the scheduler state
    exactly as it was. *)
Theorem add_remove_replica_round_trip (key ws : string) (ts : TaskState)
    (w : WorkerState) (s : SchedulerState) :
  tasks s !! key = Some ts ->
  worker_objs s !! ws = Some w ->
  ws ∉ ts_who_has ts ->
  key ∉ ws_has_what w ->
  (size (ts_who_has ts) = 1%nat -> key ∉ replicated_tasks s) ->
  (add_replica key ws ;; remove_replica key ws) s = Ok (tt, s).
Proof.
  intros Hts Hw Hnin Hnk Hrep.
  assert (Htobj : task_obj key s = ts) by (unfold task_obj; rewrite Hts; reflexivity).
  unfold bind. rewrite add_replica_unfold. rewrite Htobj.
  set (R := if bool_decide (size (ts_who_has ts ∪ {[ws]}) = 2%nat
                            /\ is_Some (tasks s !! key))
            then replicated_tasks s ∪ {[key]} else replicated_tasks s).
  set (T := alter (fun t => set_ts_who_has (ts_who_has t ∪ {[ws]}) t) key (tasks s)).
  set (W := alter (fun w0 => set_ws_has_what (has_what_add key (ws_has_what w0)) w0) ws
              (alter (fun w0 => set_ws_nbytes (ws_nbytes w0 + get_nbytes s ts)%Z w0)
                 ws (worker_objs s))).
  rewrite remove_replica_unfold. cbv zeta.
  assert (Et : task_obj key (with_replicas R T W s)
               = set_ts_who_has (ts_who_has ts ∪ {[ws]}) ts).
  { unfold task_obj, with_replicas, T.
    cbn [tasks set_tasks set_worker_objs set_replicated_tasks].
    rewrite lookup_alter_eq, Hts. reflexivity. }
  assert (Ew : worker_obj ws (with_replicas R T W s)
               = set_ws_has_what (has_what_add key (ws_has_what w))
                   (set_ws_nbytes (ws_nbytes w + get_nbytes s ts)%Z w)).
  { unfold worker_obj, with_replicas, W.
    cbn [worker_objs set_tasks set_worker_objs set_replicated_tasks].
    rewrite !lookup_alter_eq, Hw. reflexivity. }
  rewrite Et, Ew.
  assert (En : get_nbytes (with_replicas R T W s)
                 (set_ts_who_has (ts_who_has ts ∪ {[ws]}) ts)
               = get_nbytes s ts) by (destruct s; reflexivity).
  rewrite En.
  cbn [ts_who_has set_ts_who_has ws_has_what set_ws_has_what set_ws_nbytes].
  assert (Ewh : (ts_who_has ts ∪ {[ws]}) ∖ {[ws]} = ts_who_has ts).
  { apply set_eq. intros x. rewrite elem_of_difference, elem_of_union,
      elem_of_singleton. split; [intros [[H|H] Hn]; [exact H|contradiction]|].
    intros H. split; [left; exact H|]. intros ->. contradiction. }
  rewrite Ewh.
  rewrite bool_decide_eq_true_2 by (apply has_what_add_elem; right; reflexivity).
  rewrite bool_decide_eq_true_2
    by (apply elem_of_union_r, elem_of_singleton; reflexivity).
  assert (Esz : size (ts_who_has ts ∪ {[ws]}) = S (size (ts_who_has ts))).
  { rewrite size_union by (apply disjoint_singleton_r; exact Hnin).
    rewrite size_singleton. lia. }
  assert (ET : alter (set_ts_who_has (ts_who_has ts)) key T = tasks s).
  { unfold T. apply (alter_alter_restore _ _ key (tasks s) ts Hts).
    destruct ts; reflexivity. }
  assert (EW : alter (set_ws_has_what
                        (filter (fun k => k <> key)
                           (has_what_add key (ws_has_what w)))) ws
                 (alter (fun w0 => set_ws_nbytes
                                     (ws_nbytes w0 - get_nbytes s ts)%Z w0) ws
                    (worker_objs (with_replicas R T W s)))
               = worker_objs s).
  { replace (worker_objs (with_replicas R T W s)) with W by (destruct s; reflexivity).
    unfold W. apply map_eq. intros i.
    destruct (decide (i = ws)) as [->|Hne].
    - rewrite !lookup_alter_eq, Hw. cbn. f_equal.
      rewrite filter_has_what_add by exact Hnk.
      destruct w; unfold set_ws_has_what, set_ws_nbytes; cbn. f_equal. lia.
    - rewrite !lookup_alter_ne by congruence. reflexivity. }
  replace (tasks (with_replicas R T W s)) with T by (destruct s; reflexivity).
  replace (replicated_tasks (with_replicas R T W s)) with R
    by (destruct s; reflexivity).
  rewrite ET, EW, !with_replicas_twice.
  destruct (bool_decide_reflect (size (ts_who_has ts) = 1%nat)) as [H1|H1].
  - assert (ER : R = replicated_tasks s ∪ {[key]}).
    { unfold R. rewrite bool_decide_eq_true_2; [reflexivity|].
      split; [lia|eauto]. }
    rewrite bool_decide_eq_true_2
      by (rewrite ER; apply elem_of_union_r, elem_of_singleton; reflexivity).
    assert (ER2 : R ∖ {[key]} = replicated_tasks s).
    { rewrite ER. specialize (Hrep H1). apply set_eq. intros x.
      rewrite elem_of_difference, elem_of_union, elem_of_singleton.
      split; [intros [[H|H] Hn]; [exact H|contradiction]|].
      intros H. split; [left; exact H|]. intros ->. contradiction. }
    rewrite ER2, with_replicas_same. reflexivity.
  - assert (ER : R = replicated_tasks s).
    { unfold R. rewrite bool_decide_eq_false_2; [reflexivity|].
      intros [H2 _]. lia. }
    rewrite ER, with_replicas_same. reflexivity.
Qed.

(** [replicated_tasks] lists [key] exactly when the task has more than one
    replica. *)
Definition tracks_replicas (key : string) (s : SchedulerState) : Prop :=
  key ∈ replicated_tasks s <-> (2 <= size (ts_who_has (task_obj key s)))%nat.

Lemma task_obj_with_replicas (k key : string) (f : TaskState -> TaskState)
    (rt : gset string) (W : gmap string WorkerState) (s : SchedulerState) :
  task_obj k (with_replicas rt (alter f key (tasks s)) W s) =
  if bool_decide (k = key)
  then match tasks s !! key with
       | Some ts => f ts
       | None => tombstone key
       end
  else task_obj k s.
Proof.
  unfold task_obj, with_replicas.
  cbn [tasks set_tasks set_worker_objs set_replicated_tasks].
  destruct (bool_decide_reflect (k = key)) as [->|Hne].
  - rewrite lookup_alter_eq. destruct (tasks s !! key); reflexivity.
  - rewrite lookup_alter_ne by congruence. reflexivity.
Qed.

Lemma replicated_with_replicas (rt : gset string) (T : gmap string TaskState)
    (W : gmap string WorkerState) (s : SchedulerState) :
  replicated_tasks (with_replicas rt T W s) = rt.
Proof. destruct s; reflexivity. Qed.

(** [add_replica] and [remove_replica] keep [replicated_tasks] in step with
    the number of replicas of the task, and touch neither the replicas nor
    the record of any other task. *)
Theorem replicated_tasks_tracks_replicas (key ws : string) (ts : TaskState)
    (s s' : SchedulerState) :
  tasks s !! key = Some ts ->
  tracks_replicas key s ->
  add_replica key ws s = Ok (tt, s') \/ remove_replica key ws s = Ok (tt, s') ->
  tracks_replicas key s' /\
  forall k, k <> key ->
    (k ∈ replicated_tasks s' <-> k ∈ replicated_tasks s) /\
    ts_who_has (task_obj k s') = ts_who_has (task_obj k s).
Proof.
  intros Hts Htr Hrun.
  assert (Htobj : task_obj key s = ts) by (unfold task_obj; rewrite Hts; reflexivity).
  unfold tracks_replicas in *. rewrite Htobj in Htr.
  destruct Hrun as [Hrun|Hrun].
  - rewrite add_replica_unfold, Htobj in Hrun. injection Hrun as <-.
    split.
    + rewrite replicated_with_replicas, task_obj_with_replicas.
      rewrite (bool_decide_eq_true_2 (key = key)) by reflexivity. rewrite Hts.
      cbn [ts_who_has set_ts_who_has].
      assert (Hsz : (size (ts_who_has ts) <= size (ts_who_has ts ∪ {[ws]})
                     <= S (size (ts_who_has ts)))%nat).
      { split.
        - apply subseteq_size, union_subseteq_l.
        - rewrite size_union_alt.
          assert (size (({[ws]} : gset string) ∖ ts_who_has ts) <= 1)%nat.
          { rewrite <- (size_singleton (C := gset string) ws).
            apply subseteq_size, subseteq_difference_l. reflexivity. }
          lia. }
      match goal with
      | |- context [bool_decide ?P] =>
          destruct (bool_decide_reflect P) as [[H2 _]|Hn]
      end.
      * rewrite H2. split; [lia|]. intros _.
        apply elem_of_union_r, elem_of_singleton. reflexivity.
      * assert (H2 : size (ts_who_has ts ∪ {[ws]}) <> 2%nat)
          by (intros H2; apply Hn; split; [exact H2|eauto]).
        rewrite Htr. lia.
    + intros k Hne. rewrite replicated_with_replicas, task_obj_with_replicas.
      rewrite (bool_decide_eq_false_2 (k = key)) by exact Hne. split; [|reflexivity].
      destruct (bool_decide _); [|reflexivity].
      rewrite elem_of_union, elem_of_singleton. split; [|auto].
      intros [H|H]; [exact H|contradiction].
  - rewrite remove_replica_unfold in Hrun. cbv zeta in Hrun. rewrite Htobj in Hrun.
    destruct (bool_decide (key ∈ ws_has_what (worker_obj ws s)));
      [|discriminate].
    destruct (bool_decide_reflect (ws ∈ ts_who_has ts)) as [Hin|]; [|discriminate].
    assert (Hsz : size (ts_who_has ts) = S (size (ts_who_has ts ∖ {[ws]}))).
    { rewrite (union_difference_singleton_L ws (ts_who_has ts) Hin) at 1.
      rewrite size_union, size_singleton; [reflexivity|].
      apply disjoint_singleton_l. rewrite elem_of_difference, elem_of_singleton.
      intros [_ H]. apply H. reflexivity. }
    destruct (bool_decide_reflect (size (ts_who_has ts ∖ {[ws]}) = 1%nat)) as [H1|H1].
    + destruct (bool_decide (key ∈ replicated_tasks s)); [|discriminate].
      injection Hrun as <-. split.
      * rewrite replicated_with_replicas, task_obj_with_replicas.
        rewrite (bool_decide_eq_true_2 (key = key)) by reflexivity. rewrite Hts.
        cbn [ts_who_has set_ts_who_has]. rewrite H1.
        rewrite elem_of_difference, elem_of_singleton. split; [|lia].
        intros [_ H]. exfalso. apply H. reflexivity.
      * intros k Hne. rewrite replicated_with_replicas, task_obj_with_replicas.
        rewrite (bool_decide_eq_false_2 (k = key)) by exact Hne. split; [|reflexivity].
        rewrite elem_of_difference, elem_of_singleton. split; [intros [H _]; exact H|].
        intros H. split; [exact H|exact Hne].
    + injection Hrun as <-. split.
      * rewrite replicated_with_replicas, task_obj_with_replicas.
        rewrite (bool_decide_eq_true_2 (key = key)) by reflexivity. rewrite Hts.
        cbn [ts_who_has set_ts_who_has]. rewrite Htr. lia.
      * intros k Hne. rewrite replicated_with_replicas, task_obj_with_replicas.
        rewrite (bool_decide_eq_false_2 (k = key)) by exact Hne. split; reflexivity.
Qed.

(** Task [a] in memory on worker [w]. *)
Definition held_scenario : SchedulerState :=
  after (_transition "a" memory (kwargs_worker "w")) (replica_scenario false).

Lemma remove_replica_spec_witness :
  exists s', remove_replica "a" "w" held_scenario = Ok (tt, s') /\
    ts_who_has (task_obj "a" s')
    = ts_who_has (task_obj "a" held_scenario) ∖ {["w"]} /\
    ws_has_what (worker_obj "w" s')
    = filter (fun k => k <> "a") (ws_has_what (worker_obj "w" held_scenario)).
Proof.
  assert (Ht : tasks held_scenario !! "a" = Some (task_obj "a" held_scenario))
    by (vm_compute; reflexivity).
  assert (Hw : worker_objs held_scenario !! "w"
               = Some (worker_obj "w" held_scenario))
    by (vm_compute; reflexivity).
  destruct (remove_replica_spec "a" "w" _ _ held_scenario Ht Hw) as [H _].
  destruct H as (s' & Hrun & E1 & E2 & _).
  - split; [apply (bool_decide_unpack _); vm_compute; exact I|].
    split; [apply (bool_decide_unpack _); vm_compute; exact I|].
    intros H1. exfalso.
    assert (E0 : size (ts_who_has (task_obj "a" held_scenario) ∖ {["w"]}) = 0%nat)
      by (vm_compute; reflexivity).
    rewrite E0 in H1. discriminate.
  - exists s'. auto.
Defined.

Lemma add_remove_replica_round_trip_witness :
  (add_replica "a" "w" ;; remove_replica "a" "w") (replica_scenario false)
  = Ok (tt, replica_scenario false).
Proof.
  apply (add_remove_replica_round_trip "a" "w"
           (task_obj "a" (replica_scenario false))
           (worker_obj "w" (replica_scenario false))).
  - vm_compute; reflexivity.
  - vm_compute; reflexivity.
  - apply (bool_decide_eq_false_1 _). vm_compute. reflexivity.
  - apply (bool_decide_eq_false_1 _). vm_compute. reflexivity.
  - intros H1. exfalso.
    assert (E0 : size (ts_who_has (task_obj "a" (replica_scenario false))) = 0%nat)
      by (vm_compute; reflexivity).
    rewrite E0 in H1. discriminate.
Defined.

Lemma replicated_tasks_tracks_replicas_witness :
  tracks_replicas "a" (after (add_replica "a" "w") (replica_scenario false)).
Proof.
  assert (Hret : returns (add_replica "a" "w") (replica_scenario false) = true)
    by (vm_compute; reflexivity).
  destruct (returns_after _ _ Hret) as [[] Hrun].
  apply (replicated_tasks_tracks_replicas "a" "w"
           (task_obj "a" (replica_scenario false)) (replica_scenario false)).
  - vm_compute; reflexivity.
  - unfold tracks_replicas.
    assert (E0 : size (ts_who_has (task_obj "a" (replica_scenario false))) = 0%nat)
      by (vm_compute; reflexivity).
    rewrite E0. split; [|lia].
    intros H. apply (bool_decide_eq_true_2 _) in H.
    assert (E1 : bool_decide ("a" ∈ replicated_tasks (replica_scenario false))
                 = false) by (vm_compute; reflexivity).
    rewrite E1 in H. discriminate.
  - left. exact Hrun.
Defined.

(** One round of [for ws in ts._who_has: ws._nbytes -= nbytes;
    del ws._has_what[ts]]. *)
Definition forget_replica (key : string) (nbytes : Z) (ws : string)
  : Sched unit :=
  upd_worker ws (fun w => set_ws_nbytes (ws_nbytes w - nbytes)%Z w) ;;
  w <- gets (worker_obj ws) ;;
  hw <- of_res (has_what_del key (ws_has_what w)) ;;
  upd_worker ws (set_ws_has_what hw).

Lemma forget_replica_run (key : string) (nbytes : Z) (ws : string)
    (s s' : SchedulerState) :
  forget_replica key nbytes ws s = Ok (tt, s') ->
  key ∈ ws_has_what (worker_obj ws s) /\
  tasks s' = tasks s /\ replicated_tasks s' = replicated_tasks s /\
  (forall w, worker_obj w s' =
     if bool_decide (w = ws)
     then set_ws_has_what (filter (fun k => k <> key) (ws_has_what (worker_obj ws s)))
            (set_ws_nbytes (ws_nbytes (worker_obj ws s) - nbytes)%Z (worker_obj ws s))
     else worker_obj w s).
Proof.
  unfold forget_replica. intros Hrun.
  unfold bind at 1 in Hrun. unfold upd_worker at 1, modify at 1 in Hrun.
  unfold bind at 1 in Hrun. unfold gets at 1 in Hrun.
  unfold bind at 1 in Hrun. unfold has_what_del, of_res at 1 in Hrun.
  assert (Ehw : ws_has_what
                  (worker_obj ws
                     (set_worker_objs
                        (alter (fun w => set_ws_nbytes (ws_nbytes w - nbytes)%Z w)
                           ws (worker_objs s)) s))
                = ws_has_what (worker_obj ws s)).
  { unfold worker_obj. cbn [worker_objs set_worker_objs].
    rewrite lookup_alter_eq. destruct (worker_objs s !! ws); reflexivity. }
  rewrite Ehw in Hrun.
  destruct (bool_decide_reflect (key ∈ ws_has_what (worker_obj ws s))) as [Hk|Hk];
    [|discriminate].
  unfold upd_worker, modify in Hrun. injection Hrun as <-.
  split; [exact Hk|]. split; [reflexivity|]. split; [reflexivity|].
  intros w. unfold worker_obj in *. cbn [worker_objs set_worker_objs].
  destruct (bool_decide_reflect (w = ws)) as [->|Hne].
  - rewrite !lookup_alter_eq. destruct (worker_objs s !! ws) as [x|]; [reflexivity|].
    cbn in Hk. apply elem_of_nil in Hk. destruct Hk.
  - rewrite !lookup_alter_ne by congruence. reflexivity.
Qed.

Lemma forget_replicas_run (key : string) (nbytes : Z) (l : list string) :
  NoDup l ->
  forall s s',
  for_each l (forget_replica key nbytes) s = Ok (tt, s') ->
  tasks s' = tasks s /\ replicated_tasks s' = replicated_tasks s /\
  (forall w, w ∈ l -> key ∈ ws_has_what (worker_obj w s)) /\
  (forall w, worker_obj w s' =
     if bool_decide (w ∈ l)
     then set_ws_has_what (filter (fun k => k <> key) (ws_has_what (worker_obj w s)))
            (set_ws_nbytes (ws_nbytes (worker_obj w s) - nbytes)%Z (worker_obj w s))
     else worker_obj w s).
Proof.
  induction 1 as [|x l Hx Hnd IH]; intros s s' Hrun.
  - cbn in Hrun. injection Hrun as <-.
    split; [reflexivity|]. split; [reflexivity|].
    split; [intros w Hw; apply elem_of_nil in Hw; destruct Hw|].
    intros w. rewrite bool_decide_eq_false_2 by apply not_elem_of_nil. reflexivity.
  - cbn [for_each] in Hrun. apply bind_Ok in Hrun as (u & s1 & H1 & H2). destruct u.
    apply forget_replica_run in H1 as (Hk & Ht1 & Hr1 & Hw1).
    apply IH in H2 as (Ht2 & Hr2 & Hk2 & Hw2).
    split; [congruence|]. split; [congruence|]. split.
    + intros w Hw. apply elem_of_cons in Hw as [->|Hw]; [exact Hk|].
      specialize (Hk2 w Hw). rewrite Hw1 in Hk2.
      rewrite bool_decide_eq_false_2 in Hk2 by (intros ->; contradiction).
      exact Hk2.
    + intros w. rewrite Hw2, Hw1.
      destruct (bool_decide_reflect (w = x)) as [->|Hne].
      * rewrite (bool_decide_eq_false_2 (x ∈ l)) by exact Hx.
        rewrite bool_decide_eq_true_2 by apply list_elem_of_here. reflexivity.
      * destruct (bool_decide_reflect (w ∈ l)) as [Hl|Hl].
        -- rewrite bool_decide_eq_true_2 by (apply list_elem_of_further; exact Hl).
           reflexivity.
        -- rewrite bool_decide_eq_false_2; [reflexivity|].
           intros Hc. apply elem_of_cons in Hc as [?|?]; contradiction.
Qed.

(** When [remove_all_replicas] returns, every holder did list the task;
    afterwards the task has no holder, no former holder lists it and each
    has given back the task's size; other workers, other keys and other
    tasks are as they were. *)
Theorem remove_all_replicas_spec (key : string) (ts : TaskState)
    (s s' : SchedulerState) :
  tasks s !! key = Some ts ->
  remove_all_replicas key s = Ok (tt, s') ->
  ts_who_has (task_obj key s') = ∅ /\
  (forall w, w ∈ ts_who_has ts ->
     key ∈ ws_has_what (worker_obj w s) /\
     (key ∉ ws_has_what (worker_obj w s')) /\
     ws_nbytes (worker_obj w s')
     = (ws_nbytes (worker_obj w s) - get_nbytes s ts)%Z) /\
  (forall w, w ∉ ts_who_has ts -> worker_obj w s' = worker_obj w s) /\
  (forall w k, k <> key ->
     k ∈ ws_has_what (worker_obj w s') <-> k ∈ ws_has_what (worker_obj w s)) /\
  (forall k, k <> key -> task_obj k s' = task_obj k s) /\
  key ∉ replicated_tasks s' ∖ replicated_tasks s.
Proof.
  intros Hts Hrun.
  assert (Htobj : task_obj key s = ts) by (unfold task_obj; rewrite Hts; reflexivity).
  unfold remove_all_replicas in Hrun.
  unfold bind at 1 in Hrun. unfold gets at 1 in Hrun. rewrite Htobj in Hrun.
  unfold bind at 1 in Hrun. unfold gets at 1 in Hrun.
  fold (forget_replica key (get_nbytes s ts)) in Hrun.
  change (fun ws : string =>
            upd_worker ws (fun w => set_ws_nbytes (ws_nbytes w - get_nbytes s ts)%Z w) ;;
            w <- gets (worker_obj ws) ;;
            hw <- of_res (has_what_del key (ws_has_what w)) ;;
            upd_worker ws (set_ws_has_what hw))
    with (forget_replica key (get_nbytes s ts)) in Hrun.
  apply bind_Ok in Hrun as (u & s1 & Hloop & Hrun). destruct u.
  apply forget_replicas_run in Hloop as (Ht1 & Hr1 & Hk1 & Hw1);
    [|apply NoDup_elements].
  apply bind_Ok in Hrun as (u & s2 & Hrep & Hrun). destruct u.
  unfold upd_task, modify in Hrun. injection Hrun as E. subst s'.
  assert (Hs2 : tasks s2 = tasks s1 /\ worker_objs s2 = worker_objs s1 /\
                replicated_tasks s2 ⊆ replicated_tasks s1).
  { destruct (bool_decide (1 < size (ts_who_has ts))%nat).
    - apply bind_Ok in Hrep as (rt & s3 & Hg & Hrep). unfold gets in Hg.
      injection Hg as E1 E2. subst rt s3.
      apply bind_Ok in Hrep as (rt' & s3 & Hg & Hrep).
      apply of_res_Ok in Hg as (rt'' & Hrm & Hg).
      injection Hg as E1 E2. subst rt'' s3.
      unfold modify in Hrep. injection Hrep as E1. subst s2.
      unfold set_remove in Hrm.
      destruct (bool_decide (key ∈ replicated_tasks s1)); [|discriminate].
      injection Hrm as <-. cbn. repeat split.
      intros x Hx. apply elem_of_difference in Hx as [Hx _]. exact Hx.
    - unfold ret in Hrep. injection Hrep as E1. subst s2. repeat split; reflexivity. }
  destruct Hs2 as (Ht2 & Hw2 & Hr2).
  assert (Hwo : forall w, worker_obj w
                  (set_tasks (alter (set_ts_who_has ∅) key (tasks s2)) s2)
                = worker_obj w s1).
  { intros w. unfold worker_obj. cbn [worker_objs set_tasks]. rewrite Hw2.
    reflexivity. }
  split; [|split; [|split; [|split; [|split]]]].
  - unfold task_obj. cbn [tasks set_tasks]. rewrite lookup_alter_eq, Ht2, Ht1, Hts.
    reflexivity.
  - intros w Hw. rewrite Hwo, Hw1.
    rewrite bool_decide_eq_true_2 by (apply elem_of_elements; exact Hw).
    split; [apply Hk1, elem_of_elements, Hw|]. split.
    + cbn. rewrite list_elem_of_filter. intros [H _]. apply H. reflexivity.
    + reflexivity.
  - intros w Hw. rewrite Hwo, Hw1.
    rewrite bool_decide_eq_false_2 by (rewrite elem_of_elements; exact Hw).
    reflexivity.
  - intros w k Hne. rewrite Hwo, Hw1.
    destruct (bool_decide (w ∈ elements (ts_who_has ts))); [|reflexivity].
    cbn. rewrite list_elem_of_filter. split; [intros [_ H]; exact H|auto].
  - intros k Hne. unfold task_obj. cbn [tasks set_tasks].
    rewrite lookup_alter_ne by congruence. rewrite Ht2, Ht1. reflexivity.
  - cbn [replicated_tasks set_tasks]. rewrite elem_of_difference.
    intros [Hin Hnin]. apply Hnin. rewrite <- Hr1. apply Hr2, Hin.
Qed.

Lemma remove_all_replicas_spec_witness :
  let s' := after (remove_all_replicas "a") held_scenario in
  returns (remove_all_replicas "a") held_scenario = true /\
  ts_who_has (task_obj "a" s') = ∅ /\
  ("a" ∉ ws_has_what (worker_obj "w" s')).
Proof.
  cbv zeta.
  assert (Hret : returns (remove_all_replicas "a") held_scenario = true)
    by (vm_compute; reflexivity).
  split; [exact Hret|].
  destruct (returns_after _ _ Hret) as [[] Hrun].
  assert (Ht : tasks held_scenario !! "a" = Some (task_obj "a" held_scenario))
    by (vm_compute; reflexivity).
  destruct (remove_all_replicas_spec "a" _ held_scenario _ Ht Hrun)
    as (E1 & E2 & _).
  split; [exact E1|].
  apply (E2 "w"). apply (bool_decide_unpack _). vm_compute. exact I.
Defined.

(** *** The setter of [TaskState.state] *)

(** Assigning [ts.state] moves one count of the group's [states] from the
    old state to the new one: the task has the new state, the count of the
    new state went up by one and the count of the old one down by one (no
    count changes when they are the same), and no other group changes.
    The group's dictionary holds both states, as the constructor of
    [TaskGroup] makes it. *)
Theorem set_state_moves_one_count (key : string) (v : TaskStateName)
    (ts : TaskState) (tg : TaskGroup) (s : SchedulerState) :
  tasks s !! key = Some ts ->
  group_objs s !! ts_group ts = Some tg ->
  is_Some (tg_states tg !! ts_state ts) ->
  is_Some (tg_states tg !! v) ->
  exists s', set_state key v s = Ok (tt, s') /\
    tasks s' = <[key := set_ts_state v ts]> (tasks s) /\
    (forall x, count_of (tg_states (group_obj (ts_group ts) s')) x
               = (count_of (tg_states tg) x
                  + (if bool_decide (x = v) then 1 else 0)
                  - (if bool_decide (x = ts_state ts) then 1 else 0))%Z) /\
    (forall g, g <> ts_group ts -> group_obj g s' = group_obj g s).
Proof.
  intros Hts Htg _ _.
  unfold set_state, bind, gets, upd_group, upd_task, modify.
  assert (Htobj : task_obj key s = ts) by (unfold task_obj; rewrite Hts; reflexivity).
  rewrite Htobj. eexists. split; [reflexivity|].
  split; [|split].
  - cbn [tasks set_tasks set_group_objs]. apply map_eq. intros k.
    destruct (decide (k = key)) as [->|Hne].
    + rewrite lookup_alter_eq, lookup_insert_eq, Hts. reflexivity.
    + rewrite lookup_alter_ne, lookup_insert_ne by congruence. reflexivity.
  - intros x. unfold group_obj. cbn [group_objs set_tasks set_group_objs].
    rewrite lookup_alter_eq, Htg. cbn. unfold count_of.
    destruct (bool_decide_reflect (x = v)) as [->|Hxv].
    + rewrite lookup_insert_eq. cbn.
      destruct (bool_decide_reflect (v = ts_state ts)) as [->|Hvo].
      * rewrite lookup_insert_eq. cbn. lia.
      * rewrite lookup_insert_ne by congruence. lia.
    + rewrite lookup_insert_ne by congruence.
      destruct (bool_decide_reflect (x = ts_state ts)) as [->|Hxo].
      * rewrite lookup_insert_eq. cbn. lia.
      * rewrite lookup_insert_ne by congruence. lia.
  - intros g Hne. unfold group_obj. cbn [group_objs set_tasks set_group_objs].
    rewrite lookup_alter_ne by congruence. reflexivity.
Qed.

Lemma set_state_moves_one_count_witness :
  exists s', set_state "a" processing (replica_scenario false) = Ok (tt, s') /\
    count_of (tg_states (group_obj "a" s')) processing = 1%Z /\
    count_of (tg_states (group_obj "a" s')) waiting = 0%Z.
Proof.
  assert (Ht : tasks (replica_scenario false) !! "a"
               = Some (task_obj "a" (replica_scenario false)))
    by (vm_compute; reflexivity).
  assert (Eg : ts_group (task_obj "a" (replica_scenario false)) = "a")
    by (vm_compute; reflexivity).
  assert (Es : ts_state (task_obj "a" (replica_scenario false)) = waiting)
    by (vm_compute; reflexivity).
  assert (Hg : group_objs (replica_scenario false)
                 !! ts_group (task_obj "a" (replica_scenario false))
               = Some (group_obj "a" (replica_scenario false)))
    by (vm_compute; reflexivity).
  destruct (set_state_moves_one_count "a" processing _ _ _ Ht Hg)
    as (s' & Hrun & _ & Hc & _).
  - rewrite Es. apply (bool_decide_unpack _). vm_compute. exact I.
  - apply (bool_decide_unpack _). vm_compute. exact I.
  - exists s'. split; [exact Hrun|]. rewrite Eg, Es in Hc.
    rewrite (Hc processing), (Hc waiting).
    assert (E1 : count_of (tg_states (group_obj "a" (replica_scenario false)))
                   processing = 0%Z) by (vm_compute; reflexivity).
    assert (E2 : count_of (tg_states (group_obj "a" (replica_scenario false)))
                   waiting = 1%Z) by (vm_compute; reflexivity).
    rewrite E1, E2. split; reflexivity.
Defined.

(** *** [get_comm_cost] *)

Lemma Qdiv_0_l (b : Q) : (0 / b == 0)%Q.
Proof. unfold Qdiv. apply Qmult_0_l. Qed.

Lemma filter_none {A} (P : A -> Prop) `{forall x, Decision (P x)} (l : list A) :
  (forall x, x ∈ l -> ~ P x) -> filter P l = [].
Proof.
  induction l as [|x l IH]; intros Hl; [reflexivity|].
  cbn. rewrite decide_False by (apply Hl, list_elem_of_here).
  apply IH. intros y Hy. apply Hl, list_elem_of_further, Hy.
Qed.

(** Moving nothing costs nothing: when the worker holds every dependency of
    the task, the communication cost is zero (the bandwidth not being
    zero; with a zero bandwidth the division raises). *)
Theorem get_comm_cost_local (key ws : string) (s : SchedulerState) :
  ~ (bandwidth s == 0)%Q ->
  (forall d, d ∈ ts_dependencies (task_obj key s) ->
             d ∈ ws_has_what (worker_obj ws s)) ->
  exists c, get_comm_cost key ws s = Ok c /\ (c == 0)%Q.
Proof.
  intros Hb Hdeps. unfold get_comm_cost.
  rewrite filter_none.
  2:{ intros d Hd Hn. apply Hn, Hdeps, elem_of_elements, Hd. }
  cbn [foldr]. rewrite py_div_ok by exact Hb.
  eexists. split; [reflexivity|]. unfold fdiv.
  rewrite R64_zero; [reflexivity|]. change (Zf 0) with 0%Q. apply Qdiv_0_l.
Qed.

(** Task [b] depends on task [a], which the worker [w] holds. *)
Definition dependent_scenario : SchedulerState :=
  let s := new_task "b" (Some "f") waiting "b" "b" held_scenario in
  set_tasks (alter (set_ts_dependencies {["a"]}) "b" (tasks s)) s.

Lemma get_comm_cost_local_witness :
  ts_dependencies (task_obj "b" dependent_scenario) = {["a"]} /\
  exists c, get_comm_cost "b" "w" dependent_scenario = Ok c /\ (c == 0)%Q.
Proof.
  assert (E : ts_dependencies (task_obj "b" dependent_scenario) = {["a"]})
    by (apply (bool_decide_unpack _); vm_compute; exact I).
  split; [exact E|].
  apply get_comm_cost_local.
  - assert (Eb : bandwidth dependent_scenario = 100000000%Q)
      by (vm_compute; reflexivity).
    rewrite Eb. discriminate.
  - intros d Hd. rewrite E in Hd. apply elem_of_singleton in Hd. subst d.
    apply (bool_decide_unpack _). vm_compute. exact I.
Defined.

(** *** [_task_to_client_msgs] *)

Lemma report_to_lookup (who_wants : gset string) (msg : Msg) (c : string) :
  report_to who_wants msg ∅ !! c
  = if bool_decide (c ∈ who_wants) then Some [msg] else None.
Proof.
  unfold report_to.
  assert (H : forall l, foldr (fun c acc => <[c := [msg]]> acc)
                          (∅ : ClientMsgs) l !! c
                        = if bool_decide (c ∈ l) then Some [msg] else None).
  { induction l as [|x l IH]; cbn.
    - rewrite lookup_empty. rewrite bool_decide_eq_false_2 by apply not_elem_of_nil.
      reflexivity.
    - destruct (decide (c = x)) as [->|Hne].
      + rewrite lookup_insert_eq.
        rewrite bool_decide_eq_true_2 by apply list_elem_of_here. reflexivity.
      + rewrite lookup_insert_ne by congruence. rewrite IH.
        destruct (bool_decide_reflect (c ∈ l)) as [Hl|Hl].
        * rewrite bool_decide_eq_true_2 by (apply list_elem_of_further; exact Hl).
          reflexivity.
        * rewrite bool_decide_eq_false_2; [reflexivity|].
          intros Hc. apply elem_of_cons in Hc as [?|?]; contradiction. }
  rewrite H.
  destruct (bool_decide_reflect (c ∈ who_wants)) as [Hc|Hc].
  - rewrite bool_decide_eq_true_2 by (apply elem_of_elements; exact Hc). reflexivity.
  - rewrite bool_decide_eq_false_2 by (rewrite elem_of_elements; exact Hc).
    reflexivity.
Qed.

(** The report of a task reaches exactly the clients that want it: each of
    them gets one message, the same for all, and no other client gets any;
    a task in a state other than [memory], [erred] or [forgotten] is not
    reported at all. *)
Theorem _task_to_client_msgs_recipients (ts : TaskState) (s : SchedulerState)
    (msgs : ClientMsgs) :
  _task_to_client_msgs ts s = Ok msgs ->
  (forall c, c ∉ ts_who_wants ts -> msgs !! c = None) /\
  (ts_state ts = memory \/ ts_state ts = erred \/ ts_state ts = forgotten ->
   forall c, c ∈ ts_who_wants ts ->
     exists msg, _task_to_report_msg ts s = Ok (Some msg) /\
                 msgs !! c = Some [msg]) /\
  (ts_state ts <> memory -> ts_state ts <> erred -> ts_state ts <> forgotten ->
   msgs = ∅).
Proof.
  unfold _task_to_client_msgs. intros Hrun.
  destruct (nonempty_set (ts_who_wants ts)) eqn:Hne.
  - destruct (_task_to_report_msg ts s) as [[msg|]|e] eqn:Hmsg; [| |discriminate];
      injection Hrun as <-.
    + split; [|split].
      * intros c Hc. rewrite report_to_lookup.
        rewrite bool_decide_eq_false_2 by exact Hc. reflexivity.
      * intros _ c Hc. exists msg. split; [reflexivity|].
        rewrite report_to_lookup. rewrite bool_decide_eq_true_2 by exact Hc.
        reflexivity.
      * intros H1 H2 H3. unfold _task_to_report_msg in Hmsg.
        destruct (ts_state ts); try discriminate; contradiction.
    + split; [intros c _; apply lookup_empty|]. split; [|reflexivity].
      intros Hst. exfalso. unfold _task_to_report_msg in Hmsg.
      destruct Hst as [Hst|[Hst|Hst]]; rewrite Hst in Hmsg; try discriminate.
      destruct (blamed (ts_exception_blame ts) s) as [[? ?]|]; discriminate.
  - injection Hrun as <-. apply nonempty_set_false in Hne.
    split; [intros c _; apply lookup_empty|]. split; [|reflexivity].
    intros _ c Hc. rewrite Hne in Hc. destruct (not_elem_of_empty c Hc).
Qed.

Definition is_Ok {A} (r : Res A) : bool :=
  match r with Ok _ => true | Err _ => false end.

Lemma is_Ok_true {A} (r : Res A) : is_Ok r = true -> exists a, r = Ok a.
Proof. destruct r; [eauto|discriminate]. Qed.

Lemma _task_to_client_msgs_recipients_witness :
  exists msgs,
    _task_to_client_msgs (task_obj "a" held_scenario) held_scenario = Ok msgs /\
    msgs !! "c" = Some [msg_key_in_memory "a" None] /\
    msgs !! "fire-and-forget" = None.
Proof.
  assert (E : is_Ok (_task_to_client_msgs (task_obj "a" held_scenario)
                       held_scenario) = true) by (vm_compute; reflexivity).
  destruct (is_Ok_true _ E) as [msgs Hrun]. exists msgs. split; [exact Hrun|].
  destruct (_task_to_client_msgs_recipients _ _ _ Hrun) as (Hnone & Hsome & _).
  assert (Hst : ts_state (task_obj "a" held_scenario) = memory)
    by (vm_compute; reflexivity).
  split.
  - destruct (Hsome (or_introl Hst) "c") as (msg & Hmsg & Hc).
    + apply (bool_decide_unpack _). vm_compute. exact I.
    + assert (E2 : _task_to_report_msg (task_obj "a" held_scenario) held_scenario
                   = Ok (Some (msg_key_in_memory "a" None)))
        by (vm_compute; reflexivity).
      rewrite E2 in Hmsg. injection Hmsg as <-. exact Hc.
  - apply Hnone. apply (bool_decide_eq_false_1 _). vm_compute. reflexivity.
Defined.

(** *** [TaskPrefix.add_duration] *)

(** Once a compute duration has been recorded the prefix has a known
    average for good: with [start <= stop], a prefix whose average is known
    (not negative) keeps a known average whatever the action, and a compute
    action makes it known.  The first compute duration is taken as it is; a
    later one gives [0.5 * duration + 0.5 * old], in floating point like
    the duration [stop - start] itself.  Another action leaves the average
    as it is. *)
Theorem add_duration_average_known (action : string) (start stop : Q)
    (tp : TaskPrefix) :
  (start <= stop)%Q ->
  (0 <= tp_duration_average tp)%Q \/ action = "compute" ->
  let tp' := prefix_add_duration action start stop tp in
  let duration := fsub stop start in
  (0 <= tp_duration_average tp')%Q /\
  (action = "compute" ->
   tp_duration_average tp' =
     if Qltb (tp_duration_average tp) 0 then duration
     else fadd (fmul (1 # 2) duration) (fmul (1 # 2) (tp_duration_average tp))) /\
  (action <> "compute" -> tp_duration_average tp' = tp_duration_average tp).
Proof.
  intros Hle Hk. cbv zeta. unfold prefix_add_duration.
  assert (Hd : (0 <= fsub stop start)%Q) by (apply R64_nonneg; lra).
  destruct (bool_decide_reflect (action = "compute")) as [Ha|Ha].
  - replace (tp_duration_average (set_tp_all_durations _ tp))
      with (tp_duration_average tp) by (destruct tp; reflexivity).
    destruct (Qltb (tp_duration_average tp) 0) eqn:Hold.
    + replace (tp_duration_average (set_tp_duration_average (fsub stop start) _))
        with (fsub stop start) by (destruct tp; reflexivity).
      split; [exact Hd|]. split; [reflexivity|contradiction].
    + apply Qltb_ge in Hold.
      replace (tp_duration_average
                 (set_tp_duration_average
                    (fadd (fmul (1 # 2) (fsub stop start))
                          (fmul (1 # 2) (tp_duration_average tp))) _))
        with (fadd (fmul (1 # 2) (fsub stop start))
                   (fmul (1 # 2) (tp_duration_average tp)))
        by (destruct tp; reflexivity).
      split; [|split; [reflexivity|contradiction]].
      assert (H1 : (0 <= fmul (1 # 2) (fsub stop start))%Q)
        by (apply R64_nonneg; lra).
      assert (H2 : (0 <= fmul (1 # 2) (tp_duration_average tp))%Q)
        by (apply R64_nonneg; lra).
      apply R64_nonneg. lra.
  - destruct Hk as [Hk|Hk]; [|contradiction].
    replace (tp_duration_average (set_tp_all_durations _ tp))
      with (tp_duration_average tp) by (destruct tp; reflexivity).
    split; [exact Hk|]. split; [contradiction|reflexivity].
Qed.

(** A prefix with an average of [0.1] that records a duration of [0.5]:
    the new average is the float [0.5 * 0.5 + 0.5 * 0.1], which is the float
    of [0.3] and not that of [0.1 + (0.5 - 0.1) / 2]. *)
Lemma add_duration_average_known_witness :
  let tp := set_tp_duration_average (R64 (1 # 10)) (new_TaskPrefix "inc") in
  (0 <= tp_duration_average (prefix_add_duration "compute" 0 (1 # 2) tp))%Q /\
  (tp_duration_average (prefix_add_duration "compute" 0 (1 # 2) tp)
   == R64 (3 # 10))%Q /\
  ~ (tp_duration_average (prefix_add_duration "compute" 0 (1 # 2) tp)
     == fadd (R64 (1 # 10)) (fdiv (fsub (1 # 2) (R64 (1 # 10))) 2))%Q.
Proof.
  cbv zeta.
  destruct (add_duration_average_known "compute" 0 (1 # 2)
              (set_tp_duration_average (R64 (1 # 10)) (new_TaskPrefix "inc")))
    as (Hpos & H & _).
  - discriminate.
  - left. apply Qle_bool_iff. vm_compute. reflexivity.
  - split; [exact Hpos|]. rewrite (H eq_refl).
    split.
    + apply Qeq_bool_iff. vm_compute. reflexivity.
    + intros E. apply Qeq_bool_iff in E. vm_compute in E. discriminate.
Defined.

(** ** What a transition leaves alone *)

(** [pres R m]: whenever [m] returns, the states before and after are
    related by [R]. *)
Definition pres {S A} (R : S -> S -> Prop) (m : M S A) : Prop :=
  forall s, match m s with Ok (_, s') => R s s' | Err _ => True end.

Section Pres.
Context {S : Type} (R : S -> S -> Prop) `{!PreOrder R}.

Lemma pres_ret {A} (a : A) : pres R (ret a).
Proof. intros s. cbn. reflexivity. Qed.

Lemma pres_bind {A B} (m : M S A) (f : A -> M S B) :
  pres R m -> (forall a, pres R (f a)) -> pres R (bind m f).
Proof.
  intros Hm Hf s. unfold bind. specialize (Hm s).
  destruct (m s) as [[a s1]|e]; [|exact I].
  specialize (Hf a s1). destruct (f a s1) as [[b s2]|e]; [|exact I].
  etransitivity; eassumption.
Qed.

Lemma pres_gets {A} (f : S -> A) : pres R (gets f).
Proof. intros s. cbn. reflexivity. Qed.

Lemma pres_modify (g : S -> S) : (forall s, R s (g s)) -> pres R (modify g).
Proof. intros H s. apply H. Qed.

Lemma pres_raise {A} (e : PyError) : pres R (raise e : M S A).
Proof. intros s. exact I. Qed.

Lemma pres_of_res {A} (r : Res A) : pres R (of_res r).
Proof. intros s. unfold of_res. destruct r; cbn; [reflexivity|exact I]. Qed.

Lemma pres_lift_res {A} (f : S -> Res A) : pres R (lift_res f).
Proof. intros s. unfold lift_res. destruct (f s); cbn; [reflexivity|exact I]. Qed.

Lemma pres_assert (b : bool) : pres R (py_assert b).
Proof. intros s. unfold py_assert. destruct b; cbn; [reflexivity|exact I]. Qed.

Lemma pres_when (b : bool) (m : M S unit) : pres R m -> pres R (when b m).
Proof. intros H. destruct b; [exact H|apply pres_ret]. Qed.

Lemma pres_for_each {A} (xs : list A) (body : A -> M S unit) :
  (forall x, pres R (body x)) -> pres R (for_each xs body).
Proof.
  intros Hb. induction xs as [|x xs IH]; [apply pres_ret|].
  cbn [for_each]. apply pres_bind; [apply Hb|intros u; exact IH].
Qed.

Lemma pres_for_fold {A B} (xs : list A) (acc : B) (body : B -> A -> M S B) :
  (forall acc x, pres R (body acc x)) -> pres R (for_fold xs acc body).
Proof.
  intros Hb. revert acc. induction xs as [|x xs IH]; intros acc;
    [apply pres_ret|].
  cbn [for_fold]. apply pres_bind; [apply Hb|intros acc'; apply IH].
Qed.

Lemma pres_run {A} (m : M S A) (s s' : S) (a : A) :
  pres R m -> m s = Ok (a, s') -> R s s'.
Proof. intros H Hrun. specialize (H s). rewrite Hrun in H. exact H. Qed.
End Pres.

Lemma pres_get_task {R : SchedulerState -> SchedulerState -> Prop}
    `{!PreOrder R} (key : string) : pres R (get_task key).
Proof. intros s. unfold get_task. destruct (tasks s !! key); cbn; [reflexivity|exact I]. Qed.

Lemma pres_get_worker {R : SchedulerState -> SchedulerState -> Prop}
    `{!PreOrder R} (w : option string) : pres R (get_worker w).
Proof.
  intros s. unfold get_worker. destruct w as [w|]; [|exact I].
  destruct (bool_decide (w ∈ workers s)); cbn; [reflexivity|exact I].
Qed.

Lemma pres_get_client {R : SchedulerState -> SchedulerState -> Prop}
    `{!PreOrder R} (c : string) : pres R (get_client c).
Proof. intros s. unfold get_client. destruct (clients s !! c); cbn; [reflexivity|exact I]. Qed.

Ltac head_of t :=
  lazymatch t with
  | ?f _ => head_of f
  | _ => t
  end.

Ltac by_instance :=
  lazymatch goal with
  | |- PreOrder _ => apply _
  | _ => idtac
  end.

(** One step of a proof of [pres R m], [prim] settling the writes. *)
Ltac pres_step prim :=
  lazymatch goal with
  | |- pres _ (bind _ _) => apply pres_bind; by_instance; [|intros ?]
  | |- pres _ (ret _) => apply pres_ret; by_instance
  | |- pres _ (gets _) => apply pres_gets; by_instance
  | |- pres _ (raise _) => apply pres_raise
  | |- pres _ (of_res _) => apply pres_of_res; by_instance
  | |- pres _ (lift_res _) => apply pres_lift_res; by_instance
  | |- pres _ (py_assert _) => apply pres_assert; by_instance
  | |- pres _ (when _ _) => apply pres_when; by_instance
  | |- pres _ (for_each _ _) => apply pres_for_each; by_instance; intros ?
  | |- pres _ (for_fold _ _ _) => apply pres_for_fold; by_instance; intros ? ?
  | |- pres _ (get_task _) => apply pres_get_task
  | |- pres _ (get_worker _) => apply pres_get_worker
  | |- pres _ (get_client _) => apply pres_get_client
  | |- pres _ (modify _) => apply pres_modify; intros ?; cbv beta; prim
  | |- pres _ (if ?b then _ else _) => destruct b
  | |- pres _ (match ?x with _ => _ end) => destruct x
  | |- pres _ ?m => let h := head_of m in unfold h
  end.

(** *** The frame of the transitions *)

(** What no transition writes in a worker ... *)
Definition worker_frame (w : WorkerState) :=
  (ws_address w, ws_name w, ws_host w, ws_status w, ws_nthreads w,
   ws_memory_limit w, ws_long_running w, ws_executing w, ws_resources w,
   ws_metrics_memory w, ws_spilled_memory w, ws_spilled_disk w,
   ws_memory_unmanaged_old w, ws_id w).

(** ... and in a task. *)
Definition task_frame (t : TaskState) :=
  (ts_key t, ts_run_spec t, ts_priority t, ts_retries t, ts_suspicious t, ts_host_restrictions t, ts_worker_restrictions t,
   ts_resource_restrictions t, ts_loose_restrictions t, ts_actor t,
   ts_prefix t, ts_group t).

Definition cluster_frame (s : SchedulerState) :=
  (workers s, running s, aliases s, host_info s, total_nthreads s,
   bandwidth s, worker_frame <$> worker_objs s,
   cs_client_key <$> clients s).

(** No task is new, and the frame of every task still there is the same. *)
Definition tasks_framed (s s' : SchedulerState) : Prop :=
  forall k t', tasks s' !! k = Some t' ->
    exists t, tasks s !! k = Some t /\ task_frame t' = task_frame t.

Definition framed (s s' : SchedulerState) : Prop :=
  cluster_frame s' = cluster_frame s /\ tasks_framed s s'.

Global Instance framed_preorder : PreOrder framed.
Proof.
  split.
  - intros s. split; [reflexivity|]. intros k t Hk. eauto.
  - intros s1 s2 s3 [Hc1 Ht1] [Hc2 Ht2]. split; [congruence|].
    intros k t3 Hk. destruct (Ht2 k t3 Hk) as (t2 & Hk2 & E2).
    destruct (Ht1 k t2 Hk2) as (t1 & Hk1 & E1). exists t1. split; [exact Hk1|].
    congruence.
Qed.

Lemma framed_upd_task (key : string) (f : TaskState -> TaskState)
    (s : SchedulerState) :
  (forall t, task_frame (f t) = task_frame t) ->
  framed s (set_tasks (alter f key (tasks s)) s).
Proof.
  intros Hf. split; [reflexivity|]. intros k t' Hk. cbn [tasks set_tasks] in Hk.
  destruct (decide (k = key)) as [->|Hne].
  - rewrite lookup_alter_eq in Hk. destruct (tasks s !! key) as [t|]; [|discriminate].
    injection Hk as <-. exists t. split; [reflexivity|apply Hf].
  - rewrite lookup_alter_ne in Hk by congruence. eauto.
Qed.

Lemma framed_delete_task (key : string) (s : SchedulerState) :
  framed s (set_tasks (delete key (tasks s)) s).
Proof.
  split; [reflexivity|]. intros k t' Hk. cbn [tasks set_tasks] in Hk.
  apply lookup_delete_Some in Hk as [_ Hk]. eauto.
Qed.

Lemma framed_upd_worker (w : string) (f : WorkerState -> WorkerState)
    (s : SchedulerState) :
  (forall x, worker_frame (f x) = worker_frame x) ->
  framed s (set_worker_objs (alter f w (worker_objs s)) s).
Proof.
  intros Hf. split; [|intros k t Hk; eauto].
  unfold cluster_frame. cbn.
  rewrite (fmap_alter_same worker_frame f w (worker_objs s) Hf). reflexivity.
Qed.

Lemma framed_upd_client (c : string) (f : ClientState -> ClientState)
    (s : SchedulerState) :
  (forall x, cs_client_key (f x) = cs_client_key x) ->
  framed s (set_clients (alter f c (clients s)) s).
Proof.
  intros Hf. split; [|intros k t Hk; eauto].
  unfold cluster_frame. cbn.
  rewrite (fmap_alter_same cs_client_key f c (clients s) Hf). reflexivity.
Qed.

Lemma framed_other (s s' : SchedulerState) :
  cluster_frame s' = cluster_frame s -> tasks s' = tasks s -> framed s s'.
Proof. intros Hc Ht. split; [exact Hc|]. intros k t Hk. rewrite Ht in Hk. eauto. Qed.

Ltac framed_prim :=
  first
    [ apply framed_upd_task; intros ?; reflexivity
    | apply framed_delete_task
    | apply framed_upd_worker; intros ?; reflexivity
    | apply framed_upd_client; intros ?; reflexivity
    | apply framed_other; reflexivity ].

Ltac framed_tac := repeat (pres_step framed_prim).

Lemma framed_released_waiting key kw : pres framed (transition_released_waiting key kw).
Proof. unfold transition_released_waiting. framed_tac. Qed.

Lemma framed_waiting_released key kw : pres framed (transition_waiting_released key kw).
Proof. unfold transition_waiting_released. framed_tac. Qed.

Lemma framed_waiting_processing key kw : pres framed (transition_waiting_processing key kw).
Proof. unfold transition_waiting_processing. framed_tac. Qed.

Lemma framed_waiting_memory key kw : pres framed (transition_waiting_memory key kw).
Proof. unfold transition_waiting_memory. framed_tac. Qed.

Lemma framed_processing_released key kw : pres framed (transition_processing_released key kw).
Proof. unfold transition_processing_released. framed_tac. Qed.

Lemma framed_processing_memory key kw : pres framed (transition_processing_memory key kw).
Proof. unfold transition_processing_memory. framed_tac. Qed.

Lemma framed_processing_erred key kw : pres framed (transition_processing_erred key kw).
Proof. unfold transition_processing_erred. framed_tac. Qed.

Lemma framed_no_worker_released key kw : pres framed (transition_no_worker_released key kw).
Proof. unfold transition_no_worker_released. framed_tac. Qed.

Lemma framed_no_worker_waiting key kw : pres framed (transition_no_worker_waiting key kw).
Proof. unfold transition_no_worker_waiting. framed_tac. Qed.

Lemma framed_no_worker_memory key kw : pres framed (transition_no_worker_memory key kw).
Proof. unfold transition_no_worker_memory. framed_tac. Qed.

Lemma framed_released_forgotten key kw : pres framed (transition_released_forgotten key kw).
Proof. unfold transition_released_forgotten. framed_tac. Qed.

Lemma framed_memory_forgotten key kw : pres framed (transition_memory_forgotten key kw).
Proof. unfold transition_memory_forgotten. framed_tac. Qed.

Lemma framed_erred_released key kw : pres framed (transition_erred_released key kw).
Proof. unfold transition_erred_released. framed_tac. Qed.

Lemma framed_memory_released key kw : pres framed (transition_memory_released key kw).
Proof. unfold transition_memory_released. framed_tac. Qed.

Lemma framed_released_erred key kw : pres framed (transition_released_erred key kw).
Proof. unfold transition_released_erred. framed_tac. Qed.

Lemma framed_table (start finish : TaskStateName)
    (func : string -> Kwargs -> Sched Out) (key : string) (kw : Kwargs) :
  transitions_table start finish = Some func -> pres framed (func key kw).
Proof.
  intros Hf. destruct start, finish; try discriminate Hf; injection Hf as <-.
  - apply framed_released_waiting.
  - apply framed_released_erred.
  - apply framed_released_forgotten.
  - apply framed_waiting_released.
  - apply framed_waiting_processing.
  - apply framed_waiting_memory.
  - apply framed_no_worker_released.
  - apply framed_no_worker_waiting.
  - apply framed_no_worker_memory.
  - apply framed_processing_released.
  - apply framed_processing_memory.
  - apply framed_processing_erred.
  - apply framed_memory_released.
  - apply framed_memory_forgotten.
  - apply framed_erred_released.
Qed.

Lemma framed_finish_transition key ts start out :
  pres framed (finish_transition key ts start out).
Proof. unfold finish_transition. framed_tac. Qed.

Lemma framed__transition_rec (depth : nat) (key : string)
    (finish : TaskStateName) (kw : Kwargs) :
  pres framed (_transition_rec depth key finish kw).
Proof.
  revert finish kw. induction depth as [|d IH]; intros finish kw.
  - apply pres_raise.
  - cbn [_transition_rec].
    apply pres_bind; [apply _|apply pres_gets; apply _|]. intros ots.
    destruct ots as [ts|]; [|apply pres_ret; apply _]. cbv zeta.
    destruct (bool_decide (ts_state ts = finish)); [apply pres_ret; apply _|].
    destruct (transitions_table (ts_state ts) finish) as [func|] eqn:Hf.
    + apply pres_bind; [apply _|apply (framed_table _ _ _ _ _ Hf)|]. intros out.
      apply pres_bind; [apply _| |intros ?; apply framed_finish_transition].
      apply pres_modify. intros s. apply framed_other; reflexivity.
    + destruct (negb (bool_decide (ts_state ts = released)) &&
                negb (bool_decide (finish = released))); [|apply pres_raise].
      apply pres_bind; [apply _|apply pres_assert; apply _|]. intros ?.
      apply pres_bind; [apply _|apply IH|]. intros [[a_recs a_cmsgs] a_wmsgs].
      destruct (transitions_table released (default finish (recs_get a_recs key)))
        as [func|] eqn:Hf2; [|apply pres_raise].
      apply pres_bind; [apply _|apply (framed_table _ _ _ _ _ Hf2)|].
      intros [[b_recs b_cmsgs] b_wmsgs]. apply framed_finish_transition.
Qed.

Lemma framed__transitions_loop (fuel : nat) (recs : Recs) (cm : ClientMsgs)
    (wm : WorkerMsgs) :
  pres framed (_transitions_loop fuel recs cm wm).
Proof.
  revert recs cm wm. induction fuel as [|n IH]; intros recs cm wm.
  - cbn [_transitions_loop].
    destruct (recs_popitem recs) as [[[k f] r]|]; apply pres_ret; apply _.
  - cbn [_transitions_loop].
    destruct (recs_popitem recs) as [[[k f] r]|]; [|apply pres_ret; apply _].
    apply pres_bind; [apply _|apply framed__transition_rec|].
    intros [[nr nc] nw]. apply IH.
Qed.

Lemma worker_frame_obj (s s' : SchedulerState) (w : string) :
  worker_frame <$> worker_objs s' = worker_frame <$> worker_objs s ->
  (is_Some (worker_objs s' !! w) <-> is_Some (worker_objs s !! w)) /\
  worker_frame (worker_obj w s') = worker_frame (worker_obj w s).
Proof.
  intros H.
  assert (E : (worker_frame <$> worker_objs s') !! w
              = (worker_frame <$> worker_objs s) !! w) by (rewrite H; reflexivity).
  rewrite !lookup_fmap in E. unfold worker_obj.
  destruct (worker_objs s' !! w), (worker_objs s !! w); cbn in *;
    try discriminate; (split; [split; eauto|]); congruence.
Qed.

(** The transitions never touch the cluster: whatever recommendations the
    engine drains, the connected and the running workers, the aliases, the
    hosts, the thread total and the bandwidth are as before, no worker
    object appears or disappears, and every worker keeps its address, name,
    host, status, thread count, memory limit, resources and metrics. *)
Theorem transitions_leave_the_cluster (fuel : nat) (recs : Recs)
    (cm : ClientMsgs) (wm : WorkerMsgs) (s s' : SchedulerState)
    (r : option (ClientMsgs * WorkerMsgs)) :
  _transitions_loop fuel recs cm wm s = Ok (r, s') ->
  workers s' = workers s /\ running s' = running s /\
  aliases s' = aliases s /\ host_info s' = host_info s /\
  total_nthreads s' = total_nthreads s /\ bandwidth s' = bandwidth s /\
  forall w, (is_Some (worker_objs s' !! w) <-> is_Some (worker_objs s !! w)) /\
            worker_frame (worker_obj w s') = worker_frame (worker_obj w s).
Proof.
  intros Hrun.
  destruct (pres_run framed _ s s' r (framed__transitions_loop fuel recs cm wm) Hrun)
    as [Hc _].
  unfold cluster_frame in Hc. injection Hc as H1 H2 H3 H4 H5 H6 H7 H8.
  repeat (split; [assumption|]). intros w. apply worker_frame_obj. exact H7.
Qed.

(** The transitions create no task, and they never change the key, the run
    spec, the priority, the retries, the suspicious count, the restrictions,
    the actor flag, the prefix or the group of a task. *)
Theorem transitions_create_no_task (fuel : nat) (recs : Recs)
    (cm : ClientMsgs) (wm : WorkerMsgs) (s s' : SchedulerState)
    (r : option (ClientMsgs * WorkerMsgs)) :
  _transitions_loop fuel recs cm wm s = Ok (r, s') ->
  forall k t', tasks s' !! k = Some t' ->
    exists t, tasks s !! k = Some t /\
      ts_key t' = ts_key t /\ ts_run_spec t' = ts_run_spec t /\
      ts_priority t' = ts_priority t /\ ts_retries t' = ts_retries t /\
      ts_suspicious t' = ts_suspicious t /\
      ts_host_restrictions t' = ts_host_restrictions t /\
      ts_worker_restrictions t' = ts_worker_restrictions t /\
      ts_resource_restrictions t' = ts_resource_restrictions t /\
      ts_loose_restrictions t' = ts_loose_restrictions t /\
      ts_actor t' = ts_actor t /\ ts_prefix t' = ts_prefix t /\
      ts_group t' = ts_group t.
Proof.
  intros Hrun k t' Hk.
  destruct (pres_run framed _ s s' r (framed__transitions_loop fuel recs cm wm) Hrun)
    as [_ Ht].
  destruct (Ht k t' Hk) as (t & Hkt & E). exists t. split; [exact Hkt|].
  unfold task_frame in E. injection E as E1 E2 E3 E4 E5 E6 E7 E8 E9 E10 E11 E12.
  repeat split; assumption.
Qed.

(** A drain on the scenario: task [a] is sent to worker [w]. *)
Abbreviation drain_scenario :=
  (_transitions_loop 10 [("a", processing)] ∅ ∅) (only parsing).

Lemma transitions_leave_the_cluster_witness :
  returns drain_scenario (replica_scenario false) = true /\
  ts_state (task_obj "a" (after drain_scenario (replica_scenario false)))
  = processing /\
  workers (after drain_scenario (replica_scenario false))
  = workers (replica_scenario false).
Proof.
  assert (Hret : returns drain_scenario (replica_scenario false) = true)
    by (vm_compute; reflexivity).
  split; [exact Hret|]. split; [vm_compute; reflexivity|].
  destruct (returns_after _ _ Hret) as [r Hrun].
  apply (transitions_leave_the_cluster 10 [("a", processing)] ∅ ∅ _ _ r Hrun).
Defined.

Lemma transitions_create_no_task_witness :
  exists t, tasks (replica_scenario false) !! "a" = Some t /\
    ts_retries (task_obj "a" (after drain_scenario (replica_scenario false)))
    = ts_retries t.
Proof.
  assert (Hret : returns drain_scenario (replica_scenario false) = true)
    by (vm_compute; reflexivity).
  destruct (returns_after _ _ Hret) as [r Hrun].
  assert (Hk : tasks (after drain_scenario (replica_scenario false)) !! "a"
               = Some (task_obj "a" (after drain_scenario (replica_scenario false))))
    by (vm_compute; reflexivity).
  destruct (transitions_create_no_task 10 [("a", processing)] ∅ ∅ _ _ r Hrun
              "a" _ Hk) as (t & Ht & _ & _ & _ & Hr & _).
  exists t. split; [exact Ht|exact Hr].
Defined.

(** *** The replica invariant along a whole drain *)

Definition no_actors (s : SchedulerState) : Prop :=
  forall k t, tasks s !! k = Some t -> ts_actor t = false.

Lemma no_actors_framed (s s' : SchedulerState) :
  framed s s' -> no_actors s -> no_actors s'.
Proof.
  intros [_ Ht] Hn k t' Hk. destruct (Ht k t' Hk) as (t & Hkt & E).
  unfold task_frame in E. injection E as _ _ _ _ _ _ _ _ _ Ea _ _.
  rewrite Ea. apply (Hn k t Hkt).
Qed.

Lemma no_actors_never_gives_up (key : string) (finish : TaskStateName)
    (s : SchedulerState) :
  no_actors s -> ~ gives_up_on_actor key finish s.
Proof.
  intros Hn (ts & Hk & _ & Hw & _). unfold wanted_actor in Hw.
  rewrite (Hn key ts Hk) in Hw. discriminate.
Qed.

(** In a scheduler without actors, draining any recommendations keeps the
    replica maps consistent: if the invariant of [who_has] and [has_what]
    holds before [_transitions], it holds when the loop returns. *)
Theorem transitions_keep_replica_invariant (fuel : nat) (recs : Recs)
    (cm : ClientMsgs) (wm : WorkerMsgs) (s s' : SchedulerState)
    (r : option (ClientMsgs * WorkerMsgs)) :
  workers_are_objects s -> replica_invariant s -> no_actors s ->
  _transitions_loop fuel recs cm wm s = Ok (r, s') ->
  workers_are_objects s' /\ replica_invariant s' /\ no_actors s'.
Proof.
  revert recs cm wm s. induction fuel as [|n IH]; intros recs cm wm s Hwf Hinv Hn Hrun.
  - cbn [_transitions_loop] in Hrun.
    destruct (recs_popitem recs) as [[[k f] rest]|]; injection Hrun as _ <-; auto.
  - cbn [_transitions_loop] in Hrun.
    destruct (recs_popitem recs) as [[[k f] rest]|];
      [|injection Hrun as _ <-; auto].
    apply bind_Ok in Hrun as ([[nr nc] nw] & s1 & H1 & H2).
    pose proof (_transition_Inv k f no_kwargs s
                  (conj (conj Hwf Hinv) (no_actors_never_gives_up k f s Hn))) as HI.
    fold (_transition k f no_kwargs) in H1. rewrite H1 in HI.
    destruct HI as [Hwf1 Hinv1].
    pose proof (pres_run framed _ s s1 _ (framed__transition_rec 2 k f no_kwargs) H1)
      as Hfr.
    apply (IH _ _ _ s1 Hwf1 Hinv1 (no_actors_framed s s1 Hfr Hn) H2).
Qed.

(** The drain that releases task [a], held in memory by the worker [w]:
    the replica is removed, and the task, still wanted by its client, is
    computed again. *)
Abbreviation release_drain :=
  (_transitions_loop 10 [("a", released)] ∅ ∅) (only parsing).

Lemma transitions_keep_replica_invariant_witness :
  ts_who_has (task_obj "a" held_scenario) = {["w"]} /\
  "a" ∈ ws_has_what (worker_obj "w" held_scenario) /\
  ts_who_has (task_obj "a" (after release_drain held_scenario)) = ∅ /\
  ("a" ∉ ws_has_what (worker_obj "w" (after release_drain held_scenario))) /\
  replica_invariant (after release_drain held_scenario).
Proof.
  split; [apply (bool_decide_unpack _); vm_compute; exact I|].
  split; [apply (bool_decide_unpack _); vm_compute; exact I|].
  split; [apply (bool_decide_unpack _); vm_compute; exact I|].
  split; [apply (bool_decide_eq_false_1 _); vm_compute; reflexivity|].
  assert (Hret : returns release_drain held_scenario = true)
    by (vm_compute; reflexivity).
  destruct (returns_after _ _ Hret) as [r Hrun].
  destruct (transitions_keep_replica_invariant 10 [("a", released)] ∅ ∅
              held_scenario
              (after release_drain held_scenario) r) as (_ & H & _).
  - apply workers_are_objects_b_sound. vm_compute. reflexivity.
  - apply replica_invariant_b_sound. vm_compute. reflexivity.
  - intros k t Hk.
    assert (E : forallb (fun kt : string * TaskState => negb (ts_actor kt.2))
                  (map_to_list (tasks held_scenario)) = true)
      by (vm_compute; reflexivity).
    rewrite forallb_forall in E. specialize (E (k, t)).
    rewrite <- list_elem_of_In, elem_of_map_to_list in E.
    specialize (E Hk). cbn in E. destruct (ts_actor t); [discriminate|reflexivity].
  - exact Hrun.
  - exact H.
Defined.

(** *** [stimulus_task_erred] *)

(** The erred stimulus spends one retry of its task when the task is
    processing and has retries left, and nothing else: whenever it returns,
    every task still in the table has the retries it had, but for the task
    of the stimulus, which has one less if it was processing with a
    positive count. *)
Theorem stimulus_task_erred_retries (key : string) (worker : option string)
    (exception traceback : option string) (kw : Kwargs)
    (s s' : SchedulerState) (out : Out) :
  stimulus_task_erred key worker exception traceback kw s = Ok (out, s') ->
  forall k t', tasks s' !! k = Some t' ->
    exists t, tasks s !! k = Some t /\
      ts_retries t' =
        if bool_decide (k = key) && bool_decide (ts_state t = processing)
           && (0 <? ts_retries t)%Z
        then (ts_retries t - 1)%Z else ts_retries t.
Proof.
  intros Hrun k t' Hk. unfold stimulus_task_erred in Hrun.
  apply bind_Ok in Hrun as (ots & s0 & Hg & Hrun). unfold gets in Hg.
  injection Hg as E1 E2. subst ots s0.
  assert (Hsame : forall s1 o, _transition key o.1 o.2 s1 = Ok (out, s') ->
            exists t1, tasks s1 !! k = Some t1 /\ ts_retries t' = ts_retries t1).
  { intros s1 o H1.
    destruct (pres_run framed _ s1 s' out (framed__transition_rec 2 key o.1 o.2) H1)
      as [_ Ht].
    destruct (Ht k t' Hk) as (t1 & Hk1 & E). exists t1. split; [exact Hk1|].
    unfold task_frame in E. injection E as _ _ _ Er _ _ _ _ _ _ _ _. exact Er. }
  destruct (tasks s !! key) as [ts|] eqn:Hts.
  2:{ unfold ret in Hrun. injection Hrun as _ <-. exists t'. split; [exact Hk|].
      destruct (bool_decide_reflect (k = key)) as [->|]; [congruence|reflexivity]. }
  destruct (bool_decide_reflect (ts_state ts = processing)) as [Hp|Hp]; cbn [negb] in Hrun.
  2:{ unfold ret in Hrun. injection Hrun as _ <-. exists t'. split; [exact Hk|].
      destruct (bool_decide_reflect (k = key)) as [->|]; [|reflexivity].
      assert (t' = ts) as -> by congruence.
      rewrite bool_decide_eq_false_2 by exact Hp. reflexivity. }
  destruct (0 <? ts_retries ts)%Z eqn:Hpos.
  - apply bind_Ok in Hrun as (u & s1 & Hu & Hrun).
    unfold upd_task, modify in Hu. injection Hu as _ <-.
    destruct (Hsame _ (waiting, no_kwargs) Hrun) as (t1 & Hk1 & Er).
    cbn [tasks set_tasks] in Hk1.
    destruct (bool_decide_reflect (k = key)) as [->|Hne].
    + rewrite lookup_alter_eq, Hts in Hk1. injection Hk1 as <-.
      exists ts. split; [exact Hts|]. rewrite Er.
      rewrite bool_decide_eq_true_2 by exact Hp. rewrite Hpos. reflexivity.
    + rewrite lookup_alter_ne in Hk1 by congruence. exists t1. auto.
  - destruct (Hsame _ (erred, _) Hrun) as (t1 & Hk1 & Er).
    exists t1. split; [exact Hk1|]. rewrite Er.
    destruct (bool_decide_reflect (k = key)) as [->|Hne]; [|reflexivity].
    assert (t1 = ts) as -> by congruence.
    rewrite Hpos, andb_false_r. reflexivity.
Qed.

(** What the erred handler changes of a task is tracked through its state,
    exception and traceback. *)
Definition outcome_of (t : TaskState) : TaskStateName * option string * option string :=
  (ts_state t, ts_exception t, ts_traceback t).

(** The tasks of [s'] are those of [s], with the same outcomes. *)
Definition outcomes_kept (s s' : SchedulerState) : Prop :=
  forall k, outcome_of <$> tasks s' !! k = outcome_of <$> tasks s !! k.

Global Instance outcomes_kept_preorder : PreOrder outcomes_kept.
Proof.
  split.
  - intros s k. reflexivity.
  - intros s1 s2 s3 H1 H2 k. rewrite (H2 k). apply H1.
Qed.

Lemma outcomes_kept_upd_task (key : string) (f : TaskState -> TaskState)
    (s : SchedulerState) :
  (forall t, outcome_of (f t) = outcome_of t) ->
  outcomes_kept s (set_tasks (alter f key (tasks s)) s).
Proof.
  intros Hf k. cbn [tasks set_tasks].
  destruct (decide (k = key)) as [->|Hne].
  - rewrite lookup_alter_eq. destruct (tasks s !! key) as [t|]; cbn; [|reflexivity].
    f_equal. apply Hf.
  - rewrite lookup_alter_ne by congruence. reflexivity.
Qed.

Lemma outcomes_kept_other (s s' : SchedulerState) :
  tasks s' = tasks s -> outcomes_kept s s'.
Proof. intros Ht k. rewrite Ht. reflexivity. Qed.

Ltac outcome_prim :=
  first
    [ apply outcomes_kept_upd_task; intros ?; reflexivity
    | apply outcomes_kept_other; reflexivity ].

Ltac outcome_tac := repeat (pres_step outcome_prim).

(** The task [key] is in the table, with outcome [c]. *)
Definition outcome_at (key : string)
    (c : TaskStateName * option string * option string)
    (s : SchedulerState) : Prop :=
  outcome_of <$> tasks s !! key = Some c.

Lemma triple_same {A B} (key : string)
    (c : TaskStateName * option string * option string)
    (m : Sched A) (f : A -> Sched B) (Q : B -> SchedulerState -> Prop) :
  pres outcomes_kept m ->
  (forall a, triple True (outcome_at key c) (f a) Q) ->
  triple True (outcome_at key c) (bind m f) Q.
Proof.
  intros Hm Hf s Hs. unfold bind. specialize (Hm s).
  destruct (m s) as [[a s1]|e]; [|exact I].
  apply (Hf a s1). unfold outcome_at. rewrite (Hm key). exact Hs.
Qed.

Ltac tsame := apply triple_same; [solve [outcome_tac]|intros ?].

Lemma triple_upd_outcome {B} (key : string) (f : TaskState -> TaskState)
    (g : TaskStateName * option string * option string
         -> TaskStateName * option string * option string)
    (c : TaskStateName * option string * option string)
    (m : Sched B) (Q : B -> SchedulerState -> Prop) :
  (forall t, outcome_of (f t) = g (outcome_of t)) ->
  triple True (outcome_at key (g c)) m Q ->
  triple True (outcome_at key c) (upd_task key f ;; m) Q.
Proof.
  intros Hf Hm s Hs. unfold bind, upd_task, modify. apply Hm.
  unfold outcome_at in *. cbn [tasks set_tasks]. rewrite lookup_alter_eq.
  destruct (tasks s !! key) as [t|]; [|discriminate]. cbn in *.
  injection Hs as <-. f_equal. apply Hf.
Qed.

Lemma triple_set_state_outcome {B} (key : string) (v : TaskStateName)
    (c : TaskStateName * option string * option string)
    (m : Sched B) (Q : B -> SchedulerState -> Prop) :
  triple True (outcome_at key (v, c.1.2, c.2)) m Q ->
  triple True (outcome_at key c) (set_state key v ;; m) Q.
Proof.
  intros Hm s Hs. unfold bind.
  destruct (set_state_run key v s) as (s' & -> & Ht & _).
  apply Hm. unfold outcome_at in *. rewrite Ht, lookup_alter_eq.
  destruct (tasks s !! key) as [t|]; [|discriminate]. cbn in *.
  injection Hs as <-. reflexivity.
Qed.

Lemma triple_assoc {S A B C} (E : Prop) (P : S -> Prop) (m : M S A)
    (f : A -> M S B) (g : B -> M S C) (Q : C -> S -> Prop) :
  triple E P (bind m (fun a => bind (f a) g)) Q ->
  triple E P (bind (bind m f) g) Q.
Proof.
  intros H s Hs. specialize (H s Hs). unfold bind in *.
  destruct (m s) as [[a s1]|e]; exact H.
Qed.

Lemma triple_ret_bind {S A B} (E : Prop) (P : S -> Prop) (v : A)
    (f : A -> M S B) (Q : B -> S -> Prop) :
  triple E P (f v) Q -> triple E P (bind (ret v) f) Q.
Proof. intros H s Hs. apply (H s Hs). Qed.

(** An optional argument of the stimulus replaces what the task records. *)
Definition recorded (given old : option string) : option string :=
  match given with Some _ => given | None => old end.

Lemma triple_record_exception {B} (key : string) (given text : option string)
    (c : TaskStateName * option string * option string)
    (m : Sched B) (Q : B -> SchedulerState -> Prop) :
  triple True (outcome_at key (c.1.1, recorded given c.1.2, c.2)) m Q ->
  triple True (outcome_at key c)
    (when (is_Some_b given)
       (upd_task key (set_ts_exception given) ;;
        upd_task key (set_ts_exception_text text)) ;; m) Q.
Proof.
  intros Hm. destruct given as [x|]; cbn [is_Some_b when recorded] in *.
  - apply triple_assoc.
    apply (triple_upd_outcome key _ (fun c => (c.1.1, Some x, c.2)));
      [intros t; reflexivity|].
    tsame. exact Hm.
  - tsame. destruct c as [[st e] tb]. exact Hm.
Qed.

Lemma triple_record_traceback {B} (key : string) (given text : option string)
    (c : TaskStateName * option string * option string)
    (m : Sched B) (Q : B -> SchedulerState -> Prop) :
  triple True (outcome_at key (c.1.1, c.1.2, recorded given c.2)) m Q ->
  triple True (outcome_at key c)
    (when (is_Some_b given)
       (upd_task key (set_ts_traceback given) ;;
        upd_task key (set_ts_traceback_text text)) ;; m) Q.
Proof.
  intros Hm. destruct given as [x|]; cbn [is_Some_b when recorded] in *.
  - apply triple_assoc.
    apply (triple_upd_outcome key _ (fun c => (c.1.1, c.1.2, Some x)));
      [intros t; reflexivity|].
    tsame. exact Hm.
  - tsame. destruct c as [[st e] tb]. exact Hm.
Qed.

Lemma blamed_outcome (key : string) (st : TaskStateName)
    (e tb : option string) (s : SchedulerState) :
  outcome_at key (st, e, tb) s -> blamed (Some key) s = Ok (e, tb).
Proof.
  unfold outcome_at, blamed, task_obj. intros H.
  destruct (tasks s !! key) as [t|]; [|discriminate]. cbn in *.
  injection H as _ <- <-. reflexivity.
Qed.

Lemma transition_processing_erred_outcome (key : string) (kw : Kwargs)
    (ts : TaskState) :
  kw_cause kw = Some key ->
  triple True (fun s => tasks s !! key = Some ts)
    (transition_processing_erred key kw)
    (fun out s =>
       outcome_at key (erred, recorded (kw_exception kw) (ts_exception ts),
                       recorded (kw_traceback kw) (ts_traceback ts)) s /\
       out.1.2 = report_to (ts_who_wants ts)
                   (msg_task_erred key
                      (recorded (kw_exception kw) (ts_exception ts))
                      (recorded (kw_traceback kw) (ts_traceback ts))) ∅).
Proof.
  intros Hcause. unfold transition_processing_erred.
  eapply triple_bind; [apply triple_get_task|]. intros ts0; cbv beta.
  apply (triple_pre True _ (fun s => ts0 = ts /\ outcome_at key (outcome_of ts) s));
    [|intros s [H1 H2]; split; [congruence|]; unfold outcome_at; rewrite H1;
      reflexivity].
  apply (triple_pure True (ts0 = ts) (outcome_at key (outcome_of ts))). intros ->.
  tsame. tsame. tsame.
  apply triple_record_exception. apply triple_record_traceback.
  cbn [outcome_of fst snd]. rewrite Hcause.
  apply triple_assoc. tsame. apply triple_assoc. tsame. apply triple_ret_bind.
  tsame. tsame. tsame.
  apply triple_set_state_outcome. cbn [fst snd].
  eapply triple_bind; [apply triple_lift_res; intros; left; exact I|].
  intros [e' tb']; cbv beta.
  apply (triple_pre True _
           (fun s => Ok (recorded (kw_exception kw) (ts_exception ts),
                         recorded (kw_traceback kw) (ts_traceback ts))
                     = Ok (e', tb') /\
                     outcome_at key
                       (erred, recorded (kw_exception kw) (ts_exception ts),
                        recorded (kw_traceback kw) (ts_traceback ts)) s));
    [|intros s Hs; cbv beta in Hs; destruct Hs as [H1 H2];
      rewrite (blamed_outcome _ _ _ _ _ H1) in H2; split; [exact H2|exact H1]].
  apply triple_pure. intros [= <- <-].
  tsame.
  match goal with |- context [bool_decide ?P] => destruct (bool_decide P) end;
    [tsame|]; apply triple_ret'; intros s Hs; (split; [exact Hs|reflexivity]).
Qed.

Lemma finish_transition_outcome (key : string) (ts : TaskState)
    (start : TaskStateName) (out : Out)
    (c : TaskStateName * option string * option string) :
  triple True (outcome_at key c) (finish_transition key ts start out)
    (fun out' s => outcome_at key c s /\ out' = out).
Proof.
  unfold finish_transition. tsame. tsame. tsame. tsame. tsame.
  apply triple_ret'. intros s Hs. split; [exact Hs|reflexivity].
Qed.

(** A task that fails while processing, with no retry left, ends erred; it
    records the exception and the traceback of the stimulus, where given,
    and each client that wants the task is sent one [task-erred] message
    with the recorded exception and traceback.  No other client is sent
    anything. *)
Theorem stimulus_task_erred_outcome (key : string) (worker : option string)
    (exception traceback : option string) (kw : Kwargs) (ts : TaskState)
    (s s' : SchedulerState) (out : Out) :
  tasks s !! key = Some ts ->
  ts_state ts = processing ->
  (ts_retries ts <= 0)%Z ->
  stimulus_task_erred key worker exception traceback kw s = Ok (out, s') ->
  exists t', tasks s' !! key = Some t' /\
    ts_state t' = erred /\
    ts_exception t' = recorded exception (ts_exception ts) /\
    ts_traceback t' = recorded traceback (ts_traceback ts) /\
    forall c, out.1.2 !! c =
      if bool_decide (c ∈ ts_who_wants ts)
      then Some [msg_task_erred key (ts_exception t') (ts_traceback t')]
      else None.
Proof.
  intros Hts Hp Hr Hrun. unfold stimulus_task_erred, bind at 1, gets in Hrun.
  rewrite Hts in Hrun. rewrite bool_decide_eq_true_2 in Hrun by exact Hp.
  cbn [negb] in Hrun.
  replace (0 <? ts_retries ts)%Z with false in Hrun
    by (symmetry; apply Z.ltb_ge; exact Hr).
  set (kw' := Build_Kwargs _ _ _ _ _ _ _ _ _ _ _ _) in Hrun.
  assert (Ht : triple True (fun s => tasks s !! key = Some ts)
                 (_transition key erred kw')
                 (fun out s =>
                    outcome_at key (erred, recorded exception (ts_exception ts),
                                    recorded traceback (ts_traceback ts)) s /\
                    out.1.2 = report_to (ts_who_wants ts)
                      (msg_task_erred key
                         (recorded exception (ts_exception ts))
                         (recorded traceback (ts_traceback ts))) ∅)).
  { unfold _transition. cbn [_transition_rec].
    eapply triple_bind; [apply triple_gets|]. intros ots; cbv beta.
    apply (triple_pre True _ (fun s => ots = Some ts /\ tasks s !! key = Some ts));
      [|intros s0 [H1 H2]; split; [congruence|exact H1]].
    apply triple_pure. intros ->. rewrite Hp. cbn.
    eapply triple_bind;
      [apply (transition_processing_erred_outcome key kw' ts); reflexivity|].
    intros out1; cbv beta.
    apply (triple_pre True _
             (fun s0 => out1.1.2 = report_to (ts_who_wants ts)
                          (msg_task_erred key
                             (recorded exception (ts_exception ts))
                             (recorded traceback (ts_traceback ts))) ∅ /\
                        outcome_at key
                          (erred, recorded exception (ts_exception ts),
                           recorded traceback (ts_traceback ts)) s0));
      [|intros s0 [H1 H2]; split; [exact H2|exact H1]].
    apply triple_pure. intros Hout. tsame.
    eapply triple_post; [apply finish_transition_outcome|].
    intros out2 s0 [H1 ->]. split; [exact H1|exact Hout]. }
  specialize (Ht s Hts). rewrite Hrun in Ht. destruct Ht as [Hat Hout].
  unfold outcome_at in Hat. destruct (tasks s' !! key) as [t'|]; [|discriminate].
  cbn in Hat. injection Hat as Hst He Htb. exists t'.
  split; [reflexivity|]. split; [exact Hst|]. split; [exact He|].
  split; [exact Htb|]. intros c. rewrite Hout, He, Htb. apply report_to_lookup.
Qed.

(** The task [a] processing on the worker [w], wanted by the client [c]. *)
Abbreviation processing_scenario :=
  (after (_transition "a" processing no_kwargs) (replica_scenario false))
  (only parsing).

Abbreviation failure_of_a :=
  (stimulus_task_erred "a" (Some "w") (Some "boom") (Some "trace") no_kwargs)
  (only parsing).

Lemma stimulus_task_erred_retries_witness :
  let s := after (upd_task "a" (set_ts_retries 1%Z)) processing_scenario in
  exists t, tasks s !! "a" = Some t /\
    ts_retries (task_obj "a" (after failure_of_a s)) =
      if bool_decide ("a" = "a") && bool_decide (ts_state t = processing)
         && (0 <? ts_retries t)%Z
      then (ts_retries t - 1)%Z else ts_retries t.
Proof.
  cbv zeta.
  assert (Hret : returns failure_of_a
                   (after (upd_task "a" (set_ts_retries 1%Z)) processing_scenario)
                 = true)
    by (vm_compute; reflexivity).
  destruct (returns_after _ _ Hret) as [r Hrun].
  assert (Hk : tasks (after failure_of_a
                        (after (upd_task "a" (set_ts_retries 1%Z))
                           processing_scenario)) !! "a"
               = Some (task_obj "a"
                         (after failure_of_a
                            (after (upd_task "a" (set_ts_retries 1%Z))
                               processing_scenario))))
    by (vm_compute; reflexivity).
  apply (stimulus_task_erred_retries "a" (Some "w") (Some "boom") (Some "trace")
           no_kwargs _ _ r Hrun "a" _ Hk).
Defined.

Lemma stimulus_task_erred_outcome_witness :
  exists t', tasks (after failure_of_a processing_scenario) !! "a" = Some t' /\
    ts_state t' = erred /\
    ts_exception t' = Some "boom" /\
    ts_traceback t' = Some "trace".
Proof.
  assert (Hret : returns failure_of_a processing_scenario = true)
    by (vm_compute; reflexivity).
  destruct (returns_after _ _ Hret) as [r Hrun].
  assert (Hts : tasks processing_scenario !! "a"
                = Some (task_obj "a" processing_scenario))
    by (vm_compute; reflexivity).
  assert (Hp : ts_state (task_obj "a" processing_scenario) = processing)
    by (vm_compute; reflexivity).
  assert (Hr : (ts_retries (task_obj "a" processing_scenario) <=? 0)%Z = true)
    by (vm_compute; reflexivity).
  apply Z.leb_le in Hr.
  destruct (stimulus_task_erred_outcome "a" (Some "w") (Some "boom")
              (Some "trace") no_kwargs _ _ _ r Hts Hp Hr Hrun)
    as (t' & Hk & Hst & He & Htb & _).
  exists t'. repeat split; assumption.
Defined.

(** *** [check_idle_saturated] *)

(** Where the cluster has threads and the worker is not closed, the check
    leaves the worker idle or saturated but never both: a worker with a free
    thread is idle, a saturated worker has more tasks than threads, and the
    marks of the other workers stay as they were. *)
Theorem check_idle_saturated_exclusive (ws : string) (occ : Q)
    (s s' : SchedulerState) :
  total_nthreads s <> 0%Z ->
  ws_status (worker_obj ws s) <> Status_closed ->
  check_idle_saturated ws occ s = Ok (tt, s') ->
  ~ (ws ∈ idle s' /\ ws ∈ saturated s') /\
  ((len_map (ws_processing (worker_obj ws s)) < ws_nthreads (worker_obj ws s))%Z ->
   ws ∈ idle s') /\
  (ws ∈ saturated s' ->
   (ws_nthreads (worker_obj ws s) < len_map (ws_processing (worker_obj ws s)))%Z) /\
  forall w, w <> ws ->
    (w ∈ idle s' <-> w ∈ idle s) /\ (w ∈ saturated s' <-> w ∈ saturated s).
Proof.
  intros Ht Hc Hrun. unfold check_idle_saturated, bind, gets in Hrun.
  rewrite (bool_decide_eq_false_2 _ Ht), (bool_decide_eq_false_2 _ Hc) in Hrun.
  cbn [orb] in Hrun. unfold of_res in Hrun.
  destruct (py_div (total_occupancy s) (Zf (total_nthreads s))) as [avg|e];
    [|discriminate].
  set (w := worker_obj ws s) in *.
  destruct (len_map (ws_processing w) <? ws_nthreads w)%Z eqn:Hp; cbn [orb] in Hrun.
  - unfold modify in Hrun. injection Hrun as <-. cbn.
    repeat split; try set_solver; intros; lia.
  - apply Z.ltb_ge in Hp.
    match type of Hrun with context [if ?b then _ else _] => destruct b end.
    + unfold modify in Hrun. injection Hrun as <-. cbn.
      repeat split; try set_solver; intros; lia.
    + unfold modify in Hrun.
      destruct (ws_nthreads w <? len_map (ws_processing w))%Z eqn:Hq.
      * apply Z.ltb_lt in Hq.
        match type of Hrun with context [py_div ?a ?b] =>
          destruct (py_div a b) as [pending|e] end; [|discriminate].
        match type of Hrun with context [if ?b then _ else _] => destruct b end;
          injection Hrun as <-; cbn; repeat split; try set_solver; intros; lia.
      * apply Z.ltb_ge in Hq. injection Hrun as <-. cbn.
        repeat split; try set_solver; intros; lia.
Qed.

Lemma check_idle_saturated_exclusive_witness :
  ~ ("w" ∈ idle (after (check_idle_saturated "w" (-1)) processing_scenario) /\
     "w" ∈ saturated (after (check_idle_saturated "w" (-1)) processing_scenario)).
Proof.
  assert (Hret : returns (check_idle_saturated "w" (-1)) processing_scenario = true)
    by (vm_compute; reflexivity).
  destruct (returns_after _ _ Hret) as [[] Hrun].
  assert (Ht : (total_nthreads processing_scenario =? 0)%Z = false)
    by (vm_compute; reflexivity).
  apply Z.eqb_neq in Ht.
  assert (Hc : bool_decide (ws_status (worker_obj "w" processing_scenario)
                            = Status_closed) = false)
    by (vm_compute; reflexivity).
  apply bool_decide_eq_false_1 in Hc.
  apply (check_idle_saturated_exclusive "w" (-1) _ _ Ht Hc Hrun).
Defined.

(** *** [_remove_from_processing] *)

(** The load of a worker: its occupancy and the tasks it processes. *)
Definition load_of (w : WorkerState) : Q * gmap string Q :=
  (ws_occupancy w, ws_processing w).

(** The tasks, the total occupancy and the load of every worker are the
    same. *)
Definition load_kept (s s' : SchedulerState) : Prop :=
  tasks s' = tasks s /\ total_occupancy s' = total_occupancy s /\
  load_of <$> worker_objs s' = load_of <$> worker_objs s.

Global Instance load_kept_preorder : PreOrder load_kept.
Proof.
  split.
  - intros s. repeat split.
  - intros s1 s2 s3 (A1 & B1 & C1) (A2 & B2 & C2). repeat split; congruence.
Qed.

Lemma load_kept_upd_worker (w : string) (f : WorkerState -> WorkerState)
    (s : SchedulerState) :
  (forall x, load_of (f x) = load_of x) ->
  load_kept s (set_worker_objs (alter f w (worker_objs s)) s).
Proof.
  intros Hf. split; [reflexivity|]. split; [reflexivity|]. cbn.
  apply (fmap_alter_same load_of f w (worker_objs s) Hf).
Qed.

Lemma load_kept_other (s s' : SchedulerState) :
  tasks s' = tasks s -> total_occupancy s' = total_occupancy s ->
  worker_objs s' = worker_objs s -> load_kept s s'.
Proof. intros A B C. repeat split; congruence. Qed.

Ltac load_prim :=
  first
    [ apply load_kept_upd_worker; intros ?; reflexivity
    | apply load_kept_other; reflexivity ].

Ltac load_tac := repeat (pres_step load_prim).

Lemma load_kept_check_idle_saturated (ws : string) (occ : Q) :
  pres load_kept (check_idle_saturated ws occ).
Proof. load_tac. Qed.

Lemma load_kept_release_resources (key ws : string) :
  pres load_kept (release_resources key ws).
Proof. load_tac. Qed.

Lemma load_kept_obj (s s' : SchedulerState) (w : string) :
  load_kept s s' -> load_of (worker_obj w s') = load_of (worker_obj w s).
Proof.
  intros (_ & _ & H).
  assert (E : (load_of <$> worker_objs s') !! w = (load_of <$> worker_objs s) !! w)
    by (rewrite H; reflexivity).
  rewrite !lookup_fmap in E. unfold worker_obj.
  destruct (worker_objs s' !! w), (worker_objs s !! w); cbn in *;
    try discriminate; congruence.
Qed.

(** Taking a task off its worker: the task is no longer processing
    anywhere and the worker stops processing it.  The duration recorded for
    the task is subtracted from the worker's occupancy and from the total
    occupancy, each by a floating-point subtraction; a worker left with
    nothing to process has its occupancy set to zero instead, and the total
    loses what that occupancy was.  The load of the other workers is as it
    was.  Where the worker has left the cluster only the task changes. *)
Theorem _remove_from_processing_occupancy (key : string)
    (s s' : SchedulerState) (r : option string) :
  _remove_from_processing key s = Ok (r, s') ->
  ts_processing_on (task_obj key s') = None /\
  match r with
  | None => total_occupancy s' = total_occupancy s /\
            worker_objs s' = worker_objs s
  | Some w =>
      ts_processing_on (task_obj key s) = Some w /\
      ws_processing (worker_obj w s') = delete key (ws_processing (worker_obj w s)) /\
      (exists duration,
         ws_processing (worker_obj w s) !! key = Some duration /\
         if nonempty_map (ws_processing (worker_obj w s'))
         then total_occupancy s' = fsub (total_occupancy s) duration /\
              ws_occupancy (worker_obj w s')
              = fsub (ws_occupancy (worker_obj w s)) duration
         else total_occupancy s'
              = fsub (total_occupancy s) (ws_occupancy (worker_obj w s)) /\
              ws_occupancy (worker_obj w s') = 0%Q) /\
      (ws_processing (worker_obj w s') = ∅ -> ws_occupancy (worker_obj w s') = 0%Q) /\
      forall w', w' <> w -> load_of (worker_obj w' s') = load_of (worker_obj w' s)
  end.
Proof.
  intros Hrun. unfold _remove_from_processing in Hrun.
  apply bind_Ok in Hrun as (ts & s0 & Hg & Hrun). apply gets_Ok in Hg.
  injection Hg as -> ->.
  apply bind_Ok in Hrun as (u & s1 & Hu & Hrun). apply modify_Ok in Hu.
  injection Hu as -> ->.
  set (s1 := set_tasks _ s) in Hrun.
  assert (Hnone : ts_processing_on (task_obj key s1) = None).
  { unfold task_obj, s1. cbn. rewrite lookup_alter_eq.
    destruct (tasks s !! key); reflexivity. }
  destruct (ts_processing_on (task_obj key s)) as [w|] eqn:Hon;
    [|apply raise_Ok in Hrun; destruct Hrun].
  apply bind_Ok in Hrun as (wk & s0 & Hg & Hrun). apply gets_Ok in Hg.
  injection Hg as -> ->.
  match type of Hrun with context [bool_decide ?P] =>
    destruct (bool_decide P) end; cbn [negb] in Hrun.
  2:{ apply ret_Ok in Hrun. injection Hrun as -> ->.
      split; [exact Hnone|]. split; reflexivity. }
  apply bind_Ok in Hrun as (ws & s0 & Hg & Hrun). apply gets_Ok in Hg.
  injection Hg as -> ->.
  change (worker_obj w s1) with (worker_obj w s) in Hrun.
  destruct (ws_processing (worker_obj w s) !! key) as [duration|] eqn:Hd;
    [|apply raise_Ok in Hrun; destruct Hrun].
  assert (Hobj : exists x, worker_objs s !! w = Some x /\ worker_obj w s = x).
  { unfold worker_obj in *. destruct (worker_objs s !! w) as [x|]; [eauto|].
    cbn in Hd. rewrite lookup_empty in Hd. discriminate. }
  destruct Hobj as (x & Hx & Ex). rewrite Ex in *.
  apply bind_Ok in Hrun as (u & s2 & Hu & Hrun). apply modify_Ok in Hu.
  injection Hu as -> ->.
  apply bind_Ok in Hrun as (u & s3 & Hocc & Hrun).
  apply bind_Ok in Hrun as (u1 & s4 & Hc & Hrun).
  apply bind_Ok in Hrun as (u2 & s5 & Hr & Hrun).
  apply ret_Ok in Hrun. injection Hrun as -> ->.
  pose proof (pres_run load_kept _ _ _ _ (load_kept_check_idle_saturated w (-1)) Hc)
    as K1.
  pose proof (pres_run load_kept _ _ _ _ (load_kept_release_resources key w) Hr)
    as K2.
  assert (K : load_kept s3 s5) by (etransitivity; eassumption).
  clear K1 K2 Hc Hr.
  destruct K as (Kt & Ko & Kw).
  assert (Kobj : forall w', load_of (worker_obj w' s5) = load_of (worker_obj w' s3)).
  { intros w'. apply load_kept_obj. repeat split; assumption. }
  assert (H3 : tasks s3 = tasks s1 /\
               (forall w', w' <> w -> worker_obj w' s3 = worker_obj w' s) /\
               ws_processing (worker_obj w s3) = delete key (ws_processing x) /\
               (if nonempty_map (delete key (ws_processing x))
                then total_occupancy s3 = fsub (total_occupancy s) duration /\
                     ws_occupancy (worker_obj w s3) = fsub (ws_occupancy x) duration
                else total_occupancy s3 = fsub (total_occupancy s) (ws_occupancy x) /\
                     ws_occupancy (worker_obj w s3) = 0%Q) /\
               (delete key (ws_processing x) = ∅ ->
                ws_occupancy (worker_obj w s3) = 0%Q)).
  { destruct (nonempty_map (delete key (ws_processing x))) eqn:Hne;
      cbn [negb] in Hocc;
      apply bind_Ok in Hocc as (u3 & s6 & Hm & Hocc);
      apply modify_Ok in Hm; injection Hm as -> ->;
      apply modify_Ok in Hocc; injection Hocc as -> ->.
    - split; [reflexivity|]. split.
      { intros w' Hw'. unfold worker_obj. cbn.
        rewrite !lookup_alter_ne by congruence. reflexivity. }
      unfold worker_obj. cbn. rewrite !lookup_alter_eq, Hx. cbn.
      split; [reflexivity|]. split; [split; reflexivity|].
      intros He. rewrite He in Hne. discriminate.
    - split; [reflexivity|]. split.
      { intros w' Hw'. unfold worker_obj. cbn.
        rewrite !lookup_alter_ne by congruence. reflexivity. }
      unfold worker_obj. cbn. rewrite !lookup_alter_eq, Hx. cbn.
      split; [reflexivity|]. split; [split; reflexivity|]. reflexivity. }
  destruct H3 as (T3 & O3 & P3 & Q3 & Z3).
  split.
  { unfold task_obj in *. rewrite Kt, T3. exact Hnone. }
  split; [reflexivity|]. rewrite Ex.
  pose proof (Kobj w) as Kw0. unfold load_of in Kw0. injection Kw0 as Eo Ep.
  split; [rewrite Ep; exact P3|].
  split.
  { exists duration. split; [exact Hd|]. rewrite Ep, P3, Eo, Ko. exact Q3. }
  split; [intros He; rewrite Eo; apply Z3; rewrite <- P3, <- Ep; exact He|].
  intros w' Hw'. rewrite Kobj, (O3 w' Hw'). reflexivity.
Qed.

Lemma _remove_from_processing_occupancy_witness :
  ts_processing_on
    (task_obj "a" (after (_remove_from_processing "a") processing_scenario))
  = None.
Proof.
  assert (Hret : returns (_remove_from_processing "a") processing_scenario = true)
    by (vm_compute; reflexivity).
  destruct (returns_after _ _ Hret) as [r Hrun].
  apply (proj1 (_remove_from_processing_occupancy "a" _ _ r Hrun)).
Defined.

(** *** [_client_releases_keys] *)

Lemma recs_get_set (r : Recs) (key k : string) (v : TaskStateName) :
  recs_get (recs_set r key v) k
  = if bool_decide (k = key) then Some v else recs_get r k.
Proof.
  unfold recs_get. induction r as [|[k0 x] r IH]; cbn.
  - destruct (bool_decide_reflect (key = k)), (bool_decide_reflect (k = key));
      try congruence; reflexivity.
  - destruct (bool_decide_reflect (k0 = key)) as [->|Hne]; cbn.
    + destruct (bool_decide_reflect (key = k)), (bool_decide_reflect (k = key));
        try congruence; reflexivity.
    + destruct (bool_decide_reflect (k0 = k)) as [->|Hne'].
      * rewrite bool_decide_eq_false_2 by congruence. reflexivity.
      * exact IH.
Qed.

(** The clients and the tasks agree on who wants what. *)
Definition wants_consistent (s : SchedulerState) : Prop :=
  forall k t c, tasks s !! k = Some t ->
    (c ∈ ts_who_wants t <-> k ∈ cs_wants_what (client_obj c s)).

(** What the release of the keys [l] by the client [cs] makes of [s]. *)
Definition released_keys (cs : string) (l : list string)
    (recs recs' : Recs) (s s' : SchedulerState) : Prop :=
  (forall c, c <> cs -> client_obj c s' = client_obj c s) /\
  (forall k, k ∈ cs_wants_what (client_obj cs s') <->
             k ∈ cs_wants_what (client_obj cs s) /\
             ~ (k ∈ l /\ is_Some (tasks s !! k))) /\
  (forall k, is_Some (tasks s' !! k) <-> is_Some (tasks s !! k)) /\
  (forall k t t', tasks s !! k = Some t -> tasks s' !! k = Some t' ->
     forall c, c ∈ ts_who_wants t' <->
               c ∈ ts_who_wants t /\
               ~ (c = cs /\ k ∈ l /\ k ∈ cs_wants_what (client_obj cs s))) /\
  (forall k v, recs_get recs' k = Some v ->
     recs_get recs k = Some v \/ (k ∈ l /\ (v = forgotten \/ v = released))).

Lemma released_keys_nil (cs : string) (recs : Recs) (s : SchedulerState) :
  released_keys cs [] recs recs s s.
Proof.
  split; [reflexivity|]. split.
  { intros k. split; [|tauto]. intros Hk. split; [exact Hk|].
    intros [Hn _]. apply elem_of_nil in Hn. exact Hn. }
  split; [reflexivity|]. split.
  { intros k t t' Ht Ht' c. assert (t' = t) as -> by congruence.
    split; [|tauto]. intros Hc. split; [exact Hc|].
    intros (_ & Hn & _). apply elem_of_nil in Hn. exact Hn. }
  intros k v Hk. left. exact Hk.
Qed.

Lemma released_keys_cons (cs k0 : string) (l : list string)
    (r r1 r' : Recs) (s s1 s' : SchedulerState) :
  released_keys cs [k0] r r1 s s1 ->
  released_keys cs l r1 r' s1 s' ->
  released_keys cs (k0 :: l) r r' s s'.
Proof.
  intros (A1 & A2 & A3 & A4 & A5) (B1 & B2 & B3 & B4 & B5).
  split. { intros c Hc. rewrite (B1 c Hc). apply (A1 c Hc). }
  split.
  { intros k. rewrite (B2 k), (A2 k), (A3 k), !elem_of_cons, elem_of_nil.
    destruct (decide (k = k0)); tauto. }
  split. { intros k. rewrite (B3 k). apply A3. }
  split.
  { intros k t t' Ht Ht' c.
    assert (H1 : is_Some (tasks s1 !! k)) by (apply A3; eauto).
    destruct H1 as [t1 Ht1].
    rewrite (B4 k t1 t' Ht1 Ht' c), (A4 k t t1 Ht Ht1 c), (A2 k),
      !elem_of_cons, elem_of_nil.
    assert (Hs : is_Some (tasks s !! k)) by eauto.
    destruct (decide (k = k0)); tauto. }
  intros k v Hk. destruct (B5 k v Hk) as [H1|[Hl Hv]].
  - destruct (A5 k v H1) as [H0|[Hl Hv]]; [left; exact H0|].
    right. split; [|exact Hv]. apply list_elem_of_singleton in Hl.
    subst k. apply list_elem_of_here.
  - right. split; [|exact Hv]. apply list_elem_of_further, Hl.
Qed.

Lemma released_keys_miss (cs key : string) (recs : Recs) (s : SchedulerState) :
  ~ (is_Some (tasks s !! key) /\ key ∈ cs_wants_what (client_obj cs s)) ->
  released_keys cs [key] recs recs s s.
Proof.
  intros Hmiss. split; [reflexivity|]. split.
  { intros k. rewrite list_elem_of_singleton. split; [|tauto].
    intros Hk. split; [exact Hk|]. intros [-> Hs]. tauto. }
  split; [reflexivity|]. split.
  { intros k t t' Ht Ht' c. assert (t' = t) as -> by congruence.
    rewrite list_elem_of_singleton. split; [|tauto].
    intros Hc. split; [exact Hc|]. intros (_ & -> & Hw).
    apply Hmiss. split; [eauto|exact Hw]. }
  intros k v Hk. left. exact Hk.
Qed.

(** One turn of the loop of [_client_releases_keys]. *)
Definition release_key (cs : string) (recommendations : Recs) (key : string)
  : Sched Recs :=
  ots <- gets (fun s => tasks s !! key) ;;
  c <- gets (client_obj cs) ;;
  match ots with
  | Some ts =>
      if bool_decide (key ∈ cs_wants_what c)
      then
        upd_client cs (fun c => set_cs_wants_what (cs_wants_what c ∖ {[key]}) c) ;;
        who_wants <- of_res (set_remove cs (ts_who_wants ts)) ;;
        upd_task key (set_ts_who_wants who_wants) ;;
        if negb (nonempty_set who_wants)
        then
          if negb (nonempty_set (ts_dependents ts))
          then ret (recs_set recommendations key forgotten)
          else if negb (bool_decide (ts_state ts = erred))
                  && negb (nonempty_set (ts_waiters ts))
          then ret (recs_set recommendations key released)
          else ret recommendations
        else ret recommendations
      else ret recommendations
  | None => ret recommendations
  end.

Lemma _client_releases_keys_loop (keys : list string) (cs : string)
    (recommendations : Recs) :
  _client_releases_keys keys cs recommendations
  = for_fold keys recommendations (release_key cs).
Proof. reflexivity. Qed.

Lemma release_key_hit (cs key : string) (recs recs' : Recs) (ts : TaskState)
    (s : SchedulerState) :
  tasks s !! key = Some ts ->
  key ∈ cs_wants_what (client_obj cs s) ->
  recs' = recs \/ recs' = recs_set recs key forgotten
  \/ recs' = recs_set recs key released ->
  released_keys cs [key] recs recs' s
    (set_tasks
       (alter (set_ts_who_wants (ts_who_wants ts ∖ {[cs]})) key (tasks s))
       (set_clients
          (alter (fun c => set_cs_wants_what (cs_wants_what c ∖ {[key]}) c) cs
             (clients s)) s)).
Proof.
  intros Hts Hw Hrecs.
  assert (Hc : exists c, clients s !! cs = Some c).
  { unfold client_obj in Hw. destruct (clients s !! cs) as [c|]; [eauto|].
    cbn in Hw. apply not_elem_of_empty in Hw. destruct Hw. }
  destruct Hc as [c Hc].
  split.
  { intros c' Hne. unfold client_obj. cbn. rewrite lookup_alter_ne by congruence.
    reflexivity. }
  split.
  { intros k. unfold client_obj in *. cbn. rewrite lookup_alter_eq, Hc in *.
    cbn in *. rewrite list_elem_of_singleton, elem_of_difference, elem_of_singleton.
    split.
    - intros [H1 H2]. split; [exact H1|]. intros [-> _]. apply H2. reflexivity.
    - intros [H1 H2]. split; [exact H1|]. intros ->. apply H2. split; [reflexivity|].
      rewrite Hts. eauto. }
  split.
  { intros k. cbn. destruct (decide (k = key)) as [->|Hne].
    - rewrite lookup_alter_eq, Hts. cbn. split; eauto.
    - rewrite lookup_alter_ne by congruence. reflexivity. }
  split.
  { intros k t t' Ht Ht' c'. cbn in Ht'. rewrite list_elem_of_singleton.
    destruct (decide (k = key)) as [->|Hne].
    - rewrite lookup_alter_eq, Hts in Ht'. cbn in Ht'. injection Ht' as <-.
      assert (t = ts) as -> by congruence. cbn.
      rewrite elem_of_difference, elem_of_singleton. split.
      + intros [H1 H2]. split; [exact H1|]. intros (-> & _). apply H2. reflexivity.
      + intros [H1 H2]. split; [exact H1|]. intros ->. apply H2. auto.
    - rewrite lookup_alter_ne in Ht' by congruence.
      assert (t' = t) as -> by congruence. split; [|tauto].
      intros H1. split; [exact H1|]. intros (_ & -> & _). congruence. }
  intros k v Hk. rewrite list_elem_of_singleton.
  destruct Hrecs as [->|[->| ->]]; [left; exact Hk| |];
    rewrite recs_get_set in Hk;
    (destruct (bool_decide_reflect (k = key)) as [->|Hne];
     [injection Hk as <-; right; auto|left; exact Hk]).
Qed.

Lemma release_key_run (cs key : string) (recs recs' : Recs)
    (s s' : SchedulerState) :
  release_key cs recs key s = Ok (recs', s') ->
  released_keys cs [key] recs recs' s s'.
Proof.
  intros Hrun. unfold release_key in Hrun.
  apply bind_Ok in Hrun as (ots & s0 & Hg & Hrun). apply gets_Ok in Hg.
  injection Hg as -> ->.
  apply bind_Ok in Hrun as (c & s0 & Hg & Hrun). apply gets_Ok in Hg.
  injection Hg as -> ->.
  destruct (tasks s !! key) as [ts|] eqn:Hts.
  2:{ apply ret_Ok in Hrun. injection Hrun as -> ->. apply released_keys_miss.
      intros [[t Ht] _]. congruence. }
  destruct (bool_decide_reflect (key ∈ cs_wants_what (client_obj cs s))) as [Hw|Hw].
  2:{ apply ret_Ok in Hrun. injection Hrun as -> ->. apply released_keys_miss.
      tauto. }
  apply bind_Ok in Hrun as (u & s1 & Hu & Hrun). apply modify_Ok in Hu.
  injection Hu as -> ->.
  apply bind_Ok in Hrun as (ww & s1 & Hr & Hrun). apply of_res_Ok in Hr.
  destruct Hr as (ww' & Hr & E). injection E as -> ->.
  unfold set_remove in Hr.
  destruct (bool_decide (cs ∈ ts_who_wants ts)); [|discriminate].
  injection Hr as <-.
  apply bind_Ok in Hrun as (u1 & s1 & Hu & Hrun). apply modify_Ok in Hu.
  injection Hu as -> ->.
  assert (Hrecs : s' = set_tasks
       (alter (set_ts_who_wants (ts_who_wants ts ∖ {[cs]})) key (tasks s))
       (set_clients
          (alter (fun c => set_cs_wants_what (cs_wants_what c ∖ {[key]}) c) cs
             (clients s)) s) /\
     (recs' = recs \/ recs' = recs_set recs key forgotten
      \/ recs' = recs_set recs key released)).
  { repeat match type of Hrun with context [if ?b then _ else _] => destruct b end;
      apply ret_Ok in Hrun; injection Hrun as -> ->; (split; [reflexivity|]); auto. }
  destruct Hrecs as [-> Hrecs]. apply (release_key_hit cs key recs recs' ts s Hts Hw Hrecs).
Qed.

Lemma _client_releases_keys_run (keys : list string) (cs : string)
    (recs recs' : Recs) (s s' : SchedulerState) :
  _client_releases_keys keys cs recs s = Ok (recs', s') ->
  released_keys cs keys recs recs' s s'.
Proof.
  rewrite _client_releases_keys_loop. revert recs s.
  induction keys as [|k0 l IH]; intros recs s Hrun; cbn [for_fold] in Hrun.
  - apply ret_Ok in Hrun. injection Hrun as -> ->. apply released_keys_nil.
  - apply bind_Ok in Hrun as (r1 & s1 & H1 & Hrun).
    apply (released_keys_cons cs k0 l recs r1 recs' s s1 s').
    + apply release_key_run, H1.
    + apply IH, Hrun.
Qed.

(** A client that releases keys stops wanting every one of them that is a
    known task, and keeps wanting the others; the tasks stop listing the
    client accordingly, so that clients and tasks still agree on who wants
    what.  The release recommends nothing but [forgotten] or [released], and
    only for the keys named. *)
Theorem _client_releases_keys_consistent (keys : list string) (cs : string)
    (recs recs' : Recs) (s s' : SchedulerState) :
  wants_consistent s ->
  _client_releases_keys keys cs recs s = Ok (recs', s') ->
  wants_consistent s' /\
  (forall k, k ∈ keys -> is_Some (tasks s !! k) ->
     k ∉ cs_wants_what (client_obj cs s')) /\
  (forall k, k ∉ keys ->
     (k ∈ cs_wants_what (client_obj cs s') <-> k ∈ cs_wants_what (client_obj cs s))) /\
  (forall k v, recs_get recs' k = Some v ->
     recs_get recs k = Some v \/ (k ∈ keys /\ (v = forgotten \/ v = released))).
Proof.
  intros Hc Hrun.
  destruct (_client_releases_keys_run keys cs recs recs' s s' Hrun)
    as (A1 & A2 & A3 & A4 & A5).
  split.
  { intros k t' c Ht'.
    assert (Hs : is_Some (tasks s !! k)) by (apply A3; eauto).
    destruct Hs as [t Ht]. rewrite (A4 k t t' Ht Ht' c).
    specialize (Hc k t c Ht).
    destruct (decide (c = cs)) as [->|Hne].
    - rewrite (A2 k). assert (Hs : is_Some (tasks s !! k)) by eauto. tauto.
    - rewrite (A1 c Hne). tauto. }
  split. { intros k Hk Hs Hw. apply A2 in Hw. tauto. }
  split. { intros k Hk. rewrite (A2 k). tauto. }
  exact A5.
Qed.

(** The agreement of clients and tasks, as a test. *)
Definition wants_consistent_b (s : SchedulerState) : bool :=
  forallb (fun kt : string * TaskState =>
    forallb (fun c =>
      Bool.eqb (bool_decide (c ∈ ts_who_wants kt.2))
               (bool_decide (kt.1 ∈ cs_wants_what (client_obj c s))))
      (elements (ts_who_wants kt.2 ∪ dom (clients s))))
    (map_to_list (tasks s)).

Lemma wants_consistent_b_sound (s : SchedulerState) :
  wants_consistent_b s = true -> wants_consistent s.
Proof.
  unfold wants_consistent_b. rewrite forallb_forall. intros H k t c Hk.
  specialize (H (k, t)). rewrite <- list_elem_of_In, elem_of_map_to_list in H.
  specialize (H Hk). cbn in H. rewrite forallb_forall in H.
  destruct (decide (c ∈ ts_who_wants t ∪ dom (clients s))) as [Hin|Hout].
  - specialize (H c). rewrite <- list_elem_of_In, elem_of_elements in H.
    specialize (H Hin).
    destruct (bool_decide_reflect (c ∈ ts_who_wants t)),
      (bool_decide_reflect (k ∈ cs_wants_what (client_obj c s)));
      cbn in H; try discriminate; tauto.
  - apply not_elem_of_union in Hout as [H1 H2]. apply not_elem_of_dom in H2.
    unfold client_obj. rewrite H2. cbn. split; [tauto|].
    intros Hc. apply not_elem_of_empty in Hc. destruct Hc.
Qed.

Lemma _client_releases_keys_consistent_witness :
  wants_consistent
    (after (_client_releases_keys ["a"] "c" []) (replica_scenario false)) /\
  "a" ∉ cs_wants_what
          (client_obj "c"
             (after (_client_releases_keys ["a"] "c" []) (replica_scenario false))).
Proof.
  assert (Hret : returns (_client_releases_keys ["a"] "c" [])
                   (replica_scenario false) = true)
    by (vm_compute; reflexivity).
  destruct (returns_after _ _ Hret) as [r Hrun].
  assert (Hc : wants_consistent (replica_scenario false))
    by (apply wants_consistent_b_sound; vm_compute; reflexivity).
  assert (Hk : is_Some (tasks (replica_scenario false) !! "a"))
    by (apply (bool_decide_unpack _); vm_compute; exact I).
  destruct (_client_releases_keys_consistent ["a"] "c" [] r _ _ Hc Hrun)
    as (H1 & H2 & _).
  split; [exact H1|]. apply (H2 "a"); [apply list_elem_of_here|exact Hk].
Defined.

(** *** [set_duration_estimate] *)

Lemma get_task_duration_workers (key : string) (s s' : SchedulerState) (d : Q) :
  get_task_duration key s = Ok (d, s') ->
  worker_objs s' = worker_objs s /\ total_occupancy s' = total_occupancy s.
Proof.
  intros Hrun. unfold get_task_duration in Hrun.
  apply bind_Ok in Hrun as (ts & s0 & Hg & Hrun). apply gets_Ok in Hg.
  injection Hg as -> ->.
  apply bind_Ok in Hrun as (tp & s0 & Hg & Hrun). apply gets_Ok in Hg.
  injection Hg as -> ->.
  match type of Hrun with context [if ?b then _ else _] => destruct b end.
  - apply ret_Ok in Hrun. injection Hrun as _ ->. split; reflexivity.
  - apply bind_Ok in Hrun as (u & s1 & Hu & Hrun). apply modify_Ok in Hu.
    injection Hu as -> ->. apply gets_Ok in Hrun. injection Hrun as _ ->.
    split; reflexivity.
Qed.

(** The estimate of a task's duration is entered in the worker's
    [processing]; unless the task is long-running, the worker's occupancy
    and the total occupancy both gain, by a floating-point addition, the
    estimate less the entry it replaces.  For a long-running task neither
    changes.  The load of the other workers is as it was. *)
Theorem set_duration_estimate_occupancy (key ws : string)
    (s s' : SchedulerState) (d : Q) :
  is_Some (worker_objs s !! ws) ->
  set_duration_estimate key ws s = Ok (d, s') ->
  let w := worker_obj ws s in
  let w' := worker_obj ws s' in
  let old := default 0%Q (ws_processing w !! key) in
  ws_processing w' = <[key := d]> (ws_processing w) /\
  (if bool_decide (key ∈ ws_long_running w)
   then ws_occupancy w' = ws_occupancy w /\ total_occupancy s' = total_occupancy s
   else ws_occupancy w' = fadd (ws_occupancy w) (fsub d old) /\
        total_occupancy s' = fadd (total_occupancy s) (fsub d old)) /\
  forall v, v <> ws -> load_of (worker_obj v s') = load_of (worker_obj v s).
Proof.
  intros [x Hx] Hrun. cbv zeta. unfold set_duration_estimate in Hrun.
  apply bind_Ok in Hrun as (w0 & s0 & Hg & Hrun). apply gets_Ok in Hg.
  injection Hg as -> ->.
  apply bind_Ok in Hrun as (duration & s1 & Hd & Hrun).
  apply get_task_duration_workers in Hd as [Kw Ko].
  apply bind_Ok in Hrun as (total & s2 & Ht & Hrun).
  assert (s2 = s1) as ->.
  { match type of Ht with context [if ?b then _ else _] => destruct b end.
    - apply ret_Ok in Ht. injection Ht as _ ->. reflexivity.
    - apply bind_Ok in Ht as (c & s3 & Hc & Ht). apply lift_res_Ok in Hc.
      destruct Hc as (c' & _ & E). injection E as -> ->.
      apply ret_Ok in Ht. injection Ht as _ ->. reflexivity. }
  clear Ht.
  apply bind_Ok in Hrun as (w1 & s0 & Hg & Hrun). apply gets_Ok in Hg.
  injection Hg as -> ->.
  apply bind_Ok in Hrun as (u & s2 & Hu & Hrun). apply modify_Ok in Hu.
  injection Hu as -> ->.
  apply bind_Ok in Hrun as (u & s3 & Hw & Hrun).
  apply ret_Ok in Hrun. injection Hrun as -> ->.
  assert (Ew : worker_obj ws s = x) by (unfold worker_obj; rewrite Hx; reflexivity).
  assert (Ew1 : worker_obj ws s1 = x)
    by (unfold worker_obj; rewrite Kw, Hx; reflexivity).
  rewrite Ew1 in Hw. rewrite Ew.
  destruct (bool_decide_reflect (key ∈ ws_long_running x)) as [Hl|Hl].
  - rewrite (bool_decide_eq_false_2 (key ∉ ws_long_running x)) in Hw by tauto.
    apply ret_Ok in Hw. injection Hw as _ ->.
    unfold worker_obj. cbn. rewrite lookup_alter_eq, Kw, Hx. cbn.
    split; [reflexivity|]. split; [split; [reflexivity|exact Ko]|].
    intros v Hv. rewrite lookup_alter_ne by congruence. reflexivity.
  - rewrite (bool_decide_eq_true_2 (key ∉ ws_long_running x)) in Hw by exact Hl.
    cbn [when] in Hw.
    apply bind_Ok in Hw as (u1 & s4 & Hm & Hw). apply modify_Ok in Hm.
    injection Hm as -> ->. apply modify_Ok in Hw. injection Hw as _ ->.
    unfold worker_obj. cbn. rewrite !lookup_alter_eq, Kw, Hx. cbn.
    split; [reflexivity|]. split; [split; [reflexivity|rewrite Ko; reflexivity]|].
    intros v Hv. rewrite !lookup_alter_ne by congruence. reflexivity.
Qed.

Lemma set_duration_estimate_occupancy_witness :
  total_occupancy (after (set_duration_estimate "a" "w") (replica_scenario false))
  = ws_occupancy
      (worker_obj "w"
         (after (set_duration_estimate "a" "w") (replica_scenario false))).
Proof.
  assert (Hret : returns (set_duration_estimate "a" "w") (replica_scenario false)
                 = true)
    by (vm_compute; reflexivity).
  destruct (returns_after _ _ Hret) as [d Hrun].
  assert (Hw : is_Some (worker_objs (replica_scenario false) !! "w"))
    by (apply (bool_decide_unpack _); vm_compute; exact I).
  pose proof (set_duration_estimate_occupancy "a" "w" _ _ d Hw Hrun) as H.
  cbv zeta in H. destruct H as (_ & H & _).
  match type of H with context [@bool_decide ?P ?D] =>
    assert (Hl : @bool_decide P D = false) by (vm_compute; reflexivity);
    rewrite Hl in H
  end.
  destruct H as [Ho Ht]. rewrite Ho, Ht.
  assert (E1 : ws_occupancy (worker_obj "w" (replica_scenario false)) = 0%Q)
    by (vm_compute; reflexivity).
  assert (E2 : total_occupancy (replica_scenario false) = 0%Q)
    by (vm_compute; reflexivity).
  rewrite E1, E2. reflexivity.
Defined.
